(* ===== verification/_CoqProject ===== *)
-Q . S2P
Prelude.v
Effects.v
Externals.v
Base64.v
Samples.v
AuthData.v
Hash.v
ClientData.v
Assertion.v
SamplesCbor.v
Cose.v
Attestation.v
Redis.v
RedisCalls.v
RedisSpec.v
RedisOps.v
Challenge.v
Credential.v
Conf.v
ConfMerge.v
Http.v
ChallengeHandler.v
VerifyHandler.v
VerifySound.v
VerifyComplete.v
Gate.v
Session.v
Vocabulary.v
System.v
AdminMain.v
AdminCommands.v
AdminSound.v
AdminCalls.v
AdminRegister.v
Enrolment.v
Revocation.v
Pool.v
PoolLife.v
CompatLog.v
