(* ===== verification/Prelude.v ===== *)
(** * nginx-auth-webauthn: verification development

    The repository is an nginx module that signs users in with WebAuthn
    (src/, C) and a command-line tool that registers their credentials
    (tools/admin/, C, over a shim of the nginx core in tools/admin/ngx_compat).
    This development models that code function by function and proves what the
    functions promise each other and, composed, the user.

    ** The program and how its parts interact

    - The challenge endpoint draws a 32-byte nonce, stores it in Redis with an
      expiry and answers with the options of navigator.credentials.get().
    - The verify endpoint takes the browser's assertion, consumes the challenge
      (GETDEL), reads the credential record (HGETALL), verifies the assertion
      against both, stores the new counter and answers with a JWT in a cookie.
    - The access gate verifies that JWT on every request and hands the claims
      to the upstream in headers and variables.
    - The command-line tool verifies a registration response and stores the
      credential, or lists, shows and revokes credentials.
    - Module and tool share the verification code (authdata, clientdata,
      assertion, cose, attestation, hash) and the Redis code (redis, challenge,
      credential), and otherwise meet at the Redis server only.

    ** How C becomes Gallina

    A function that calls nothing outside is a Gallina function.  Any other is
    a program [prog A] of Effects.v: a tree of calls (allocation, Redis, clock,
    random bytes, response, stdio) with the answers left open, and a leaf [UB]
    for undefined behaviour.  [wp p Q w] says that no run of [p] the
    environment allows is undefined and that [Q] holds at the end.  Three
    environments give three readings of one program: [held] (the multiset of
    resources not yet released: [balanced] is "everything is released on every
    path, no double free, no use after close"), [trace] (the calls made with
    their answers), and a Redis server (its keyspace before and after).  [wlp]
    is [wp] without definedness, so that buffer bounds are argued once.
    Pointers are [ptr A] (NULL or a value), strings [ngx_str_t = ptr bytes],
    machine integers [Z] with their wrap-around or truncation written out
    ([size_t], [uint64], [int64], ...); out-parameters are passed as addresses
    and returned.  A C buffer filled by ngx_sprintf is [pool_fill]: undefined
    when the content is longer than the allocation.

    [UB] is: a NULL pointer followed, a read or write outside a buffer, a
    resource released or used that is not held, a loop cut short.  Signed
    arithmetic wraps around (two's complement, as with -fwrapv), which ISO C
    does not promise; the code needs that at [int_shl6] of Base64.v and at
    [int64_neg] of Credential.v, both reported as defects, and in [session_exp]
    when jwt_ttl is not below 2^62.

    ** Files

    - Prelude.v (this file): bytes, integers, decimal numerals, tactics.
      Effects.v: programs, environments, the logics above.  Externals.v: the
      libraries as classes, with their laws in separate classes.  Samples.v,
      SamplesCbor.v: executable instances, for witnesses only.
    - Base64.v: ngx_encode/decode_base64url of ngx_compat.c.  Round trip,
      equality with a reference decoder over the RFC's alphabet, output sizes.
    - AuthData.v, Hash.v, ClientData.v, Assertion.v, Cose.v, Attestation.v:
      the files src/ngx_auth_webauthn_{authdata,hash,clientdata,assertion,cose,
      attestation}.c.  Each has an independent specification ([authdata_reads]
      from an encoder, [clientdata_accepts], [assertion_valid], [cose_key],
      [attestation_of] and [attestation_valid]) and the theorem that the return
      code decides it on every path: NGX_OK iff it holds, NGX_ERROR only for a
      failure outside or an unusable input.
    - Redis.v: src/ngx_auth_webauthn_redis.c; RedisCalls.v: the commands each
      operation sends; RedisSpec.v: the server as an interface [RedisServer]
      with [RedisLaws] (commands may be refused, replies lost, keys with a TTL
      may expire at any moment), and [MiniRedis], an instance; RedisOps.v: the
      effect of each operation on the keyspace.
    - Challenge.v, Credential.v: src/ngx_auth_webauthn_{challenge,credential}.c
      against every lawful server: one-shot consumption, expiry, the record a
      hash stands for ([cred_of]) and each operation as its effect on that
      record; put and get form a round trip.
    - Conf.v, ConfMerge.v: configuration of src/ngx_http_auth_webauthn_module.c
      (command table, directive parsers, create/merge_loc_conf, key loading,
      registration of handlers, phase and variables).  Every accepted
      configuration settles to one with no field unset and the enumerated
      values, endpoint and keys consistent; the lifetimes stay unbounded, and
      [settled_sizes] of Session.v says what the verify endpoint asks beyond.
    - Http.v: send_json, json_escape, b64url; escaping against a JSON lexer.
    - ChallengeHandler.v: rate_limit, challenge_content.
    - VerifyHandler.v: read_body, b64url_field, verify_done; VerifySound.v: a
      session only after every check passed; VerifyComplete.v: a refusal only
      for a reason the trace shows.
    - Gate.v: build_jwks, unauthorized, apply_headers, access_handler and the
      variables; Session.v: the cookie of verify_done at access_handler.
    - Vocabulary.v: the Redis commands of every entry point; System.v: any
      number of requests and tool runs interleaved call by call over one
      server, as a transition system with an invariant.
    - AdminMain.v, AdminCommands.v: tools/admin/*.c; AdminSound.v:
      memory-safe, balanced, exit codes; AdminCalls.v: commands sent; AdminRegister.v: what
      a registration stores; Enrolment.v: a registered credential signs in;
      Revocation.v: a revoked one no longer does, in any interleaving.
    - Pool.v, PoolLife.v: the memory pool of ngx_compat.c on a store of
      malloc'd blocks; CompatLog.v: the format rewriting of
      ngx_compat_log_error.

    Definitions carry the names of the C functions; a handler that is one long
    C function is cut at its blocks ([verify_request], [verify_redis],
    [mint_session], [register_response], [register_store], ...), which the
    definition with the C name composes.

    ** What the theorems show, by group

    - Sign-in: verify_done_correct (soundness), verify_done_complete (the
      converse), challenge_signs_in_once (no replay in any interleaving),
      minted_session_admitted (the session opens the gate until it expires),
      registered_signs_in (what was registered signs in), revoked_locked_out
      (what was revoked does not),
      access_handler_correct, gate_variables_correct.
    - Verification code: assertion_verify_correct, clientdata_verify_correct,
      authdata_*, check_counter_policy, cose_*, attestation_*.
    - Stores: challenge_*, credential_*, atoi64_exact.
    - Configuration: configuration_settles, merge_loc_conf_correct,
      inherited_key_wins.
    - Output: challenge_content_correct, json_escape_injection_free.
    - Tool: register_correct, admin_main_safe, admin_read_file_correct,
      admin_vocabulary, aaguid_text_roundtrip.
    - Shim: base64url_*, pool_lifecycle, pool_operations_correct,
      log_rewrite_correct, log_cuts_conversion.

    ** Assumptions

    Library behaviour enters through the law classes only: nxe-json
    ([NxeJsonLaws], sizes), nxe-jwx ([NxeJwxLaws] of Session.v, what it signs
    it verifies, on flat claims objects), OpenSSL ([OpenSSLLaws],
    [OpenSSLKeysLaws]), libcbor ([CborLaws], sizes), getopt_long
    ([GetoptLaws]), the nginx core ([NginxBase64Laws], [NginxHttpLaws],
    [NginxConfLaws]; [OpenSSLPemLaws] at configuration time) and Redis
    ([RedisLaws]).  Every class has an instance in the development.  [fits] bounds the strings that the configuration,
    the command line and the request supply by 2^32 bytes, and the clock is
    between 0 and 2^40; under these no length computation of the code wraps.

    ** Bounds and fuel

    - [READ_FUEL] is 25.  The reading loop of the tool takes a turn per fread;
      a turn that does not end the loop reads at least one byte and the loop
      stops at 16 MiB; [turns n] allows 2^n turns without unary numbers, and
      running out of them is [UB], which admin_read_file_correct excludes.
    - A walk over a pool list has as many turns as there are blocks in the
      store ([walk_fuel]); the nodes of a list are distinct blocks, and
      pool_lifecycle shows that no walk is cut short.
    - The loops of the parsers, printers and the format rewriting recurse on
      the text or on a number of digits that bounds it.

    ** Not modelled

    - vfprintf, stdio, malloc, hiredis, OpenSSL, libcbor, getopt_long and the
      nginx core (event loop, request body reader, phases, variables): calls
      or parameters.  Blocking and timeouts of the Redis connection appear as
      lost replies.
    - nxe-json, nxe-jwx and nxe-phase: submodules that are not in the tree.
    - The nginx module descriptor and context tables, which hold only pointers
      to the functions modelled, and the include redirects of ngx_compat.
    - Logging text, except in the format rewriting and where a message is the
      only sign of a failure.
    - The unit tests (tests/), the nginx tests (t/), examples/ (Python,
      JavaScript, Docker) and the packaging. *)

From Stdlib Require Import ZArith Lia.
From Stdlib.Strings Require Import Byte String.
From stdpp Require Export base tactics list gmap strings.

#[global] Open Scope Z_scope.

(** ** Bytes: the C [u_char], and [ngx_str_t] contents *)

Abbreviation byte := Init.Byte.byte.
Abbreviation bytes := (list byte).

#[export] Instance byte_eq_dec : EqDecision byte := Byte.byte_eq_dec.
#[export] Program Instance byte_countable : Countable byte :=
  inj_countable Byte.to_N Byte.of_N _.
Next Obligation. apply Byte.of_to_N. Qed.

(** A C string literal as its bytes, without the terminating NUL. *)
Definition bs (s : string) : bytes := String.list_byte_of_string s.
Arguments bs s%_string : simpl never.

(** The value of an [u_char], and the truncating conversion to [u_char]. *)
Definition b2z (b : byte) : Z := Z.of_N (Byte.to_N b).
Definition z2b (z : Z) : byte :=
  match Byte.of_N (Z.to_N (z mod 256)) with Some b => b | None => Byte.x00 end.

Lemma b2z_range b : 0 <= b2z b < 256.
Proof.
  unfold b2z. pose proof (Byte.to_N_bounded b). lia.
Qed.

Lemma b2z_inj b1 b2 : b2z b1 = b2z b2 -> b1 = b2.
Proof.
  unfold b2z. intros H%N2Z.inj.
  pose proof (Byte.of_to_N b1). pose proof (Byte.of_to_N b2). congruence.
Qed.

Lemma b2z_z2b z : b2z (z2b z) = z mod 256.
Proof.
  unfold b2z, z2b. pose proof (Z.mod_pos_bound z 256 ltac:(lia)).
  destruct (Byte.of_N _) as [b|] eqn:E.
  - apply Byte.to_of_N in E. rewrite E. lia.
  - apply Byte.of_N_None_iff in E. lia.
Qed.

Lemma z2b_b2z b : z2b (b2z b) = b.
Proof.
  apply b2z_inj. rewrite b2z_z2b. apply Z.mod_small, b2z_range.
Qed.

#[export] Instance b2z_Inj : Inj (=) (=) b2z := b2z_inj.

(** Any fact about one byte is decided by its 256 values. *)
Ltac byte_cases b := destruct b; vm_compute; try done.

(** ** Machine integers, written on [Z] *)

Definition UINT32_MAX : Z := 2 ^ 32 - 1.
Definition INT32_MAX : Z := 2 ^ 31 - 1.
Definition INT32_MIN : Z := - 2 ^ 31.
Definition INT64_MAX : Z := 2 ^ 63 - 1.
Definition INT64_MIN : Z := - 2 ^ 63.
Definition UINT64_MAX : Z := 2 ^ 64 - 1.

(** Conversion to [uint32_t], [uint64_t] (= [size_t], [ngx_uint_t] on LP64)
    and the two's complement conversions to [int] and [int64_t]. *)
Definition uint32 (z : Z) : Z := z mod 2 ^ 32.
Definition uint64 (z : Z) : Z := z mod 2 ^ 64.
Definition size_t (z : Z) : Z := uint64 z.
Definition int32 (z : Z) : Z := (z + 2 ^ 31) mod 2 ^ 32 - 2 ^ 31.
Definition int64 (z : Z) : Z := (z + 2 ^ 63) mod 2 ^ 64 - 2 ^ 63.

Lemma size_t_small z : 0 <= z < 2 ^ 64 -> size_t z = z.
Proof. intros. apply Z.mod_small. lia. Qed.

Lemma int64_range z : INT64_MIN <= int64 z <= INT64_MAX.
Proof.
  unfold int64, INT64_MIN, INT64_MAX.
  pose proof (Z.mod_pos_bound (z + 2 ^ 63) (2 ^ 64) ltac:(lia)). lia.
Qed.

Lemma int64_small z : INT64_MIN <= z <= INT64_MAX -> int64 z = z.
Proof.
  unfold int64, INT64_MIN, INT64_MAX. intros.
  rewrite Z.mod_small; lia.
Qed.

Lemma int32_small z : INT32_MIN <= z <= INT32_MAX -> int32 z = z.
Proof.
  unfold int32, INT32_MIN, INT32_MAX. intros.
  rewrite Z.mod_small; lia.
Qed.

(** ** Pointers and return codes

    A C pointer is an option: [NULL] is [None].  An [ngx_str_t] is the pointer
    to its bytes, with [len] the number of bytes; a zeroed [ngx_str_t] has a
    NULL [data] and [len] 0. *)

Abbreviation ptr A := (option A).
Abbreviation NULL := (None).
Abbreviation ngx_str_t := (option bytes).

Definition nullp {A} (p : ptr A) : bool :=
  match p with None => true | Some _ => false end.

Definition str_bytes (s : ngx_str_t) : bytes :=
  match s with Some b => b | None => [] end.
Definition str_len (s : ngx_str_t) : Z := Z.of_nat (length (str_bytes s)).

(** The [ngx_int_t] codes the component functions return. *)
Inductive ngx_rc := NGX_OK | NGX_ERROR | NGX_DECLINED.

#[export] Instance ngx_rc_eq_dec : EqDecision ngx_rc.
Proof. solve_decision. Defined.

(** Their values (ngx_compat.h), for the functions that also return HTTP codes. *)
Definition ngx_rc_Z (r : ngx_rc) : Z :=
  match r with NGX_OK => 0 | NGX_ERROR => -1 | NGX_DECLINED => -5 end.

Definition is_ok (r : ngx_rc) : bool :=
  match r with NGX_OK => true | _ => false end.

(** ** Length and slice lemmas over [Z] *)

Definition zlen {A} (l : list A) : Z := Z.of_nat (length l).

Lemma zlen_nonneg {A} (l : list A) : 0 <= zlen l.
Proof. unfold zlen. lia. Qed.

Lemma zlen_app {A} (l k : list A) : zlen (l ++ k) = zlen l + zlen k.
Proof. unfold zlen. rewrite length_app. lia. Qed.

Lemma zlen_cons {A} (x : A) l : zlen (x :: l) = 1 + zlen l.
Proof. unfold zlen. simpl length. lia. Qed.

Lemma zlen_nil {A} : zlen (@nil A) = 0.
Proof. done. Qed.

Lemma zlen_0 {A} (l : list A) : zlen l = 0 <-> l = [].
Proof. unfold zlen. destruct l; simpl; split; intros; done || lia. Qed.

Lemma str_len_zlen s : str_len s = zlen (str_bytes s).
Proof. done. Qed.

Lemma str_len_0 s : str_len s = 0 <-> str_bytes s = [].
Proof. apply zlen_0. Qed.

(** ** Comparison of bytes *)

(** [memcmp(a, b, n) == 0] on two buffers of at least [n] bytes. *)
Definition memeq (a b : bytes) (n : nat) : bool :=
  bool_decide (take n a = take n b).

(** Equality of two ngx_str_t contents: equal length, then memcmp. *)
Definition bytes_eqb (a b : bytes) : bool := bool_decide (a = b).

Lemma bytes_eqb_eq a b : bytes_eqb a b = true <-> a = b.
Proof. apply bool_decide_eq_true. Qed.

Lemma len_memeq a b :
  (length a =? length b)%nat && memeq a b (length a) = bytes_eqb a b.
Proof.
  unfold memeq, bytes_eqb.
  destruct (Nat.eqb_spec (length a) (length b)) as [E|E]; simpl.
  - rewrite !take_ge by lia. done.
  - symmetry. apply bool_decide_eq_false. intros ->. done.
Qed.

(** ** Decimal printing: [%d], [%lu], [%lld] of snprintf and [%T] of ngx_sprintf *)

Definition digit_char (d : Z) : byte := z2b (48 + d).
Definition is_digit (c : byte) : bool := (48 <=? b2z c) && (b2z c <=? 57).
Definition dec_val (l : bytes) : Z :=
  foldl (fun acc c => acc * 10 + (b2z c - 48)) 0 l.

Fixpoint dec_digits (fuel : nat) (n : Z) : bytes :=
  match fuel with
  | O => []
  | S f => if n <? 10 then [digit_char n]
           else dec_digits f (n / 10) ++ [digit_char (n mod 10)]
  end.

Definition dec_nonneg (n : Z) : bytes := dec_digits (S (Z.to_nat (Z.log2 n))) n.

Definition dec (z : Z) : bytes :=
  if z <? 0 then bs "-" ++ dec_nonneg (- z) else dec_nonneg z.

Lemma b2z_digit_char d : 0 <= d < 10 -> b2z (digit_char d) = 48 + d.
Proof. intros. unfold digit_char. rewrite b2z_z2b. apply Z.mod_small. lia. Qed.

Lemma is_digit_char d : 0 <= d < 10 -> is_digit (digit_char d) = true.
Proof.
  intros. unfold is_digit. rewrite b2z_digit_char by lia.
  apply andb_true_intro. split; apply Z.leb_le; lia.
Qed.

Lemma dec_val_snoc l c : dec_val (l ++ [c]) = dec_val l * 10 + (b2z c - 48).
Proof. unfold dec_val. by rewrite foldl_app. Qed.

Lemma dec_digits_spec fuel n :
  0 <= n < 10 ^ Z.of_nat fuel -> (0 < fuel)%nat ->
  dec_val (dec_digits fuel n) = n /\
  Forall (fun c => is_digit c = true) (dec_digits fuel n) /\
  dec_digits fuel n <> [].
Proof.
  revert n; induction fuel as [|f IH]; intros n Hn Hf; [lia|]. simpl.
  destruct (Z.ltb_spec n 10) as [Hlt|Hge].
  - split_and!; [|repeat constructor; apply is_digit_char; lia|done].
    change [digit_char n] with ([] ++ [digit_char n]).
    rewrite dec_val_snoc, b2z_digit_char by lia. unfold dec_val. simpl. lia.
  - rewrite Nat2Z.inj_succ, Z.pow_succ_r in Hn by lia.
    assert (0 < f)%nat as Hf' by (destruct f; simpl in Hn; lia).
    pose proof (Z.div_mod n 10 ltac:(lia)) as Hdm.
    pose proof (Z.mod_pos_bound n 10 ltac:(lia)) as Hmod.
    destruct (IH (n / 10)) as (Hv & Hd & Hne); [split; [apply Z.div_pos; lia|];
      apply Z.div_lt_upper_bound; lia|done|].
    split_and!.
    + rewrite dec_val_snoc, Hv, b2z_digit_char by lia. lia.
    + apply Forall_app. split; [done|]. repeat constructor. by apply is_digit_char.
    + by intros [_ ?]%app_eq_nil.
Qed.

Lemma dec_digits_length fuel n k :
  0 <= n < 10 ^ Z.of_nat k -> (0 < k)%nat -> (length (dec_digits fuel n) <= k)%nat.
Proof.
  revert n k; induction fuel as [|f IH]; intros n k Hn Hk; simpl; [lia|].
  destruct (Z.ltb_spec n 10) as [Hlt|Hge]; [simpl; lia|].
  destruct k as [|k]; [lia|].
  rewrite Nat2Z.inj_succ, Z.pow_succ_r in Hn by lia.
  assert (0 < k)%nat as Hk' by (destruct k; simpl in Hn; lia).
  rewrite length_app. simpl.
  enough (length (dec_digits f (n / 10)) <= k)%nat by lia.
  apply IH; [|done]. split; [apply Z.div_pos; lia|apply Z.div_lt_upper_bound; lia].
Qed.

Lemma dec_fuel_enough n : 0 <= n -> n < 10 ^ Z.of_nat (S (Z.to_nat (Z.log2 n))).
Proof.
  intros Hn. rewrite Nat2Z.inj_succ, Z2Nat.id by apply Z.log2_nonneg.
  destruct (Z.eq_dec n 0) as [->|]; [done|].
  pose proof (Z.log2_spec n ltac:(lia)) as [_ H].
  eapply Z.lt_le_trans; [exact H|].
  apply Z.pow_le_mono_l. lia.
Qed.

Lemma dec_nonneg_spec n :
  0 <= n ->
  dec_val (dec_nonneg n) = n /\
  Forall (fun c => is_digit c = true) (dec_nonneg n) /\ dec_nonneg n <> [].
Proof.
  intros. apply dec_digits_spec; [|lia]. split; [done|]. by apply dec_fuel_enough.
Qed.

(** A 64-bit value takes at most 20 characters, sign included. *)
Lemma dec_length z : - 2 ^ 63 <= z < 2 ^ 64 -> zlen (dec z) <= 20.
Proof.
  intros Hz. unfold dec, zlen. destruct (Z.ltb_spec z 0).
  - rewrite length_app. change (length (bs "-")) with 1%nat.
    enough (length (dec_nonneg (- z)) <= 19)%nat by lia.
    apply dec_digits_length; [|lia].
    assert (10 ^ Z.of_nat 19 = 10000000000000000000) as -> by reflexivity. lia.
  - enough (length (dec_nonneg z) <= 20)%nat by lia.
    apply dec_digits_length; [|lia].
    assert (10 ^ Z.of_nat 20 = 100000000000000000000) as -> by reflexivity. lia.
Qed.

Lemma dec_pos z : 0 < zlen (dec z).
Proof.
  unfold dec, zlen. destruct (Z.ltb_spec z 0).
  - rewrite length_app. change (length (bs "-")) with 1%nat. lia.
  - destruct (dec_nonneg_spec z ltac:(lia)) as (_ & _ & Hne).
    destruct (dec_nonneg z); simpl; [done|lia].
Qed.

(** ** Bit fields *)

Lemma testbit_small b n i : 0 <= b < 2 ^ n -> 0 <= n <= i -> Z.testbit b i = false.
Proof.
  intros Hb Hi. destruct (Z.eq_dec b 0) as [->|Hne]; [apply Z.bits_0|].
  apply Z.bits_above_log2; [lia|]. apply Z.log2_lt_pow2; [lia|].
  apply Z.lt_le_trans with (2 ^ n); [lia|]. apply Z.pow_le_mono_r; lia.
Qed.

Lemma lor_shiftl_add a b n :
  0 <= n -> 0 <= b < 2 ^ n -> Z.lor (Z.shiftl a n) b = a * 2 ^ n + b.
Proof.
  intros Hn Hb. rewrite <- Z.shiftl_mul_pow2 by done.
  assert (Z.land (Z.shiftl a n) b = 0) as Hl.
  { apply Z.bits_inj'; intros i Hi. rewrite Z.land_spec, Z.bits_0.
    destruct (Z.lt_ge_cases i n).
    - by rewrite Z.shiftl_spec_low by lia.
    - by rewrite (testbit_small b n i), andb_false_r by lia. }
  by rewrite <- Z.lxor_lor, Z.add_nocarry_lxor.
Qed.

(** [lia] with division and remainder by constants. *)
Ltac div_lia := Z.div_mod_to_equations; lia.
