(* ===== verification/Effects.v ===== *)
(** * Effects: C functions as programs over their calls to the outside

    The components are written as values of [prog A]: finite trees whose nodes
    are the calls the C code makes to nginx, hiredis, OpenSSL resource
    functions, the clock, stdio, and so on, and whose leaves are a returned
    value or undefined behaviour.  The answer of each call is left open, so a
    statement about [wp] holds for every behaviour of the surroundings that
    the chosen environment ([Env]) allows: failing allocations, lost replies,
    expiring keys. *)

From S2P Require Import Prelude.
From stdpp Require Export gmultiset.
#[global] Open Scope Z_scope.

(** ** What hiredis hands back *)

(** [redisReply], by its [type]: STRING, ARRAY, INTEGER, NIL, STATUS, ERROR;
    [ROther] stands for the RESP3 types the client never looks into. *)
#[warnings="-register-all"]
Inductive redisReply :=
  | RString (str : bytes)
  | RArray (element : list redisReply)
  | RInteger (integer : Z)
  | RNil
  | RStatus (str : bytes)
  | RError (str : bytes)
  | ROther (type : Z).

(** [struct timeval]. *)
Record timeval := { tv_sec : Z; tv_usec : Z }.

(** [redisConnect] returns NULL, a context with [err] set, or a usable one. *)
Inductive conn_result := ConnNull | ConnErr | ConnOk.

(** Objects the C code acquires and must release itself. *)
Inductive resource :=
  | REDIS_CTX | REDIS_REPLY
  | R_EVP_PKEY | R_EVP_MD_CTX | R_EVP_PKEY_CTX | R_PARAM_BLD | R_PARAM | R_BIGNUM
  | R_JSON | R_CBOR | R_FILE | R_BIO | R_POOL.

#[export] Instance resource_eq_dec : EqDecision resource.
Proof. solve_decision. Defined.

Definition resource_nat (r : resource) : nat :=
  match r with
  | REDIS_CTX => 0 | REDIS_REPLY => 1 | R_EVP_PKEY => 2 | R_EVP_MD_CTX => 3
  | R_EVP_PKEY_CTX => 4 | R_PARAM_BLD => 5 | R_PARAM => 6 | R_BIGNUM => 7
  | R_JSON => 8 | R_CBOR => 9 | R_FILE => 10
  | R_BIO => 11 | R_POOL => 12
  end.

Definition resource_of_nat (n : nat) : option resource :=
  match n with
  | 0 => Some REDIS_CTX | 1 => Some REDIS_REPLY | 2 => Some R_EVP_PKEY
  | 3 => Some R_EVP_MD_CTX | 4 => Some R_EVP_PKEY_CTX | 5 => Some R_PARAM_BLD
  | 6 => Some R_PARAM | 7 => Some R_BIGNUM | 8 => Some R_JSON | 9 => Some R_CBOR
  | 10 => Some R_FILE | 11 => Some R_BIO | 12 => Some R_POOL
  | _ => None
  end%nat.

#[export] Program Instance resource_countable : Countable resource :=
  inj_countable resource_nat resource_of_nat _.
Next Obligation. by intros []. Qed.

(** ** Calls and their answers *)

Inductive eff : Type :=
  (* pool allocation (ngx_palloc, ngx_pnalloc, ngx_pcalloc, ...): non-NULL? *)
  | ngx_pnalloc (size : Z)
  (* an allocating constructor of the library: non-NULL? *)
  | res_new (r : resource)
  (* a library call returned an object the caller now owns *)
  | res_hold (r : resource)
  | res_free (r : resource)
  (* a library call that fails only for want of resources: success? *)
  | lib_call (name : bytes)
  (* hiredis *)
  | redisConnect (host : bytes) (port : Z) (tv : option timeval)
  | redisSetTimeout (tv : timeval)
  | redisCommandArgv (argv : list bytes)
  | freeReplyObject
  | redisFree
  (* OpenSSL randomness: Some when RAND_bytes returns 1 *)
  | RAND_bytes (n : nat)
  | ngx_time
  | ngx_log_error (level : Z) (msg : bytes)
  (* nginx HTTP output *)
  | ngx_http_send_header (status content_length : Z) (content_type : bytes)
  | ngx_http_output_filter (body : bytes)
  | headers_out_push (key value : bytes)
  | headers_in_push (key value : bytes)
  | headers_in_hash (lowcase_key : bytes)
  | ngx_http_finalize_request (rc : Z)
  (* stdio of the command-line tool *)
  | fprint (stderr : bool) (msg : bytes)
  | fopen (path : bytes)
  | fread (size : Z)
  | ferror
  (* nginx at configuration time: files, and what the module registers *)
  | ngx_conf_full_name (path : bytes)
  | ngx_open_file (path : bytes)
  | ngx_fd_info
  | ngx_read_file (size : Z)
  | clcf_handler (name : bytes)
  | nxe_phase_add_handler (name : bytes)
  | ngx_http_add_variable (name : bytes)
  | var_handler (name : bytes) (data : Z).

Definition ans (e : eff) : Type :=
  match e with
  | ngx_pnalloc _ | res_new _ | lib_call _ | headers_out_push _ _ | headers_in_push _ _
  | fopen _ | ferror | ngx_open_file _ | nxe_phase_add_handler _ | ngx_http_add_variable _ => bool
  | redisConnect _ _ _ => conn_result
  | redisCommandArgv _ => option redisReply
  | RAND_bytes _ | ngx_conf_full_name _ | ngx_read_file _ => option bytes
  | ngx_fd_info => option Z
  | ngx_time | ngx_http_send_header _ _ _ | ngx_http_output_filter _ => Z
  | fread _ => bytes
  | res_hold _ | res_free _ | redisSetTimeout _ | freeReplyObject | redisFree
  | ngx_log_error _ _ | headers_in_hash _ | ngx_http_finalize_request _
  | fprint _ _ | clcf_handler _ | var_handler _ _ => unit
  end.

(** ** Programs *)

Inductive prog (A : Type) : Type :=
  | Ret (a : A)
  | UB
  | Do (e : eff) (k : ans e -> prog A).
Arguments Ret {A} a.
Arguments UB {A}.
Arguments Do {A} e k.

Fixpoint bind {A B} (p : prog A) (f : A -> prog B) : prog B :=
  match p with
  | Ret a => f a
  | UB => UB
  | Do e k => Do e (fun x => bind (k x) f)
  end.

Definition call (e : eff) : prog (ans e) := Do e Ret.

Declare Scope prog_scope.
Delimit Scope prog_scope with prog.
Notation "x <- p ;; q" := (bind p (fun x => q))
  (at level 20, p at level 99, q at level 200) : prog_scope.
Notation "' pat <- p ;; q" := (bind p (fun x => match x with pat => q end))
  (at level 20, pat pattern, p at level 99, q at level 200) : prog_scope.
Notation "p ;; q" := (bind p (fun _ => q))
  (at level 100, right associativity) : prog_scope.
#[global] Open Scope prog_scope.

(** Reading through a pointer: undefined on NULL. *)
Definition deref {A} (p : ptr A) : prog A :=
  match p with None => UB | Some a => Ret a end.

(** A value computed by code that may itself be undefined. *)
Definition defined {A} (o : option A) : prog A := deref o.

(** Allocate [size] bytes and fill them with [content]: NULL when the
    allocation fails, undefined when the content overruns the buffer. *)
Definition pool_fill (size : Z) (content : bytes) : prog (ptr bytes) :=
  ok <- call (ngx_pnalloc (size_t size)) ;;
  if ok then
    if zlen content <=? size_t size then Ret (Some content) else UB
  else Ret NULL.

(** ** Environments and weakest preconditions *)

(** An environment says, in a world [w], which calls are permitted
    ([env_pre]: a release of something not held is not) and which answers and
    next worlds a call may have ([env_step]). *)
Class Env (W : Type) := {
  env_pre : W -> eff -> Prop;
  env_step : W -> forall e : eff, ans e -> W -> Prop;
}.

Section wp.
Context {W : Type} `{Env W}.

(** [wp p Q w]: run from [w], whatever the environment answers, [p] makes
    only permitted calls, is never undefined, and returns with [Q]. *)
Fixpoint wp {A} (p : prog A) (Q : A -> W -> Prop) (w : W) : Prop :=
  match p with
  | Ret a => Q a w
  | UB => False
  | Do e k => env_pre w e /\ forall a w', env_step w e a w' -> wp (k a) Q w'
  end.

Lemma wp_bind {A B} (p : prog A) (f : A -> prog B) Q w :
  wp (bind p f) Q w <-> wp p (fun a w' => wp (f a) Q w') w.
Proof.
  revert w; induction p as [a| |e k IH]; intros w; simpl; [done|done|].
  split; intros [Hpre Hk]; (split; [done|]); intros a w' Hs; by apply IH, Hk.
Qed.

Lemma wp_mono {A} (p : prog A) (Q1 Q2 : A -> W -> Prop) w :
  (forall a w', Q1 a w' -> Q2 a w') -> wp p Q1 w -> wp p Q2 w.
Proof.
  intros HQ. revert w; induction p as [a| |e k IH]; intros w; simpl; [apply HQ|done|].
  intros [Hpre Hk]. split; [done|]. intros a w' Hs. by apply IH, Hk.
Qed.

Lemma wp_seq {A B} (p : prog A) (f : A -> prog B) Q1 Q w :
  wp p Q1 w -> (forall a w', Q1 a w' -> wp (f a) Q w') -> wp (bind p f) Q w.
Proof. intros Hp Hf. apply wp_bind. by eapply wp_mono; [apply Hf|]. Qed.

Lemma wp_and {A} (p : prog A) (Q1 Q2 : A -> W -> Prop) w :
  wp p Q1 w -> wp p Q2 w -> wp p (fun a w' => Q1 a w' /\ Q2 a w') w.
Proof.
  revert w; induction p as [a| |e k IH]; intros w; simpl; [done|done|].
  intros [Hpre H1] [_ H2]. split; [done|]. intros a w' Hs. eauto.
Qed.

Lemma wp_call e Q w :
  wp (call e) Q w <-> env_pre w e /\ forall a w', env_step w e a w' -> Q a w'.
Proof. done. Qed.

(** Running a program against a deterministic environment. *)
Fixpoint run {A} (h : W -> forall e : eff, ans e * W) (p : prog A) (w : W) :
    option (A * W) :=
  match p with
  | Ret a => Some (a, w)
  | UB => None
  | Do e k => let '(a, w') := h w e in run h (k a) w'
  end.

(** Every run of a program that satisfies [wp] ends with its postcondition. *)
Lemma run_wp {A} h (p : prog A) Q w :
  (forall w e, env_step w e (fst (h w e)) (snd (h w e))) ->
  wp p Q w -> exists a w', run h p w = Some (a, w') /\ Q a w'.
Proof.
  intros Hh. revert w; induction p as [a| |e k IH]; intros w; simpl; [eauto|done|].
  intros [_ Hk]. specialize (Hh w e). destruct (h w e) as [a w']. by apply IH, Hk.
Qed.
End wp.

(** ** Answers every environment gives

    Documented facts about single calls: RAND_bytes fills the whole buffer,
    the clock is a non-negative [time_t] within the next millennia, fread
    returns at most what was asked for, a file the configuration names is
    smaller than 2 GB, and a Redis string holds at most 512 MB ([bulk]).  Strings of the configuration and the request are taken
    to be shorter than 4 GB ([fits]). *)
Definition fits (b : bytes) : Prop := zlen b < 2 ^ 32.

(** A bulk string of the server. *)
Definition bulk (b : bytes) : Prop := zlen b <= 2 ^ 29.

Lemma bulk_fits b : bulk b -> fits b.
Proof. unfold bulk, fits. lia. Qed.

(** hiredis refuses arrays of 2^32 elements or more. *)
Fixpoint reply_ok (r : redisReply) : Prop :=
  match r with
  | RString s | RStatus s | RError s => bulk s
  | RArray l => zlen l < 2 ^ 32 /\
      (fix all (l : list redisReply) : Prop :=
         match l with [] => True | x :: t => reply_ok x /\ all t end) l
  | _ => True
  end.

Lemma reply_ok_array l : reply_ok (RArray l) -> Forall reply_ok l.
Proof. intros [_ H]. induction l as [|x l IH]; [done|]. destruct H as [Hx Hl]. constructor; auto. Qed.

Definition ans_ok (e : eff) : ans e -> Prop :=
  match e with
  | RAND_bytes n => fun a => forall b, a = Some b -> length b = n
  | ngx_time => fun a => 0 <= a < 2 ^ 40
  | fread size => fun a => zlen a <= size
  | ngx_fd_info => fun a => forall n, a = Some n -> 0 <= n < 2 ^ 31
  | ngx_read_file size => fun a => forall b, a = Some b -> zlen b <= size
  | redisCommandArgv _ => fun a => forall r, a = Some r -> reply_ok r
  | _ => fun _ => True
  end.

(** ** Environment 1: what the program holds

    The world is the multiset of objects acquired and not yet released.
    Releasing needs the object; a Redis command needs a live context. *)
Abbreviation held := (gmultiset resource).

Definition held_pre (w : held) (e : eff) : Prop :=
  match e with
  | res_free r => r ∈ w
  | freeReplyObject => REDIS_REPLY ∈ w
  | redisFree | redisCommandArgv _ | redisSetTimeout _ => REDIS_CTX ∈ w
  | _ => True
  end.

Definition held_next (w : held) (e : eff) : ans e -> held :=
  match e with
  | res_new r => fun a => if a then w ⊎ {[+ r +]} else w
  | res_hold r => fun _ => w ⊎ {[+ r +]}
  | res_free r => fun _ => w ∖ {[+ r +]}
  | redisConnect _ _ _ => fun a =>
      match a with ConnNull => w | _ => w ⊎ {[+ REDIS_CTX +]} end
  | redisCommandArgv _ => fun a =>
      match a with None => w | Some _ => w ⊎ {[+ REDIS_REPLY +]} end
  | fopen _ | ngx_open_file _ => fun a => if a then w ⊎ {[+ R_FILE +]} else w
  | freeReplyObject => fun _ => w ∖ {[+ REDIS_REPLY +]}
  | redisFree => fun _ => w ∖ {[+ REDIS_CTX +]}
  | _ => fun _ => w
  end.

#[export] Instance held_env : Env held := {
  env_pre := held_pre;
  env_step w e a w' := ans_ok e a /\ w' = held_next w e a;
}.

(** A program that, entered with at least [need] held, releases exactly what
    it acquires on every path, releases nothing twice, uses no Redis context
    it does not hold, and is never undefined. *)
Definition balanced {A} (need : held) (p : prog A) : Prop :=
  forall w, need ⊆ w -> wp p (fun _ w' => w' = w) w.

Lemma held_release (w : held) r : (w ⊎ {[+ r +]}) ∖ {[+ r +]} = w.
Proof. multiset_solver. Qed.

Lemma held_in (w : held) r : r ∈ w ⊎ {[+ r +]}.
Proof. multiset_solver. Qed.

Lemma balanced_bind {A B} need (p : prog A) (f : A -> prog B) :
  balanced need p -> (forall a, balanced need (f a)) -> balanced need (bind p f).
Proof.
  intros Hp Hf w Hw. eapply wp_seq; [by apply Hp|]. intros a w' ->. by apply Hf.
Qed.

Lemma balanced_mono {A} need need' (p : prog A) :
  need ⊆ need' -> balanced need p -> balanced need' p.
Proof. intros Hs Hp w Hw. apply Hp. multiset_solver. Qed.

Lemma balanced_ret {A} need (a : A) : balanced need (Ret a).
Proof. by intros w _. Qed.

Lemma balanced_call need e :
  (forall w, need ⊆ w -> held_pre w e) ->
  (forall w a, held_next w e a = w) -> balanced need (call e).
Proof.
  intros Hpre Hn w Hw. split; [by apply Hpre|]. intros a w' [_ ->]. apply Hn.
Qed.

(** Acquire, use, release. *)
Lemma wp_held_in {A} (p : prog A) Q (w w' : held) : w = w' -> wp p Q w' -> wp p Q w.
Proof. by intros ->. Qed.

(** ** Environment 2: the trace of calls and answers, with no restriction *)

Record event := Ev { ev_eff : eff; ev_ans : ans ev_eff }.
Abbreviation trace := (list event).

#[export] Instance trace_env : Env trace := {
  env_pre _ _ := True;
  env_step h e a h' := ans_ok e a /\ h' = h ++ [Ev e a];
}.

(** The Redis conversation in a trace. *)
Definition ev_cmd (ev : event) : option (list bytes * option redisReply) :=
  match ev with
  | Ev (redisCommandArgv argv) r => Some (argv, r)
  | _ => None
  end.
Definition cmds (h : trace) : list (list bytes * option redisReply) := omap ev_cmd h.

Lemma cmds_app h k : cmds (h ++ k) = cmds h ++ cmds k.
Proof. apply omap_app. Qed.

(** What the resource analysis shows of the returned value holds on traces,
    and a trace only grows. *)
Lemma held_to_trace {A} (p : prog A) (P : A -> Prop) (w : held) (h : trace) :
  wp p (fun a _ => P a) w -> wp p (fun a h' => P a /\ h `prefix_of` h') h.
Proof.
  revert w h. induction p as [a| |e k IH]; intros w h; simpl; [done|done|].
  intros [_ Hk]. split; [done|]. intros a h' [Ha ->].
  eapply wp_mono; [|by eapply IH, Hk]. intros b h' [HP Hpre]. split; [done|].
  etrans; [|exact Hpre]. by apply prefix_app_r.
Qed.

Lemma balanced_to_trace {A} need (p : prog A) (h : trace) :
  balanced need p -> wp p (fun _ h' => h `prefix_of` h') h.
Proof.
  intros Hp. eapply wp_mono; [|apply (held_to_trace p (fun _ => True) need)].
  - by intros a h' [_ ?].
  - by eapply wp_mono; [|apply Hp].
Qed.

(** The status a request was finalized with. *)
Definition ev_final (ev : event) : option Z :=
  match ev with Ev (ngx_http_finalize_request rc) _ => Some rc | _ => None end.
Definition finals (h : trace) : list Z := omap ev_final h.

Lemma finals_app h k : finals (h ++ k) = finals h ++ finals k.
Proof. apply omap_app. Qed.

(** The surroundings failed: an allocation, a connection, a lost or refused
    command, the random generator. *)
Definition ev_failed (ev : event) : bool :=
  match ev with
  | Ev (ngx_pnalloc _) ok => negb ok
  | Ev (res_new _) ok => negb ok
  | Ev (lib_call _) ok => negb ok
  | Ev (headers_out_push _ _) ok => negb ok
  | Ev (headers_in_push _ _) ok => negb ok
  | Ev (redisConnect _ _ _) ConnOk => false
  | Ev (redisConnect _ _ _) _ => true
  | Ev (redisCommandArgv _) None => true
  | Ev (redisCommandArgv _) (Some (RError _)) => true
  | Ev (RAND_bytes _) None => true
  | _ => false
  end.

Definition env_failed (h : trace) : Prop := exists ev, ev ∈ h /\ ev_failed ev = true.

Lemma env_failed_last h ev : ev_failed ev = true -> env_failed (h ++ [ev]).
Proof. intros He. exists ev. split; [set_solver|done]. Qed.

Lemma env_failed_app h k : env_failed h \/ env_failed k -> env_failed (h ++ k).
Proof. intros [(e & Hin & He)|(e & Hin & He)]; exists e; split; set_solver. Qed.

Create HintDb env discriminated.
#[export] Hint Resolve env_failed_last env_failed_app : env.

(** ** Symbolic execution *)

Lemma wp_held_call e Q (w : held) :
  held_pre w e -> (forall a, ans_ok e a -> Q a (held_next w e a)) -> wp (call e) Q w.
Proof. intros Hpre HQ. split; [done|]. by intros a w' [Ha ->]; apply HQ. Qed.

Lemma wp_trace_call e Q (h : trace) :
  (forall a, ans_ok e a -> Q a (h ++ [Ev e a])) -> wp (call e) Q h.
Proof. intros HQ. split; [done|]. by intros a w' [Ha ->]; apply HQ. Qed.

Lemma wp_balanced {A} need (p : prog A) (Q : A -> held -> Prop) w :
  balanced need p -> need ⊆ w -> (forall a, Q a w) -> wp p Q w.
Proof. intros Hp Hw HQ. eapply wp_mono; [|by apply Hp]. by intros a w' ->. Qed.

Create HintDb held discriminated.
#[export] Hint Resolve bulk_fits : held.
#[export] Hint Resolve held_in : held.
#[export] Hint Extern 4 (_ ∈ _) => multiset_solver : held.
#[export] Hint Extern 4 (_ ⊆ _) => multiset_solver : held.
Create Rewrite HintDb held_rw.
#[export] Hint Rewrite held_release : held_rw.

(** Case analysis on the test the program does next. *)
Ltac wp_case :=
  lazymatch goal with
  | |- wp ?p _ _ =>
      lazymatch p with
      | context [match ?x with _ => _ end] => destruct x eqn:?; simplify_eq; cbn beta iota
      end
  end.

(** One step of a program over the resources held. *)
Ltac held_step :=
  lazymatch goal with
  | |- wp (bind _ _) _ _ => apply wp_bind
  | |- wp (Ret _) _ _ => cbn [wp]
  | |- wp (call _) _ _ =>
      apply wp_held_call; [cbn [held_pre]; try done; try (solve [eauto with held])
                          |let a := fresh "a" in
                           intros a ?; cbn [held_next ans_ok ans] in *;
                           lazymatch type of a with
                           | bool => destruct a; cbn [negb orb andb]
                           | _ => idtac
                           end; autorewrite with held_rw]
  | |- wp (deref (Some _)) _ _ => cbn [deref wp]
  | |- wp _ _ _ => wp_case
  end.
Ltac held_steps := repeat held_step; try done.

(** ** Which calls a program can make

    Independent of the answers: used for the vocabulary of Redis commands and
    for where output can come from. *)
Fixpoint all_calls (P : eff -> Prop) {A} (p : prog A) : Prop :=
  match p with
  | Ret _ | UB => True
  | Do e k => P e /\ forall a, all_calls P (k a)
  end.

Lemma all_calls_bind P {A B} (p : prog A) (f : A -> prog B) :
  all_calls P p -> (forall a, all_calls P (f a)) -> all_calls P (bind p f).
Proof.
  intros Hp Hf. induction p as [a| |e k IH]; simpl in *; [apply Hf|done|].
  destruct Hp as [He Hk]. split; [done|]. intros a. by apply IH.
Qed.

Lemma all_calls_call (P : eff -> Prop) e : P e -> all_calls P (call e).
Proof. by intros. Qed.

Lemma all_calls_deref P {A} (x : ptr A) : all_calls P (deref x).
Proof. by destruct x. Qed.

Lemma all_calls_mono (P P' : eff -> Prop) {A} (p : prog A) :
  (forall e, P e -> P' e) -> all_calls P p -> all_calls P' p.
Proof. intros HP. induction p as [a| |e k IH]; simpl; [done|done|]. intros [? Hk]. eauto. Qed.

(** Every event a run adds to the trace is one of those calls. *)
Lemma wp_all_calls P {A} (p : prog A) Q (h : trace) :
  all_calls P p -> wp p Q h ->
  wp p (fun a h' => Q a h' /\ exists k, h' = h ++ k /\ Forall (fun ev => P (ev_eff ev)) k) h.
Proof.
  revert h. induction p as [a| |e k IH]; intros h Hp Hw; simpl in *; [|done|].
  { split; [done|]. exists []. by rewrite app_nil_r. }
  destruct Hp as [He Hk], Hw as [_ Hw]. split; [done|]. intros a h' Hs. pose proof Hs as [_ ->].
  eapply wp_mono; [|apply (IH a); [apply Hk|by apply Hw]].
  intros b h'' [HQ (l & -> & Hl)]. split; [done|]. exists (Ev e a :: l).
  rewrite <- app_assoc. split; [done|]. by constructor.
Qed.

Lemma all_calls_any {A} (p : prog A) : all_calls (fun _ => True) p.
Proof. by induction p; simpl. Qed.

(** What a trace shows of one step stays true of its extensions. *)
Lemma wp_step {A B} (p : prog A) (f : A -> prog B) Q1 Q (h : trace) :
  wp p Q1 h -> (forall a k, Q1 a (h ++ k) -> wp (f a) Q (h ++ k)) -> wp (bind p f) Q h.
Proof.
  intros Hp Hf. apply wp_bind. eapply wp_mono; [|apply (wp_all_calls (fun _ => True));
    [apply all_calls_any|exact Hp]].
  intros a h' (HQ & k & -> & _). by apply Hf.
Qed.

(** The same with what the resource analysis shows of the returned value. *)
Lemma trace_segment (P : eff -> Prop) {A} (p : prog A) (R : A -> Prop) (w : held) (h : trace) :
  all_calls P p -> wp p (fun a _ => R a) w ->
  wp p (fun a h' => R a /\ exists k, h' = h ++ k /\ Forall (fun ev => P (ev_eff ev)) k) h.
Proof.
  intros Hp Hw. apply (held_to_trace p R w h), (wp_all_calls P) in Hw; [|done].
  eapply wp_mono; [|exact Hw]. by intros a h' [[? _] ?].
Qed.

Lemma pool_fill_trace size content Q (h : trace) :
  zlen content <= size_t size ->
  Q NULL (h ++ [Ev (ngx_pnalloc (size_t size)) false]) ->
  Q (Some content) (h ++ [Ev (ngx_pnalloc (size_t size)) true]) ->
  wp (pool_fill size content) Q h.
Proof.
  intros Hs H0 H1. apply wp_bind, wp_trace_call. intros [] _; [|done].
  by destruct (Z.leb_spec (zlen content) (size_t size)); [|lia].
Qed.

(** Calls that acquire and release nothing. *)
Definition neutral (e : eff) : Prop :=
  match e with
  | res_new _ | res_hold _ | res_free _ | redisConnect _ _ _ | redisSetTimeout _
  | redisCommandArgv _ | freeReplyObject | redisFree | fopen _
  | ngx_open_file _ => False
  | _ => True
  end.

(** For a program of such calls, one analysis serves both environments. *)
Lemma neutral_balanced {A} (p : prog A) Q (h : trace) :
  all_calls neutral p -> wp p Q h -> balanced ∅ p.
Proof.
  intros Hp Hw w _. revert h Hp Hw. induction p as [a| |e k IH]; intros h Hp Hw; simpl in *; [done|done|].
  destruct Hp as [He Hk], Hw as [_ Hw]. split; [by destruct e|].
  intros a w' [Ha ->]. assert (held_next w e a = w) as -> by by destruct e.
  eapply IH; [apply Hk|]. by apply Hw.
Qed.

(** A handler that ends by finalizing its request: calls in [P], and then one
    ngx_http_finalize_request with a status in [F], and nothing after it. *)
Fixpoint finalizes (P : eff -> Prop) (F : Z -> Prop) (p : prog unit) : Prop :=
  match p with
  | Ret _ => False
  | UB => True
  | Do e k =>
      (exists rc, e = ngx_http_finalize_request rc /\ F rc /\ forall a, k a = Ret tt) \/
      (P e /\ forall a, finalizes P F (k a))
  end.

Lemma finalizes_bind P F {A} (p : prog A) (f : A -> prog unit) :
  all_calls P p -> (forall a, finalizes P F (f a)) -> finalizes P F (bind p f).
Proof.
  intros Hp Hf. induction p as [a| |e k IH]; simpl in *; [apply Hf|done|].
  destruct Hp as [He Hk]. right. split; [done|]. intros a. by apply IH.
Qed.

Lemma finalizes_call P (F : Z -> Prop) rc :
  F rc -> finalizes P F (call (ngx_http_finalize_request rc)).
Proof. intros HF. left. exists rc. split_and!; [done|done|]. by intros []. Qed.

Lemma wp_finalizes P F (p : prog unit) Q (h : trace) :
  finalizes P F p -> wp p Q h ->
  wp p (fun _ h' => exists k rc, h' = h ++ k ++ [Ev (ngx_http_finalize_request rc) tt] /\
          F rc /\ Forall (fun ev => P (ev_eff ev)) k) h.
Proof.
  revert h. induction p as [a| |e k IH]; intros h Hp Hw; simpl in *; [done|done|].
  destruct Hw as [_ Hw]. split; [done|]. intros a h' Hs. pose proof Hs as [_ ->].
  destruct Hp as [(rc & -> & HF & Hr)|[He Hk]].
  - rewrite Hr. exists [], rc. by destruct a.
  - eapply wp_mono; [|apply (IH a); [apply Hk|by apply Hw]].
    intros b h'' (l & rc & -> & HF & Hl). exists (Ev e a :: l), rc.
    rewrite <- app_assoc. split_and!; [done|done|by constructor].
Qed.

Lemma wp_finish P F (p : prog unit) (w : held) (h : trace) Q :
  finalizes P F p -> wp p (fun _ _ => True) w ->
  (forall k rc, F rc -> Forall (fun ev => P (ev_eff ev)) k ->
     Q tt (h ++ k ++ [Ev (ngx_http_finalize_request rc) tt])) ->
  wp p Q h.
Proof.
  intros Hp Hw HQ. apply (held_to_trace p (fun _ => True) w h), (wp_finalizes P F) in Hw; [|done].
  eapply wp_mono; [|exact Hw]. intros [] h' (k & rc & -> & HF & Hk). by apply HQ.
Qed.

(** Calls that neither talk to the server nor to the client. *)
Definition internal_call (e : eff) : bool :=
  match e with
  | ngx_pnalloc _ | res_new _ | res_hold _ | res_free _ | lib_call _ | redisConnect _ _ _
  | redisSetTimeout _ | freeReplyObject | redisFree | RAND_bytes _ | ngx_time
  | ngx_log_error _ _ => true
  | _ => false
  end.

Class Background (P : eff -> Prop) : Prop :=
  background : forall e, internal_call e = true -> P e.

Lemma all_calls_internal P `{!Background P} e :
  internal_call e = true -> all_calls P (call e).
Proof. intros He. by apply all_calls_call, background. Qed.

Lemma all_calls_pool_fill P `{!Background P} size content : all_calls P (pool_fill size content).
Proof.
  apply all_calls_bind; [by apply all_calls_internal|]. intros []; [|done].
  by destruct (_ <=? _).
Qed.

Lemma all_calls_fill P `{!Background P} {B} size content (f : ptr bytes -> prog B) :
  all_calls P (f NULL) -> all_calls P (f (Some content)) ->
  all_calls P (bind (pool_fill size content) f).
Proof.
  intros H0 H1. simpl. split; [by apply background|]. intros []; [|done].
  by destruct (_ <=? _).
Qed.

Lemma finalizes_fill P `{!Background P} F size content (f : ptr bytes -> prog unit) :
  finalizes P F (f NULL) -> finalizes P F (f (Some content)) ->
  finalizes P F (bind (pool_fill size content) f).
Proof.
  intros H0 H1. simpl. right. split; [by apply background|]. intros []; [|done].
  by destruct (_ <=? _).
Qed.

Create HintDb calls discriminated.
#[export] Hint Resolve all_calls_deref all_calls_pool_fill : calls.
#[export] Hint Extern 1 (Background _) => apply _ : calls.

(** One step of showing [all_calls]. *)
Ltac calls_step :=
  lazymatch goal with
  | |- all_calls _ (bind _ _) => apply all_calls_bind; [|intros ?]
  | |- all_calls _ (Ret _) => exact I
  | |- all_calls _ UB => exact I
  | |- all_calls _ (deref _) => apply all_calls_deref
  | |- all_calls _ (defined _) => apply all_calls_deref
  | |- all_calls _ (call _) => first [apply all_calls_internal; [apply _|reflexivity] | apply all_calls_call]
  | |- all_calls _ ?p =>
      first [ solve [eauto 3 with calls]
            | lazymatch p with context [match ?x with _ => _ end] => destruct x end ]
  end.
Ltac calls := repeat (cbn beta iota; cbn [deref bind]; calls_step).

(** ** At every moment

    [always I p h]: however the calls are answered, [I] holds of the trace
    before each of them and at the end. *)
Fixpoint always (I : trace -> Prop) {A} (p : prog A) (h : trace) : Prop :=
  I h /\
  match p with
  | Ret _ | UB => True
  | Do e k => forall a, always I (k a) (h ++ [Ev e a])
  end.

Lemma always_now I {A} (p : prog A) h : always I p h -> I h.
Proof. by destruct p; intros []. Qed.

(** Over calls in [P], an invariant that such calls keep. *)
Lemma always_bind P I {A B} (p : prog A) (f : A -> prog B) (h : trace) :
  all_calls P p -> (forall k, Forall (fun ev => P (ev_eff ev)) k -> I (h ++ k)) ->
  (forall a k, Forall (fun ev => P (ev_eff ev)) k -> always I (f a) (h ++ k)) ->
  always I (bind p f) h.
Proof.
  revert h. induction p as [a| |e k IH]; intros h Hp HI Hf; cbn [bind].
  - specialize (Hf a []). rewrite app_nil_r in Hf. by apply Hf.
  - split; [|done]. specialize (HI []). rewrite app_nil_r in HI. by apply HI.
  - destruct Hp as [He Hk]. split.
    + specialize (HI []). rewrite app_nil_r in HI. by apply HI.
    + intros a. apply IH; [apply Hk|..].
      * intros l Hl. rewrite <- app_assoc. apply HI. by constructor.
      * intros b l Hl. rewrite <- app_assoc. apply Hf. by constructor.
Qed.

Lemma always_calls P I {A} (p : prog A) (h : trace) :
  all_calls P p -> (forall k, Forall (fun ev => P (ev_eff ev)) k -> I (h ++ k)) -> always I p h.
Proof.
  revert h. induction p as [a| |e k IH]; intros h Hp HI; cbn [always];
    (split; [specialize (HI []); rewrite app_nil_r in HI; by apply HI|]); try done.
  destruct Hp as [He Hk]. intros a. apply IH; [apply Hk|].
  intros l Hl. rewrite <- app_assoc. apply HI. by constructor.
Qed.

Lemma always_assoc I {A B C} (p : prog A) (f : A -> prog B) (g : B -> prog C) h :
  always I (bind p (fun a => bind (f a) g)) h -> always I (bind (bind p f) g) h.
Proof.
  revert h. induction p as [a| |e k IH]; intros h; cbn [bind]; [done|done|].
  intros [Hh Hk]. split; [done|]. intros a. by apply IH.
Qed.

Lemma always_fill I {B} size content (f : ptr bytes -> prog B) h :
  I h -> (forall ok : bool, always I (f (if ok then Some content else NULL))
                       (h ++ [Ev (ngx_pnalloc (size_t size)) ok])) ->
  always I (bind (pool_fill size content) f) h.
Proof.
  intros Hh Hf. unfold pool_fill. cbn [bind call always ans]. split; [done|]. intros [].
  - specialize (Hf true). destruct (_ <=? _); [done|]. split; [by eapply always_now|done].
  - apply (Hf false).
Qed.

(** ** Partial postconditions

    [wlp p Q h] leaves undefinedness aside: with [wp] for the resources it
    gives [wp] for traces, so that buffer sizes are argued only once. *)
Fixpoint wlp {A} (p : prog A) (Q : A -> trace -> Prop) (h : trace) : Prop :=
  match p with
  | Ret a => Q a h
  | UB => True
  | Do e k => forall a, ans_ok e a -> wlp (k a) Q (h ++ [Ev e a])
  end.

Lemma wlp_bind {A B} (p : prog A) (f : A -> prog B) Q h :
  wlp p (fun a h' => wlp (f a) Q h') h -> wlp (bind p f) Q h.
Proof. revert h. induction p as [a| |e k IH]; intros h; simpl; [done|done|eauto]. Qed.

Lemma wlp_mono {A} (p : prog A) (Q1 Q2 : A -> trace -> Prop) h :
  (forall a h', Q1 a h' -> Q2 a h') -> wlp p Q1 h -> wlp p Q2 h.
Proof.
  intros HQ. revert h. induction p as [a| |e k IH]; intros h; simpl; [apply HQ|done|eauto].
Qed.

Lemma wlp_true {A} (p : prog A) (h : trace) : wlp p (fun _ _ => True) h.
Proof. revert h. induction p as [a| |e k IH]; intros h; simpl; auto. Qed.

Lemma wlp_seq {A B} (p : prog A) (f : A -> prog B) Q1 Q h :
  wlp p Q1 h -> (forall a h', Q1 a h' -> wlp (f a) Q h') -> wlp (bind p f) Q h.
Proof. intros Hp Hf. by eapply wlp_bind, wlp_mono; [apply Hf|]. Qed.

Lemma wlp_and {A} (p : prog A) (Q1 Q2 : A -> trace -> Prop) h :
  wlp p Q1 h -> wlp p Q2 h -> wlp p (fun a h' => Q1 a h' /\ Q2 a h') h.
Proof. revert h. induction p as [a| |e k IH]; intros h; simpl; eauto. Qed.

Lemma wlp_call e (Q : ans e -> trace -> Prop) (h : trace) :
  (forall a, ans_ok e a -> Q a (h ++ [Ev e a])) -> wlp (call e) Q h.
Proof. done. Qed.

Lemma wp_wlp {A} (p : prog A) Q (h : trace) : wp p Q h -> wlp p Q h.
Proof.
  revert h. induction p as [a| |e k IH]; intros h; simpl; [done|done|].
  intros [_ Hk] a Ha. by apply IH, Hk.
Qed.

Lemma wlp_wp {A} (p : prog A) (R : A -> held -> Prop) Q (w : held) (h : trace) :
  wp p R w -> wlp p Q h -> wp p Q h.
Proof.
  revert w h. induction p as [a| |e k IH]; intros w h; simpl; [done|done|].
  intros [_ Hk] Hl. split; [done|]. intros a h' [Ha ->]. eapply IH; [by apply Hk|]. by apply Hl.
Qed.

Lemma wlp_fill {B} size content (f : ptr bytes -> prog B) Q h :
  wlp (f NULL) Q (h ++ [Ev (ngx_pnalloc (size_t size)) false]) ->
  wlp (f (Some content)) Q (h ++ [Ev (ngx_pnalloc (size_t size)) true]) ->
  wlp (bind (pool_fill size content) f) Q h.
Proof.
  intros H0 H1 []; [|done]. cbn [bind]. by destruct (_ <=? _).
Qed.

(** The trace grows. *)
Lemma wlp_extends {A} (p : prog A) Q (h : trace) :
  wlp p Q h -> wlp p (fun a h' => Q a h' /\ exists k, h' = h ++ k) h.
Proof.
  revert h. induction p as [a| |e k IH]; intros h; simpl; [|done|].
  { intros HQ. split; [done|]. exists []. by rewrite app_nil_r. }
  intros Hk a Ha. eapply wlp_mono; [|by apply IH, Hk]. intros b h' [HQ [l ->]]. split; [done|].
  exists (Ev e a :: l). by rewrite <- app_assoc.
Qed.

Lemma wlp_step {A B} (p : prog A) (f : A -> prog B) Q1 Q (h : trace) :
  wlp p Q1 h -> (forall a k, Q1 a (h ++ k) -> wlp (f a) Q (h ++ k)) -> wlp (bind p f) Q h.
Proof.
  intros Hp Hf. eapply wlp_seq; [by apply wlp_extends|]. intros a h' [HQ [k ->]]. by apply Hf.
Qed.

Lemma wlp_forall {X A} (p : prog A) (Q : X -> A -> trace -> Prop) h :
  (forall x, wlp p (Q x) h) -> wlp p (fun a h' => forall x, Q x a h') h.
Proof. revert h. induction p as [a| |e k IH]; intros h; simpl; [done|done|]. eauto. Qed.

(** A program does not look at the trace before it. *)
Lemma wlp_frame {A} (p : prog A) Q (h0 h : trace) :
  wlp p Q h0 -> wlp p (fun a h' => exists k, h' = h ++ k /\ Q a (h0 ++ k)) h.
Proof.
  revert h0 h. induction p as [a| |e k IH]; intros h0 h; simpl; [|done|].
  { intros HQ. exists []. by rewrite !app_nil_r. }
  intros Hk a Ha. eapply wlp_mono; [|by eapply (IH a _ (h ++ [Ev e a])), Hk].
  intros b h' (l & -> & HQ). exists (Ev e a :: l). by rewrite <- !app_assoc in *.
Qed.

(** The calls of a program are the events it adds. *)
Lemma wlp_segment P {A} (p : prog A) Q (h : trace) :
  all_calls P p -> wlp p Q h ->
  wlp p (fun a h' => Q a h' /\ exists k, h' = h ++ k /\ Forall (fun ev => P (ev_eff ev)) k) h.
Proof.
  revert h. induction p as [a| |e k IH]; intros h Hp Hw; simpl in *; [|done|].
  { split; [done|]. exists []. by rewrite app_nil_r. }
  destruct Hp as [He Hk]. intros a Ha. eapply wlp_mono; [|apply (IH a); [apply Hk|by apply Hw]].
  intros b h' (HQ & l & -> & Hl). split; [done|]. exists (Ev e a :: l).
  rewrite <- app_assoc. split; [done|]. by constructor.
Qed.

Lemma wlp_calls P {A} (p : prog A) Q (h : trace) :
  all_calls P p -> wlp p Q h -> Forall (fun ev => P (ev_eff ev)) h ->
  wlp p (fun a h' => Q a h' /\ Forall (fun ev => P (ev_eff ev)) h') h.
Proof.
  intros Hp Hw Hh. eapply wlp_mono; [|by eapply wlp_segment].
  intros a h' (HQ & k & -> & Hk). split; [done|]. by apply Forall_app.
Qed.

(** ** Programs in two phases: calls in [P1], and from some point on in [P2] *)
Fixpoint phased (P1 P2 : eff -> Prop) {A} (p : prog A) : Prop :=
  all_calls P2 p \/
  match p with
  | Ret _ | UB => True
  | Do e k => P1 e /\ forall a, phased P1 P2 (k a)
  end.

Lemma phased_late P1 P2 {A} (p : prog A) : all_calls P2 p -> phased P1 P2 p.
Proof. destruct p; by left. Qed.

Lemma phased_first P1 P2 {A B} (p : prog A) (f : A -> prog B) :
  all_calls P1 p -> (forall a, phased P1 P2 (f a)) -> phased P1 P2 (bind p f).
Proof.
  intros Hp Hf. induction p as [a| |e k IH]; simpl in *; [apply Hf|by right|].
  destruct Hp as [He Hk]. right. split; [done|]. intros a. by apply IH.
Qed.

Lemma phased_last P1 P2 {A B} (p : prog A) (f : A -> prog B) :
  phased P1 P2 p -> (forall a, all_calls P2 (f a)) -> phased P1 P2 (bind p f).
Proof.
  intros Hp Hf. induction p as [a| |e k IH]; simpl in *; [by apply phased_late|by right|].
  destruct Hp as [[He Hk]|[He Hk]]; [left|right].
  - split; [done|]. intros a. by apply all_calls_bind.
  - split; [done|]. intros a. by apply IH.
Qed.

Lemma wlp_phased P1 P2 {A} (p : prog A) Q (h : trace) :
  phased P1 P2 p -> wlp p Q h ->
  wlp p (fun a h' => Q a h' /\ exists k1 k2, h' = h ++ k1 ++ k2 /\
    Forall (fun ev => P1 (ev_eff ev)) k1 /\ Forall (fun ev => P2 (ev_eff ev)) k2) h.
Proof.
  assert (forall (p : prog A) h, all_calls P2 p -> wlp p Q h ->
    wlp p (fun a h' => Q a h' /\ exists k1 k2, h' = h ++ k1 ++ k2 /\
      Forall (fun ev => P1 (ev_eff ev)) k1 /\ Forall (fun ev => P2 (ev_eff ev)) k2) h) as Hlate.
  { intros q h0 Hq Hw. eapply wlp_mono; [|by eapply wlp_segment].
    intros a h' (HQ & k & -> & Hk). split; [done|]. by exists [], k. }
  revert h. induction p as [a| |e k IH]; intros h Hp Hw; [|done|].
  { by apply Hlate. }
  destruct Hp as [Hp|[He Hk]]; [by apply Hlate|]. intros a Ha.
  eapply wlp_mono; [|eapply (IH a); [apply Hk|by apply Hw]].
  intros b h' (HQ & k1 & k2 & -> & H1 & H2). split; [done|]. exists (Ev e a :: k1), k2.
  rewrite <- app_assoc. split_and!; [done|by constructor|done].
Qed.
