(* ===== verification/Externals.v ===== *)
(** * Libraries the program calls

    nxe-json, OpenSSL and the nginx core are not part of the repository.
    Their functions appear as fields of type classes, their documented
    behaviour as separate classes of laws; every definition that calls them
    takes the class as an argument. *)

From S2P Require Import Prelude Effects.
#[global] Open Scope Z_scope.

(** ** nxe-json (opaque JSON values) *)

Class NxeJson := {
  nxe_json_t : Type;
  nxe_json_parse_untrusted : bytes -> ptr nxe_json_t;
  nxe_json_is_object : nxe_json_t -> bool;
  nxe_json_object_get : nxe_json_t -> bytes -> ptr nxe_json_t;
  (** [Some s] when it returns NGX_OK with [s] *)
  nxe_json_string : nxe_json_t -> option bytes;
  nxe_json_boolean : nxe_json_t -> option bool;
  nxe_json_object_get_string : nxe_json_t -> bytes -> option bytes;
}.

(** Decoding JSON never makes a string longer than its text. *)
Class NxeJsonLaws `{NxeJson} := {
  json_size : nxe_json_t -> Z;
  parse_size : forall s j, nxe_json_parse_untrusted s = Some j -> json_size j <= zlen s;
  get_size : forall j k v, nxe_json_object_get j k = Some v -> json_size v <= json_size j;
  string_size : forall j s, nxe_json_string j = Some s -> zlen s <= json_size j;
  get_string_size : forall j k s, nxe_json_object_get_string j k = Some s ->
    zlen s <= json_size j;
}.

(** ** nxe-jwx: JSON Web Tokens *)

Class NxeJwx := {
  nxe_jwx_token_t : Type;
  nxe_jwx_jwks_t : Type;
  nxe_jwx_payload_t : Type;
  (** algorithm, claims and key; [Some jwt] when it returns NGX_OK *)
  nxe_jwx_encode : bytes -> bytes -> bytes -> option bytes;
  nxe_jwx_decode : bytes -> ptr nxe_jwx_token_t;
  nxe_jwx_jwks_parse : bytes -> ptr nxe_jwx_jwks_t;
  nxe_jwx_jwks_parse_keyval : bytes -> ptr nxe_jwx_jwks_t;
  (** true when it returns NGX_OK *)
  nxe_jwx_jws_verify : nxe_jwx_token_t -> nxe_jwx_jwks_t -> bool;
  nxe_jwx_token_payload : nxe_jwx_token_t -> ptr nxe_jwx_payload_t;
  nxe_jwx_claims_get_string : nxe_jwx_payload_t -> bytes -> option bytes;
  nxe_jwx_claims_get_integer : nxe_jwx_payload_t -> bytes -> option Z;
}.

(** ** base64url of the nginx core, or of the command-line tool's shim *)

(** The length macros (ngx_compat.h, the nginx core's own definitions). *)
Definition ngx_base64_encoded_length (len : Z) : Z := (len + 2) / 3 * 4.
Definition ngx_base64_decoded_length (len : Z) : Z := (len + 3) / 4 * 3.

Class NginxBase64 := {
  (** [Some out] when it returns NGX_OK *)
  ngx_decode_base64url : bytes -> option bytes;
  ngx_encode_base64url : bytes -> bytes;
}.

(** The length macros bound what the two functions write. *)
Class NginxBase64Laws `{NginxBase64} := {
  decode_fits : forall src out, ngx_decode_base64url src = Some out ->
    zlen out <= ngx_base64_decoded_length (zlen src);
  encode_fits : forall src,
    zlen (ngx_encode_base64url src) <= ngx_base64_encoded_length (zlen src);
}.

(** ** OpenSSL *)

(** EVP_PKEY_base_id, as far as the program distinguishes key types. *)
Inductive pkey_type := EVP_PKEY_EC | EVP_PKEY_RSA | EVP_PKEY_ED25519 | EVP_PKEY_OTHER (id : Z).

#[export] Instance pkey_type_eq_dec : EqDecision pkey_type.
Proof. solve_decision. Defined.

(** The digest argument: [EVP_sha256()] or NULL. *)
Inductive evp_md := EVP_sha256.

Class OpenSSL := {
  (** [Some digest] when EVP_Digest(..., EVP_sha256(), ...) returns 1 *)
  EVP_Digest : bytes -> option bytes;
  (** 0 exactly when the first [n] bytes agree *)
  CRYPTO_memcmp : bytes -> bytes -> Z -> Z;
  EVP_PKEY : Type;
  d2i_PUBKEY : bytes -> ptr EVP_PKEY;
  EVP_PKEY_base_id : EVP_PKEY -> pkey_type;
  EVP_DigestVerifyInit : ptr evp_md -> EVP_PKEY -> Z;
  EVP_DigestVerify : ptr evp_md -> EVP_PKEY -> bytes -> bytes -> Z;
}.

Class OpenSSLLaws `{OpenSSL} := {
  memcmp_law : forall a b n, 0 <= n -> n <= zlen a -> n <= zlen b ->
    (CRYPTO_memcmp a b n = 0 <-> take (Z.to_nat n) a = take (Z.to_nat n) b);
}.

(** Building public keys from their parameters, and their DER form. *)
Inductive ossl_param :=
  | P_utf8 (key value : bytes)
  | P_octets (key value : bytes)
  | P_BN (key : bytes) (bn : Z).

Class OpenSSLKeys `{OpenSSL} := {
  (** key type name and parameters; [None]: refused *)
  EVP_PKEY_fromdata : bytes -> list ossl_param -> option EVP_PKEY;
  EVP_PKEY_new_raw_public_key : pkey_type -> bytes -> option EVP_PKEY;
  (** the number of [len] bytes, big endian *)
  BN_bin2bn : bytes -> Z -> Z;
  (** [None] when it returns 0 or less *)
  i2d_PUBKEY : EVP_PKEY -> option bytes;
}.

(** A key has the type it was built for, and survives its DER form, which is
    an int's length. *)
Class OpenSSLKeysLaws `{OpenSSLKeys} := {
  fromdata_ec : forall ps k, EVP_PKEY_fromdata (bs "EC") ps = Some k ->
    EVP_PKEY_base_id k = EVP_PKEY_EC;
  fromdata_rsa : forall ps k, EVP_PKEY_fromdata (bs "RSA") ps = Some k ->
    EVP_PKEY_base_id k = EVP_PKEY_RSA;
  raw_key_type : forall t b k, EVP_PKEY_new_raw_public_key t b = Some k ->
    EVP_PKEY_base_id k = t;
  der_roundtrip : forall k d, i2d_PUBKEY k = Some d -> d2i_PUBKEY d = Some k;
  der_len : forall k d, i2d_PUBKEY k = Some d -> 0 < zlen d < 2 ^ 31;
}.

(** ** libcbor: decoded items *)

Class Cbor := {
  cbor_item_t : Type;
  (** the root, [result.error.code == CBOR_ERR_NONE], [result.read] *)
  cbor_load : bytes -> ptr cbor_item_t * bool * Z;
  cbor_isa_uint : cbor_item_t -> bool;
  cbor_isa_negint : cbor_item_t -> bool;
  cbor_get_int : cbor_item_t -> Z;
  cbor_isa_bytestring : cbor_item_t -> bool;
  cbor_bytestring_is_definite : cbor_item_t -> bool;
  (** handle and length *)
  cbor_bytestring : cbor_item_t -> bytes;
  cbor_isa_string : cbor_item_t -> bool;
  cbor_string_is_definite : cbor_item_t -> bool;
  cbor_string : cbor_item_t -> bytes;
  cbor_isa_map : cbor_item_t -> bool;
  (** handle and size *)
  cbor_map : cbor_item_t -> list (cbor_item_t * cbor_item_t);
  cbor_isa_array : cbor_item_t -> bool;
  cbor_array_size : cbor_item_t -> Z;
}.

(** Integers are 64 bits wide, and no item is larger than its encoding. *)
Class CborLaws `{Cbor} := {
  cbor_size : cbor_item_t -> Z;
  get_int_range : forall i, 0 <= cbor_get_int i < 2 ^ 64;
  load_size : forall b i ok n, cbor_load b = (Some i, ok, n) -> cbor_size i <= zlen b;
  map_size : forall i k v, cbor_isa_map i = true -> (k, v) ∈ cbor_map i ->
    cbor_size k <= cbor_size i /\ cbor_size v <= cbor_size i;
  bytestring_size : forall i, cbor_isa_bytestring i = true ->
    zlen (cbor_bytestring i) <= cbor_size i;
  cstring_size : forall i, cbor_isa_string i = true -> zlen (cbor_string i) <= cbor_size i;
}.
