(* ===== verification/Base64.v ===== *)
(** * base64url of the command-line shim: tools/admin/ngx_compat/ngx_compat.c

    The encoder and decoder the command-line tool links in place of the nginx
    core's.  They give the instance [NginxBase64] of the tool, with the laws
    its clients rely on: output sizes and the round trip. *)

From S2P Require Import Prelude Effects Externals.
#[global] Open Scope Z_scope.

Module Shim.

Definition basis : bytes :=
  bs "ABCDEFGHIJKLMNOPQRSTUVWXYZabcdefghijklmnopqrstuvwxyz0123456789-_".

Definition basis_at (i : Z) : byte := nth (Z.to_nat i) basis Byte.x00.

(** The while loop over groups of three and the tail of one or two bytes. *)
Fixpoint ngx_encode_base64url (src : bytes) : bytes :=
  match src with
  | s0 :: s1 :: s2 :: rest =>
      basis_at (Z.land (Z.shiftr (b2z s0) 2) 63)
      :: basis_at (Z.lor (Z.shiftl (Z.land (b2z s0) 3) 4) (Z.shiftr (b2z s1) 4))
      :: basis_at (Z.lor (Z.shiftl (Z.land (b2z s1) 15) 2) (Z.shiftr (b2z s2) 6))
      :: basis_at (Z.land (b2z s2) 63)
      :: ngx_encode_base64url rest
  | [s0; s1] =>
      [basis_at (Z.land (Z.shiftr (b2z s0) 2) 63);
       basis_at (Z.lor (Z.shiftl (Z.land (b2z s0) 3) 4) (Z.shiftr (b2z s1) 4));
       basis_at (Z.shiftl (Z.land (b2z s1) 15) 2)]
  | [s0] =>
      [basis_at (Z.land (Z.shiftr (b2z s0) 2) 63);
       basis_at (Z.shiftl (Z.land (b2z s0) 3) 4)]
  | [] => []
  end.

(** -1 when [c] is outside the alphabet. *)
Definition ngx_compat_b64url_char (c : byte) : Z :=
  let c := b2z c in
  if (65 <=? c) && (c <=? 90) then c - 65
  else if (97 <=? c) && (c <=? 122) then c - 97 + 26
  else if (48 <=? c) && (c <=? 57) then c - 48 + 52
  else if c =? 45 then 62
  else if c =? 95 then 63
  else -1.

(** [buf << 6] on an [int], as the compilers in use compute it: modulo 2^32.
    ISO C leaves a result outside [int] undefined. *)
Definition int_shl6 (buf : Z) : Z := int32 (Z.shiftl buf 6).

Fixpoint decode_loop (src : bytes) (bits buf : Z) (out : bytes) : option bytes :=
  match src with
  | [] => Some out
  | ch :: rest =>
      if b2z ch =? 61 then decode_loop rest bits buf out
      else
        let v := ngx_compat_b64url_char ch in
        if v <? 0 then None
        else
          let buf := Z.lor (int_shl6 buf) v in
          let bits := bits + 6 in
          if 8 <=? bits then
            let bits := bits - 8 in
            decode_loop rest bits buf (out ++ [z2b (Z.land (Z.shiftr buf bits) 255)])
          else decode_loop rest bits buf out
  end.

Definition ngx_decode_base64url (src : bytes) : option bytes := decode_loop src 0 0 [].

(** ** A reference decoder on unbounded integers

    The alphabet of RFC 4648, section 5, the value of a character being its
    position there, and the padding character. *)
Definition rfc4648_url : string :=
  "ABCDEFGHIJKLMNOPQRSTUVWXYZabcdefghijklmnopqrstuvwxyz0123456789-_".

Definition sextet (c : byte) : option Z :=
  Z.of_nat <$> String.index 0 (String.String (Ascii.ascii_of_byte c) String.EmptyString) rfc4648_url.

Definition padding : byte := Byte.x3d.

(** The pending bits alone, [acc < 2 ^ bits]. *)
Fixpoint ref_loop (src : bytes) (bits acc : Z) : option bytes :=
  match src with
  | [] => Some []
  | ch :: rest =>
      if decide (ch = padding) then ref_loop rest bits acc
      else
        v ← sextet ch;
        let acc := acc * 64 + v in
        if bits <? 2 then ref_loop rest (bits + 6) acc
        else
          rest ← ref_loop rest (bits - 2) (acc mod 2 ^ (bits - 2));
          Some (z2b (acc / 2 ^ (bits - 2)) :: rest)
  end.

(** The code's table of ranges is that alphabet. *)
Lemma char_sextet c :
  (b2z c =? 61) = bool_decide (c = padding) /\
  ngx_compat_b64url_char c = default (-1) (sextet c).
Proof.
  assert (Bool.eqb (b2z c =? 61) (bool_decide (c = padding)) &&
    (ngx_compat_b64url_char c =? default (-1) (sextet c)) = true) as H by byte_cases c.
  apply andb_true_iff in H as [H1%Bool.eqb_prop H2%Z.eqb_eq]. done.
Qed.

Lemma sextet_range c v : sextet c = Some v -> 0 <= v < 64.
Proof.
  intros Hv.
  assert (let v := default 0 (sextet c) in (0 <=? v) && (v <? 64) = true) as H by byte_cases c.
  rewrite Hv in H. cbn [default from_option id] in H. lia.
Qed.

(** The decoder's loop over the reference alphabet. *)
Lemma decode_loop_cons ch rest bits buf out :
  decode_loop (ch :: rest) bits buf out =
  if decide (ch = padding) then decode_loop rest bits buf out
  else
    v ← sextet ch;
    let buf := Z.lor (int_shl6 buf) v in
    if 8 <=? bits + 6
    then decode_loop rest (bits + 6 - 8) buf
           (out ++ [z2b (Z.land (Z.shiftr buf (bits + 6 - 8)) 255)])
    else decode_loop rest (bits + 6) buf out.
Proof.
  cbn [decode_loop]. destruct (char_sextet ch) as [-> ->].
  destruct (decide (ch = padding)) as [E|E];
    [by rewrite (bool_decide_true _ E)|rewrite (bool_decide_false _ E)].
  destruct (sextet ch) as [v|] eqn:Ev; [|done]. apply sextet_range in Ev.
  cbn [default from_option id mbind option_bind].
  by destruct (Z.ltb_spec v 0); [lia|].
Qed.

(** The low bits of the machine accumulator are the pending bits. *)
Lemma shl6_mod buf v bits :
  0 <= v < 64 -> 0 <= bits <= 26 ->
  Z.lor (int_shl6 buf) v mod 2 ^ (bits + 6) = (buf mod 2 ^ bits) * 64 + v.
Proof.
  intros Hv Hb. unfold int_shl6.
  assert (exists x, int32 (Z.shiftl buf 6) = Z.shiftl x 6 /\ x mod 2 ^ 26 = buf mod 2 ^ 26)
    as (x & -> & Hx).
  { exists ((buf + 2 ^ 25) mod 2 ^ 26 - 2 ^ 25). unfold int32. rewrite !Z.shiftl_mul_pow2 by lia.
    assert (2 ^ 6 = 64) as -> by done. assert (2 ^ 31 = 2147483648) as -> by done.
    assert (2 ^ 32 = 4294967296) as -> by done. assert (2 ^ 25 = 33554432) as -> by done.
    assert (2 ^ 26 = 67108864) as -> by done. split; div_lia. }
  rewrite lor_shiftl_add by (cbn; lia).
  assert (x mod 2 ^ bits = buf mod 2 ^ bits) as <-.
  { assert (forall y, (y mod 2 ^ 26) mod 2 ^ bits = y mod 2 ^ bits) as Hm.
    { intros y. replace 26 with (bits + (26 - bits)) by lia.
      rewrite Z.pow_add_r, Z.rem_mul_r by lia.
      rewrite Z.mul_comm, Z.mod_add, Z.mod_mod; lia. }
    by rewrite <- (Hm x), <- (Hm buf), Hx. }
  assert (2 ^ 6 = 64) as E6 by done. rewrite Z.pow_add_r, E6 by lia.
  pose proof (Z.div_mod x (2 ^ bits) ltac:(lia)).
  pose proof (Z.mod_pos_bound x (2 ^ bits) ltac:(lia)).
  symmetry. apply Z.mod_unique with (x / 2 ^ bits); [left; nia|nia].
Qed.

Lemma decode_loop_ref src : forall bits buf out,
  0 <= bits < 8 ->
  decode_loop src bits buf out =
  (r ← ref_loop src bits (buf mod 2 ^ bits); Some (out ++ r)).
Proof.
  induction src as [|ch rest IH]; intros bits buf out Hb;
    [|rewrite decode_loop_cons]; cbn [decode_loop ref_loop].
  { simpl. by rewrite app_nil_r. }
  destruct (decide (ch = padding)); [by apply IH|].
  destruct (sextet ch) as [v|] eqn:Hv; [|done]. apply sextet_range in Hv. cbn [mbind option_bind].
  pose proof (shl6_mod buf v bits Hv ltac:(lia)) as Hm.
  destruct (Z.leb_spec 8 (bits + 6)), (Z.ltb_spec bits 2); try lia.
  - rewrite IH by lia. replace (bits + 6 - 8) with (bits - 2) by lia.
    set (x := Z.lor (int_shl6 buf) v) in *. rewrite <- Hm.
    assert (x mod 2 ^ (bits + 6) mod 2 ^ (bits - 2) = x mod 2 ^ (bits - 2)) as ->.
    { replace (bits + 6) with ((bits - 2) + 8) by lia.
      rewrite Z.pow_add_r, Z.rem_mul_r by lia.
      rewrite Z.mul_comm, Z.mod_add, Z.mod_mod; lia. }
    assert (z2b (Z.land (Z.shiftr x (bits - 2)) 255) =
            z2b (x mod 2 ^ (bits + 6) / 2 ^ (bits - 2))) as ->.
    { f_equal. change 255 with (Z.ones 8). rewrite Z.land_ones, Z.shiftr_div_pow2 by lia.
      replace (bits + 6) with ((bits - 2) + 8) by lia.
      rewrite Z.pow_add_r, Z.rem_mul_r by lia.
      rewrite Z.mul_comm, Z.div_add by lia.
      rewrite (Z.div_small (x mod _)) by (apply Z.mod_pos_bound; lia). lia. }
    destruct (ref_loop rest _ _); simpl; [|done]. by rewrite <- app_assoc.
  - rewrite IH by lia. by rewrite Hm.
Qed.

(** ** The alphabet *)

Lemma sextet_basis i : 0 <= i < 64 ->
  sextet (basis_at i) = Some i /\ basis_at i <> padding.
Proof.
  intros Hi.
  assert (forallb (fun n => bool_decide (sextet (basis_at (Z.of_nat n)) = Some (Z.of_nat n)
            /\ basis_at (Z.of_nat n) <> padding)) (seq 0 64) = true) as Hall by reflexivity.
  rewrite forallb_forall in Hall. specialize (Hall (Z.to_nat i)).
  rewrite Z2Nat.id in Hall by lia.
  eapply bool_decide_eq_true_1, Hall, in_seq. lia.
Qed.

Lemma ref_basis i rest bits acc : 0 <= i < 64 ->
  ref_loop (basis_at i :: rest) bits acc =
  if bits <? 2 then ref_loop rest (bits + 6) (acc * 64 + i)
  else
    r ← ref_loop rest (bits - 2) ((acc * 64 + i) mod 2 ^ (bits - 2));
    Some (z2b ((acc * 64 + i) / 2 ^ (bits - 2)) :: r).
Proof.
  intros Hi. destruct (sextet_basis i Hi) as [E1 E2]. cbn [ref_loop]. rewrite E1.
  by destruct (decide (basis_at i = padding)).
Qed.

(** The four states the decoder goes through. *)
Lemma ref_states i rest acc : 0 <= i < 64 ->
  ref_loop (basis_at i :: rest) 0 acc = ref_loop rest 6 (acc * 64 + i) /\
  ref_loop (basis_at i :: rest) 6 acc =
    (r ← ref_loop rest 4 ((acc * 64 + i) mod 16); Some (z2b ((acc * 64 + i) / 16) :: r)) /\
  ref_loop (basis_at i :: rest) 4 acc =
    (r ← ref_loop rest 2 ((acc * 64 + i) mod 4); Some (z2b ((acc * 64 + i) / 4) :: r)) /\
  ref_loop (basis_at i :: rest) 2 acc =
    (r ← ref_loop rest 0 ((acc * 64 + i) mod 1); Some (z2b ((acc * 64 + i) / 1) :: r)).
Proof. intros Hi. by rewrite !ref_basis by done. Qed.

(** The sextets of one to three bytes, in arithmetic form. *)
Lemma sextets (b0 b1 b2 : byte) :
  let x := b2z b0 in let y := b2z b1 in let z := b2z b2 in
  Z.land (Z.shiftr x 2) 63 = x / 4 /\
  Z.lor (Z.shiftl (Z.land x 3) 4) (Z.shiftr y 4) = x mod 4 * 16 + y / 16 /\
  Z.lor (Z.shiftl (Z.land y 15) 2) (Z.shiftr z 6) = y mod 16 * 4 + z / 64 /\
  Z.land z 63 = z mod 64 /\
  Z.shiftl (Z.land x 3) 4 = x mod 4 * 16 /\ Z.shiftl (Z.land y 15) 2 = y mod 16 * 4.
Proof.
  intros x y z. pose proof (b2z_range b0). pose proof (b2z_range b1). pose proof (b2z_range b2).
  change 63 with (Z.ones 6). change 3 with (Z.ones 2). change 15 with (Z.ones 4).
  rewrite !Z.land_ones, !Z.shiftr_div_pow2 by lia.
  assert (2 ^ 2 = 4) as E2 by done. assert (2 ^ 4 = 16) as E4 by done.
  assert (2 ^ 6 = 64) as E6 by done.
  rewrite !lor_shiftl_add by (rewrite ?E2, ?E4, ?E6; subst x y z; div_lia).
  rewrite !Z.shiftl_mul_pow2, E2, E4, E6 by lia. subst x y z.
  split_and!; try done. rewrite Z.mod_small; div_lia.
Qed.

Lemma z2b_eq b v : v = b2z b -> z2b v = b.
Proof. intros ->. apply z2b_b2z. Qed.

(** Decoding one group of four, three or two characters. *)
Lemma ref_group3 b0 b1 b2 rest :
  ref_loop (basis_at (b2z b0 / 4) :: basis_at (b2z b0 mod 4 * 16 + b2z b1 / 16)
    :: basis_at (b2z b1 mod 16 * 4 + b2z b2 / 64) :: basis_at (b2z b2 mod 64) :: rest) 0 0 =
  (r ← ref_loop rest 0 0; Some (b0 :: b1 :: b2 :: r)).
Proof.
  pose proof (b2z_range b0). pose proof (b2z_range b1). pose proof (b2z_range b2).
  destruct (ref_states (b2z b0 / 4) (basis_at (b2z b0 mod 4 * 16 + b2z b1 / 16)
    :: basis_at (b2z b1 mod 16 * 4 + b2z b2 / 64) :: basis_at (b2z b2 mod 64) :: rest) 0)
    as (-> & _); [div_lia|].
  edestruct (ref_states (b2z b0 mod 4 * 16 + b2z b1 / 16)) as (_ & -> & _); [div_lia|].
  edestruct (ref_states (b2z b1 mod 16 * 4 + b2z b2 / 64)) as (_ & _ & -> & _); [div_lia|].
  edestruct (ref_states (b2z b2 mod 64)) as (_ & _ & _ & ->); [div_lia|].
  rewrite Z.mod_1_r, !Z.div_1_r.
  destruct (ref_loop rest 0 0) as [r|]; [|done]. simpl.
  do 2 f_equal; [|f_equal; [|f_equal]]; apply z2b_eq; div_lia.
Qed.

Lemma ref_group2 b0 b1 :
  ref_loop [basis_at (b2z b0 / 4); basis_at (b2z b0 mod 4 * 16 + b2z b1 / 16);
            basis_at (b2z b1 mod 16 * 4)] 0 0 = Some [b0; b1].
Proof.
  pose proof (b2z_range b0). pose proof (b2z_range b1).
  edestruct (ref_states (b2z b0 / 4)) as (-> & _); [div_lia|].
  edestruct (ref_states (b2z b0 mod 4 * 16 + b2z b1 / 16)) as (_ & -> & _); [div_lia|].
  edestruct (ref_states (b2z b1 mod 16 * 4)) as (_ & _ & -> & _); [div_lia|].
  simpl. do 2 f_equal; [|f_equal]; apply z2b_eq; div_lia.
Qed.

Lemma ref_group1 b0 :
  ref_loop [basis_at (b2z b0 / 4); basis_at (b2z b0 mod 4 * 16)] 0 0 = Some [b0].
Proof.
  pose proof (b2z_range b0).
  edestruct (ref_states (b2z b0 / 4)) as (-> & _); [div_lia|].
  edestruct (ref_states (b2z b0 mod 4 * 16)) as (_ & -> & _); [div_lia|].
  simpl. do 2 f_equal; apply z2b_eq; div_lia.
Qed.

(** Induction by groups of three. *)
Lemma list_ind3 {A} (P : list A -> Prop) :
  P [] -> (forall a, P [a]) -> (forall a b, P [a; b]) ->
  (forall a b c l, P l -> P (a :: b :: c :: l)) -> forall l, P l.
Proof.
  intros H0 H1 H2 H3.
  assert (forall n l, (length l <= n)%nat -> P l) as Hn.
  { induction n as [|n IH]; intros [|a [|b [|c l]]] Hl; simpl in Hl; auto; try lia.
    apply H3, IH. lia. }
  intros l. by apply (Hn (length l)).
Qed.

Lemma decode_encode src : ngx_decode_base64url (ngx_encode_base64url src) = Some src.
Proof.
  unfold ngx_decode_base64url. rewrite decode_loop_ref by lia. change (0 mod 2 ^ 0) with 0.
  enough (ref_loop (ngx_encode_base64url src) 0 0 = Some src) as -> by done.
  induction src as [|b0|b0 b1|b0 b1 b2 rest IH] using list_ind3; cbn [ngx_encode_base64url].
  - done.
  - destruct (sextets b0 b0 b0) as (-> & _ & _ & _ & -> & _). apply ref_group1.
  - destruct (sextets b0 b1 b1) as (-> & -> & _ & _ & _ & ->). apply ref_group2.
  - destruct (sextets b0 b1 b2) as (-> & -> & -> & -> & _). by rewrite ref_group3, IH.
Qed.

(** ** Sizes *)

Lemma encode_length src :
  zlen (ngx_encode_base64url src) = (zlen src * 4 + 2) / 3.
Proof.
  induction src as [|b0|b0 b1|b0 b1 b2 rest IH] using list_ind3;
    cbn [ngx_encode_base64url]; rewrite ?zlen_cons, ?zlen_nil; [done..|].
  rewrite IH. div_lia.
Qed.

Lemma ref_length src : forall bits acc out,
  0 <= bits < 8 -> ref_loop src bits acc = Some out ->
  zlen out * 8 <= zlen src * 6 + bits.
Proof.
  induction src as [|ch rest IH]; intros bits acc out Hb; cbn [ref_loop].
  { intros [= <-]. unfold zlen; simpl length; lia. }
  rewrite zlen_cons. destruct (decide _); [intros Ho; apply IH in Ho; lia|].
  destruct (sextet ch); [|done]. cbn [mbind option_bind]. destruct (Z.ltb_spec bits 2).
  - intros Ho. apply IH in Ho; lia.
  - destruct (ref_loop rest _ _) as [r|] eqn:E; simpl; [|done]. intros [= <-].
    apply IH in E; [|lia]. rewrite zlen_cons. lia.
Qed.

(** It fails on a character that is neither of the alphabet nor padding, and
    on nothing else. *)
Lemma ref_fails src : forall bits acc,
  ref_loop src bits acc = None <-> Exists (fun c => c <> padding /\ sextet c = None) src.
Proof.
  induction src as [|ch rest IH]; intros bits acc; cbn [ref_loop];
    rewrite ?Exists_nil, ?Exists_cons; [done|].
  destruct (decide (ch = padding)) as [->|Hne]; [rewrite IH; tauto|].
  destruct (sextet ch) as [v|]; [|tauto]. cbn [mbind option_bind].
  destruct (bits <? 2); [rewrite IH; intuition congruence|].
  rewrite <- (IH (bits - 2) ((acc * 64 + v) mod 2 ^ (bits - 2))).
  destruct (ref_loop rest _ _); cbn; intuition congruence.
Qed.

(** The operands of [buf << 6] in a run of the decoder. *)
Fixpoint shift_operands (src : bytes) (buf : Z) : list Z :=
  match src with
  | [] => []
  | ch :: rest =>
      if b2z ch =? 61 then shift_operands rest buf
      else
        let v := ngx_compat_b64url_char ch in
        if v <? 0 then []
        else buf :: shift_operands rest (Z.lor (int_shl6 buf) v)
  end.

End Shim.

Definition shim_base64 : NginxBase64 := {|
  ngx_decode_base64url := Shim.ngx_decode_base64url;
  ngx_encode_base64url := Shim.ngx_encode_base64url;
|}.

Lemma shim_base64_laws : @NginxBase64Laws shim_base64.
Proof.
  split.
  - intros src out. cbn. unfold Shim.ngx_decode_base64url.
    rewrite Shim.decode_loop_ref by lia. change (0 mod 2 ^ 0) with 0.
    destruct (Shim.ref_loop src 0 0) as [r|] eqn:E; [|done]. intros [= <-].
    apply Shim.ref_length in E; [|lia]. cbn [app]. pose proof (zlen_nonneg src).
    unfold ngx_base64_decoded_length. div_lia.
  - intros src. cbn. rewrite Shim.encode_length. pose proof (zlen_nonneg src).
    unfold ngx_base64_encoded_length. div_lia.
Qed.

(** C29: the shim's encoder and decoder round-trip every byte string, so what
    the tool writes it reads back bit for bit; the encoding has the length of
    unpadded base64. *)
Theorem base64url_roundtrip (src : bytes) :
  Shim.ngx_decode_base64url (Shim.ngx_encode_base64url src) = Some src /\
  zlen (Shim.ngx_encode_base64url src) = (zlen src * 4 + 2) / 3.
Proof. split; [apply Shim.decode_encode|apply Shim.encode_length]. Qed.

(** C30: whatever the input, the machine decoder with its 32-bit accumulator
    answers what a reference decoder answers that looks a character up in the
    alphabet of RFC 4648 and keeps only the pending bits; it refuses exactly
    the inputs with a byte that is neither in that alphabet nor [=], and writes
    no more than [ngx_base64_decoded_length] promises. *)
Theorem base64url_decode_exact (src : bytes) :
  Shim.ngx_decode_base64url src = Shim.ref_loop src 0 0 /\
  (Shim.ngx_decode_base64url src = None <->
   Exists (fun c => c <> Shim.padding /\ Shim.sextet c = None) src) /\
  forall out, Shim.ngx_decode_base64url src = Some out ->
    zlen out <= ngx_base64_decoded_length (zlen src).
Proof.
  assert (Shim.ngx_decode_base64url src = Shim.ref_loop src 0 0) as E.
  { unfold Shim.ngx_decode_base64url. rewrite Shim.decode_loop_ref by lia.
    change (0 mod 2 ^ 0) with 0. by destruct (Shim.ref_loop src 0 0). }
  split_and!; [exact E|rewrite E; apply Shim.ref_fails|apply shim_base64_laws].
Qed.

(** The accumulator is never masked, so decoding four bytes of 0xff
    already shifts an [int] out of its range, which ISO C leaves undefined. *)
Theorem base64url_shift_overflows :
  let src := Shim.ngx_encode_base64url (replicate 4 Byte.xff) in
  Shim.ngx_decode_base64url src = Some (replicate 4 Byte.xff) /\
  Exists (fun buf => INT32_MAX < Z.shiftl buf 6) (Shim.shift_operands src 0).
Proof.
  split; [reflexivity|]. vm_compute Shim.shift_operands.
  do 5 apply Exists_cons_tl. apply Exists_cons_hd. reflexivity.
Qed.
