(* ===== verification/Samples.v ===== *)
(** * Concrete instances of the library interfaces

    Small executable stand-ins for nxe-json and OpenSSL that satisfy the laws
    of Externals.v.  The witnesses evaluate the theorems on them; no theorem
    about the program depends on them. *)

From S2P Require Import Prelude Effects Externals Base64.
#[global] Open Scope Z_scope.

Module Samples.

(** ** JSON: objects of strings without escapes, booleans, naturals, objects *)

Inductive json :=
  JString (s : bytes) | JBool (b : bool) | JInt (z : Z) | JObject (m : list (bytes * json)).

Fixpoint until_quote (s : bytes) : option (bytes * bytes) :=
  match s with
  | [] => None
  | c :: t =>
      if b2z c =? 34 then Some ([], t)
      else '(a, r) ← until_quote t; Some (c :: a, r)
  end.

Definition strip (prefix s : bytes) : option bytes :=
  if bool_decide (take (length prefix) s = prefix) then Some (drop (length prefix) s) else None.

Definition quote : byte := Byte.x22.

Fixpoint digits_of (s : bytes) : bytes * bytes :=
  match s with
  | c :: t => if is_digit c then let '(d, r) := digits_of t in (c :: d, r) else ([], s)
  | [] => ([], [])
  end.

(** One value, and what follows it. *)
Fixpoint parse_value (fuel : nat) (s : bytes) : option (json * bytes) :=
  match fuel with
  | O => None
  | S f =>
      match strip [quote] s with
      | Some r => '(v, r) ← until_quote r; Some (JString v, r)
      | None =>
      match strip (bs "true") s with
      | Some r => Some (JBool true, r)
      | None =>
      match strip (bs "false") s with
      | Some r => Some (JBool false, r)
      | None =>
      match digits_of s with
      | ((_ :: _) as d, r) => Some (JInt (dec_val d), r)
      | ([], _) =>
          r ← strip (bs "{") s;
          match strip (bs "}") r with
          | Some r => Some (JObject [], r)
          | None => '(m, r) ← parse_members f r; Some (JObject m, r)
          end
      end end end end
  end
with parse_members (fuel : nat) (s : bytes) : option (list (bytes * json) * bytes) :=
  match fuel with
  | O => None
  | S f =>
      r ← strip [quote] s;
      '(k, r) ← until_quote r;
      r ← strip (bs ":") r;
      '(v, r) ← parse_value f r;
      match strip (bs "}") r with
      | Some r => Some ([(k, v)], r)
      | None => r ← strip (bs ",") r; '(rest, r) ← parse_members f r; Some ((k, v) :: rest, r)
      end
  end.

Definition parse (s : bytes) : option json :=
  '(v, r) ← parse_value (length s) s; if bool_decide (r = []) then Some v else None.

Fixpoint assoc (k : bytes) (m : list (bytes * json)) : option json :=
  match m with
  | [] => None
  | (k', v) :: t => if bool_decide (k = k') then Some v else assoc k t
  end.

Definition object_get (j : json) (k : bytes) : option json :=
  match j with JObject m => assoc k m | _ => None end.
Definition string_of (j : json) : option bytes :=
  match j with JString s => Some s | _ => None end.

#[export] Instance json_lib : NxeJson := {|
  nxe_json_t := json;
  nxe_json_parse_untrusted := parse;
  nxe_json_is_object j := match j with JObject _ => true | _ => false end;
  nxe_json_object_get := object_get;
  nxe_json_string := string_of;
  nxe_json_boolean j := match j with JBool b => Some b | _ => None end;
  nxe_json_object_get_string j k := object_get j k ≫= string_of;
|}.

(** The laws of sizes. *)
Fixpoint size (j : json) : Z :=
  match j with
  | JString s => zlen s
  | JObject m =>
      (fix sizes (m : list (bytes * json)) : Z :=
         match m with [] => 0 | (_, v) :: t => size v + sizes t end) m
  | _ => 0
  end.

Fixpoint sizes (m : list (bytes * json)) : Z :=
  match m with [] => 0 | (_, v) :: t => size v + sizes t end.

Lemma size_object m : size (JObject m) = sizes m.
Proof. done. Qed.

Fixpoint size_nonneg (j : json) : 0 <= size j.
Proof.
  destruct j as [s|b|z|m]; cbn [size]; try lia; [apply zlen_nonneg|].
  induction m as [|[k v] m IH]; [lia|]. pose proof (size_nonneg v). lia.
Qed.

Lemma sizes_nonneg m : 0 <= sizes m.
Proof. apply (size_nonneg (JObject m)). Qed.

Lemma strip_len p s r : strip p s = Some r -> zlen r <= zlen s.
Proof.
  unfold strip. case_bool_decide; [|done]. intros [= <-]. unfold zlen. rewrite length_drop. lia.
Qed.

Lemma until_quote_len s a r : until_quote s = Some (a, r) -> zlen a + zlen r <= zlen s.
Proof.
  revert a r. induction s as [|c s IH]; intros a r; cbn [until_quote]; [done|].
  rewrite zlen_cons. destruct (_ =? 34).
  - intros [= <- <-]. rewrite zlen_nil. lia.
  - destruct (until_quote s) as [[a' r']|]; simpl; [|done]. intros [= <- <-].
    specialize (IH a' r' eq_refl). rewrite zlen_cons. lia.
Qed.

Lemma digits_of_len s : zlen (snd (digits_of s)) <= zlen s.
Proof.
  induction s as [|c s IH]; cbn [digits_of]; [done|]. destruct (is_digit c); [|done].
  destruct (digits_of s) as [d r]. cbn [snd] in *. rewrite zlen_cons. lia.
Qed.

Lemma parse_len fuel :
  (forall s v r, parse_value fuel s = Some (v, r) -> size v + zlen r <= zlen s) /\
  (forall s m r, parse_members fuel s = Some (m, r) -> sizes m + zlen r <= zlen s).
Proof.
  induction fuel as [|f [IHv IHm]]; [done|]. split; intros s x r; cbn [parse_value parse_members].
  - destruct (strip [quote] s) as [t|] eqn:E1; [apply strip_len in E1|].
    { destruct (until_quote t) as [[a b]|] eqn:E2; simpl; [|done]. intros [= <- <-].
      apply until_quote_len in E2. cbn [size]. lia. }
    destruct (strip (bs "true") s) eqn:E2; [apply strip_len in E2; intros [= <- <-]; cbn [size]; lia|].
    destruct (strip (bs "false") s) eqn:E3; [apply strip_len in E3; intros [= <- <-]; cbn [size]; lia|].
    pose proof (digits_of_len s) as Hd. destruct (digits_of s) as [[|c d] rest]; cbn [snd] in Hd.
    2:{ intros [= <- <-]. cbn [size]. lia. }
    destruct (strip (bs "{") s) as [t|] eqn:E4; simpl; [|done]. apply strip_len in E4.
    destruct (strip (bs "}") t) as [u|] eqn:E5; [apply strip_len in E5; intros [= <- <-]; cbn [size]; lia|].
    destruct (parse_members f t) as [[m u]|] eqn:E6; simpl; [|done]. intros [= <- <-].
    apply IHm in E6. rewrite size_object. lia.
  - destruct (strip [quote] s) as [t|] eqn:E1; simpl; [|done]. apply strip_len in E1.
    destruct (until_quote t) as [[k u]|] eqn:E2; simpl; [|done]. apply until_quote_len in E2.
    destruct (strip (bs ":") u) as [v|] eqn:E3; simpl; [|done]. apply strip_len in E3.
    destruct (parse_value f v) as [[j w]|] eqn:E4; simpl; [|done]. apply IHv in E4.
    pose proof (zlen_nonneg k).
    destruct (strip (bs "}") w) as [y|] eqn:E5.
    { apply strip_len in E5. intros [= <- <-]. cbn [sizes]. lia. }
    destruct (strip (bs ",") w) as [y|] eqn:E6; simpl; [|done]. apply strip_len in E6.
    destruct (parse_members f y) as [[m z]|] eqn:E7; simpl; [|done]. intros [= <- <-].
    apply IHm in E7. cbn [sizes]. lia.
Qed.

Lemma object_get_size j k v : object_get j k = Some v -> size v <= size j.
Proof.
  destruct j as [| | |m]; cbn [object_get]; try done. rewrite size_object.
  induction m as [|[k' v'] m IH]; cbn [assoc sizes]; [done|].
  pose proof (sizes_nonneg m). pose proof (size_nonneg v').
  case_bool_decide; [intros [= <-]; lia|]. intros Hv. apply IH in Hv. lia.
Qed.

Lemma string_of_size j s : string_of j = Some s -> zlen s <= size j.
Proof. destruct j; cbn; try done. intros [= <-]. lia. Qed.

#[export] Program Instance json_laws : NxeJsonLaws := {| json_size := size |}.
Next Obligation.
  intros s j. cbn. unfold parse. destruct (parse_value _ s) as [[v r]|] eqn:E; simpl; [|done].
  case_bool_decide; [|done]. intros [= <-]. apply parse_len in E. pose proof (zlen_nonneg r). lia.
Qed.
Next Obligation. apply object_get_size. Qed.
Next Obligation. apply string_of_size. Qed.
Next Obligation.
  intros j k s. cbn. destruct (object_get j k) as [v|] eqn:E; simpl; [|done].
  intros Hs%string_of_size. apply object_get_size in E. lia.
Qed.

Definition int_of (j : json) : option Z := match j with JInt z => Some z | _ => None end.

(** A token is the claims, a dot and the key. *)
Fixpoint split_dot (s : bytes) : option (bytes * bytes) :=
  match s with
  | [] => None
  | c :: t =>
      match split_dot t with
      | Some (a, b) => Some (c :: a, b)
      | None => if b2z c =? 46 then Some ([], t) else None
      end
  end.

#[export] Instance jwx_lib : NxeJwx := {|
  nxe_jwx_token_t := bytes * bytes;
  nxe_jwx_jwks_t := bytes;
  nxe_jwx_payload_t := json;
  nxe_jwx_encode _ claims key := Some (claims ++ bs "." ++ Shim.ngx_encode_base64url key);
  nxe_jwx_decode := split_dot;
  nxe_jwx_jwks_parse doc :=
    parse (drop 9 (take (length doc - 2) doc)) ≫= fun j => object_get j (bs "k") ≫= string_of;
  nxe_jwx_jwks_parse_keyval doc :=
    parse doc ≫= fun j => object_get j (bs "webauthn") ≫= string_of;
  nxe_jwx_jws_verify token key := bool_decide (snd token = key);
  nxe_jwx_token_payload token := parse (fst token);
  nxe_jwx_claims_get_string j k := object_get j k ≫= string_of;
  nxe_jwx_claims_get_integer j k := object_get j k ≫= int_of;
|}.

(** A double-quoted string, for writing JSON texts. *)
Definition q (s : bytes) : bytes := [quote] ++ s ++ [quote].

(** ** base64url: the shim *)

#[export] Instance base64_lib : NginxBase64 := shim_base64.
#[export] Instance base64_laws : NginxBase64Laws := shim_base64_laws.

(** ** OpenSSL: a digest of 32 bytes and a keyed check *)

Definition digest (d : bytes) : bytes := take 32 (d ++ replicate 32 Byte.x00).

Definition key_of_der (der : bytes) : option (pkey_type * bytes) :=
  match der with
  | Byte.x01 :: k => Some (EVP_PKEY_EC, k)
  | Byte.x02 :: k => Some (EVP_PKEY_RSA, k)
  | Byte.x03 :: k => Some (EVP_PKEY_ED25519, k)
  | _ => None
  end.

#[export] Instance ssl_lib : OpenSSL := {|
  EVP_Digest d := Some (digest d);
  CRYPTO_memcmp a b n :=
    if bool_decide (take (Z.to_nat n) a = take (Z.to_nat n) b) then 0 else 1;
  EVP_PKEY := pkey_type * bytes;
  d2i_PUBKEY := key_of_der;
  EVP_PKEY_base_id := fst;
  EVP_DigestVerifyInit _ _ := 1;
  EVP_DigestVerify _ key sig data :=
    if bool_decide (sig = snd key ++ data) then 1 else 0;
|}.

#[export] Instance ssl_laws : OpenSSLLaws.
Proof. split. intros a b n _ _ _. cbn. by case_bool_decide. Qed.

(** A client data text. *)
Definition client_data (type challenge origin : bytes) : bytes :=
  bs "{" ++ q (bs "type") ++ bs ":" ++ q type ++ bs "," ++
  q (bs "challenge") ++ bs ":" ++ q (Shim.ngx_encode_base64url challenge) ++ bs "," ++
  q (bs "origin") ++ bs ":" ++ q origin ++ bs "," ++
  q (bs "crossOrigin") ++ bs ":false}".

Example client_data_parses :
  (nxe_json_parse_untrusted (client_data (bs "webauthn.get") (bs "abc") (bs "https://a.example"))
     ≫= fun j => nxe_json_object_get j (bs "origin") ≫= nxe_json_string)
  = Some (bs "https://a.example").
Proof. reflexivity. Qed.

(** ** Surroundings in which everything succeeds *)

(** The one configuration file there is: a secret of 32 bytes and a newline. *)
Definition secret_file : bytes := replicate 32 Byte.x6b ++ [Byte.x0a].

Definition ok_ans (e : eff) : ans e :=
  match e with
  | ngx_pnalloc _ | res_new _ | lib_call _ | headers_out_push _ _ | headers_in_push _ _
  | fopen _ | ngx_open_file _ | nxe_phase_add_handler _ | ngx_http_add_variable _ => true
  | ferror => false
  | ngx_conf_full_name path => Some path
  | ngx_fd_info => Some (zlen secret_file)
  | ngx_read_file size => Some (take (Z.to_nat size) secret_file)
  | redisConnect _ _ _ => ConnOk
  | redisCommandArgv _ => Some (RStatus (bs "OK"))
  | RAND_bytes n => Some (replicate n Byte.x2a)
  | ngx_time => 1700000000
  | ngx_http_send_header _ _ _ | ngx_http_output_filter _ => 0
  | fread _ => []
  | res_hold _ | res_free _ | redisSetTimeout _ | freeReplyObject | redisFree
  | ngx_log_error _ _ | headers_in_hash _ | ngx_http_finalize_request _
  | fprint _ _ | clcf_handler _ | var_handler _ _ => tt
  end.

Definition ok_run {A} (p : prog A) : option A :=
  fst <$> run (fun (_ : unit) e => (ok_ans e, tt)) p tt.

End Samples.
