(* ===== verification/AuthData.v ===== *)
(** * authenticatorData: src/ngx_auth_webauthn_authdata.c

    The binary parser of the authenticator data, over a readable memory area
    and a claimed length; a read outside the area is undefined ([None]).  The
    reference is the encoder [authdata_encode] of the WebAuthn layout. *)

From S2P Require Import Prelude.
#[global] Open Scope Z_scope.

Definition NGX_AUTH_WEBAUTHN_SHA256_LEN : Z := 32.
Definition NGX_AUTH_WEBAUTHN_AUTHDATA_MIN_LEN : Z := 37.
Definition NGX_AUTH_WEBAUTHN_AAGUID_LEN : Z := 16.

Definition NGX_AUTH_WEBAUTHN_AUTHDATA_FLAG_UP : Z := 1.
Definition NGX_AUTH_WEBAUTHN_AUTHDATA_FLAG_UV : Z := 4.
Definition NGX_AUTH_WEBAUTHN_AUTHDATA_FLAG_AT : Z := 64.
Definition NGX_AUTH_WEBAUTHN_AUTHDATA_FLAG_ED : Z := 128.

Record ngx_auth_webauthn_authdata_t := {
  rp_id_hash : bytes;
  flags : Z;
  sign_count : Z;
  aaguid : bytes;
  credential_id : ngx_str_t;
  cose_public_key : ngx_str_t;
}.

(** [ngx_memzero(out, ...)] *)
Definition authdata_zero : ngx_auth_webauthn_authdata_t := {|
  rp_id_hash := replicate 32 Byte.x00; flags := 0; sign_count := 0;
  aaguid := replicate 16 Byte.x00; credential_id := NULL; cose_public_key := NULL |}.

(** [p[i]] and the [n] bytes at [p + off], within the readable area [p]. *)
Definition load (p : bytes) (i : Z) : option Z :=
  if i <? 0 then None else b2z <$> p !! Z.to_nat i.
Definition slice (p : bytes) (off n : Z) : option bytes :=
  if (0 <=? off) && (0 <=? n) && (off + n <=? zlen p)
  then Some (take (Z.to_nat n) (drop (Z.to_nat off) p)) else None.

(** The big-endian fields, with the C shifts and ors. *)
Definition be32 (b0 b1 b2 b3 : Z) : Z :=
  Z.lor (Z.lor (Z.lor (Z.shiftl b0 24) (Z.shiftl b1 16)) (Z.shiftl b2 8)) b3.
Definition be16 (b0 b1 : Z) : Z := Z.lor (Z.shiftl b0 8) b1.

(** Return code and new contents of [*out]; [None] is undefined behaviour. *)
Definition ngx_auth_webauthn_authdata_parse (data : ptr bytes) (len : Z)
    (out : ptr ngx_auth_webauthn_authdata_t)
    : option (ngx_rc * ptr ngx_auth_webauthn_authdata_t) :=
  if nullp out then Some (NGX_ERROR, NULL) else
  match data with
  | None => Some (NGX_DECLINED, Some authdata_zero)
  | Some p =>
    if len <? NGX_AUTH_WEBAUTHN_AUTHDATA_MIN_LEN
    then Some (NGX_DECLINED, Some authdata_zero) else
    h ← slice p 0 NGX_AUTH_WEBAUTHN_SHA256_LEN;
    fl ← load p 32;
    b0 ← load p 33; b1 ← load p 34; b2 ← load p 35; b3 ← load p 36;
    let ad := {| rp_id_hash := h; flags := fl; sign_count := be32 b0 b1 b2 b3;
                 aaguid := aaguid authdata_zero;
                 credential_id := NULL; cose_public_key := NULL |} in
    if Z.land fl NGX_AUTH_WEBAUTHN_AUTHDATA_FLAG_AT =? 0 then Some (NGX_OK, Some ad)
    else
      let offset := NGX_AUTH_WEBAUTHN_AUTHDATA_MIN_LEN in
      if len <? offset + NGX_AUTH_WEBAUTHN_AAGUID_LEN + 2
      then Some (NGX_DECLINED, Some ad) else
      g ← slice p offset NGX_AUTH_WEBAUTHN_AAGUID_LEN;
      let offset := offset + NGX_AUTH_WEBAUTHN_AAGUID_LEN in
      l0 ← load p offset; l1 ← load p (offset + 1);
      let cred_id_len := be16 l0 l1 in
      let offset := offset + 2 in
      let ad := {| rp_id_hash := h; flags := fl; sign_count := be32 b0 b1 b2 b3;
                   aaguid := g; credential_id := NULL; cose_public_key := NULL |} in
      if size_t (len - offset) <? cred_id_len then Some (NGX_DECLINED, Some ad) else
      cid ← slice p offset cred_id_len;
      let offset := offset + cred_id_len in
      key ← slice p offset (size_t (len - offset));
      Some (NGX_OK, Some
        {| rp_id_hash := h; flags := fl; sign_count := be32 b0 b1 b2 b3;
           aaguid := g; credential_id := Some cid; cose_public_key := Some key |})
  end.

(** ** The layout (WebAuthn level 2, 6.1) *)

Definition put_be32 (z : Z) : bytes :=
  [z2b (Z.shiftr z 24); z2b (Z.shiftr z 16); z2b (Z.shiftr z 8); z2b z].
Definition put_be16 (z : Z) : bytes := [z2b (Z.shiftr z 8); z2b z].

Definition has_flag (ad : ngx_auth_webauthn_authdata_t) (f : Z) : bool :=
  negb (Z.land (flags ad) f =? 0).

Definition authdata_prefix (ad : ngx_auth_webauthn_authdata_t) : bytes :=
  rp_id_hash ad ++ z2b (flags ad) :: put_be32 (sign_count ad).

Definition authdata_encode (ad : ngx_auth_webauthn_authdata_t) : bytes :=
  authdata_prefix ad ++
  (if has_flag ad NGX_AUTH_WEBAUTHN_AUTHDATA_FLAG_AT then
     aaguid ad ++ put_be16 (str_len (credential_id ad)) ++
     str_bytes (credential_id ad) ++ str_bytes (cose_public_key ad)
   else []).

(** What the C types guarantee of a record, and which fields the flag fills. *)
Definition authdata_wf (ad : ngx_auth_webauthn_authdata_t) : Prop :=
  zlen (rp_id_hash ad) = 32 /\ 0 <= flags ad < 256 /\ 0 <= sign_count ad < 2 ^ 32 /\
  zlen (aaguid ad) = 16 /\
  if has_flag ad NGX_AUTH_WEBAUTHN_AUTHDATA_FLAG_AT then
    (exists cid key, credential_id ad = Some cid /\ cose_public_key ad = Some key /\
       zlen cid < 2 ^ 16 /\ zlen cid + zlen key < 2 ^ 63)
  else aaguid ad = aaguid authdata_zero /\ credential_id ad = NULL /\
       cose_public_key ad = NULL.

(** ** Reading and writing the fields *)

Lemma be16_value b0 b1 : be16 (b2z b0) (b2z b1) = b2z b0 * 256 + b2z b1.
Proof. unfold be16. pose proof (b2z_range b1). by rewrite lor_shiftl_add. Qed.

Lemma be32_value b0 b1 b2 b3 :
  be32 (b2z b0) (b2z b1) (b2z b2) (b2z b3) =
  ((b2z b0 * 256 + b2z b1) * 256 + b2z b2) * 256 + b2z b3.
Proof.
  pose proof (b2z_range b0); pose proof (b2z_range b1);
  pose proof (b2z_range b2); pose proof (b2z_range b3).
  unfold be32.
  change 24 with (8 + 16) at 1. change 16 with (8 + 8) at 2.
  rewrite <- (Z.shiftl_shiftl (b2z b0)), <- (Z.shiftl_shiftl (b2z b1)) by lia.
  change 16 with (8 + 8) at 1. rewrite <- (Z.shiftl_shiftl (Z.shiftl _ _)) by lia.
  rewrite <- !Z.shiftl_lor. rewrite !lor_shiftl_add by lia. lia.
Qed.

Lemma put_be32_be32 b0 b1 b2 b3 :
  put_be32 (be32 (b2z b0) (b2z b1) (b2z b2) (b2z b3)) = [b0; b1; b2; b3].
Proof.
  rewrite be32_value. pose proof (b2z_range b0); pose proof (b2z_range b1);
  pose proof (b2z_range b2); pose proof (b2z_range b3).
  unfold put_be32. repeat f_equal; apply b2z_inj;
    rewrite b2z_z2b, ?Z.shiftr_div_pow2 by lia; div_lia.
Qed.

Lemma put_be16_be16 b0 b1 : put_be16 (be16 (b2z b0) (b2z b1)) = [b0; b1].
Proof.
  rewrite be16_value. pose proof (b2z_range b0); pose proof (b2z_range b1).
  unfold put_be16. repeat f_equal; apply b2z_inj;
    rewrite b2z_z2b, ?Z.shiftr_div_pow2 by lia; div_lia.
Qed.

Lemma be16_range b0 b1 : 0 <= be16 (b2z b0) (b2z b1) < 2 ^ 16.
Proof. rewrite be16_value. pose proof (b2z_range b0); pose proof (b2z_range b1). lia. Qed.

Lemma be32_range b0 b1 b2 b3 :
  0 <= be32 (b2z b0) (b2z b1) (b2z b2) (b2z b3) < 2 ^ 32.
Proof.
  rewrite be32_value. pose proof (b2z_range b0); pose proof (b2z_range b1);
  pose proof (b2z_range b2); pose proof (b2z_range b3). lia.
Qed.

Lemma be32_put_be32 z :
  0 <= z < 2 ^ 32 ->
  be32 (b2z (z2b (Z.shiftr z 24))) (b2z (z2b (Z.shiftr z 16)))
       (b2z (z2b (Z.shiftr z 8))) (b2z (z2b z)) = z.
Proof.
  intros Hz. rewrite be32_value, !b2z_z2b, !Z.shiftr_div_pow2 by lia.
  change (2 ^ 24) with 16777216. change (2 ^ 16) with 65536. change (2 ^ 8) with 256.
  change (2 ^ 32) with 4294967296 in Hz. div_lia.
Qed.

Lemma be16_put_be16 z :
  0 <= z < 2 ^ 16 -> be16 (b2z (z2b (Z.shiftr z 8))) (b2z (z2b z)) = z.
Proof.
  intros Hz. rewrite be16_value, !b2z_z2b, !Z.shiftr_div_pow2 by lia.
  change (2 ^ 8) with 256. change (2 ^ 16) with 65536 in Hz. div_lia.
Qed.

Lemma slice_app a b c off n :
  zlen a = off -> zlen b = n -> slice (a ++ b ++ c) off n = Some b.
Proof.
  intros <- <-. unfold slice. pose proof (zlen_nonneg a); pose proof (zlen_nonneg b).
  pose proof (zlen_nonneg c). rewrite !zlen_app.
  destruct (Z.leb_spec 0 (zlen a)), (Z.leb_spec 0 (zlen b)),
    (Z.leb_spec (zlen a + zlen b) (zlen a + (zlen b + zlen c))); try lia.
  simpl. unfold zlen. rewrite !Nat2Z.id, drop_app_length, take_app_length. done.
Qed.

Lemma load_app a x c i : zlen a = i -> load (a ++ x :: c) i = Some (b2z x).
Proof.
  intros <-. unfold load. destruct (Z.ltb_spec (zlen a) 0) as [?|_].
  { pose proof (zlen_nonneg a). lia. }
  unfold zlen. rewrite Nat2Z.id, list_lookup_middle; done.
Qed.

Lemma load_app2 a b x c i : zlen a + zlen b = i -> load (a ++ b ++ x :: c) i = Some (b2z x).
Proof. intros <-. rewrite app_assoc. apply load_app, zlen_app. Qed.

(** Cutting [n] bytes off the front. *)
Lemma split_front (p : bytes) n :
  0 <= n <= zlen p -> exists a b, p = a ++ b /\ zlen a = n.
Proof.
  intros Hn. exists (take (Z.to_nat n) p), (drop (Z.to_nat n) p).
  rewrite take_drop. split; [done|]. unfold zlen in *. rewrite length_take. lia.
Qed.

Ltac uncons_bytes p x :=
  destruct p as [|x p]; [unfold zlen in *; simpl in *; lia|];
  rewrite zlen_cons in *.

(** The fixed prefix, cut into its fields. *)
Lemma authdata_fields (p : bytes) :
  37 <= zlen p -> exists h fl b0 b1 b2 b3 rest,
    p = h ++ fl :: b0 :: b1 :: b2 :: b3 :: rest /\ zlen h = 32.
Proof.
  intros Hp. destruct (split_front p 32) as (h & q & -> & Hh); [lia|].
  rewrite zlen_app in Hp.
  uncons_bytes q fl. uncons_bytes q b0. uncons_bytes q b1. uncons_bytes q b2.
  uncons_bytes q b3. by exists h, fl, b0, b1, b2, b3, q.
Qed.

(** aaguid and the length field. *)
Lemma attested_fields (p : bytes) :
  18 <= zlen p -> exists g l0 l1 rest, p = g ++ l0 :: l1 :: rest /\ zlen g = 16.
Proof.
  intros Hp. destruct (split_front p 16) as (g & q & -> & Hg); [lia|].
  rewrite zlen_app in Hp. uncons_bytes q l0. uncons_bytes q l1.
  by exists g, l0, l1, q.
Qed.

(** The reads of the attested part, after a prefix of 37 bytes. *)
Lemma attested_loads P g l0 l1 tail :
  zlen P = 37 -> zlen g = 16 ->
  let p := P ++ g ++ l0 :: l1 :: tail in
  slice p 37 16 = Some g /\ load p 53 = Some (b2z l0) /\ load p 54 = Some (b2z l1) /\
  forall cid key, tail = cid ++ key ->
    slice p 55 (zlen cid) = Some cid /\ slice p (55 + zlen cid) (zlen key) = Some key.
Proof.
  intros HP Hg p. unfold p.
  assert (P ++ g ++ l0 :: l1 :: tail = P ++ (g ++ [l0]) ++ l1 :: tail) as E1
    by by rewrite <- app_assoc.
  assert (P ++ g ++ l0 :: l1 :: tail = (P ++ g ++ [l0; l1]) ++ tail) as E2
    by by rewrite <- !app_assoc.
  assert (zlen (P ++ g ++ [l0; l1]) = 55) as HP2 by (rewrite !zlen_app, HP, Hg; done).
  split_and!.
  - by apply slice_app.
  - apply load_app2. by rewrite HP, Hg.
  - rewrite E1. apply load_app2. by rewrite zlen_app, HP, Hg.
  - intros cid key ->. rewrite E2. split; [by apply slice_app|].
    rewrite app_assoc, <- (app_nil_r key) at 1. apply slice_app; [|done].
    by rewrite zlen_app, HP2.
Qed.

Section parse.
Context (h : bytes) (fl b0 b1 b2 b3 : byte) (out : ngx_auth_webauthn_authdata_t).
Hypothesis Hh : zlen h = 32.

Definition fixed_fields g cid key : ngx_auth_webauthn_authdata_t :=
  {| rp_id_hash := h; flags := b2z fl;
     sign_count := be32 (b2z b0) (b2z b1) (b2z b2) (b2z b3);
     aaguid := g; credential_id := cid; cose_public_key := key |}.

Abbreviation data rest := (h ++ fl :: b0 :: b1 :: b2 :: b3 :: rest).
Abbreviation parse rest :=
  (ngx_auth_webauthn_authdata_parse (Some (data rest)) (zlen (data rest)) (Some out)).

Lemma data_len rest : zlen (data rest) = 37 + zlen rest.
Proof using Hh. rewrite zlen_app, !zlen_cons. lia. Qed.

Lemma data_load rest :
  slice (data rest) 0 32 = Some h /\ load (data rest) 32 = Some (b2z fl) /\
  load (data rest) 33 = Some (b2z b0) /\ load (data rest) 34 = Some (b2z b1) /\
  load (data rest) 35 = Some (b2z b2) /\ load (data rest) 36 = Some (b2z b3).
Proof using Hh.
  split_and!.
  - by apply (slice_app []).
  - by apply load_app.
  - apply (load_app2 _ [fl]). by rewrite Hh.
  - apply (load_app2 _ [fl; b0]). by rewrite Hh.
  - apply (load_app2 _ [fl; b0; b1]). by rewrite Hh.
  - apply (load_app2 _ [fl; b0; b1; b2]). by rewrite Hh.
Qed.

Lemma parse_plain rest :
  Z.land (b2z fl) 64 = 0 ->
  parse rest = Some (NGX_OK, Some (fixed_fields (aaguid authdata_zero) NULL NULL)).
Proof using Hh.
  intros Hf. destruct (data_load rest) as (E0 & E1 & E2 & E3 & E4 & E5).
  unfold ngx_auth_webauthn_authdata_parse. cbn [nullp].
  unfold NGX_AUTH_WEBAUTHN_AUTHDATA_MIN_LEN, NGX_AUTH_WEBAUTHN_SHA256_LEN.
  rewrite data_len. pose proof (zlen_nonneg rest).
  destruct (Z.ltb_spec (37 + zlen rest) 37); [lia|].
  rewrite E0, E1, E2, E3, E4, E5. cbn [mbind option_bind].
  unfold NGX_AUTH_WEBAUTHN_AUTHDATA_FLAG_AT. by rewrite Hf.
Qed.

(** With AT: too short for aaguid and length, or the length field decides. *)
Lemma parse_attested_short rest :
  Z.land (b2z fl) 64 <> 0 -> zlen rest < 18 ->
  parse rest = Some (NGX_DECLINED, Some (fixed_fields (aaguid authdata_zero) NULL NULL)).
Proof using Hh.
  intros Hf Hr. destruct (data_load rest) as (E0 & E1 & E2 & E3 & E4 & E5).
  unfold ngx_auth_webauthn_authdata_parse. cbn [nullp].
  unfold NGX_AUTH_WEBAUTHN_AUTHDATA_MIN_LEN, NGX_AUTH_WEBAUTHN_SHA256_LEN,
    NGX_AUTH_WEBAUTHN_AAGUID_LEN.
  rewrite data_len. pose proof (zlen_nonneg rest).
  destruct (Z.ltb_spec (37 + zlen rest) 37); [lia|].
  rewrite E0, E1, E2, E3, E4, E5. cbn [mbind option_bind].
  unfold NGX_AUTH_WEBAUTHN_AUTHDATA_FLAG_AT.
  destruct (Z.eqb_spec (Z.land (b2z fl) 64) 0); [done|].
  by destruct (Z.ltb_spec (37 + zlen rest) (37 + 16 + 2)); [|lia].
Qed.

Lemma parse_attested g l0 l1 tail :
  Z.land (b2z fl) 64 <> 0 -> zlen g = 16 -> zlen tail < 2 ^ 63 ->
  let n := be16 (b2z l0) (b2z l1) in
  parse (g ++ l0 :: l1 :: tail) =
    if zlen tail <? n then Some (NGX_DECLINED, Some (fixed_fields g NULL NULL))
    else Some (NGX_OK, Some (fixed_fields g (Some (take (Z.to_nat n) tail))
                                          (Some (drop (Z.to_nat n) tail)))).
Proof using Hh.
  intros Hf Hg Ht n. pose proof (be16_range l0 l1) as Hn. fold n in Hn.
  destruct (data_load (g ++ l0 :: l1 :: tail)) as (E0 & E1 & E2 & E3 & E4 & E5).
  destruct (attested_loads (h ++ [fl; b0; b1; b2; b3]) g l0 l1 tail) as (E6 & E7 & E8 & Ec);
    [by rewrite zlen_app, Hh|done|].
  rewrite <- app_assoc in E6, E7, E8, Ec. cbn [app] in E6, E7, E8, Ec.
  pose proof (zlen_nonneg tail).
  unfold ngx_auth_webauthn_authdata_parse. cbn [nullp].
  unfold NGX_AUTH_WEBAUTHN_AUTHDATA_MIN_LEN, NGX_AUTH_WEBAUTHN_SHA256_LEN,
    NGX_AUTH_WEBAUTHN_AAGUID_LEN, NGX_AUTH_WEBAUTHN_AUTHDATA_FLAG_AT.
  rewrite data_len, zlen_app, !zlen_cons, Hg.
  destruct (Z.ltb_spec (37 + (16 + (1 + (1 + zlen tail)))) 37); [lia|].
  rewrite E0, E1, E2, E3, E4, E5. cbn [mbind option_bind].
  destruct (Z.eqb_spec (Z.land (b2z fl) 64) 0); [done|].
  destruct (Z.ltb_spec (37 + (16 + (1 + (1 + zlen tail)))) (37 + 16 + 2)); [lia|].
  change (37 + 16) with 53. change (53 + 1) with 54. change (53 + 2) with 55.
  rewrite E6, E7, E8. cbn [mbind option_bind]. fold n.
  replace (37 + (16 + (1 + (1 + zlen tail))) - 55) with (zlen tail) by lia.
  rewrite (size_t_small (zlen tail)) by lia.
  destruct (Z.ltb_spec (zlen tail) n) as [?|Hle]; [done|].
  destruct (split_front tail n ltac:(lia)) as (cid & key & Hcut & Hcid).
  destruct (Ec _ _ Hcut) as [E9 E10]. rewrite Hcid in E9, E10.
  pose proof (zlen_nonneg key). assert (zlen tail = n + zlen key) by (rewrite Hcut, zlen_app; lia).
  rewrite E9. cbn [mbind option_bind].
  replace (37 + (16 + (1 + (1 + zlen tail))) - (55 + n)) with (zlen key) by lia.
  rewrite size_t_small, E10 by lia. cbn [mbind option_bind]. unfold fixed_fields.
  rewrite Hcut, <- Hcid. unfold zlen. by rewrite Nat2Z.id, take_app_length, drop_app_length.
Qed.
End parse.

(** ** Correctness *)

(** [data] is an encoding of [ad]; the assertion form may be followed by
    anything, the attestation form is read to the last byte. *)
Definition authdata_reads (p : bytes) (ad : ngx_auth_webauthn_authdata_t) : Prop :=
  authdata_wf ad /\ exists trailing, p = authdata_encode ad ++ trailing /\
    (has_flag ad NGX_AUTH_WEBAUTHN_AUTHDATA_FLAG_AT = true -> trailing = []).

Lemma has_at_eq ad :
  has_flag ad NGX_AUTH_WEBAUTHN_AUTHDATA_FLAG_AT = negb (Z.land (flags ad) 64 =? 0).
Proof. done. Qed.

Lemma put_be_fields fl b0 b1 b2 b3 (x : bytes) :
  z2b (b2z fl) :: put_be32 (be32 (b2z b0) (b2z b1) (b2z b2) (b2z b3)) ++ x =
  fl :: b0 :: b1 :: b2 :: b3 :: x.
Proof. by rewrite z2b_b2z, put_be32_be32. Qed.

Lemma plain_reads h fl b0 b1 b2 b3 rest :
  zlen h = 32 -> Z.land (b2z fl) 64 = 0 ->
  authdata_reads (h ++ fl :: b0 :: b1 :: b2 :: b3 :: rest)
    (fixed_fields h fl b0 b1 b2 b3 (aaguid authdata_zero) NULL NULL).
Proof.
  intros Hh Hf. pose proof (b2z_range fl). pose proof (be32_range b0 b1 b2 b3).
  assert (has_flag (fixed_fields h fl b0 b1 b2 b3 (aaguid authdata_zero) NULL NULL)
    NGX_AUTH_WEBAUTHN_AUTHDATA_FLAG_AT = false) as Hat
    by (rewrite has_at_eq; cbn [fixed_fields flags]; by rewrite Hf).
  split.
  - unfold authdata_wf. rewrite Hat. split_and!; cbn; lia || done.
  - exists rest. unfold authdata_encode, authdata_prefix. rewrite Hat. split; [|done].
    rewrite app_nil_r, <- app_assoc. f_equal. symmetry. apply put_be_fields.
Qed.

Lemma attested_reads h fl b0 b1 b2 b3 g l0 l1 cid key :
  zlen h = 32 -> zlen g = 16 -> Z.land (b2z fl) 64 <> 0 ->
  zlen cid = be16 (b2z l0) (b2z l1) -> zlen cid + zlen key < 2 ^ 63 ->
  authdata_reads (h ++ fl :: b0 :: b1 :: b2 :: b3 :: g ++ l0 :: l1 :: cid ++ key)
    (fixed_fields h fl b0 b1 b2 b3 g (Some cid) (Some key)).
Proof.
  intros Hh Hg Hf Hcid Hlen. pose proof (b2z_range fl). pose proof (be32_range b0 b1 b2 b3).
  pose proof (be16_range l0 l1).
  assert (has_flag (fixed_fields h fl b0 b1 b2 b3 g (Some cid) (Some key))
    NGX_AUTH_WEBAUTHN_AUTHDATA_FLAG_AT = true) as Hat by (by apply negb_true_iff, Z.eqb_neq).
  split.
  - unfold authdata_wf. rewrite Hat. split_and!; cbn; try (lia || done).
    exists cid, key. split_and!; done || lia.
  - exists []. unfold authdata_encode, authdata_prefix. rewrite Hat. split; [|done].
    rewrite app_nil_r, <- app_assoc. cbn [fixed_fields rp_id_hash aaguid credential_id].
    replace (str_len (Some cid)) with (be16 (b2z l0) (b2z l1)) by done.
    rewrite put_be16_be16. f_equal. symmetry. apply put_be_fields.
Qed.

Lemma authdata_ok_reads p out ad :
  zlen p < 2 ^ 63 ->
  ngx_auth_webauthn_authdata_parse (Some p) (zlen p) (Some out) = Some (NGX_OK, Some ad) ->
  authdata_reads p ad.
Proof.
  intros Hlen. destruct (Z.lt_ge_cases (zlen p) 37) as [Hs|Hs].
  { unfold ngx_auth_webauthn_authdata_parse, NGX_AUTH_WEBAUTHN_AUTHDATA_MIN_LEN. cbn [nullp].
    by destruct (Z.ltb_spec (zlen p) 37); [|lia]. }
  destruct (authdata_fields p Hs) as (h & fl & b0 & b1 & b2 & b3 & rest & -> & Hh).
  rewrite data_len in Hlen by done.
  destruct (Z.eq_dec (Z.land (b2z fl) 64) 0) as [Hf|Hf].
  { rewrite parse_plain by done. intros [= <-]. by apply plain_reads. }
  destruct (Z.lt_ge_cases (zlen rest) 18) as [Hr|Hr]; [by rewrite parse_attested_short|].
  destruct (attested_fields rest Hr) as (g & l0 & l1 & tail & -> & Hg).
  rewrite zlen_app, !zlen_cons in Hlen. pose proof (be16_range l0 l1).
  rewrite parse_attested by (done || lia).
  destruct (Z.ltb_spec (zlen tail) (be16 (b2z l0) (b2z l1))) as [?|Hn]; [done|].
  intros [= <-].
  destruct (split_front tail (be16 (b2z l0) (b2z l1)) ltac:(lia)) as (cid & key & -> & Hcid).
  assert (Z.to_nat (be16 (b2z l0) (b2z l1)) = length cid) as -> by (unfold zlen in Hcid; lia).
  rewrite take_app_length, drop_app_length. rewrite zlen_app in Hlen.
  apply attested_reads; done || lia.
Qed.

Lemma authdata_reads_ok p out ad :
  zlen p < 2 ^ 63 -> authdata_reads p ad ->
  ngx_auth_webauthn_authdata_parse (Some p) (zlen p) (Some out) = Some (NGX_OK, Some ad).
Proof.
  intros Hlen [(Hh & Hfl & Hsc & Hg & Hwf) (t & -> & Ht)].
  destruct ad as [h f sc g c k]; cbn [rp_id_hash flags sign_count aaguid credential_id
    cose_public_key] in *.
  assert (b2z (z2b f) = f) as Hf by (rewrite b2z_z2b; by apply Z.mod_small).
  unfold authdata_encode, authdata_prefix in *. unfold put_be32 in *.
  rewrite has_at_eq in *. cbn [rp_id_hash flags sign_count aaguid credential_id cose_public_key
    negb app] in *.
  destruct (Z.eqb_spec (Z.land f 64) 0) as [E|E]; cbn [negb] in *.
  - destruct Hwf as (-> & -> & ->). rewrite app_nil_r, <- app_assoc. cbn [app].
    rewrite parse_plain by (rewrite ?Hf; done).
    unfold fixed_fields. by rewrite Hf, be32_put_be32.
  - destruct Hwf as (cid & key & -> & -> & Hcid & Hk). rewrite (Ht eq_refl), app_nil_r in *.
    rewrite <- app_assoc in *. cbn [app put_be16 str_bytes default] in *.
    pose proof (zlen_nonneg cid). pose proof (zlen_nonneg key).
    rewrite parse_attested by (rewrite ?Hf, ?zlen_app; done || lia).
    rewrite be16_put_be16 by (unfold str_len; cbn; unfold zlen in *; lia).
    change (str_len (Some cid)) with (zlen cid).
    change (id cid ++ id key) with (cid ++ key). rewrite zlen_app.
    destruct (Z.ltb_spec (zlen cid + zlen key) (zlen cid)); [lia|].
    unfold zlen. rewrite Nat2Z.id, take_app_length, drop_app_length.
    unfold fixed_fields. by rewrite Hf, be32_put_be32.
Qed.

Lemma authdata_reads_inj p ad1 ad2 :
  zlen p < 2 ^ 63 -> authdata_reads p ad1 -> authdata_reads p ad2 -> ad1 = ad2.
Proof.
  intros Hlen H1 H2. pose proof (authdata_reads_ok p authdata_zero _ Hlen H1).
  pose proof (authdata_reads_ok p authdata_zero _ Hlen H2). congruence.
Qed.

(** The parser never reads outside the area and answers OK or DECLINED. *)
Lemma authdata_parse_answers p out :
  zlen p < 2 ^ 63 -> exists rc ad, rc <> NGX_ERROR /\
  ngx_auth_webauthn_authdata_parse (Some p) (zlen p) (Some out) = Some (rc, Some ad).
Proof.
  intros Hlen. destruct (Z.lt_ge_cases (zlen p) 37) as [Hs|Hs].
  { unfold ngx_auth_webauthn_authdata_parse, NGX_AUTH_WEBAUTHN_AUTHDATA_MIN_LEN. cbn [nullp].
    destruct (Z.ltb_spec (zlen p) 37); [by exists NGX_DECLINED, authdata_zero|lia]. }
  destruct (authdata_fields p Hs) as (h & fl & b0 & b1 & b2 & b3 & rest & -> & Hh).
  rewrite data_len in Hlen by done.
  destruct (Z.eq_dec (Z.land (b2z fl) 64) 0) as [Hf|Hf].
  { rewrite parse_plain by done. by eexists NGX_OK, _. }
  destruct (Z.lt_ge_cases (zlen rest) 18) as [Hr|Hr].
  { rewrite parse_attested_short by done. by eexists NGX_DECLINED, _. }
  destruct (attested_fields rest Hr) as (g & l0 & l1 & tail & -> & Hg).
  rewrite zlen_app, !zlen_cons in Hlen.
  rewrite parse_attested by (done || lia).
  destruct (_ <? _); [by eexists NGX_DECLINED, _|by eexists NGX_OK, _].
Qed.

(** C18: on every input the parser stays inside the buffer and terminates; it
    answers NGX_OK with exactly the record of which the input is an encoding
    (the attestation form read to its last byte), and NGX_DECLINED exactly
    when the input encodes no record. *)
Theorem authdata_parse_correct (p : bytes) (out : ngx_auth_webauthn_authdata_t) :
  zlen p < 2 ^ 63 ->
  exists rc ad,
    ngx_auth_webauthn_authdata_parse (Some p) (zlen p) (Some out) = Some (rc, Some ad) /\
    match rc with
    | NGX_OK => authdata_reads p ad
    | NGX_DECLINED => forall ad', ~ authdata_reads p ad'
    | NGX_ERROR => False
    end.
Proof.
  intros Hlen. destruct (authdata_parse_answers p out Hlen) as (rc & ad & Hrc & E).
  exists rc, ad. split; [done|]. destruct rc; [|done|].
  - by eapply authdata_ok_reads.
  - intros ad' Hr. by rewrite (authdata_reads_ok p out ad') in E.
Qed.

(** C17: decoding an encoded record gives the record back. *)
Theorem authdata_roundtrip (ad out : ngx_auth_webauthn_authdata_t) :
  authdata_wf ad -> zlen (authdata_encode ad) < 2 ^ 63 ->
  ngx_auth_webauthn_authdata_parse (Some (authdata_encode ad)) (zlen (authdata_encode ad))
    (Some out) = Some (NGX_OK, Some ad).
Proof.
  intros Hwf Hlen. apply authdata_reads_ok; [done|]. split; [done|].
  exists []. by rewrite app_nil_r.
Qed.

(** A registration record with a three-byte credential id. *)
Definition sample_authdata : ngx_auth_webauthn_authdata_t :=
  {| rp_id_hash := replicate 32 Byte.x41; flags := 65; sign_count := 16909060;
     aaguid := replicate 16 Byte.x07; credential_id := Some (bs "cid");
     cose_public_key := Some (bs "key") |}.

Lemma sample_authdata_wf : authdata_wf sample_authdata.
Proof. unfold authdata_wf. cbn. split_and!; try done. by exists (bs "cid"), (bs "key"). Qed.

Lemma authdata_roundtrip_witness :
  ngx_auth_webauthn_authdata_parse (Some (authdata_encode sample_authdata)) 61
    (Some authdata_zero) = Some (NGX_OK, Some sample_authdata).
Proof. apply (authdata_roundtrip sample_authdata authdata_zero sample_authdata_wf). reflexivity. Defined.

Lemma authdata_parse_correct_witness :
  exists rc ad,
    ngx_auth_webauthn_authdata_parse (Some (bs "short")) 5 (Some authdata_zero)
      = Some (rc, Some ad) /\
    match rc with
    | NGX_OK => authdata_reads (bs "short") ad
    | NGX_DECLINED => forall ad', ~ authdata_reads (bs "short") ad'
    | NGX_ERROR => False
    end.
Proof. apply (authdata_parse_correct (bs "short") authdata_zero). reflexivity. Defined.

(** The assertion form is not "exactly the 37-byte prefix" the header
    file speaks of: with the AT flag clear, any bytes after the prefix are
    accepted and ignored. *)
Theorem authdata_trailing_accepted (h rest : bytes) (fl b0 b1 b2 b3 : byte) out :
  zlen h = 32 -> Z.land (b2z fl) NGX_AUTH_WEBAUTHN_AUTHDATA_FLAG_AT = 0 ->
  let p t := h ++ fl :: b0 :: b1 :: b2 :: b3 :: t in
  ngx_auth_webauthn_authdata_parse (Some (p rest)) (zlen (p rest)) (Some out) =
  ngx_auth_webauthn_authdata_parse (Some (p [])) (zlen (p [])) (Some out).
Proof. intros Hh Hf p. unfold p. by rewrite !parse_plain. Qed.

Lemma authdata_trailing_accepted_witness :
  zlen (replicate 32 Byte.x00) = 32 /\
  ngx_auth_webauthn_authdata_parse
    (Some (replicate 32 Byte.x00 ++ Byte.x01 :: replicate 4 Byte.x00 ++ bs "extra")) 42
    (Some authdata_zero) =
  ngx_auth_webauthn_authdata_parse
    (Some (replicate 32 Byte.x00 ++ Byte.x01 :: replicate 4 Byte.x00)) 37 (Some authdata_zero).
Proof.
  split; [reflexivity|].
  apply (authdata_trailing_accepted (replicate 32 Byte.x00) (bs "extra") Byte.x01
           Byte.x00 Byte.x00 Byte.x00 Byte.x00 authdata_zero); reflexivity.
Defined.
