(* ===== verification/Hash.v ===== *)
(** * SHA-256: src/ngx_auth_webauthn_hash.c

    The one-shot digest over a parameter for EVP_Digest, and when it answers
    NGX_OK: for a digest of exactly 32 bytes. *)

From S2P Require Import Prelude Effects Externals AuthData.
#[global] Open Scope Z_scope.

Section hash.
Context `{OpenSSL}.

(** Return code and, on NGX_OK, the 32 bytes written to [out]. *)
Definition ngx_auth_webauthn_hash_sha256 (data : ptr bytes) (len : Z) (out : ptr unit)
    : ngx_rc * bytes :=
  if nullp out || (nullp data && negb (len =? 0)) then (NGX_ERROR, [])
  else
    let input := if len =? 0 then [] else take (Z.to_nat len) (str_bytes data) in
    match EVP_Digest input with
    | None => (NGX_ERROR, [])
    | Some digest =>
        if negb (zlen digest =? NGX_AUTH_WEBAUTHN_SHA256_LEN) then (NGX_ERROR, [])
        else (NGX_OK, digest)
    end.

Lemma hash_ok data len out d :
  ngx_auth_webauthn_hash_sha256 data len out = (NGX_OK, d) -> zlen d = 32.
Proof.
  unfold ngx_auth_webauthn_hash_sha256. destruct (_ || _); [done|].
  destruct (EVP_Digest _) as [d'|]; [|done].
  destruct (Z.eqb_spec (zlen d') NGX_AUTH_WEBAUTHN_SHA256_LEN); [|done].
  by intros [= <-].
Qed.

(** The hash of a whole string: a digest of 32 bytes, or an error. *)
Lemma hash_of_str (s : ngx_str_t) :
  ngx_auth_webauthn_hash_sha256 s (str_len s) (Some tt) =
  match EVP_Digest (str_bytes s) with
  | Some d => if zlen d =? 32 then (NGX_OK, d) else (NGX_ERROR, [])
  | None => (NGX_ERROR, [])
  end.
Proof.
  unfold ngx_auth_webauthn_hash_sha256.
  assert (nullp (Some tt) || nullp s && negb (str_len s =? 0) = false) as -> by by destruct s.
  assert ((if str_len s =? 0 then [] else take (Z.to_nat (str_len s)) (str_bytes s))
          = str_bytes s) as ->.
  { destruct (Z.eqb_spec (str_len s) 0) as [E|E].
    - symmetry. by apply zlen_0.
    - unfold str_len. by rewrite Nat2Z.id, firstn_all. }
  destruct (EVP_Digest (str_bytes s)) as [d|]; [|done]. unfold NGX_AUTH_WEBAUTHN_SHA256_LEN.
  by destruct (zlen d =? 32).
Qed.
End hash.
