(* ===== verification/ClientData.v ===== *)
(** * clientDataJSON: src/ngx_auth_webauthn_clientdata.c

    The JSON checks of an assertion: type, challenge, origin, crossOrigin.
    A [(data, len)] pair of arguments is one nullable byte string here. *)

From S2P Require Import Prelude Effects Externals Samples.
#[global] Open Scope Z_scope.

Section clientdata.
Context `{JSON : NxeJson, B64 : NginxBase64, SSL : OpenSSL}.

Definition ngx_auth_webauthn_clientdata_get_string (root : nxe_json_t) (key : bytes)
    : ngx_rc * bytes :=
  match nxe_json_object_get root key with
  | None => (NGX_DECLINED, [])
  | Some node =>
      match nxe_json_string node with
      | None => (NGX_DECLINED, [])
      | Some s => (NGX_OK, s)
      end
  end.

Definition ngx_auth_webauthn_str_equal (a b : ngx_str_t) : bool :=
  (str_len a =? str_len b)
  && ((str_len a =? 0) || memeq (str_bytes a) (str_bytes b) (Z.to_nat (str_len a))).

(** The loop over the allow-list. *)
Fixpoint origin_loop (origin : bytes) (allowed : list ngx_str_t) : ngx_rc :=
  match allowed with
  | [] => NGX_DECLINED
  | o :: rest =>
      if ngx_auth_webauthn_str_equal (Some origin) o then NGX_OK
      else origin_loop origin rest
  end.

(** crossOrigin is present, a boolean, and true. *)
Definition cross_origin_true (root : nxe_json_t) : bool :=
  match nxe_json_object_get root (bs "crossOrigin") with
  | None => false
  | Some node => match nxe_json_boolean node with Some true => true | _ => false end
  end.

(** The checks between the parse and the label [done]. *)
Definition clientdata_checks (root : nxe_json_t) (expected_type expected_challenge : ngx_str_t)
    (allowed_origins : list ngx_str_t) : prog ngx_rc :=
  let '(rc, type) := ngx_auth_webauthn_clientdata_get_string root (bs "type") in
  if negb (is_ok rc) then Ret NGX_DECLINED else
  if negb (ngx_auth_webauthn_str_equal (Some type) expected_type) then Ret NGX_DECLINED else
  let '(rc, challenge_b64) :=
    ngx_auth_webauthn_clientdata_get_string root (bs "challenge") in
  if negb (is_ok rc) then Ret NGX_DECLINED else
  let room := ngx_base64_decoded_length (zlen challenge_b64) in
  ok <- call (ngx_pnalloc (size_t room)) ;;
  if negb ok then Ret NGX_ERROR else
  match ngx_decode_base64url challenge_b64 with
  | None => Ret NGX_DECLINED
  | Some challenge =>
      if size_t room <? zlen challenge then UB else
      if negb (zlen challenge =? str_len expected_challenge)
         || negb (CRYPTO_memcmp challenge (str_bytes expected_challenge) (zlen challenge) =? 0)
      then Ret NGX_DECLINED else
      let '(rc, origin) := ngx_auth_webauthn_clientdata_get_string root (bs "origin") in
      if negb (is_ok rc) then Ret NGX_DECLINED else
      let rc := origin_loop origin allowed_origins in
      if negb (is_ok rc) then Ret rc else
      if cross_origin_true root then Ret NGX_DECLINED else
      Ret NGX_OK
  end.

Definition ngx_auth_webauthn_clientdata_verify (pool : ptr unit) (data : ngx_str_t)
    (expected_type expected_challenge : ptr ngx_str_t)
    (allowed_origins : ptr (list ngx_str_t)) (norigins : Z) : prog ngx_rc :=
  if nullp pool || nullp data || nullp expected_type || nullp expected_challenge
     || ((0 <? norigins) && nullp allowed_origins)
  then Ret NGX_ERROR
  else
    input <- deref data ;;
    match nxe_json_parse_untrusted input with
    | None => Ret NGX_DECLINED
    | Some root =>
        call (res_hold R_JSON) ;;
        type <- deref expected_type ;;
        challenge <- deref expected_challenge ;;
        let origins := default [] allowed_origins in
        if zlen origins <? norigins then UB else
        rc <- clientdata_checks root type challenge (take (Z.to_nat norigins) origins) ;;
        call (res_free R_JSON) ;;
        Ret rc
    end.

(** ** Commands: none *)

Lemma clientdata_verify_calls P `{!Background P} pool data type challenge os n :
  all_calls P (ngx_auth_webauthn_clientdata_verify pool data type challenge os n).
Proof.
  assert (forall root t c o, all_calls P (clientdata_checks root t c o)) as Hc.
  { intros root t c o. unfold clientdata_checks.
    destruct (ngx_auth_webauthn_clientdata_get_string root _) as [rc1 t1].
    destruct (ngx_auth_webauthn_clientdata_get_string root (bs "challenge")) as [rc2 t2].
    destruct (ngx_auth_webauthn_clientdata_get_string root (bs "origin")) as [rc3 t3]. calls. }
  unfold ngx_auth_webauthn_clientdata_verify. calls; apply Hc.
Qed.

(** ** What a client data string must say *)

Definition get_str (root : nxe_json_t) (key : bytes) : option bytes :=
  nxe_json_object_get root key ≫= nxe_json_string.

(** The WebAuthn conditions on clientDataJSON (7.2, steps 11-14). *)
Record clientdata_root_ok (root : nxe_json_t) (type challenge : bytes)
    (origins : list bytes) : Prop := {
  cda_type : get_str root (bs "type") = Some type;
  cda_challenge : exists b64, get_str root (bs "challenge") = Some b64 /\
    ngx_decode_base64url b64 = Some challenge;
  cda_origin : exists o, get_str root (bs "origin") = Some o /\ o ∈ origins;
  cda_cross : forall node, nxe_json_object_get root (bs "crossOrigin") = Some node ->
    nxe_json_boolean node <> Some true;
}.

Definition clientdata_accepts (data type challenge : bytes) (origins : list bytes) : Prop :=
  exists root, nxe_json_parse_untrusted data = Some root /\
    clientdata_root_ok root type challenge origins.

Lemma get_string_eq root key :
  ngx_auth_webauthn_clientdata_get_string root key =
  match get_str root key with Some s => (NGX_OK, s) | None => (NGX_DECLINED, []) end.
Proof.
  unfold ngx_auth_webauthn_clientdata_get_string, get_str.
  destruct (nxe_json_object_get root key) as [n|]; [|done]. simpl.
  by destruct (nxe_json_string n).
Qed.

Lemma str_equal_eq a b :
  ngx_auth_webauthn_str_equal a b = bytes_eqb (str_bytes a) (str_bytes b).
Proof.
  unfold ngx_auth_webauthn_str_equal, str_len. rewrite Nat2Z.id, <- len_memeq.
  destruct (Nat.eqb_spec (length (str_bytes a)) (length (str_bytes b))) as [E|E].
  - rewrite E, Z.eqb_refl. simpl.
    destruct (Z.eqb_spec (Z.of_nat (length (str_bytes b))) 0) as [E0|]; [|done].
    assert (length (str_bytes b) = 0%nat) as E1 by lia.
    rewrite E1. unfold memeq. by rewrite bool_decide_true.
  - destruct (Z.eqb_spec (Z.of_nat (length (str_bytes a))) (Z.of_nat (length (str_bytes b))));
      [lia|done].
Qed.

Lemma origin_loop_ok origin allowed :
  origin_loop origin allowed =
  if bool_decide (origin ∈ str_bytes <$> allowed) then NGX_OK else NGX_DECLINED.
Proof.
  induction allowed as [|o rest IH]; simpl; [done|].
  rewrite str_equal_eq, IH. unfold bytes_eqb. cbn [str_bytes default].
  destruct (decide (origin = str_bytes o)) as [E|E].
  - rewrite (bool_decide_true (_ = _)) by done. by rewrite bool_decide_true by set_solver.
  - rewrite (bool_decide_false (_ = _)) by done.
    repeat case_bool_decide; set_solver.
Qed.

Lemma cross_origin_true_iff root :
  cross_origin_true root = false <->
  forall node, nxe_json_object_get root (bs "crossOrigin") = Some node ->
    nxe_json_boolean node <> Some true.
Proof.
  unfold cross_origin_true. destruct (nxe_json_object_get root _) as [n|]; [|naive_solver].
  destruct (nxe_json_boolean n) as [[]|] eqn:E; naive_solver.
Qed.

Lemma memcmp_whole `{!OpenSSLLaws} a b :
  negb (zlen a =? zlen b) || negb (CRYPTO_memcmp a b (zlen a) =? 0) = negb (bytes_eqb a b).
Proof.
  unfold bytes_eqb. destruct (Z.eqb_spec (zlen a) (zlen b)) as [E|E]; cbn [negb orb].
  - f_equal. pose proof (memcmp_law a b (zlen a) (zlen_nonneg a)) as Hm.
    unfold zlen in *. rewrite Nat2Z.id in Hm. rewrite !take_ge in Hm by lia.
    apply eq_true_iff_eq. rewrite Z.eqb_eq, bool_decide_eq_true. apply Hm; lia.
  - rewrite bool_decide_false; [done|]. by intros ->.
Qed.

(** ** Correctness *)

(** NGX_OK means the conditions hold, NGX_DECLINED that they do not, and
    NGX_ERROR that the allocation failed. *)
Definition verdict (P : Prop) (rc : ngx_rc) (h : trace) : Prop :=
  match rc with NGX_OK => P | NGX_DECLINED => ~ P | NGX_ERROR => env_failed h end.

Lemma clientdata_checks_spec `{!OpenSSLLaws, !NginxBase64Laws} root type challenge origins h :
  (forall b64, get_str root (bs "challenge") = Some b64 -> fits b64) ->
  wp (clientdata_checks root type challenge origins)
     (verdict (clientdata_root_ok root (str_bytes type) (str_bytes challenge)
                 (str_bytes <$> origins))) h.
Proof.
  intros Hfit. unfold clientdata_checks. rewrite get_string_eq.
  destruct (get_str root (bs "type")) as [t|] eqn:Ht; cbn [is_ok negb];
    [|intros []; congruence].
  rewrite str_equal_eq.
  destruct (bytes_eqb (str_bytes (Some t)) (str_bytes type)) eqn:Et; cbn [negb].
  2:{ intros [E]. rewrite Ht in E. injection E as E. cbn in Et. subst t.
      by rewrite (proj2 (bytes_eqb_eq _ _) eq_refl) in Et. }
  apply bytes_eqb_eq in Et. cbn [str_bytes default] in Et. unfold id in Et. subst t.
  rewrite get_string_eq.
  destruct (get_str root (bs "challenge")) as [c64|] eqn:Hc; cbn [is_ok negb];
    [|intros [? (? & ? & ?)]; congruence].
  apply wp_bind, wp_trace_call. intros [] _; cbn [negb]; [|by apply env_failed_last].
  destruct (ngx_decode_base64url c64) as [c|] eqn:Hd;
    [|intros [? (? & ? & ?)]; congruence].
  specialize (Hfit _ eq_refl). unfold fits in Hfit. pose proof (zlen_nonneg c64).
  pose proof (decode_fits _ _ Hd) as Hroom. rewrite size_t_small by
    (unfold ngx_base64_decoded_length; div_lia).
  destruct (Z.ltb_spec (ngx_base64_decoded_length (zlen c64)) (zlen c)); [lia|].
  change (str_len challenge) with (zlen (str_bytes challenge)). rewrite memcmp_whole.
  destruct (bytes_eqb c (str_bytes challenge)) eqn:Ec; cbn [negb].
  2:{ intros [? (b & Hb & Hd')]. assert (b = c64) as -> by congruence.
      rewrite Hd in Hd'. injection Hd' as ->.
      by rewrite (proj2 (bytes_eqb_eq _ _) eq_refl) in Ec. }
  apply bytes_eqb_eq in Ec as ->.
  rewrite get_string_eq.
  destruct (get_str root (bs "origin")) as [o|] eqn:Ho; cbn [is_ok negb];
    [|intros [? ? (? & ? & ?)]; congruence].
  rewrite origin_loop_ok. case_bool_decide as Hin; cbn [is_ok negb];
    [|intros [? ? (? & ? & ?)]; congruence].
  destruct (cross_origin_true root) eqn:Hx.
  - intros [? ? ? Hcross]. apply cross_origin_true_iff in Hcross. congruence.
  - split; [done|eauto|eauto|by apply cross_origin_true_iff].
Qed.

Lemma clientdata_verify_spec `{!OpenSSLLaws, !NginxBase64Laws} data type challenge
    (origins : list ngx_str_t) h :
  (forall root b64, nxe_json_parse_untrusted data = Some root ->
     get_str root (bs "challenge") = Some b64 -> fits b64) ->
  wp (ngx_auth_webauthn_clientdata_verify (Some tt) (Some data) (Some type)
        (Some challenge) (Some origins) (zlen origins))
     (verdict (clientdata_accepts data (str_bytes type) (str_bytes challenge)
                 (str_bytes <$> origins))) h.
Proof.
  intros Hfit. unfold ngx_auth_webauthn_clientdata_verify.
  cbn [nullp orb deref bind]. rewrite andb_false_r.
  destruct (nxe_json_parse_untrusted data) as [root|] eqn:Hp; cbn [nullp deref bind].
  2:{ intros (root & ? & _). congruence. }
  apply wp_bind, wp_trace_call. intros [] _. cbn [default id].
  rewrite Z.ltb_irrefl. unfold zlen. rewrite Nat2Z.id, firstn_all.
  eapply wp_seq; [by apply clientdata_checks_spec; eauto|]. intros rc h' Hrc.
  apply wp_bind, wp_trace_call. intros [] _. cbn [wp].
  destruct rc; cbn [verdict] in *.
  - by exists root.
  - by apply env_failed_app; left.
  - intros (root' & ? & ?). naive_solver.
Qed.

(** The JSON tree is released on every path. *)
Lemma clientdata_balanced `{!NginxBase64Laws} pool data type challenge origins n :
  (forall d root b64, data = Some d -> nxe_json_parse_untrusted d = Some root ->
     get_str root (bs "challenge") = Some b64 -> fits b64) ->
  (forall os, origins = Some os -> n <= zlen os) ->
  balanced ∅ (ngx_auth_webauthn_clientdata_verify pool data type challenge origins n).
Proof.
  intros Hfit Hn w _. unfold ngx_auth_webauthn_clientdata_verify.
  destruct pool, data as [d|], type as [ty|], challenge as [c|]; cbn [nullp orb]; try done.
  destruct ((0 <? n) && nullp origins) eqn:Hg; [done|]. cbn [deref bind].
  destruct (nxe_json_parse_untrusted d) as [root|] eqn:Hp; [|done].
  apply wp_bind, wp_held_call; [done|]. intros [] _. cbn [held_next].
  destruct (Z.ltb_spec (zlen (default [] origins)) n) as [Hlt|_].
  { destruct origins as [os|]; [specialize (Hn _ eq_refl); cbn in Hlt; unfold id in *; lia|].
    change (zlen (default [] NULL)) with 0 in Hlt. cbn [nullp] in Hg.
    rewrite andb_true_r in Hg. apply Z.ltb_ge in Hg. lia. }
  apply wp_seq with (fun _ w' => w' = w ⊎ {[+ R_JSON +]}).
  2:{ intros rc ? ->. held_steps. }
  unfold clientdata_checks. rewrite !get_string_eq.
  destruct (get_str root (bs "type")); cbn [is_ok negb]; [|done].
  destruct (ngx_auth_webauthn_str_equal _ _); [|done]. cbn [negb].
  destruct (get_str root (bs "challenge")) as [c64|] eqn:Hc; cbn [is_ok negb]; [|done].
  apply wp_bind, wp_held_call; [done|]. intros [] _; [|done]. cbn [negb held_next].
  destruct (ngx_decode_base64url c64) as [c'|] eqn:Hd; [|done].
  specialize (Hfit d root _ eq_refl Hp Hc). unfold fits in Hfit. pose proof (zlen_nonneg c64).
  pose proof (decode_fits _ _ Hd) as Hroom.
  rewrite size_t_small by (unfold ngx_base64_decoded_length; div_lia).
  destruct (Z.ltb_spec (ngx_base64_decoded_length (zlen c64)) (zlen c')); [lia|].
  repeat held_step; done.
Qed.

(** C13: whatever the JSON library returns and whichever allocation fails,
    the client data check answers NGX_OK exactly when type, challenge,
    origin and crossOrigin are as expected, NGX_DECLINED when they are not,
    and NGX_ERROR only when memory ran out; on every path, also with NULL
    arguments, nothing is undefined and the JSON tree is released. *)
Theorem clientdata_verify_correct `{!OpenSSLLaws, !NginxBase64Laws} data type challenge
    (origins : list ngx_str_t) h :
  (forall root b64, nxe_json_parse_untrusted data = Some root ->
     get_str root (bs "challenge") = Some b64 -> fits b64) ->
  wp (ngx_auth_webauthn_clientdata_verify (Some tt) (Some data) (Some type)
        (Some challenge) (Some origins) (zlen origins))
     (verdict (clientdata_accepts data (str_bytes type) (str_bytes challenge)
                 (str_bytes <$> origins))) h /\
  forall pool type challenge,
    balanced ∅ (ngx_auth_webauthn_clientdata_verify pool (Some data) type challenge
                  (Some origins) (zlen origins)).
Proof.
  intros Hfit. split; [by apply clientdata_verify_spec|]. intros pool ty ch.
  apply clientdata_balanced; [|intros os [= <-]; lia]. intros d root b64 [= <-]. apply Hfit.
Qed.
End clientdata.

Import Samples.

Lemma clientdata_verify_correct_witness :
  let data := Samples.client_data (bs "webauthn.get") (bs "abc") (bs "https://a.example") in
  let origins := [Some (bs "https://b.example"); Some (bs "https://a.example")] in
  Samples.ok_run (ngx_auth_webauthn_clientdata_verify (Some tt) (Some data)
    (Some (Some (bs "webauthn.get"))) (Some (Some (bs "abc"))) (Some origins) 2) = Some NGX_OK /\
  wp (ngx_auth_webauthn_clientdata_verify (Some tt) (Some data)
        (Some (Some (bs "webauthn.get"))) (Some (Some (bs "abc"))) (Some origins) 2)
     (verdict (clientdata_accepts data (bs "webauthn.get") (bs "abc")
                 [bs "https://b.example"; bs "https://a.example"])) ([] : trace).
Proof.
  split; [reflexivity|].
  refine (proj1 (clientdata_verify_correct _ (Some (bs "webauthn.get")) (Some (bs "abc"))
    [Some (bs "https://b.example"); Some (bs "https://a.example")] [] _)).
  intros root b64 Hp Hc.
  assert (root = Samples.JObject
    [(bs "type", Samples.JString (bs "webauthn.get"));
     (bs "challenge", Samples.JString (bs "YWJj"));
     (bs "origin", Samples.JString (bs "https://a.example"));
     (bs "crossOrigin", Samples.JBool false)]) as ->
    by (vm_compute in Hp; injection Hp as <-; reflexivity).
  vm_compute in Hc. injection Hc as <-. reflexivity.
Defined.
