(* ===== verification/Assertion.v ===== *)
(** * Assertion verification: src/ngx_auth_webauthn_assertion.c

    The signature check, the checks on the authenticator data with the clone
    counter policy, and their composition.  The specification is
    [assertion_valid], the conditions of WebAuthn 7.2 for a given challenge,
    credential and policy. *)

From Stdlib Require Import Sorted.
From S2P Require Import Prelude Effects Externals Samples AuthData Hash ClientData.
#[global] Open Scope Z_scope.

Definition NGX_AUTH_WEBAUTHN_CLONE_STRICT : Z := 0.
Definition NGX_AUTH_WEBAUTHN_CLONE_LAX : Z := 1.
Definition NGX_AUTH_WEBAUTHN_CLONE_OFF : Z := 2.

(** The decoded assertion response. *)
Record ngx_auth_webauthn_assertion_t := {
  authenticator_data : ngx_str_t;
  client_data_json : ngx_str_t;
  signature : ngx_str_t;
}.

(** The part of a stored credential the verifier needs. *)
Record ngx_auth_webauthn_assertion_cred_t := {
  acred_public_key : ngx_str_t;
  acred_alg : Z;
  acred_sign_count : Z;
}.

Record ngx_auth_webauthn_assertion_policy_t := {
  policy_rp_id : ngx_str_t;
  expected_challenge : ngx_str_t;
  allowed_origins : ptr (list ngx_str_t);
  norigins : Z;
  require_uv : bool;
  clone_detection : Z;
}.

Record ngx_auth_webauthn_assertion_result_t := { auth_sign_count : Z }.

Definition ngx_auth_webauthn_assertion_check_counter (policy auth stored : Z) : ngx_rc :=
  if policy =? NGX_AUTH_WEBAUTHN_CLONE_OFF then NGX_OK
  else if (auth =? 0) && (stored =? 0) then NGX_OK
  else if stored <? auth then NGX_OK
  else if policy =? NGX_AUTH_WEBAUTHN_CLONE_LAX then NGX_OK
  else NGX_DECLINED.

Section assertion.
Context `{JSON : NxeJson, B64 : NginxBase64, SSL : OpenSSL}.

(** The switch over the COSE algorithm: digest argument and key type. *)
Definition alg_params (alg : Z) : option (ptr evp_md * pkey_type) :=
  if alg =? -7 then Some (Some EVP_sha256, EVP_PKEY_EC)
  else if alg =? -257 then Some (Some EVP_sha256, EVP_PKEY_RSA)
  else if alg =? -8 then Some (NULL, EVP_PKEY_ED25519)
  else None.

Definition ngx_auth_webauthn_assertion_check_signature
    (cred : ngx_auth_webauthn_assertion_cred_t) (signed_data : bytes)
    (signature : ngx_str_t) : prog ngx_rc :=
  match alg_params (acred_alg cred) with
  | None => Ret NGX_ERROR
  | Some (md, want_type) =>
      match d2i_PUBKEY (str_bytes (acred_public_key cred)) with
      | None => Ret NGX_ERROR
      | Some pkey =>
          call (res_hold R_EVP_PKEY) ;;
          if negb (bool_decide (EVP_PKEY_base_id pkey = want_type)) then
            call (res_free R_EVP_PKEY) ;; Ret NGX_ERROR
          else
            ctx <- call (res_new R_EVP_MD_CTX) ;;
            if negb ctx then call (res_free R_EVP_PKEY) ;; Ret NGX_ERROR
            else
              let rc :=
                if EVP_DigestVerifyInit md pkey =? 1 then
                  let ret := EVP_DigestVerify md pkey (str_bytes signature) signed_data in
                  if ret =? 1 then NGX_OK
                  else if ret =? 0 then NGX_DECLINED
                  else NGX_ERROR
                else NGX_ERROR in
              call (res_free R_EVP_MD_CTX) ;;
              call (res_free R_EVP_PKEY) ;;
              Ret rc
      end
  end.

(** The checks on the parsed authenticator data, up to the clone counter. *)
Definition authdata_checks (ad : ngx_auth_webauthn_authdata_t)
    (cred : ngx_auth_webauthn_assertion_cred_t)
    (policy : ngx_auth_webauthn_assertion_policy_t) : ngx_rc :=
  if negb (Z.land (flags ad) (Z.lor NGX_AUTH_WEBAUTHN_AUTHDATA_FLAG_AT
                                    NGX_AUTH_WEBAUTHN_AUTHDATA_FLAG_ED) =? 0)
  then NGX_DECLINED else
  let '(rc, rp_hash) := ngx_auth_webauthn_hash_sha256 (policy_rp_id policy)
                          (str_len (policy_rp_id policy)) (Some tt) in
  if negb (is_ok rc) then NGX_ERROR else
  if negb (CRYPTO_memcmp rp_hash (rp_id_hash ad) NGX_AUTH_WEBAUTHN_SHA256_LEN =? 0)
  then NGX_DECLINED else
  if Z.land (flags ad) NGX_AUTH_WEBAUTHN_AUTHDATA_FLAG_UP =? 0 then NGX_DECLINED else
  if require_uv policy && (Z.land (flags ad) NGX_AUTH_WEBAUTHN_AUTHDATA_FLAG_UV =? 0)
  then NGX_DECLINED else
  if negb (is_ok (ngx_auth_webauthn_assertion_check_counter (clone_detection policy)
                    (sign_count ad) (acred_sign_count cred)))
  then NGX_DECLINED else NGX_OK.

(** Return code and new contents of [*result]. *)
Definition ngx_auth_webauthn_assertion_verify (pool : ptr unit)
    (assertion : ptr ngx_auth_webauthn_assertion_t)
    (cred : ptr ngx_auth_webauthn_assertion_cred_t)
    (policy : ptr ngx_auth_webauthn_assertion_policy_t)
    (result : ptr ngx_auth_webauthn_assertion_result_t)
    : prog (ngx_rc * ptr ngx_auth_webauthn_assertion_result_t) :=
  match assertion, cred, policy with
  | Some a, Some c, Some p =>
    if nullp pool || nullp result || ((0 <? norigins p) && nullp (allowed_origins p))
    then Ret (NGX_ERROR, result) else
    rc <- ngx_auth_webauthn_clientdata_verify pool (client_data_json a)
            (Some (Some (bs "webauthn.get"))) (Some (expected_challenge p))
            (allowed_origins p) (norigins p) ;;
    if negb (is_ok rc) then Ret (rc, result) else
    '(rc, ad) <- defined (ngx_auth_webauthn_authdata_parse (authenticator_data a)
                            (str_len (authenticator_data a)) (Some authdata_zero)) ;;
    if negb (is_ok rc) then Ret (rc, result) else
    ad <- deref ad ;;
    let rc := authdata_checks ad c p in
    if negb (is_ok rc) then Ret (rc, result) else
    let signed_len := size_t (str_len (authenticator_data a)
                              + NGX_AUTH_WEBAUTHN_SHA256_LEN) in
    ok <- call (ngx_pnalloc signed_len) ;;
    if negb ok then Ret (NGX_ERROR, result) else
    let '(rc, cdh) := ngx_auth_webauthn_hash_sha256 (client_data_json a)
                        (str_len (client_data_json a)) (Some tt) in
    if negb (is_ok rc) then Ret (NGX_ERROR, result) else
    let signed_data := str_bytes (authenticator_data a) ++ cdh in
    if negb (zlen signed_data =? signed_len) then UB else
    rc <- ngx_auth_webauthn_assertion_check_signature c signed_data (signature a) ;;
    if negb (is_ok rc) then Ret (rc, result) else
    Ret (NGX_OK, Some {| auth_sign_count := sign_count ad |})
  | _, _, _ => Ret (NGX_ERROR, result)
  end.

(** ** What a valid assertion is *)

(** The algorithms of RFC 8152, section 8, and RFC 8230 that a relying party
    of this module supports: COSE identifier, digest to sign with, which EdDSA
    has none of, and the type of key. *)
Inductive cose_algorithm : Z -> ptr evp_md -> pkey_type -> Prop :=
  | alg_ES256 : cose_algorithm (-7) (Some EVP_sha256) EVP_PKEY_EC
  | alg_EdDSA : cose_algorithm (-8) NULL EVP_PKEY_ED25519
  | alg_RS256 : cose_algorithm (-257) (Some EVP_sha256) EVP_PKEY_RSA.

Lemma alg_params_table alg md want :
  alg_params alg = Some (md, want) <-> cose_algorithm alg md want.
Proof.
  split; [|by intros []]. unfold alg_params.
  destruct (Z.eqb_spec alg (-7)) as [->|]; [intros [= <- <-]; constructor|].
  destruct (Z.eqb_spec alg (-257)) as [->|]; [intros [= <- <-]; constructor|].
  destruct (Z.eqb_spec alg (-8)) as [->|]; [intros [= <- <-]; constructor|done].
Qed.

(** The signature verifies under the stored key, whose type is the one the
    stored algorithm asks for. *)
Definition signature_valid (c : ngx_auth_webauthn_assertion_cred_t)
    (signed_data : bytes) (sig : ngx_str_t) : Prop :=
  exists md want pkey,
    cose_algorithm (acred_alg c) md want /\
    d2i_PUBKEY (str_bytes (acred_public_key c)) = Some pkey /\
    EVP_PKEY_base_id pkey = want /\
    EVP_DigestVerifyInit md pkey = 1 /\
    EVP_DigestVerify md pkey (str_bytes sig) signed_data = 1.

(** The clone-detection policy of the documentation. *)
Definition counter_acceptable (policy auth stored : Z) : Prop :=
  policy = NGX_AUTH_WEBAUTHN_CLONE_OFF \/ policy = NGX_AUTH_WEBAUTHN_CLONE_LAX \/
  (auth = 0 /\ stored = 0) \/ stored < auth.

(** The conditions on the authenticator data (7.2, steps 15-17 and 21). *)
Record authdata_acceptable (ad : ngx_auth_webauthn_authdata_t)
    (c : ngx_auth_webauthn_assertion_cred_t)
    (p : ngx_auth_webauthn_assertion_policy_t) : Prop := {
  ada_no_at : Z.testbit (flags ad) 6 = false;
  ada_no_ed : Z.testbit (flags ad) 7 = false;
  ada_rp : EVP_Digest (str_bytes (policy_rp_id p)) = Some (rp_id_hash ad);
  ada_up : Z.testbit (flags ad) 0 = true;
  ada_uv : require_uv p = true -> Z.testbit (flags ad) 2 = true;
  ada_counter : counter_acceptable (clone_detection p) (sign_count ad) (acred_sign_count c);
}.

Record assertion_valid (a : ngx_auth_webauthn_assertion_t)
    (c : ngx_auth_webauthn_assertion_cred_t)
    (p : ngx_auth_webauthn_assertion_policy_t) (origins : list ngx_str_t)
    (count : Z) : Prop := {
  av_client : exists cdj, client_data_json a = Some cdj /\
    clientdata_accepts cdj (bs "webauthn.get") (str_bytes (expected_challenge p))
      (str_bytes <$> origins);
  av_authdata : exists adb ad, authenticator_data a = Some adb /\
    authdata_reads adb ad /\ authdata_acceptable ad c p /\ sign_count ad = count;
  av_signature : exists cdh, EVP_Digest (str_bytes (client_data_json a)) = Some cdh /\
    zlen cdh = 32 /\
    signature_valid c (str_bytes (authenticator_data a) ++ cdh) (signature a);
}.

Lemma check_counter_ok policy auth stored :
  is_ok (ngx_auth_webauthn_assertion_check_counter policy auth stored) = true <->
  counter_acceptable policy auth stored.
Proof.
  unfold ngx_auth_webauthn_assertion_check_counter, counter_acceptable.
  destruct (Z.eqb_spec policy NGX_AUTH_WEBAUTHN_CLONE_OFF); [naive_solver|].
  destruct (Z.eqb_spec auth 0), (Z.eqb_spec stored 0), (Z.ltb_spec stored auth),
    (Z.eqb_spec policy NGX_AUTH_WEBAUTHN_CLONE_LAX); cbn [andb is_ok];
    (split; [intros ?; try done; lia|intros ?; try done; lia]).
Qed.

Lemma land_pow2 z n : 0 <= n -> (Z.land z (2 ^ n) =? 0) = negb (Z.testbit z n).
Proof.
  intros Hn. destruct (Z.testbit z n) eqn:E; cbn [negb].
  - apply Z.eqb_neq. intros H0. apply (f_equal (fun x => Z.testbit x n)) in H0.
    rewrite Z.land_spec, E, Z.pow2_bits_true, Z.bits_0 in H0 by done. done.
  - apply Z.eqb_eq. apply Z.bits_inj'. intros i Hi. rewrite Z.land_spec, Z.bits_0.
    destruct (Z.eq_dec i n) as [->|]; [by rewrite E|].
    by rewrite Z.pow2_bits_false, andb_false_r by lia.
Qed.

Lemma at_ed_clear z :
  (Z.land z (Z.lor NGX_AUTH_WEBAUTHN_AUTHDATA_FLAG_AT
                   NGX_AUTH_WEBAUTHN_AUTHDATA_FLAG_ED) =? 0) =
  negb (Z.testbit z 6) && negb (Z.testbit z 7).
Proof.
  rewrite <- (land_pow2 z 6), <- (land_pow2 z 7) by lia.
  rewrite Z.land_lor_distr_r.
  change (2 ^ 6) with NGX_AUTH_WEBAUTHN_AUTHDATA_FLAG_AT.
  change (2 ^ 7) with NGX_AUTH_WEBAUTHN_AUTHDATA_FLAG_ED.
  apply eq_true_iff_eq. rewrite andb_true_iff, !Z.eqb_eq. apply Z.lor_eq_0_iff.
Qed.

(** The digest of the relying party, when it is the 32 bytes of [ad]. *)
Lemma memcmp_32 `{!OpenSSLLaws} (a b : bytes) :
  zlen a = 32 -> zlen b = 32 ->
  (CRYPTO_memcmp a b NGX_AUTH_WEBAUTHN_SHA256_LEN =? 0) = bool_decide (a = b).
Proof.
  intros Ha Hb. apply eq_true_iff_eq. rewrite Z.eqb_eq, bool_decide_eq_true.
  unfold NGX_AUTH_WEBAUTHN_SHA256_LEN. rewrite memcmp_law by lia.
  unfold zlen in *. by rewrite !take_ge by lia.
Qed.

(** The checks decide the conditions; an error is a digest that is missing
    or has the wrong size. *)
Lemma authdata_checks_spec `{!OpenSSLLaws} ad c p :
  zlen (rp_id_hash ad) = 32 ->
  is_ok (authdata_checks ad c p) = true <-> authdata_acceptable ad c p.
Proof.
  intros Hlen. unfold authdata_checks. rewrite at_ed_clear.
  destruct (Z.testbit (flags ad) 6) eqn:H6; cbn [negb andb];
    [split; [done|intros []; congruence]|].
  destruct (Z.testbit (flags ad) 7) eqn:H7; cbn [negb andb];
    [split; [done|intros []; congruence]|].
  rewrite hash_of_str.
  destruct (EVP_Digest (str_bytes (policy_rp_id p))) as [d|] eqn:Hd; cbn [is_ok negb];
    [|split; [done|intros []; congruence]].
  destruct (Z.eqb_spec (zlen d) 32) as [H32|H32]; cbn [is_ok negb];
    [|split; [done|intros []; congruence]].
  rewrite memcmp_32 by done.
  case_bool_decide as Hrp; cbn [negb]; [|split; [done|intros []; congruence]].
  change NGX_AUTH_WEBAUTHN_AUTHDATA_FLAG_UP with (2 ^ 0).
  change NGX_AUTH_WEBAUTHN_AUTHDATA_FLAG_UV with (2 ^ 2).
  rewrite !land_pow2 by lia.
  destruct (Z.testbit (flags ad) 0) eqn:H0; cbn [negb];
    [|split; [done|intros []; congruence]].
  destruct (require_uv p && negb (Z.testbit (flags ad) 2)) eqn:Huv.
  { apply andb_true_iff in Huv as [Hr Hb]. apply negb_true_iff in Hb.
    split; [done|intros [? ? ? ? Hx]; rewrite Hx in Hb; done]. }
  destruct (is_ok (ngx_auth_webauthn_assertion_check_counter _ _ _)) eqn:Hcnt;
    cbn [negb is_ok].
  - apply check_counter_ok in Hcnt. split; [|done]. intros _. split; try done.
    + congruence.
    + intros Hr. rewrite Hr in Huv. by apply negb_false_iff.
  - split; [done|]. intros [? ? ? ? ? Hx%check_counter_ok]. congruence.
Qed.

Lemma authdata_checks_declined ad c p :
  authdata_checks ad c p = NGX_DECLINED \/ authdata_checks ad c p = NGX_OK \/
  (forall d, EVP_Digest (str_bytes (policy_rp_id p)) = Some d -> zlen d <> 32) /\
    authdata_checks ad c p = NGX_ERROR.
Proof.
  unfold authdata_checks. rewrite hash_of_str.
  destruct (EVP_Digest _) as [d|]; [destruct (Z.eqb_spec (zlen d) 32)|];
    repeat case_match; simplify_eq; naive_solver.
Qed.

(** NGX_OK: [P]; NGX_DECLINED: not [P]; NGX_ERROR: not [P], or the
    surroundings failed. *)
Definition judged (P : Prop) (rc : ngx_rc) (h : trace) : Prop :=
  match rc with NGX_OK => P | NGX_DECLINED => ~ P | NGX_ERROR => ~ P \/ env_failed h end.

Ltac no_signature :=
  intros (? & ? & ? & Halg%alg_params_table & ? & ? & ? & ?); simplify_eq; congruence.

Lemma check_signature_spec c signed sig h :
  wp (ngx_auth_webauthn_assertion_check_signature c signed sig)
     (judged (signature_valid c signed sig)) h.
Proof.
  unfold ngx_auth_webauthn_assertion_check_signature, signature_valid.
  destruct (alg_params _) as [[md want]|] eqn:Hparams; [|left; no_signature].
  destruct (d2i_PUBKEY _) as [pkey|]; [|left; no_signature].
  apply wp_bind, wp_trace_call. intros [] _.
  case_bool_decide as Hid; cbn [negb].
  2:{ apply wp_bind, wp_trace_call. intros [] _. left. no_signature. }
  apply wp_bind, wp_trace_call. intros [] _; cbn [negb].
  2:{ apply wp_bind, wp_trace_call. intros [] _. right. auto using env_failed_last, env_failed_app. }
  apply wp_bind, wp_trace_call. intros [] _. apply wp_bind, wp_trace_call. intros [] _.
  cbn [wp].
  destruct (Z.eqb_spec (EVP_DigestVerifyInit md pkey) 1); [|left; no_signature].
  destruct (Z.eqb_spec (EVP_DigestVerify md pkey (str_bytes sig) signed) 1);
    [exists md, want, pkey; by rewrite <- alg_params_table|].
  destruct (Z.eqb_spec (EVP_DigestVerify md pkey (str_bytes sig) signed) 0);
    [|left]; no_signature.
Qed.

Lemma check_signature_balanced c signed sig :
  balanced ∅ (ngx_auth_webauthn_assertion_check_signature c signed sig).
Proof.
  intros w _. unfold ngx_auth_webauthn_assertion_check_signature. held_steps.
  all: multiset_solver.
Qed.

(** What the whole verification answers, given the caller's origin list. *)
Definition assertion_post (a : ngx_auth_webauthn_assertion_t)
    (c : ngx_auth_webauthn_assertion_cred_t) (p : ngx_auth_webauthn_assertion_policy_t)
    (origins : list ngx_str_t) (result : ngx_auth_webauthn_assertion_result_t)
    (out : ngx_rc * ptr ngx_auth_webauthn_assertion_result_t) (h : trace) : Prop :=
  let '(rc, res) := out in
  match rc with
  | NGX_OK => exists count, res = Some {| auth_sign_count := count |} /\
      assertion_valid a c p origins count
  | _ => res = Some result /\ judged (exists count, assertion_valid a c p origins count) rc h
  end.

(** The two argument strings whose sizes bound the allocations. *)
Record assertion_sizes (a : ngx_auth_webauthn_assertion_t) : Prop := {
  as_authdata : fits (str_bytes (authenticator_data a));
  as_challenge : forall cdj root b64, client_data_json a = Some cdj ->
    nxe_json_parse_untrusted cdj = Some root ->
    get_str root (bs "challenge") = Some b64 -> fits b64;
}.

(** A refusal, when no counter makes the assertion valid. *)
Lemma assertion_refused a c p origins result rc h :
  is_ok rc = false -> (forall n, ~ assertion_valid a c p origins n) ->
  assertion_post a c p origins result (rc, Some result) h.
Proof.
  intros Hrc Hno. assert (~ exists n, assertion_valid a c p origins n) by (intros [n ?]; by apply (Hno n)).
  destruct rc; [done|..]; (split; [done|]); [by left|done].
Qed.

(** A valid assertion over given texts. *)
Lemma assertion_valid_parts a c p origins n cdj adb :
  client_data_json a = Some cdj -> authenticator_data a = Some adb ->
  assertion_valid a c p origins n <->
  clientdata_accepts cdj (bs "webauthn.get") (str_bytes (expected_challenge p))
    (str_bytes <$> origins) /\
  (exists ad, authdata_reads adb ad /\ authdata_acceptable ad c p /\ sign_count ad = n) /\
  exists cdh, EVP_Digest cdj = Some cdh /\ zlen cdh = 32 /\
    signature_valid c (adb ++ cdh) (signature a).
Proof.
  intros Hc Ha. split.
  - intros [(x & Hx & ?) (y & ad & Hy & ? & ? & ?) Hs]. rewrite Hc in Hx. rewrite Ha in Hy.
    simplify_eq. rewrite Hc, Ha in Hs. eauto 6.
  - intros (? & (ad & ? & ? & ?) & Hs). split; [by exists cdj|by exists adb, ad|].
    by rewrite Hc, Ha.
Qed.

Lemma assertion_verify_spec `{!OpenSSLLaws, !NginxBase64Laws} a c p origins result h :
  assertion_sizes a ->
  allowed_origins p = Some origins -> norigins p = zlen origins ->
  wp (ngx_auth_webauthn_assertion_verify (Some tt) (Some a) (Some c) (Some p) (Some result))
     (assertion_post a c p origins result) h.
Proof.
  intros [Hfit Hfitc] Ho Hn. unfold ngx_auth_webauthn_assertion_verify.
  rewrite Ho, Hn. cbn [nullp orb]. rewrite andb_false_r.
  destruct (client_data_json a) as [cdj|] eqn:Hcdj.
  2:{ apply assertion_refused; [done|]. intros n [(x & Hx & _) _ _]. congruence. }
  eapply wp_seq; [by apply clientdata_verify_spec; eauto|]. intros rc h1 Hrc.
  destruct rc; cbn [is_ok negb verdict] in *; [|by split; [|right]|].
  2:{ apply assertion_refused; [done|]. intros n [(x & Hx & ?) _ _]. rewrite Hcdj in Hx. by simplify_eq. }
  destruct (authenticator_data a) as [adb|] eqn:Hadb.
  2:{ apply assertion_refused; [done|]. intros n [_ (x & y & Hx & _) _]. congruence. }
  pose proof (fun n => proj1 (assertion_valid_parts a c p origins n cdj adb Hcdj Hadb)) as Hv.
  change (str_len (Some adb)) with (zlen adb). assert (zlen adb < 2 ^ 63) as Hlen by (unfold fits in Hfit; cbn in Hfit; lia).
  destruct (authdata_parse_answers adb authdata_zero Hlen) as (rc & ad & Hne & E).
  rewrite E. cbn [defined deref bind]. destruct rc; cbn [is_ok negb]; [|done|].
  2:{ apply assertion_refused; [done|]. intros n (_ & (y & Hr & _) & _)%Hv.
      by rewrite (authdata_reads_ok _ authdata_zero _ Hlen Hr) in E. }
  apply authdata_ok_reads in E; [|done]. cbn [deref bind].
  destruct (is_ok (authdata_checks ad c p)) eqn:Hck; cbn [negb].
  2:{ apply assertion_refused; [done|]. intros n (_ & (y & Hr & Hy & _) & _)%Hv.
      rewrite (authdata_reads_inj _ _ _ Hlen Hr E) in Hy.
      apply authdata_checks_spec in Hy; [congruence|apply E]. }
  apply authdata_checks_spec in Hck; [|apply E].
  apply wp_bind, wp_trace_call. intros [] _; cbn [negb].
  2:{ cbn. split; [done|]. right. by apply env_failed_last. }
  rewrite hash_of_str. cbn [str_bytes default].
  destruct (EVP_Digest cdj) as [cdh|] eqn:Hd; cbn [is_ok negb].
  2:{ apply assertion_refused; [done|]. intros n (_ & _ & x & Hx & _)%Hv. congruence. }
  destruct (Z.eqb_spec (zlen cdh) 32) as [H32|H32]; cbn [is_ok negb].
  2:{ apply assertion_refused; [done|]. intros n (_ & _ & x & Hx & ? & _)%Hv. congruence. }
  unfold NGX_AUTH_WEBAUTHN_SHA256_LEN. pose proof (zlen_nonneg adb).
  rewrite size_t_small, zlen_app, H32, Z.eqb_refl by lia. cbn [negb].
  eapply wp_seq; [apply check_signature_spec|]. intros rc h2 Hsig.
  assert (forall n, assertion_valid a c p origins n ->
            signature_valid c (adb ++ cdh) (signature a)) as Hs.
  { intros n (_ & _ & x & Hx & _ & ?)%Hv. congruence. }
  destruct rc; cbn [is_ok negb judged wp] in *.
  - eexists. split; [done|]. apply (assertion_valid_parts a c p origins _ cdj adb Hcdj Hadb).
    split_and!; [done|by exists ad|by exists cdh].
  - split; [done|]. destruct Hsig as [Hno|]; [left; intros [n Hn']; by apply Hno, (Hs n)|by right].
  - apply assertion_refused; [done|]. intros n Hn'. by apply Hsig, (Hs n).
Qed.

(** ** Commands: none *)

Lemma check_signature_calls P `{!Background P} c signed sig :
  all_calls P (ngx_auth_webauthn_assertion_check_signature c signed sig).
Proof. unfold ngx_auth_webauthn_assertion_check_signature. calls. Qed.

Lemma assertion_verify_calls P `{!Background P} pool a c p result :
  all_calls P (ngx_auth_webauthn_assertion_verify pool a c p result).
Proof.
  unfold ngx_auth_webauthn_assertion_verify. destruct a, c, p; try done.
  destruct (_ || _); [done|]. apply all_calls_bind; [by apply clientdata_verify_calls|].
  intros rc. destruct (negb _); [done|].
  apply all_calls_bind; [apply all_calls_deref|]. intros [rc' ad]. destruct (negb _); [done|].
  apply all_calls_bind; [apply all_calls_deref|]. intros ad'. destruct (negb _); [done|].
  apply all_calls_bind; [by apply all_calls_internal|]. intros ok. destruct (negb _); [done|].
  destruct (ngx_auth_webauthn_hash_sha256 _ _ _). destruct (negb _); [done|].
  destruct (negb _); [done|].
  apply all_calls_bind; [by apply check_signature_calls|]. intros rc''. by destruct (negb _).
Qed.

Lemma assertion_verify_held `{!NginxBase64Laws} pool a c p result (w : held) Q :
  assertion_sizes a ->
  (forall os, allowed_origins p = Some os -> norigins p <= zlen os) ->
  (forall rc res, (rc = NGX_OK -> exists x, res = Some x) -> Q (rc, res) w) ->
  wp (ngx_auth_webauthn_assertion_verify pool (Some a) (Some c) (Some p) result) Q w.
Proof.
  intros [Hfit Hfitc] Hn HQ.
  assert (forall rc res, rc <> NGX_OK -> Q (rc, res) w) as HN by (intros; by apply HQ).
  unfold ngx_auth_webauthn_assertion_verify.
  destruct pool as [[]|]; cbn [nullp orb]; [|by apply HN].
  destruct result as [res|]; cbn [nullp orb]; [|by apply HN].
  destruct ((0 <? norigins p) && _); [by apply HN|].
  apply wp_bind. eapply wp_balanced; [by apply clientdata_balanced; eauto|multiset_solver|].
  intros [] ; cbn [is_ok negb]; [|by apply HN|by apply HN].
  destruct (authenticator_data a) as [adb|]; [|by apply HN].
  change (str_len (Some adb)) with (zlen adb) in *. change (str_bytes (Some adb)) with adb in *.
  unfold fits in Hfit.
  destruct (authdata_parse_answers adb authdata_zero ltac:(lia)) as (rc & ad & Hne & E).
  rewrite E. cbn [defined deref bind]. destruct rc; cbn [is_ok negb]; [|by apply HN|by apply HN].
  cbn [deref bind]. destruct (authdata_checks ad c p); cbn [is_ok negb]; [|by apply HN|by apply HN].
  apply wp_bind, wp_held_call; [done|]. intros [] _; cbn [negb held_next]; [|by apply HN].
  rewrite hash_of_str. destruct (EVP_Digest _) as [cdh|]; cbn [is_ok negb]; [|by apply HN].
  destruct (Z.eqb_spec (zlen cdh) 32) as [H32|]; cbn [is_ok negb]; [|by apply HN].
  unfold NGX_AUTH_WEBAUTHN_SHA256_LEN. pose proof (zlen_nonneg adb).
  rewrite size_t_small, zlen_app, H32, Z.eqb_refl by lia. cbn [negb].
  apply wp_bind. eapply wp_balanced; [by apply check_signature_balanced|multiset_solver|].
  intros []; cbn [is_ok negb]; [|by apply HN|by apply HN]. apply HQ. eauto.
Qed.

Lemma assertion_verify_balanced `{!NginxBase64Laws} pool a c p result :
  assertion_sizes a ->
  (forall os, allowed_origins p = Some os -> norigins p <= zlen os) ->
  balanced ∅ (ngx_auth_webauthn_assertion_verify pool (Some a) (Some c) (Some p) result).
Proof. intros Ha Hn w _. by apply assertion_verify_held. Qed.

(** C8: assertion verification answers NGX_OK, with the authenticator's
    counter, exactly when client data, authenticator data (relying party,
    user presence and verification, clone counter) and the signature over
    [authData || SHA-256(clientDataJSON)] all satisfy WebAuthn 7.2; it
    answers NGX_DECLINED only for an assertion that does not, and NGX_ERROR
    only for such an assertion or when an allocation failed.  [*result] is
    written on NGX_OK only.  No path is undefined, leaks or frees twice. *)
Theorem assertion_verify_correct `{!OpenSSLLaws, !NginxBase64Laws} a c p origins result h :
  assertion_sizes a ->
  allowed_origins p = Some origins -> norigins p = zlen origins ->
  wp (ngx_auth_webauthn_assertion_verify (Some tt) (Some a) (Some c) (Some p) (Some result))
     (assertion_post a c p origins result) h /\
  balanced ∅ (ngx_auth_webauthn_assertion_verify (Some tt) (Some a) (Some c) (Some p)
                (Some result)).
Proof.
  intros Hs Ho Hn. split; [by apply assertion_verify_spec|].
  apply assertion_verify_balanced; [done|]. intros os Hos.
  rewrite Ho in Hos. injection Hos as <-. lia.
Qed.

(** ** The counter over many assertions

    The verify handler writes the counter of an accepted assertion back, so
    the next one is compared with it: the counters accepted of those
    presented, from a stored one. *)
Fixpoint counters_accepted (policy stored : Z) (presented : list Z) : list Z :=
  match presented with
  | [] => []
  | auth :: presented =>
      if is_ok (ngx_auth_webauthn_assertion_check_counter policy auth stored)
      then auth :: counters_accepted policy auth presented
      else counters_accepted policy stored presented
  end.

(** Grown, or not in use on either side. *)
Definition later (stored auth : Z) : Prop := stored < auth \/ (auth = 0 /\ stored = 0).

#[export] Instance later_dec stored auth : Decision (later stored auth).
Proof. unfold later. apply _. Defined.
#[export] Instance later_trans : Transitive later.
Proof. unfold later. intros x y z. lia. Qed.

Lemma check_strict auth stored :
  ngx_auth_webauthn_assertion_check_counter NGX_AUTH_WEBAUTHN_CLONE_STRICT auth stored =
  if decide (later stored auth) then NGX_OK else NGX_DECLINED.
Proof.
  unfold ngx_auth_webauthn_assertion_check_counter, later.
  destruct (Z.eqb_spec auth 0), (Z.eqb_spec stored 0), (Z.ltb_spec stored auth);
    case_decide as Hd; try done; exfalso; lia.
Qed.

Lemma accepted_sorted presented : forall stored,
  Sorted later (stored :: counters_accepted NGX_AUTH_WEBAUTHN_CLONE_STRICT stored presented).
Proof.
  induction presented as [|auth presented IH]; intros stored; cbn [counters_accepted].
  { repeat constructor. }
  rewrite check_strict. case_decide as Hd; cbn [is_ok]; [|apply IH].
  constructor; [apply IH|by constructor].
Qed.

Lemma sorted_accepted presented : forall stored, Sorted later (stored :: presented) ->
  counters_accepted NGX_AUTH_WEBAUTHN_CLONE_STRICT stored presented = presented.
Proof.
  induction presented as [|auth presented IH]; intros stored Hs; cbn [counters_accepted]; [done|].
  apply Sorted_inv in Hs as [Hs Hhd%HdRel_inv]. rewrite check_strict.
  rewrite decide_True by done. cbn [is_ok]. by rewrite IH.
Qed.

Lemma lenient_accepted policy presented :
  policy = NGX_AUTH_WEBAUTHN_CLONE_OFF \/ policy = NGX_AUTH_WEBAUTHN_CLONE_LAX -> forall stored,
  counters_accepted policy stored presented = presented.
Proof.
  intros Hp. induction presented as [|auth presented IH]; intros stored; cbn [counters_accepted]; [done|].
  assert (is_ok (ngx_auth_webauthn_assertion_check_counter policy auth stored) = true) as ->.
  { apply check_counter_ok. unfold counter_acceptable. tauto. }
  by rewrite IH.
Qed.

(** C28: the clone counter over any sequence of assertions.  "strict" answers
    NGX_OK exactly to a counter above the stored one, or to no counter on
    either side, and NGX_DECLINED to all others, so that the counters it
    accepts one after the other, from the stored one on, strictly increase
    once one is in use: none is accepted twice, and a clone that lags behind
    is refused.  A sequence that does increase is accepted whole; "off" and
    "lax" accept every sequence. *)
Theorem check_counter_policy (stored : Z) (presented : list Z) :
  (forall auth, ngx_auth_webauthn_assertion_check_counter NGX_AUTH_WEBAUTHN_CLONE_STRICT auth stored =
     if decide (later stored auth) then NGX_OK else NGX_DECLINED) /\
  StronglySorted later
    (stored :: counters_accepted NGX_AUTH_WEBAUTHN_CLONE_STRICT stored presented) /\
  (StronglySorted later (stored :: presented) ->
     counters_accepted NGX_AUTH_WEBAUTHN_CLONE_STRICT stored presented = presented) /\
  counters_accepted NGX_AUTH_WEBAUTHN_CLONE_LAX stored presented = presented /\
  counters_accepted NGX_AUTH_WEBAUTHN_CLONE_OFF stored presented = presented.
Proof.
  split_and!.
  - intros auth. apply check_strict.
  - apply Sorted_StronglySorted; [exact later_trans|apply accepted_sorted].
  - intros Hs. by apply sorted_accepted, StronglySorted_Sorted.
  - apply lenient_accepted. by right.
  - apply lenient_accepted. by left.
Qed.
End assertion.

Import Samples.

(** An assertion signed with a sample EC key, counter 7 against a stored 3. *)
Definition sample_client_data : bytes :=
  client_data (bs "webauthn.get") (bs "abc") (bs "https://a.example").
Definition sample_assertion_authdata : bytes :=
  digest (bs "a.example") ++ [Byte.x05; Byte.x00; Byte.x00; Byte.x00; Byte.x07].
Definition sample_assertion : ngx_auth_webauthn_assertion_t := {|
  authenticator_data := Some sample_assertion_authdata;
  client_data_json := Some sample_client_data;
  signature := Some (bs "key" ++ sample_assertion_authdata ++ digest sample_client_data) |}.
Definition sample_cred : ngx_auth_webauthn_assertion_cred_t := {|
  acred_public_key := Some (Byte.x01 :: bs "key"); acred_alg := -7; acred_sign_count := 3 |}.
Definition sample_origins : list ngx_str_t := [Some (bs "https://a.example")].
Definition sample_policy : ngx_auth_webauthn_assertion_policy_t := {|
  policy_rp_id := Some (bs "a.example"); expected_challenge := Some (bs "abc");
  allowed_origins := Some sample_origins; norigins := 1; require_uv := true;
  clone_detection := NGX_AUTH_WEBAUTHN_CLONE_STRICT |}.
Abbreviation no_result := {| auth_sign_count := 0 |}.

Lemma assertion_verify_correct_witness :
  ok_run (ngx_auth_webauthn_assertion_verify (Some tt) (Some sample_assertion)
            (Some sample_cred) (Some sample_policy) (Some no_result))
    = Some (NGX_OK, Some {| auth_sign_count := 7 |}) /\
  wp (ngx_auth_webauthn_assertion_verify (Some tt) (Some sample_assertion)
            (Some sample_cred) (Some sample_policy) (Some no_result))
     (assertion_post sample_assertion sample_cred sample_policy sample_origins no_result)
     ([] : trace).
Proof.
  split; [reflexivity|].
  refine (proj1 (assertion_verify_correct sample_assertion sample_cred sample_policy
                   sample_origins no_result [] _ eq_refl eq_refl)).
  split; [reflexivity|]. intros cdj root b64 [= <-] Hp Hc.
  vm_compute in Hp. injection Hp as <-. vm_compute in Hc. injection Hc as <-. reflexivity.
Defined.

(** From a stored 4: the replay of 5 and the clone's 3 are refused. *)
Lemma check_counter_policy_witness :
  counters_accepted NGX_AUTH_WEBAUTHN_CLONE_STRICT 4 [5; 5; 3; 9] = [5; 9] /\
  ngx_auth_webauthn_assertion_check_counter NGX_AUTH_WEBAUTHN_CLONE_STRICT 9 5 = NGX_OK /\
  ngx_auth_webauthn_assertion_check_counter NGX_AUTH_WEBAUTHN_CLONE_STRICT 5 5 = NGX_DECLINED /\
  StronglySorted later [4; 5; 9] /\
  counters_accepted NGX_AUTH_WEBAUTHN_CLONE_STRICT 4 [5; 9] = [5; 9].
Proof.
  assert (StronglySorted later [4; 5; 9]) as Hs
    by exact (proj1 (proj2 (check_counter_policy 4 [5; 5; 3; 9]))).
  split; [reflexivity|]. split; [exact (proj1 (check_counter_policy 5 []) 9)|].
  split; [exact (proj1 (check_counter_policy 5 []) 5)|]. split; [exact Hs|].
  exact (proj1 (proj2 (proj2 (check_counter_policy 4 [5; 9]))) Hs).
Defined.
