(* ===== verification/SamplesCbor.v ===== *)
(** * A concrete CBOR decoder and key builder, for the witnesses

    Definite items without tags or floats, decoded from their bytes; keys are
    the parameters they were built from. *)

From S2P Require Import Prelude Effects Externals Samples.
#[global] Open Scope Z_scope.

Module CborSamples.

#[warnings="-register-all"]
Inductive item :=
  | CUint (n : Z) | CNeg (n : Z) | CBytes (b : bytes) | CText (b : bytes)
  | CArray (l : list item) | CMap (l : list (item * item)).

(** [n] bytes and the rest. *)
Definition take_exact (n : Z) (s : bytes) : option (bytes * bytes) :=
  if (0 <=? n) && (n <=? zlen s) then Some (take (Z.to_nat n) s, drop (Z.to_nat n) s) else None.

Definition be (b : bytes) : Z := foldl (fun acc c => acc * 256 + b2z c) 0 b.

(** Major type and argument of a head. *)
Definition head (s : bytes) : option (Z * Z * bytes) :=
  match s with
  | [] => None
  | c :: t =>
      let major := b2z c / 32 in
      let info := b2z c mod 32 in
      if info <? 24 then Some (major, info, t)
      else if info <=? 27 then
        '(a, t) ← take_exact (2 ^ (info - 24)) t; Some (major, be a, t)
      else None
  end.

Fixpoint item_of (fuel : nat) (s : bytes) : option (item * bytes) :=
  match fuel with
  | O => None
  | S f =>
      '(major, n, t) ← head s;
      if major =? 0 then Some (CUint n, t)
      else if major =? 1 then Some (CNeg n, t)
      else if major =? 2 then '(b, t) ← take_exact n t; Some (CBytes b, t)
      else if major =? 3 then '(b, t) ← take_exact n t; Some (CText b, t)
      else if major =? 4 then '(l, t) ← items_of f n t; Some (CArray l, t)
      else if major =? 5 then '(l, t) ← pairs_of f n t; Some (CMap l, t)
      else None
  end
with items_of (fuel : nat) (n : Z) (s : bytes) : option (list item * bytes) :=
  match fuel with
  | O => None
  | S f =>
      if n <=? 0 then Some ([], s) else
      '(i, t) ← item_of f s; '(l, t) ← items_of f (n - 1) t; Some (i :: l, t)
  end
with pairs_of (fuel : nat) (n : Z) (s : bytes) : option (list (item * item) * bytes) :=
  match fuel with
  | O => None
  | S f =>
      if n <=? 0 then Some ([], s) else
      '(k, t) ← item_of f s; '(v, t) ← item_of f t;
      '(l, t) ← pairs_of f (n - 1) t; Some ((k, v) :: l, t)
  end.

Definition load (s : bytes) : ptr item * bool * Z :=
  match item_of (2 * length s + 2) s with
  | Some (i, t) => (Some i, true, zlen s - zlen t)
  | None => (None, false, 0)
  end.

#[export] Instance cbor_lib : Cbor := {|
  cbor_item_t := item;
  cbor_load := load;
  cbor_isa_uint i := match i with CUint _ => true | _ => false end;
  cbor_isa_negint i := match i with CNeg _ => true | _ => false end;
  cbor_get_int i := match i with CUint n | CNeg n => n mod 2 ^ 64 | _ => 0 end;
  cbor_isa_bytestring i := match i with CBytes _ => true | _ => false end;
  cbor_bytestring_is_definite _ := true;
  cbor_bytestring i := match i with CBytes b => b | _ => [] end;
  cbor_isa_string i := match i with CText _ => true | _ => false end;
  cbor_string_is_definite _ := true;
  cbor_string i := match i with CText b => b | _ => [] end;
  cbor_isa_map i := match i with CMap _ => true | _ => false end;
  cbor_map i := match i with CMap l => l | _ => [] end;
  cbor_isa_array i := match i with CArray _ => true | _ => false end;
  cbor_array_size i := match i with CArray l => zlen l | _ => 0 end;
|}.

(** ** Sizes *)

Fixpoint size (i : item) : Z :=
  match i with
  | CUint _ | CNeg _ => 0
  | CBytes b | CText b => zlen b
  | CArray l => foldr (fun i acc => size i + acc) 0 l
  | CMap l => foldr (fun p acc => size p.1 + size p.2 + acc) 0 l
  end.

Definition sum_items (l : list item) : Z := foldr (fun i acc => size i + acc) 0 l.
Definition sum_pairs (l : list (item * item)) : Z :=
  foldr (fun p acc => size p.1 + size p.2 + acc) 0 l.

Fixpoint size_nonneg (i : item) : 0 <= size i.
Proof.
  destruct i as [n|n|b|b|l|l]; cbn [size]; try lia; try apply zlen_nonneg.
  - induction l as [|i l IH]; cbn [foldr]; [lia|]. pose proof (size_nonneg i). lia.
  - induction l as [|[k v] l IH]; cbn [foldr fst snd]; [lia|].
    pose proof (size_nonneg k). pose proof (size_nonneg v). lia.
Qed.

Lemma take_exact_len n s b t : take_exact n s = Some (b, t) -> zlen b + zlen t <= zlen s.
Proof.
  unfold take_exact. destruct (_ && _) eqn:E; [|done]. intros [= <- <-].
  apply andb_true_iff in E as [H1%Z.leb_le H2%Z.leb_le]. unfold zlen in *.
  rewrite length_take, length_drop. lia.
Qed.

Lemma head_len s major n t : head s = Some (major, n, t) -> zlen t <= zlen s.
Proof.
  destruct s as [|c s]; [done|]. unfold head. rewrite zlen_cons.
  destruct (_ <? 24); [intros [= _ _ <-]; lia|]. destruct (_ <=? 27); [|done].
  destruct (take_exact _ s) as [[a u]|] eqn:E; [|done]. intros [= _ _ <-].
  apply take_exact_len in E. pose proof (zlen_nonneg a). lia.
Qed.

Lemma item_len fuel :
  (forall s i t, item_of fuel s = Some (i, t) -> size i + zlen t <= zlen s) /\
  (forall n s l t, items_of fuel n s = Some (l, t) -> sum_items l + zlen t <= zlen s) /\
  (forall n s l t, pairs_of fuel n s = Some (l, t) -> sum_pairs l + zlen t <= zlen s).
Proof.
  induction fuel as [|f (IHi & IHl & IHp)]; [done|]. split_and!.
  - intros s i t. cbn [item_of].
    intros ([[major n] u] & Hh%head_len & H)%bind_Some.
    destruct (major =? 0); [injection H as <- <-; cbn [size]; lia|].
    destruct (major =? 1); [injection H as <- <-; cbn [size]; lia|].
    destruct (major =? 2).
    { apply bind_Some in H as ([b v] & Hb%take_exact_len & [= <- <-]). cbn [size]. lia. }
    destruct (major =? 3).
    { apply bind_Some in H as ([b v] & Hb%take_exact_len & [= <- <-]). cbn [size]. lia. }
    destruct (major =? 4).
    { apply bind_Some in H as ([l v] & Hl%IHl & [= <- <-]). change (size (CArray l)) with (sum_items l). lia. }
    destruct (major =? 5); [|done].
    apply bind_Some in H as ([l v] & Hl%IHp & [= <- <-]). change (size (CMap l)) with (sum_pairs l). lia.
  - intros n s l t. cbn [items_of]. destruct (n <=? 0).
    { intros [= <- <-]. cbn. lia. }
    intros ([i u] & Hi%IHi & ([l' v] & Hl%IHl & [= <- <-])%bind_Some)%bind_Some.
    cbn [sum_items foldr]. fold (sum_items l'). lia.
  - intros n s l t. cbn [pairs_of]. destruct (n <=? 0).
    { intros [= <- <-]. cbn. lia. }
    intros ([k u] & Hk%IHi & ([w u'] & Hv%IHi & ([l' v] & Hl%IHp & [= <- <-])%bind_Some)%bind_Some)%bind_Some.
    cbn [sum_pairs foldr fst snd]. fold (sum_pairs l'). lia.
Qed.

Lemma pair_size l k v : (k, v) ∈ l -> size k <= sum_pairs l /\ size v <= sum_pairs l.
Proof.
  induction l as [|[k' v'] l IH]; [by intros ?%elem_of_nil|].
  cbn [sum_pairs foldr fst snd]. fold (sum_pairs l).
  pose proof (size_nonneg k'). pose proof (size_nonneg v').
  assert (0 <= sum_pairs l) by apply (size_nonneg (CMap l)).
  intros [[= -> ->]|Hin]%elem_of_cons; [lia|]. apply IH in Hin. lia.
Qed.

#[export] Program Instance cbor_laws : CborLaws := {| cbor_size := size |}.
Next Obligation. intros []; cbn; try lia; apply Z.mod_pos_bound; lia. Qed.
Next Obligation.
  intros b i ok n. cbn. unfold load. destruct (item_of _ b) as [[j t]|] eqn:E; [|done].
  intros [= <- <- <-]. apply item_len in E. pose proof (zlen_nonneg t). lia.
Qed.
Next Obligation. intros [| | | | |l] k v; cbn; try done. intros _. apply pair_size. Qed.
Next Obligation. intros []; cbn; try done; lia. Qed.
Next Obligation. intros []; cbn; try done; lia. Qed.

(** ** Keys from their parameters *)

Import Samples.

Definition fromdata (name : bytes) (ps : list ossl_param) : option (pkey_type * bytes) :=
  match ps with
  | [P_utf8 _ _; P_octets _ p] => if bool_decide (name = bs "EC") then Some (EVP_PKEY_EC, p) else None
  | [P_BN _ n; P_BN _ e] =>
      if bool_decide (name = bs "RSA") then Some (EVP_PKEY_RSA, dec n ++ bs "," ++ dec e) else None
  | _ => None
  end.

Definition der_of (k : pkey_type * bytes) : option bytes :=
  if 2 ^ 30 <? zlen k.2 then None else
  match k.1 with
  | EVP_PKEY_EC => Some (Byte.x01 :: k.2)
  | EVP_PKEY_RSA => Some (Byte.x02 :: k.2)
  | EVP_PKEY_ED25519 => Some (Byte.x03 :: k.2)
  | EVP_PKEY_OTHER _ => None
  end.

#[export] Instance keys_lib : OpenSSLKeys := {|
  EVP_PKEY_fromdata := fromdata;
  EVP_PKEY_new_raw_public_key t b := Some (t, b);
  BN_bin2bn b n := be (take (Z.to_nat n) b);
  i2d_PUBKEY := der_of;
|}.

#[export] Instance keys_laws : OpenSSLKeysLaws.
Proof.
  split; cbn.
  - intros ps k. unfold fromdata. repeat case_match; intros; by simplify_eq/=.
  - intros ps k. unfold fromdata. repeat case_match; intros; by simplify_eq/=.
  - by intros t b k [= <-].
  - intros [[] k] d; unfold der_of; cbn [fst snd]; destruct (_ <? _); by intros [= <-].
  - intros [t k] d. unfold der_of. cbn [fst snd]. destruct (Z.ltb_spec (2 ^ 30) (zlen k)); [done|].
    pose proof (zlen_nonneg k). destruct t; intros [= <-]; rewrite zlen_cons; lia.
Qed.

End CborSamples.
