(* ===== verification/Cose.v ===== *)
(** * COSE keys: src/ngx_auth_webauthn_cose.c

    From the CBOR of a COSE_Key to an OpenSSL public key and to its DER form.
    The specification is [cose_key]: what a decoded map denotes. *)

From S2P Require Import Prelude Effects Externals Samples SamplesCbor Assertion.
#[global] Open Scope Z_scope.

Definition NGX_AUTH_WEBAUTHN_COSE_LABEL_KTY : Z := 1.
Definition NGX_AUTH_WEBAUTHN_COSE_LABEL_ALG : Z := 3.
Definition NGX_AUTH_WEBAUTHN_COSE_KTY_OKP : Z := 1.
Definition NGX_AUTH_WEBAUTHN_COSE_KTY_EC2 : Z := 2.
Definition NGX_AUTH_WEBAUTHN_COSE_KTY_RSA : Z := 3.
Definition NGX_AUTH_WEBAUTHN_COSE_CRV_P256 : Z := 1.
Definition NGX_AUTH_WEBAUTHN_COSE_CRV_ED25519 : Z := 6.
Definition NGX_AUTH_WEBAUTHN_P256_COORD_LEN : Z := 32.
Definition NGX_AUTH_WEBAUTHN_ED25519_KEY_LEN : Z := 32.
Definition NGX_AUTH_WEBAUTHN_COSE_ALG_ES256 : Z := -7.
Definition NGX_AUTH_WEBAUTHN_COSE_ALG_EDDSA : Z := -8.
Definition NGX_AUTH_WEBAUTHN_COSE_ALG_RS256 : Z := -257.

(** Freeing a pointer that may be NULL. *)
Definition free_opt (r : resource) (allocated : bool) : prog unit :=
  if allocated then call (res_free r) else Ret tt.

Section cose.
Context `{CBOR : Cbor, SSL : OpenSSL, !OpenSSLKeys}.

(** Return code and [*out]. *)
Definition ngx_auth_webauthn_cose_int (item : ptr cbor_item_t) : ngx_rc * Z :=
  match item with
  | None => (NGX_DECLINED, 0)
  | Some item =>
      if cbor_isa_uint item then (NGX_OK, int64 (cbor_get_int item))
      else if cbor_isa_negint item then (NGX_OK, -1 - int64 (cbor_get_int item))
      else (NGX_DECLINED, 0)
  end.

(** Return code and [*data], [*len]. *)
Definition ngx_auth_webauthn_cose_bytes (item : ptr cbor_item_t) : ngx_rc * bytes :=
  match item with
  | None => (NGX_DECLINED, [])
  | Some item =>
      if negb (cbor_isa_bytestring item) || negb (cbor_bytestring_is_definite item)
      then (NGX_DECLINED, [])
      else (NGX_OK, cbor_bytestring item)
  end.

(** The end of the builders, from the parameter block on: parameters,
    context, key, and the label [done]. *)
Definition build_key (name : bytes) (params : list ossl_param) : prog (ngx_rc * ptr EVP_PKEY) :=
  has_params <- call (res_new R_PARAM) ;;
  has_ctx <- call (res_new R_EVP_PKEY_CTX) ;;
  out <- (if negb has_params || negb has_ctx then Ret (NGX_ERROR, NULL) else
          init <- call (lib_call (bs "EVP_PKEY_fromdata_init")) ;;
          if negb init then Ret (NGX_ERROR, NULL) else
          room <- call (lib_call (bs "EVP_PKEY_fromdata")) ;;
          if negb room then Ret (NGX_ERROR, NULL) else
          match EVP_PKEY_fromdata name params with
          | None => Ret (NGX_ERROR, NULL)
          | Some pkey => call (res_hold R_EVP_PKEY) ;; Ret (NGX_OK, Some pkey)
          end) ;;
  free_opt R_PARAM has_params ;;
  free_opt R_EVP_PKEY_CTX has_ctx ;;
  Ret out.

Definition ngx_auth_webauthn_cose_ec2_pkey (crv x_item y_item : ptr cbor_item_t)
    : prog (ngx_rc * ptr EVP_PKEY) :=
  let '(rc, crv_id) := ngx_auth_webauthn_cose_int crv in
  if negb (is_ok rc) || negb (crv_id =? NGX_AUTH_WEBAUTHN_COSE_CRV_P256)
  then Ret (NGX_DECLINED, NULL) else
  let '(rcx, x) := ngx_auth_webauthn_cose_bytes x_item in
  let '(rcy, y) := ngx_auth_webauthn_cose_bytes y_item in
  if negb (is_ok rcx) || negb (is_ok rcy)
     || negb (zlen x =? NGX_AUTH_WEBAUTHN_P256_COORD_LEN)
     || negb (zlen y =? NGX_AUTH_WEBAUTHN_P256_COORD_LEN)
  then Ret (NGX_DECLINED, NULL) else
  let point := Byte.x04 :: x ++ y in
  bld <- call (res_new R_PARAM_BLD) ;;
  if negb bld then Ret (NGX_ERROR, NULL) else
  group <- call (lib_call (bs "OSSL_PARAM_BLD_push_utf8_string")) ;;
  out <- (if negb group then Ret (NGX_ERROR, NULL) else
          pub <- call (lib_call (bs "OSSL_PARAM_BLD_push_octet_string")) ;;
          if negb pub then Ret (NGX_ERROR, NULL) else
          build_key (bs "EC") [P_utf8 (bs "group") (bs "prime256v1"); P_octets (bs "pub") point]) ;;
  call (res_free R_PARAM_BLD) ;;
  Ret out.

Definition ngx_auth_webauthn_cose_okp_pkey (crv x_item : ptr cbor_item_t)
    : prog (ngx_rc * ptr EVP_PKEY) :=
  let '(rc, crv_id) := ngx_auth_webauthn_cose_int crv in
  if negb (is_ok rc) || negb (crv_id =? NGX_AUTH_WEBAUTHN_COSE_CRV_ED25519)
  then Ret (NGX_DECLINED, NULL) else
  let '(rc, x) := ngx_auth_webauthn_cose_bytes x_item in
  if negb (is_ok rc) || negb (zlen x =? NGX_AUTH_WEBAUTHN_ED25519_KEY_LEN)
  then Ret (NGX_DECLINED, NULL) else
  room <- call (lib_call (bs "EVP_PKEY_new_raw_public_key")) ;;
  if negb room then Ret (NGX_ERROR, NULL) else
  match EVP_PKEY_new_raw_public_key EVP_PKEY_ED25519 x with
  | None => Ret (NGX_ERROR, NULL)
  | Some pkey => call (res_hold R_EVP_PKEY) ;; Ret (NGX_OK, Some pkey)
  end.

Definition ngx_auth_webauthn_cose_rsa_pkey (n_item e_item : ptr cbor_item_t)
    : prog (ngx_rc * ptr EVP_PKEY) :=
  let '(rcn, n) := ngx_auth_webauthn_cose_bytes n_item in
  let '(rce, e) := ngx_auth_webauthn_cose_bytes e_item in
  if negb (is_ok rcn) || negb (is_ok rce) then Ret (NGX_DECLINED, NULL) else
  bn_n <- call (res_new R_BIGNUM) ;;
  bn_e <- call (res_new R_BIGNUM) ;;
  bld <- call (res_new R_PARAM_BLD) ;;
  out <- (if negb bn_n || negb bn_e || negb bld then Ret (NGX_ERROR, NULL) else
          pn <- call (lib_call (bs "OSSL_PARAM_BLD_push_BN")) ;;
          if negb pn then Ret (NGX_ERROR, NULL) else
          pe <- call (lib_call (bs "OSSL_PARAM_BLD_push_BN")) ;;
          if negb pe then Ret (NGX_ERROR, NULL) else
          build_key (bs "RSA") [P_BN (bs "n") (BN_bin2bn n (int32 (zlen n)));
                                P_BN (bs "e") (BN_bin2bn e (int32 (zlen e)))]) ;;
  free_opt R_PARAM_BLD bld ;;
  free_opt R_BIGNUM bn_n ;;
  free_opt R_BIGNUM bn_e ;;
  Ret out.

(** The values the loop over the map collects. *)
Record collected := {
  v_kty : ptr cbor_item_t; v_alg : ptr cbor_item_t;
  v_m1 : ptr cbor_item_t; v_m2 : ptr cbor_item_t; v_m3 : ptr cbor_item_t;
}.
Definition collect_one (c : collected) (pair : cbor_item_t * cbor_item_t) : collected :=
  let '(rc, key) := ngx_auth_webauthn_cose_int (Some pair.1) in
  if negb (is_ok rc) then c
  else if key =? NGX_AUTH_WEBAUTHN_COSE_LABEL_KTY then
    {| v_kty := Some pair.2; v_alg := v_alg c; v_m1 := v_m1 c; v_m2 := v_m2 c; v_m3 := v_m3 c |}
  else if key =? NGX_AUTH_WEBAUTHN_COSE_LABEL_ALG then
    {| v_kty := v_kty c; v_alg := Some pair.2; v_m1 := v_m1 c; v_m2 := v_m2 c; v_m3 := v_m3 c |}
  else if key =? -1 then
    {| v_kty := v_kty c; v_alg := v_alg c; v_m1 := Some pair.2; v_m2 := v_m2 c; v_m3 := v_m3 c |}
  else if key =? -2 then
    {| v_kty := v_kty c; v_alg := v_alg c; v_m1 := v_m1 c; v_m2 := Some pair.2; v_m3 := v_m3 c |}
  else if key =? -3 then
    {| v_kty := v_kty c; v_alg := v_alg c; v_m1 := v_m1 c; v_m2 := v_m2 c; v_m3 := Some pair.2 |}
  else c.
Definition collect (pairs : list (cbor_item_t * cbor_item_t)) : collected :=
  foldl collect_one {| v_kty := NULL; v_alg := NULL; v_m1 := NULL; v_m2 := NULL; v_m3 := NULL |}
    pairs.

(** The switch over the key type. *)
Definition key_of_items (c : collected) (kty alg_id : Z) : prog (ngx_rc * ptr EVP_PKEY) :=
  if kty =? NGX_AUTH_WEBAUTHN_COSE_KTY_EC2 then
    if negb (alg_id =? NGX_AUTH_WEBAUTHN_COSE_ALG_ES256) then Ret (NGX_DECLINED, NULL)
    else ngx_auth_webauthn_cose_ec2_pkey (v_m1 c) (v_m2 c) (v_m3 c)
  else if kty =? NGX_AUTH_WEBAUTHN_COSE_KTY_OKP then
    if negb (alg_id =? NGX_AUTH_WEBAUTHN_COSE_ALG_EDDSA) then Ret (NGX_DECLINED, NULL)
    else ngx_auth_webauthn_cose_okp_pkey (v_m1 c) (v_m2 c)
  else if kty =? NGX_AUTH_WEBAUTHN_COSE_KTY_RSA then
    if negb (alg_id =? NGX_AUTH_WEBAUTHN_COSE_ALG_RS256) then Ret (NGX_DECLINED, NULL)
    else ngx_auth_webauthn_cose_rsa_pkey (v_m1 c) (v_m2 c)
  else Ret (NGX_DECLINED, NULL).

(** Return code, [*pkey] and [*alg]; the pointers with their old contents. *)
Definition ngx_auth_webauthn_cose_to_pkey (cose : ptr bytes) (cose_len : Z)
    (pkey : ptr (ptr EVP_PKEY)) (alg : ptr Z)
    : prog (ngx_rc * ptr (ptr EVP_PKEY) * ptr Z) :=
  if nullp cose || nullp pkey || nullp alg then Ret (NGX_ERROR, pkey, alg) else
  buf <- deref cose ;;
  if zlen buf <? cose_len then UB else
  match cbor_load (take (Z.to_nat cose_len) buf) with
  | (None, _, _) => Ret (NGX_ERROR, Some NULL, alg)
  | (Some root, no_error, _) =>
      call (res_hold R_CBOR) ;;
      '(rc, key, alg) <-
        (if negb no_error || negb (cbor_isa_map root) then Ret (NGX_ERROR, NULL, alg) else
         let c := collect (cbor_map root) in
         let '(rck, kty) := ngx_auth_webauthn_cose_int (v_kty c) in
         let '(rca, alg_id) := ngx_auth_webauthn_cose_int (v_alg c) in
         if negb (is_ok rck) || negb (is_ok rca) then Ret (NGX_DECLINED, NULL, alg) else
         '(rc, key) <- key_of_items c kty alg_id ;;
         Ret (rc, key, if is_ok rc then Some (int32 alg_id) else alg)) ;;
      call (res_free R_CBOR) ;;
      Ret (rc, Some key, alg)
  end.

(** Return code, [*der] and [*alg].  The first i2d_PUBKEY counts, the second
    writes and must count the same. *)
Definition ngx_auth_webauthn_cose_to_der (pool : ptr unit) (cose : ptr bytes) (cose_len : Z)
    (der : ptr ngx_str_t) (alg : ptr Z) : prog (ngx_rc * ptr ngx_str_t * ptr Z) :=
  if nullp pool || nullp der then Ret (NGX_ERROR, der, alg) else
  '(rc, key, alg) <- ngx_auth_webauthn_cose_to_pkey cose cose_len (Some NULL) alg ;;
  if negb (is_ok rc) then Ret (rc, der, alg) else
  pkey <- deref key ;;
  pkey <- deref pkey ;;
  '(rc, der) <-
    match i2d_PUBKEY pkey with
    | None => Ret (NGX_ERROR, der)
    | Some d =>
        let der_len := int32 (zlen d) in
        if der_len <=? 0 then Ret (NGX_ERROR, der) else
        p <- pool_fill der_len d ;;
        match p with
        | None => Ret (NGX_ERROR, Some NULL)
        | Some d =>
            if negb (int32 (zlen d) =? der_len) then Ret (NGX_ERROR, der)
            else Ret (NGX_OK, Some (Some d))
        end
    end ;;
  call (res_free R_EVP_PKEY) ;;
  Ret (rc, der, alg).

(** ** What a COSE_Key denotes *)

Definition int_of_item (item : cbor_item_t) : option Z :=
  if cbor_isa_uint item then Some (int64 (cbor_get_int item))
  else if cbor_isa_negint item then Some (-1 - int64 (cbor_get_int item))
  else None.

Definition bytes_of_item (item : cbor_item_t) : option bytes :=
  if cbor_isa_bytestring item && cbor_bytestring_is_definite item
  then Some (cbor_bytestring item) else None.

(** The last value under an integer label. *)
Definition label_value (l : Z) (pairs : list (cbor_item_t * cbor_item_t)) : option cbor_item_t :=
  foldl (fun acc p => if bool_decide (int_of_item p.1 = Some l) then Some p.2 else acc) None pairs.

Inductive key_material :=
  | K_P256 (x y : bytes)
  | K_Ed25519 (x : bytes)
  | K_RSA (n e : bytes).

Definition guard_bool (b : bool) : option unit := if b then Some tt else None.

(** The material each key type asks for, from the values of its labels. *)
Definition ec2_material (crv x y : option cbor_item_t) : option key_material :=
  c ← crv ≫= int_of_item; _ ← guard_bool (c =? 1);
  bx ← x ≫= bytes_of_item; by_ ← y ≫= bytes_of_item;
  _ ← guard_bool ((zlen bx =? 32) && (zlen by_ =? 32)); Some (K_P256 bx by_).
Definition okp_material (crv x : option cbor_item_t) : option key_material :=
  c ← crv ≫= int_of_item; _ ← guard_bool (c =? 6);
  bx ← x ≫= bytes_of_item; _ ← guard_bool (zlen bx =? 32); Some (K_Ed25519 bx).
Definition rsa_material (n e : option cbor_item_t) : option key_material :=
  bn ← n ≫= bytes_of_item; be ← e ≫= bytes_of_item; Some (K_RSA bn be).

(** The supported keys (RFC 8152): algorithm and key material. *)
Definition cose_key (pairs : list (cbor_item_t * cbor_item_t)) : option (Z * key_material) :=
  let v l := label_value l pairs in
  kty ← v 1 ≫= int_of_item;
  alg ← v 3 ≫= int_of_item;
  m ← (if (kty =? 2) && (alg =? -7) then ec2_material (v (-1)) (v (-2)) (v (-3))
       else if (kty =? 1) && (alg =? -8) then okp_material (v (-1)) (v (-2))
       else if (kty =? 3) && (alg =? -257) then rsa_material (v (-1)) (v (-2))
       else None);
  Some (alg, m).

(** The OpenSSL key of the material: an uncompressed point, raw bytes, two
    numbers. *)
Definition make_key (m : key_material) : option EVP_PKEY :=
  match m with
  | K_P256 x y => EVP_PKEY_fromdata (bs "EC")
      [P_utf8 (bs "group") (bs "prime256v1"); P_octets (bs "pub") (Byte.x04 :: x ++ y)]
  | K_Ed25519 x => EVP_PKEY_new_raw_public_key EVP_PKEY_ED25519 x
  | K_RSA n e => EVP_PKEY_fromdata (bs "RSA")
      [P_BN (bs "n") (BN_bin2bn n (int32 (zlen n))); P_BN (bs "e") (BN_bin2bn e (int32 (zlen e)))]
  end.

(** ** The loop collects the last value of each label *)

Lemma cose_int_some item :
  ngx_auth_webauthn_cose_int (Some item) =
  match int_of_item item with Some z => (NGX_OK, z) | None => (NGX_DECLINED, 0) end.
Proof.
  unfold ngx_auth_webauthn_cose_int, int_of_item.
  destruct (cbor_isa_uint item); [done|]. by destruct (cbor_isa_negint item).
Qed.

Lemma cose_int_opt o :
  ngx_auth_webauthn_cose_int o =
  match o ≫= int_of_item with Some z => (NGX_OK, z) | None => (NGX_DECLINED, 0) end.
Proof. destruct o as [item|]; [apply cose_int_some|done]. Qed.

Lemma cose_bytes_opt o :
  ngx_auth_webauthn_cose_bytes o =
  match o ≫= bytes_of_item with Some b => (NGX_OK, b) | None => (NGX_DECLINED, []) end.
Proof.
  destruct o as [item|]; [|done]. cbn. unfold bytes_of_item.
  destruct (cbor_isa_bytestring item); [|done]. by destruct (cbor_bytestring_is_definite item).
Qed.

Lemma label_value_snoc l pairs p :
  label_value l (pairs ++ [p]) =
  if bool_decide (int_of_item p.1 = Some l) then Some p.2 else label_value l pairs.
Proof. unfold label_value. by rewrite foldl_app. Qed.

Lemma collect_spec pairs :
  collect pairs = {| v_kty := label_value 1 pairs; v_alg := label_value 3 pairs;
    v_m1 := label_value (-1) pairs; v_m2 := label_value (-2) pairs; v_m3 := label_value (-3) pairs |}.
Proof.
  induction pairs as [|p pairs IH] using rev_ind; [done|].
  unfold collect in *. rewrite foldl_app, IH. cbn [foldl]. unfold collect_one.
  rewrite cose_int_some, !label_value_snoc.
  destruct (int_of_item p.1) as [z|]; cbn [is_ok negb].
  2:{ by rewrite !bool_decide_false by done. }
  unfold NGX_AUTH_WEBAUTHN_COSE_LABEL_KTY, NGX_AUTH_WEBAUTHN_COSE_LABEL_ALG.
  assert (forall k, bool_decide (Some z = Some k) = (z =? k)) as E.
  { intros k. destruct (Z.eqb_spec z k) as [->|]; [by apply bool_decide_true|].
    apply bool_decide_false. by intros [= ->]. }
  rewrite !E. cbn [v_kty v_alg v_m1 v_m2 v_m3].
  destruct (Z.eqb_spec z 1) as [->|]; [done|]. destruct (Z.eqb_spec z 3) as [->|]; [done|].
  destruct (Z.eqb_spec z (-1)) as [->|]; [done|]. destruct (Z.eqb_spec z (-2)) as [->|]; [done|].
  by destruct (Z.eqb_spec z (-3)) as [->|].
Qed.

(** ** Building the key *)

(** [out] is the key [o], or an error because there is none or something failed. *)
Definition built (o : option EVP_PKEY) (out : ngx_rc * ptr EVP_PKEY) (h : trace) : Prop :=
  match out.1 with
  | NGX_OK => out.2 = o /\ o <> None
  | NGX_ERROR => out.2 = NULL /\ (o = None \/ env_failed h)
  | NGX_DECLINED => False
  end.

Lemma built_app o out h k : built o out h -> built o out (h ++ k).
Proof. unfold built. destruct out.1; [done| |done]. intros [? [?|?]]; auto with env. Qed.

Lemma failed_built o h : env_failed h -> built o (NGX_ERROR, NULL) h.
Proof. intros Hf. split; [done|by right]. Qed.

#[local] Hint Resolve built_app failed_built : env.

Lemma free_opt_trace r b o (out : ngx_rc * ptr EVP_PKEY) (h : trace) {A} (k : prog A) Q :
  built o out h -> (forall h', built o out h' -> wp k Q h') -> wp (free_opt r b ;; k) Q h.
Proof.
  intros Hb Hk. destruct b; [|by apply Hk].
  apply wp_bind, wp_trace_call. intros [] _. apply Hk. auto with env.
Qed.

(** Call steps that only fail for want of resources. *)
Ltac try_call :=
  apply wp_bind, wp_trace_call; intros [] _; cbn [negb orb ans];
  [|try solve [cbn [wp]; auto with env]].

Lemma build_key_trace name ps (h : trace) :
  wp (build_key name ps) (built (EVP_PKEY_fromdata name ps)) h.
Proof.
  unfold build_key. apply wp_bind, wp_trace_call. intros a _. apply wp_bind, wp_trace_call. intros b _.
  eapply (wp_seq _ _ (built (EVP_PKEY_fromdata name ps))).
  - destruct a; cbn [negb orb]; [|cbn [wp]; auto with env].
    destruct b; cbn [negb orb]; [|cbn [wp]; auto with env].
    try_call. try_call. destruct (EVP_PKEY_fromdata name ps) as [k|].
    + apply wp_bind, wp_trace_call. by intros [] _.
    + cbn [wp]. split; [done|by left].
  - intros out h' Hb. eapply free_opt_trace; [done|]. intros h2 Hb2.
    eapply free_opt_trace; [done|]. by intros h3 Hb3.
Qed.

Definition keyed (m : option key_material) (out : ngx_rc * ptr EVP_PKEY) (h : trace) : Prop :=
  match m with
  | None => out = (NGX_DECLINED, NULL)
  | Some m => built (make_key m) out h
  end.

Lemma ec2_trace crv x y (h : trace) :
  wp (ngx_auth_webauthn_cose_ec2_pkey crv x y) (keyed (ec2_material crv x y)) h.
Proof.
  unfold ngx_auth_webauthn_cose_ec2_pkey, ec2_material. rewrite cose_int_opt, !cose_bytes_opt.
  destruct (crv ≫= int_of_item) as [c|]; cbn [is_ok negb orb mbind option_bind]; [|done].
  unfold NGX_AUTH_WEBAUTHN_COSE_CRV_P256, NGX_AUTH_WEBAUTHN_P256_COORD_LEN.
  destruct (c =? 1); cbn [is_ok negb orb guard_bool mbind option_bind]; [|done].
  destruct (x ≫= bytes_of_item) as [bx|]; cbn [is_ok negb orb mbind option_bind];
    [|by destruct (y ≫= bytes_of_item)].
  destruct (y ≫= bytes_of_item) as [by_|]; cbn [is_ok negb orb mbind option_bind]; [|done].
  destruct (zlen bx =? 32), (zlen by_ =? 32); cbn [negb orb andb guard_bool mbind option_bind]; try done.
  unfold keyed. try_call. apply wp_bind, wp_trace_call. intros grp _.
  eapply (wp_seq _ _ (built (make_key (K_P256 bx by_)))).
  - destruct grp; cbn [negb]; [|cbn [wp]; auto with env]. try_call. apply build_key_trace.
  - intros out h' Hb. apply wp_bind, wp_trace_call. intros [] _. by apply built_app.
Qed.

Lemma okp_trace crv x (h : trace) :
  wp (ngx_auth_webauthn_cose_okp_pkey crv x) (keyed (okp_material crv x)) h.
Proof.
  unfold ngx_auth_webauthn_cose_okp_pkey, okp_material. rewrite cose_int_opt, !cose_bytes_opt.
  destruct (crv ≫= int_of_item) as [c|]; cbn [is_ok negb orb mbind option_bind]; [|done].
  unfold NGX_AUTH_WEBAUTHN_COSE_CRV_ED25519, NGX_AUTH_WEBAUTHN_ED25519_KEY_LEN.
  destruct (c =? 6); cbn [is_ok negb orb guard_bool mbind option_bind]; [|done].
  destruct (x ≫= bytes_of_item) as [bx|]; cbn [is_ok negb orb mbind option_bind]; [|done].
  destruct (zlen bx =? 32); cbn [negb orb guard_bool mbind option_bind]; [|done].
  unfold keyed. try_call.
  destruct (EVP_PKEY_new_raw_public_key EVP_PKEY_ED25519 bx) as [k|] eqn:E.
  - apply wp_bind, wp_trace_call. intros [] _. cbn. unfold built. cbn. by rewrite E.
  - cbn [wp]. split; [done|by left].
Qed.

Lemma rsa_trace n e (h : trace) :
  wp (ngx_auth_webauthn_cose_rsa_pkey n e) (keyed (rsa_material n e)) h.
Proof.
  unfold ngx_auth_webauthn_cose_rsa_pkey, rsa_material. rewrite !cose_bytes_opt.
  destruct (n ≫= bytes_of_item) as [bn|]; cbn [is_ok negb orb mbind option_bind];
    [|by destruct (e ≫= bytes_of_item)].
  destruct (e ≫= bytes_of_item) as [be|]; cbn [is_ok negb orb mbind option_bind]; [|done].
  unfold keyed. apply wp_bind, wp_trace_call. intros a _. apply wp_bind, wp_trace_call. intros b _.
  apply wp_bind, wp_trace_call. intros c _.
  eapply (wp_seq _ _ (built (make_key (K_RSA bn be)))).
  - destruct a, b, c; cbn [negb orb]; try (cbn [wp]; by auto 6 with env).
    try_call. try_call. apply build_key_trace.
  - intros out h1 H1. eapply free_opt_trace; [done|]. intros h2 H2.
    eapply free_opt_trace; [done|]. intros h3 H3. eapply free_opt_trace; [done|]. by intros h4 H4.
Qed.

(** The switch follows the specification. *)
Lemma key_of_items_trace pairs kty alg (h : trace) :
  label_value 1 pairs ≫= int_of_item = Some kty ->
  label_value 3 pairs ≫= int_of_item = Some alg ->
  wp (key_of_items (collect pairs) kty alg)
     (fun out h' => exists m, keyed m out h' /\ cose_key pairs = (fun m => (alg, m)) <$> m) h.
Proof.
  intros Hk Ha. rewrite collect_spec. unfold key_of_items, cose_key. rewrite Hk, Ha.
  cbn [v_m1 v_m2 v_m3]. unfold NGX_AUTH_WEBAUTHN_COSE_KTY_EC2, NGX_AUTH_WEBAUTHN_COSE_KTY_OKP,
    NGX_AUTH_WEBAUTHN_COSE_KTY_RSA, NGX_AUTH_WEBAUTHN_COSE_ALG_ES256,
    NGX_AUTH_WEBAUTHN_COSE_ALG_EDDSA, NGX_AUTH_WEBAUTHN_COSE_ALG_RS256.
  assert (forall m : option key_material,
    (m ≫= fun m => Some (alg, m)) = (fun m => (alg, m)) <$> m) as E by by intros [].
  cbn [mbind option_bind]. fold (@mbind option _).
  destruct (Z.eqb_spec kty 2) as [->|]; cbn [andb].
  { destruct (alg =? -7); cbn [negb]; [|by exists None].
    eapply wp_mono; [|apply ec2_trace]. intros out h' Hout. eexists. split; [exact Hout|apply E]. }
  destruct (Z.eqb_spec kty 1) as [->|]; cbn [andb].
  { destruct (alg =? -8); cbn [negb]; [|by exists None].
    eapply wp_mono; [|apply okp_trace]. intros out h' Hout. eexists. split; [exact Hout|apply E]. }
  destruct (Z.eqb_spec kty 3) as [->|]; cbn [andb]; [|by exists None].
  destruct (alg =? -257); cbn [negb]; [|by exists None].
  eapply wp_mono; [|apply rsa_trace]. intros out h' Hout. eexists. split; [exact Hout|apply E].
Qed.

(** ** Resources: exactly the key is kept, on success only *)

Definition key_held (w : held) (out : ngx_rc * ptr EVP_PKEY) (w' : held) : Prop :=
  match out.1 with
  | NGX_OK => w' = w ⊎ {[+ R_EVP_PKEY +]} /\ exists k, out.2 = Some k
  | _ => w' = w /\ out.2 = NULL
  end.

Lemma free_opt_held r (b : bool) (w : held) {A} (k : prog A) Q :
  wp k Q w -> wp (free_opt r b ;; k) Q (if b then w ⊎ {[+ r +]} else w).
Proof.
  intros Hk. destruct b; [|done]. apply wp_bind, wp_held_call; [apply held_in|].
  intros [] _. cbn [held_next]. by rewrite held_release.
Qed.

Lemma build_key_held name ps (w : held) : wp (build_key name ps) (key_held w) w.
Proof.
  unfold build_key. apply wp_bind, wp_held_call; [done|]. intros a _.
  apply wp_bind, wp_held_call; [done|]. intros b _. cbn [held_next].
  set (w2 := if b then _ else _).
  assert (forall (out : ngx_rc * ptr EVP_PKEY) (w' : held), key_held w2 out w' ->
    wp (free_opt R_PARAM a ;; free_opt R_EVP_PKEY_CTX b ;; Ret out) (key_held w) w') as Hfree.
  { intros [rc k] w' Hk. unfold key_held in Hk. cbn [fst snd] in Hk.
    assert (exists w0 : held, w' = (if a then (if b then w0 ⊎ {[+ R_EVP_PKEY_CTX +]} else w0)
        ⊎ {[+ R_PARAM +]} else if b then w0 ⊎ {[+ R_EVP_PKEY_CTX +]} else w0) /\
        key_held w (rc, k) w0) as (w0 & -> & H0).
    { destruct rc; destruct Hk as [-> Hk]; subst w2;
        [exists (w ⊎ {[+ R_EVP_PKEY +]})|exists w|exists w]; (split; [|by split]);
        destruct a, b; multiset_solver. }
    apply free_opt_held. by apply free_opt_held. }
  eapply wp_seq with (Q1 := key_held w2); [|by intros out w'; apply Hfree].
  destruct (negb a || negb b); [by split|].
  apply wp_bind, wp_held_call; [done|]. intros [] _; cbn [negb held_next]; [|by split].
  apply wp_bind, wp_held_call; [done|]. intros [] _; cbn [negb held_next]; [|by split].
  destruct (EVP_PKEY_fromdata name ps) as [k|]; [|by split].
  apply wp_bind, wp_held_call; [done|]. intros [] _. split; [done|]. by exists k.
Qed.

Lemma ec2_held crv x y (w : held) : wp (ngx_auth_webauthn_cose_ec2_pkey crv x y) (key_held w) w.
Proof.
  unfold ngx_auth_webauthn_cose_ec2_pkey. destruct (ngx_auth_webauthn_cose_int crv).
  destruct (_ || _); [by split|]. destruct (ngx_auth_webauthn_cose_bytes x) as [rcx bx].
  destruct (ngx_auth_webauthn_cose_bytes y) as [rcy by_]. destruct (_ || _); [by split|].
  apply wp_bind, wp_held_call; [done|]. intros [] _; cbn [negb held_next]; [|by split].
  apply wp_bind, wp_held_call; [done|]. intros grp _. cbn [held_next].
  eapply wp_seq with (Q1 := key_held (w ⊎ {[+ R_PARAM_BLD +]})).
  - destruct (negb grp); [by split|]. apply wp_bind, wp_held_call; [done|].
    intros [] _; cbn [negb held_next]; [apply build_key_held|by split].
  - intros [rc k] w' Hk. unfold key_held in *. cbn [fst snd] in Hk.
    apply wp_bind, wp_held_call.
    { destruct rc; destruct Hk as [-> _]; cbn [held_pre]; multiset_solver. }
    intros [] _. cbn [held_next wp fst snd].
    destruct rc; destruct Hk as [-> Hk]; (split; [multiset_solver|done]).
Qed.

Lemma okp_held crv x (w : held) : wp (ngx_auth_webauthn_cose_okp_pkey crv x) (key_held w) w.
Proof.
  unfold ngx_auth_webauthn_cose_okp_pkey. destruct (ngx_auth_webauthn_cose_int crv).
  destruct (_ || _); [by split|]. destruct (ngx_auth_webauthn_cose_bytes x) as [rcx bx].
  destruct (_ || _); [by split|].
  apply wp_bind, wp_held_call; [done|]. intros [] _; cbn [negb held_next]; [|by split].
  destruct (EVP_PKEY_new_raw_public_key _ _) as [k|]; [|by split].
  apply wp_bind, wp_held_call; [done|]. intros [] _. split; [done|]. by exists k.
Qed.

Lemma rsa_held n e (w : held) : wp (ngx_auth_webauthn_cose_rsa_pkey n e) (key_held w) w.
Proof.
  unfold ngx_auth_webauthn_cose_rsa_pkey. destruct (ngx_auth_webauthn_cose_bytes n) as [rcn bn].
  destruct (ngx_auth_webauthn_cose_bytes e) as [rce be]. destruct (_ || _); [by split|].
  apply wp_bind, wp_held_call; [done|]. intros a _. apply wp_bind, wp_held_call; [done|]. intros b _.
  apply wp_bind, wp_held_call; [done|]. intros c _. cbn [held_next].
  set (w3 := if c then _ else _).
  eapply wp_seq with (Q1 := key_held w3).
  - destruct (_ || _); [by split|]. apply wp_bind, wp_held_call; [done|].
    intros [] _; cbn [negb held_next]; [|by split]. apply wp_bind, wp_held_call; [done|].
    intros [] _; cbn [negb held_next]; [apply build_key_held|by split].
  - intros [rc k] w' Hk. unfold key_held in Hk. cbn [fst snd] in Hk.
    assert (exists w0 : held, key_held w (rc, k) w0 /\
      let w1 := if b then w0 ⊎ {[+ R_BIGNUM +]} else w0 in
      let w2 := if a then w1 ⊎ {[+ R_BIGNUM +]} else w1 in
      w' = if c then w2 ⊎ {[+ R_PARAM_BLD +]} else w2) as (w0 & H0 & ->).
    { destruct rc; destruct Hk as [-> Hk]; subst w3;
        [exists (w ⊎ {[+ R_EVP_PKEY +]})|exists w|exists w]; (split; [by split|]);
        destruct a, b, c; multiset_solver. }
    by repeat apply free_opt_held.
Qed.

Lemma key_of_items_held c kty alg (w : held) : wp (key_of_items c kty alg) (key_held w) w.
Proof.
  unfold key_of_items.
  destruct (_ =? _); [destruct (negb _); [by split|apply ec2_held]|].
  destruct (_ =? _); [destruct (negb _); [by split|apply okp_held]|].
  destruct (_ =? _); [destruct (negb _); [by split|apply rsa_held]|]. by split.
Qed.

(** What the decoding of [cose] answers. *)
Definition to_pkey_post (cose : bytes) (old : Z)
    (out : ngx_rc * ptr (ptr EVP_PKEY) * ptr Z) (h : trace) : Prop :=
  let '(rc, key, alg) := out in
  match rc with
  | NGX_OK => exists root n al m k,
      cbor_load cose = (Some root, true, n) /\ cbor_isa_map root = true /\
      cose_key (cbor_map root) = Some (al, m) /\ make_key m = Some k /\
      key = Some (Some k) /\ alg = Some al
  | NGX_DECLINED => key = Some NULL /\ alg = Some old /\ exists root n,
      cbor_load cose = (Some root, true, n) /\ cbor_isa_map root = true /\
      cose_key (cbor_map root) = None
  | NGX_ERROR => key = Some NULL /\ alg = Some old /\
      (env_failed h \/
       (forall root n, cbor_load cose = (Some root, true, n) ->
          cbor_isa_map root = false \/
          exists al m, cose_key (cbor_map root) = Some (al, m) /\ make_key m = None))
  end.

Lemma guard_bool_true b u : guard_bool b = Some u -> b = true.
Proof. by destruct b. Qed.

(** The three kinds of key. *)
Definition typed_material (al : Z) (m : key_material) : Prop :=
  match m with
  | K_P256 x y => al = -7 /\ zlen x = 32 /\ zlen y = 32
  | K_Ed25519 x => al = -8 /\ zlen x = 32
  | K_RSA _ _ => al = -257
  end.

Lemma cose_key_typed pairs al m : cose_key pairs = Some (al, m) -> typed_material al m.
Proof.
  unfold cose_key, ec2_material, okp_material, rsa_material.
  intros (kty & _ & (alg & _ & (m' & Hm & [= <- <-])%bind_Some)%bind_Some)%bind_Some.
  destruct ((kty =? 2) && (alg =? -7)) eqn:E1.
  { apply andb_true_iff in E1 as [_ ->%Z.eqb_eq].
    apply bind_Some in Hm as (? & _ & (? & _ & (x & _ & (y & _ &
      (u & [Hx Hy]%guard_bool_true%andb_true_iff & [= <-])%bind_Some)%bind_Some)%bind_Some)%bind_Some).
    apply Z.eqb_eq in Hx, Hy. done. }
  destruct ((kty =? 1) && (alg =? -8)) eqn:E2.
  { apply andb_true_iff in E2 as [_ ->%Z.eqb_eq].
    apply bind_Some in Hm as (? & _ & (? & _ & (x & _ &
      (u & Hx%guard_bool_true & [= <-])%bind_Some)%bind_Some)%bind_Some).
    apply Z.eqb_eq in Hx. done. }
  destruct ((kty =? 3) && (alg =? -257)) eqn:E3; [|done].
  apply andb_true_iff in E3 as [_ ->%Z.eqb_eq].
  by apply bind_Some in Hm as (? & _ & (? & _ & [= <-])%bind_Some).
Qed.

Lemma typed_alg al m : typed_material al m -> al = -7 \/ al = -8 \/ al = -257.
Proof. destruct m; cbn; lia. Qed.

Lemma to_pkey_trace cose old key0 (h : trace) :
  wp (ngx_auth_webauthn_cose_to_pkey (Some cose) (zlen cose) (Some key0) (Some old))
     (to_pkey_post cose old) h.
Proof.
  unfold ngx_auth_webauthn_cose_to_pkey. cbn [nullp orb deref bind]. rewrite Z.ltb_irrefl.
  rewrite take_ge by (unfold zlen; lia).
  destruct (cbor_load cose) as [[[root|] no_error] n] eqn:Hload.
  2:{ cbn. split_and!; [done|done|]. right. intros root n' E. congruence. }
  apply wp_bind, wp_trace_call. intros [] _.
  assert (forall out h', to_pkey_post cose old (out.1.1, Some out.1.2, out.2) h' ->
    wp (let '(rc, key, alg) := out in call (res_free R_CBOR) ;; Ret (rc, Some key, alg))
       (to_pkey_post cose old) h') as Hend.
  { intros [[rc key] alg] h' Hp. apply wp_bind, wp_trace_call. intros [] _. cbn [fst snd wp] in *.
    destruct rc; [done| |done]. destruct Hp as (? & ? & [Hf|?]); split_and!; auto with env. }
  assert (forall why h', why = NGX_ERROR -> (no_error = true -> cbor_isa_map root = false) ->
    to_pkey_post cose old (why, Some NULL, Some old) h') as Hbad.
  { intros why h' -> Hno. split_and!; [done|done|]. right. intros root' n' E. left.
    rewrite Hload in E. injection E as -> -> ->. by apply Hno. }
  apply wp_bind.
  destruct no_error; cbn [negb orb]; [|apply Hend; cbn [fst snd]; by apply Hbad].
  destruct (cbor_isa_map root) eqn:Hmap; cbn [negb]; [|apply Hend; cbn [fst snd]; by apply Hbad].
  assert (forall h', cose_key (cbor_map root) = None ->
    to_pkey_post cose old (NGX_DECLINED, Some NULL, Some old) h') as Hdec.
  { intros h' E. split_and!; [done|done|]. by exists root, n. }
  rewrite collect_spec, !cose_int_opt. cbn [v_kty v_alg]. rewrite <- collect_spec.
  destruct (label_value 1 (cbor_map root) ≫= int_of_item) as [kty|] eqn:Hk.
  2:{ destruct (label_value 3 (cbor_map root) ≫= int_of_item); apply Hend; cbn [fst snd];
        apply Hdec; unfold cose_key; by rewrite Hk. }
  destruct (label_value 3 (cbor_map root) ≫= int_of_item) as [alg|] eqn:Ha; cbn [is_ok negb orb].
  2:{ apply Hend; cbn [fst snd]. apply Hdec. unfold cose_key. by rewrite Hk, Ha. }
  apply wp_bind. eapply wp_mono; [|by apply key_of_items_trace].
  intros [rc key] h' (m & Hm & Hck). cbn [wp].
  apply (Hend (rc, key, if is_ok rc then Some (int32 alg) else Some old)). cbn [fst snd].
  destruct m as [m|]; cbn [keyed fmap option_fmap option_map] in Hm, Hck.
  2:{ injection Hm as -> ->. by apply Hdec. }
  destruct rc; cbn [built fst snd is_ok] in *; [| |done].
  - destruct Hm as [-> Hne]. destruct (make_key m) as [k|] eqn:Hmk; [|done].
    assert (int32 alg = alg) as ->.
    { apply int32_small. unfold INT32_MIN, INT32_MAX. apply cose_key_typed, typed_alg in Hck. lia. }
    by exists root, n, alg, m, k.
  - destruct Hm as [-> [Hmk|Hf]]; split_and!; auto. right. intros root' n' E.
    rewrite Hload in E. injection E as <- <-. right. by exists alg, m.
Qed.

Definition pkey_held (w : held) (out : ngx_rc * ptr (ptr EVP_PKEY) * ptr Z) (w' : held) : Prop :=
  match out.1.1 with
  | NGX_OK => w' = w ⊎ {[+ R_EVP_PKEY +]} /\ exists k a, out.1.2 = Some (Some k) /\ out.2 = Some a
  | _ => w' = w
  end.

Lemma to_pkey_held cose key alg (w : held) :
  wp (ngx_auth_webauthn_cose_to_pkey cose (str_len cose) key alg) (pkey_held w) w.
Proof.
  unfold ngx_auth_webauthn_cose_to_pkey. destruct cose as [buf|]; [|done].
  destruct key as [key0|]; [|done]. destruct alg as [old|]; [|done]. cbn [nullp orb deref bind]. change (str_len (Some buf)) with (zlen buf).
  rewrite Z.ltb_irrefl. destruct (cbor_load _) as [[[root|] ok] n]; [|done].
  apply wp_bind, wp_held_call; [done|]. intros [] _. cbn [held_next].
  assert (forall (rc : ngx_rc) (k : ptr EVP_PKEY) (al : ptr Z) (w' : held),
    (rc = NGX_OK -> exists a, al = Some a) -> key_held (w ⊎ {[+ R_CBOR +]}) (rc, k) w' ->
    wp (call (res_free R_CBOR) ;; Ret (rc, Some k, al)) (pkey_held w) w') as Hend.
  { intros rc k al w' Hal Hk. unfold key_held in Hk. cbn [fst snd] in Hk. apply wp_bind, wp_held_call.
    { destruct rc; destruct Hk as [-> _]; cbn [held_pre]; multiset_solver. }
    intros [] _. cbn [held_next wp]. unfold pkey_held. cbn [fst snd].
    destruct rc; destruct Hk as [-> Hk]; [|multiset_solver..].
    destruct Hk as [x ->], (Hal eq_refl) as [a ->]. split; [multiset_solver|by exists x, a]. }
  apply wp_bind. destruct (_ || _); [by apply (Hend NGX_ERROR NULL (Some old))|].
  destruct (ngx_auth_webauthn_cose_int _) as [rk kty], (ngx_auth_webauthn_cose_int _) as [ra al'].
  destruct (_ || _); [by apply (Hend NGX_DECLINED NULL (Some old))|]. apply wp_bind.
  eapply wp_mono; [|apply key_of_items_held]. intros [rc k] w' Hk.
  apply (Hend rc k (if is_ok rc then Some (int32 al') else Some old)); [|done].
  intros ->. by eexists.
Qed.

(** C22: a COSE_Key is turned into an OpenSSL key exactly as RFC 8152 reads
    it: NGX_OK hands out the key built from the (last) values under labels 1,
    3, -1, -2 and -3 and its algorithm; NGX_DECLINED is a map that denotes no
    supported key; NGX_ERROR is malformed CBOR, material OpenSSL refuses, or a
    failed allocation.  Then [*pkey] is NULL and [*alg] untouched.  All of the
    builder's objects are freed on every path and the caller owns exactly one
    key, on success only. *)
Theorem cose_to_pkey_correct (cose : bytes) (old : Z) (key0 : ptr EVP_PKEY) (h : trace) (w : held) :
  wp (ngx_auth_webauthn_cose_to_pkey (Some cose) (zlen cose) (Some key0) (Some old))
     (to_pkey_post cose old) h /\
  wp (ngx_auth_webauthn_cose_to_pkey (Some cose) (zlen cose) (Some key0) (Some old))
     (pkey_held w) w.
Proof. split; [apply to_pkey_trace|apply (to_pkey_held (Some cose))]. Qed.

(** C33: integer labels and values are read modulo 2^64: an unsigned item of
    2^64 - n (which is no int64) is taken for the negative integer -n, so
    such a map passes for a COSE_Key. *)
Theorem cose_int_wraps (item : cbor_item_t) (n : Z) :
  cbor_isa_uint item = true -> cbor_get_int item = 2 ^ 64 - n -> 0 < n <= 2 ^ 63 ->
  ngx_auth_webauthn_cose_int (Some item) = (NGX_OK, - n).
Proof.
  intros Hu Hg Hn. unfold ngx_auth_webauthn_cose_int. rewrite Hu, Hg. f_equal.
  unfold int64. replace (2 ^ 64 - n + 2 ^ 63) with (2 ^ 63 - n + 1 * 2 ^ 64) by ring.
  rewrite Z.mod_add by lia. rewrite Z.mod_small by lia. lia.
Qed.

(** A stored key the assertion verifier accepts: the algorithm is one it
    knows, and the DER decodes to a key of the type it asks for. *)
Definition verifier_accepts (der : bytes) (alg : Z) : Prop :=
  exists md want pkey, alg_params alg = Some (md, want) /\
    d2i_PUBKEY der = Some pkey /\ EVP_PKEY_base_id pkey = want.

Definition to_der_post (cose : bytes) (out : ngx_rc * ptr ngx_str_t * ptr Z) (h : trace) : Prop :=
  let '(rc, der, alg) := out in
  match rc with
  | NGX_OK => exists root n al m k d,
      cbor_load cose = (Some root, true, n) /\ cbor_isa_map root = true /\
      cose_key (cbor_map root) = Some (al, m) /\ make_key m = Some k /\
      i2d_PUBKEY k = Some d /\ der = Some (Some d) /\ alg = Some al /\ verifier_accepts d al
  | NGX_DECLINED => exists root n,
      cbor_load cose = (Some root, true, n) /\ cbor_isa_map root = true /\
      cose_key (cbor_map root) = None
  | NGX_ERROR => env_failed h \/
      (forall root n al m k d, cbor_load cose = (Some root, true, n) ->
         cbor_isa_map root = true -> cose_key (cbor_map root) = Some (al, m) ->
         make_key m = Some k -> i2d_PUBKEY k <> Some d)
  end.

Lemma key_accepted `{!OpenSSLKeysLaws} al m k d :
  typed_material al m -> make_key m = Some k -> i2d_PUBKEY k = Some d -> verifier_accepts d al.
Proof.
  intros Ht Hm Hd%der_roundtrip. destruct m as [x y|x|n e]; cbn in Ht, Hm.
  - destruct Ht as [-> _]. exists (Some EVP_sha256), EVP_PKEY_EC, k.
    split_and!; [done|done|by eapply fromdata_ec].
  - destruct Ht as [-> _]. exists NULL, EVP_PKEY_ED25519, k.
    split_and!; [done|done|by eapply raw_key_type].
  - rewrite Ht. exists (Some EVP_sha256), EVP_PKEY_RSA, k.
    split_and!; [done|done|by eapply fromdata_rsa].
Qed.

Lemma to_der_trace `{!OpenSSLKeysLaws} cose old der0 (h : trace) :
  wp (ngx_auth_webauthn_cose_to_der (Some tt) (Some cose) (zlen cose) (Some der0) (Some old))
     (to_der_post cose) h.
Proof.
  unfold ngx_auth_webauthn_cose_to_der. cbn [nullp orb].
  eapply wp_seq; [apply to_pkey_trace|]. intros [[rc key] alg] h1 Hp. cbn beta iota in Hp.
  destruct rc; cbn [is_ok negb].
  2:{ destruct Hp as (_ & _ & [Hf|Hno]); [by left|right]. intros root n al m k d Hl Hm Hc Hk Hd.
      destruct (Hno _ _ Hl) as [Hm'|(al' & m' & Hc' & Hk')]; [congruence|].
      rewrite Hc in Hc'. injection Hc' as <- <-. congruence. }
  2:{ by destruct Hp as (_ & _ & Hd). }
  destruct Hp as (root & n & al & m & k & Hl & Hm & Hc & Hk & -> & ->). cbn [deref bind].
  destruct (i2d_PUBKEY k) as [d|] eqn:Hd.
  - pose proof (der_len _ _ Hd). assert (int32 (zlen d) = zlen d) as E32.
    { apply int32_small. unfold INT32_MIN, INT32_MAX. lia. }
    cbv zeta. rewrite E32. destruct (Z.leb_spec (zlen d) 0); [lia|].
    apply wp_bind, wp_bind, pool_fill_trace; [rewrite size_t_small; lia| |];
      rewrite ?E32, ?Z.eqb_refl; apply wp_bind, wp_trace_call; intros [] _.
    + left. auto with env.
    + exists root, n, al, m, k, d. split_and!; try done.
      eapply key_accepted; [by eapply cose_key_typed|done|done].
  - apply wp_bind, wp_bind, wp_trace_call. intros [] _. right. intros. congruence.
Qed.

Lemma to_der_balanced `{!OpenSSLKeysLaws} pool cose der alg :
  balanced ∅ (ngx_auth_webauthn_cose_to_der pool cose (str_len cose) der alg).
Proof.
  intros w _. unfold ngx_auth_webauthn_cose_to_der. destruct (_ || _); [done|].
  eapply wp_seq; [apply to_pkey_held|]. intros [[rc key] alg'] w1 Hw. unfold pkey_held in Hw.
  cbn [fst snd] in Hw. destruct rc; cbn [is_ok negb]; [|done|done].
  destruct Hw as (-> & k & a & -> & ->). cbn [deref bind].
  assert (forall (rc : ngx_rc) (d : ptr ngx_str_t),
    wp (call (res_free R_EVP_PKEY) ;; Ret (rc, d, Some a)) (fun _ w' => w' = w)
       (w ⊎ {[+ R_EVP_PKEY +]})) as Hfree.
  { intros rc d. apply wp_bind, wp_held_call; [apply held_in|]. intros [] _. apply held_release. }
  destruct (i2d_PUBKEY k) as [d|] eqn:Hd; [|apply wp_bind, (Hfree NGX_ERROR der)].
  pose proof (der_len _ _ Hd). assert (int32 (zlen d) = zlen d) as E32.
  { apply int32_small. unfold INT32_MIN, INT32_MAX. lia. }
  cbv zeta. rewrite E32. destruct (Z.leb_spec (zlen d) 0); [lia|].
  apply wp_bind, wp_bind, wp_held_call; [done|]. intros [] _; cbn [held_next].
  - cbn [bind]. rewrite size_t_small, Z.leb_refl by lia. cbn [bind].
    rewrite E32, Z.eqb_refl. cbn [negb]. apply (Hfree NGX_OK (Some (Some d))).
  - apply (Hfree NGX_ERROR (Some NULL)).
Qed.

(** C20: what registration stores the verifier can use: an NGX_OK hands out
    the DER of the key the COSE_Key denotes, together with its algorithm, and
    for that pair [check_signature] finds a known algorithm and a key of the
    type it wants.  NGX_DECLINED means no supported key, NGX_ERROR that the
    CBOR or OpenSSL or an allocation failed, and everything acquired is
    released. *)
Theorem cose_to_der_correct `{!OpenSSLKeysLaws} (cose : bytes) (old : Z) (der0 : ngx_str_t)
    (h : trace) :
  wp (ngx_auth_webauthn_cose_to_der (Some tt) (Some cose) (zlen cose) (Some der0) (Some old))
     (to_der_post cose) h /\
  balanced ∅ (ngx_auth_webauthn_cose_to_der (Some tt) (Some cose) (zlen cose) (Some der0)
                (Some old)).
Proof. split; [apply to_der_trace|apply (to_der_balanced _ (Some cose))]. Qed.
End cose.

Import Samples CborSamples.

(** An ES256 key: [{1: 2, 3: -7, -1: 1, -2: x, -3: y}], 32-byte coordinates. *)
Definition sample_x : bytes := replicate 32 Byte.x11.
Definition sample_y : bytes := replicate 32 Byte.x22.
Definition sample_cose : bytes :=
  [Byte.xa5; Byte.x01; Byte.x02; Byte.x03; Byte.x26; Byte.x20; Byte.x01;
   Byte.x21; Byte.x58; Byte.x20] ++ sample_x ++ [Byte.x22; Byte.x58; Byte.x20] ++ sample_y.
Definition sample_der : bytes := Byte.x01 :: Byte.x04 :: sample_x ++ sample_y.

(** The same key with its label -1 written as the unsigned 2^64 - 1. *)
Definition aliased_cose : bytes :=
  [Byte.xa5; Byte.x01; Byte.x02; Byte.x03; Byte.x26;
   Byte.x1b; Byte.xff; Byte.xff; Byte.xff; Byte.xff; Byte.xff; Byte.xff; Byte.xff; Byte.xff; Byte.x01;
   Byte.x21; Byte.x58; Byte.x20] ++ sample_x ++ [Byte.x22; Byte.x58; Byte.x20] ++ sample_y.

Lemma cose_to_der_correct_witness :
  ok_run (ngx_auth_webauthn_cose_to_der (Some tt) (Some sample_cose) (zlen sample_cose)
            (Some NULL) (Some 0)) = Some (NGX_OK, Some (Some sample_der), Some (-7)) /\
  wp (ngx_auth_webauthn_cose_to_der (Some tt) (Some sample_cose) (zlen sample_cose)
        (Some NULL) (Some 0)) (to_der_post sample_cose) ([] : trace).
Proof.
  split; [vm_compute; reflexivity|].
  exact (proj1 (cose_to_der_correct sample_cose 0 NULL [])).
Defined.

Definition wide_item : @cbor_item_t cbor_lib := CUint (2 ^ 64 - 1).

Lemma cose_int_wraps_witness :
  ok_run (ngx_auth_webauthn_cose_to_der (Some tt) (Some aliased_cose) (zlen aliased_cose)
            (Some NULL) (Some 0)) = Some (NGX_OK, Some (Some sample_der), Some (-7)) /\
  ngx_auth_webauthn_cose_int (Some wide_item) = (NGX_OK, -1).
Proof.
  split; [vm_compute; reflexivity|].
  apply (cose_int_wraps wide_item 1); [reflexivity|vm_compute; reflexivity|lia].
Defined.
