(* ===== verification/Attestation.v ===== *)
(** * Attestation: src/ngx_auth_webauthn_attestation.c

    The attestation object of a registration, and the statement policy: "none"
    and "packed" self-attestation.  The specification is [attestation_of] (what
    a decoded map says) and [attestation_valid]. *)

From S2P Require Import Prelude Effects Externals Samples SamplesCbor AuthData Hash Assertion Cose.
#[global] Open Scope Z_scope.

Definition NGX_AUTH_WEBAUTHN_ATT_NONE : Z := 0.
Definition NGX_AUTH_WEBAUTHN_ATT_PACKED : Z := 1.

Record ngx_auth_webauthn_attestation_t := {
  att_fmt : ngx_str_t;
  att_auth_data : ngx_str_t;
  att_alg : Z;
  att_sig : ngx_str_t;
  att_has_x5c : Z;
}.

(** [ngx_memzero]. *)
Definition attestation_zero : ngx_auth_webauthn_attestation_t :=
  {| att_fmt := NULL; att_auth_data := NULL; att_alg := 0; att_sig := NULL; att_has_x5c := 0 |}.

(** Return code and [*dst]. *)
Definition ngx_auth_webauthn_attestation_dup (src : bytes) : prog (ngx_rc * ngx_str_t) :=
  if zlen src =? 0 then Ret (NGX_OK, Some []) else
  p <- pool_fill (zlen src) src ;;
  match p with
  | None => Ret (NGX_ERROR, NULL)
  | Some d => Ret (NGX_OK, Some d)
  end.

Definition ngx_auth_webauthn_attestation_fmt_is (att : ngx_auth_webauthn_attestation_t)
    (literal : bytes) : bool :=
  (str_len (att_fmt att) =? zlen literal)
    && memeq (str_bytes (att_fmt att)) literal (length literal).

Section attestation.
Context `{CBOR : Cbor, SSL : OpenSSL, !OpenSSLKeys}.

Definition ngx_auth_webauthn_attestation_int (item : ptr cbor_item_t) : ngx_rc * Z :=
  match item with
  | None => (NGX_DECLINED, 0)
  | Some item =>
      if cbor_isa_uint item then (NGX_OK, int64 (cbor_get_int item))
      else if cbor_isa_negint item then (NGX_OK, -1 - int64 (cbor_get_int item))
      else (NGX_DECLINED, 0)
  end.

Definition ngx_auth_webauthn_attestation_str_eq (item : ptr cbor_item_t) (literal : bytes) : bool :=
  match item with
  | None => false
  | Some item =>
      if negb (cbor_isa_string item) || negb (cbor_string_is_definite item)
         || negb (zlen (cbor_string item) =? zlen literal)
      then false
      else memeq (cbor_string item) literal (length literal)
  end.

(** The loop over the attStmt map. *)
Fixpoint stmt_loop (pairs : list (cbor_item_t * cbor_item_t))
    (out : ngx_auth_webauthn_attestation_t) : prog (ngx_rc * ngx_auth_webauthn_attestation_t) :=
  match pairs with
  | [] => Ret (NGX_OK, out)
  | (k, v) :: rest =>
      if ngx_auth_webauthn_attestation_str_eq (Some k) (bs "alg") then
        let '(rc, alg) := ngx_auth_webauthn_attestation_int (Some v) in
        stmt_loop rest (if is_ok rc then
          {| att_fmt := att_fmt out; att_auth_data := att_auth_data out; att_alg := int32 alg;
             att_sig := att_sig out; att_has_x5c := att_has_x5c out |} else out)
      else if ngx_auth_webauthn_attestation_str_eq (Some k) (bs "sig") then
        if negb (cbor_isa_bytestring v) || negb (cbor_bytestring_is_definite v)
        then Ret (NGX_DECLINED, out) else
        '(rc, sig) <- ngx_auth_webauthn_attestation_dup (cbor_bytestring v) ;;
        let out := {| att_fmt := att_fmt out; att_auth_data := att_auth_data out;
          att_alg := att_alg out; att_sig := sig; att_has_x5c := att_has_x5c out |} in
        if negb (is_ok rc) then Ret (NGX_ERROR, out) else stmt_loop rest out
      else if ngx_auth_webauthn_attestation_str_eq (Some k) (bs "x5c") then
        stmt_loop rest (if cbor_isa_array v && (0 <? cbor_array_size v) then
          {| att_fmt := att_fmt out; att_auth_data := att_auth_data out; att_alg := att_alg out;
             att_sig := att_sig out; att_has_x5c := 1 |} else out)
      else stmt_loop rest out
  end.

Definition ngx_auth_webauthn_attestation_parse_stmt (stmt : cbor_item_t)
    (out : ngx_auth_webauthn_attestation_t) : prog (ngx_rc * ngx_auth_webauthn_attestation_t) :=
  if negb (cbor_isa_map stmt) then Ret (NGX_DECLINED, out)
  else stmt_loop (cbor_map stmt) out.

(** fmt, authData and attStmt, as the loop over the map finds them. *)
Definition members_one (acc : ptr cbor_item_t * ptr cbor_item_t * ptr cbor_item_t)
    (pair : cbor_item_t * cbor_item_t) :=
  let '(v_fmt, v_auth_data, v_att_stmt) := acc in
  if ngx_auth_webauthn_attestation_str_eq (Some pair.1) (bs "fmt")
  then (Some pair.2, v_auth_data, v_att_stmt)
  else if ngx_auth_webauthn_attestation_str_eq (Some pair.1) (bs "authData")
  then (v_fmt, Some pair.2, v_att_stmt)
  else if ngx_auth_webauthn_attestation_str_eq (Some pair.1) (bs "attStmt")
  then (v_fmt, v_auth_data, Some pair.2)
  else acc.

(** Between the decoding and the label [done]. *)
Definition parse_root (root : cbor_item_t) : prog (ngx_rc * ngx_auth_webauthn_attestation_t) :=
  let out := attestation_zero in
  let '(v_fmt, v_auth_data, v_att_stmt) := foldl members_one (NULL, NULL, NULL) (cbor_map root) in
  match v_fmt, v_auth_data with
  | Some f, Some a =>
      if negb (cbor_isa_string f) || negb (cbor_string_is_definite f)
         || negb (cbor_isa_bytestring a) || negb (cbor_bytestring_is_definite a)
      then Ret (NGX_DECLINED, out) else
      '(rc, fmt) <- ngx_auth_webauthn_attestation_dup (cbor_string f) ;;
      let out := {| att_fmt := fmt; att_auth_data := NULL; att_alg := 0; att_sig := NULL;
                    att_has_x5c := 0 |} in
      if negb (is_ok rc) then Ret (NGX_ERROR, out) else
      '(rc, ad) <- ngx_auth_webauthn_attestation_dup (cbor_bytestring a) ;;
      let out := {| att_fmt := fmt; att_auth_data := ad; att_alg := 0; att_sig := NULL;
                    att_has_x5c := 0 |} in
      if negb (is_ok rc) then Ret (NGX_ERROR, out) else
      match v_att_stmt with
      | None => Ret (NGX_OK, out)
      | Some stmt => ngx_auth_webauthn_attestation_parse_stmt stmt out
      end
  | _, _ => Ret (NGX_DECLINED, out)
  end.

(** Return code and new contents of [*out]. *)
Definition ngx_auth_webauthn_attestation_parse (pool : ptr unit) (data : ptr bytes) (len : Z)
    (out : ptr ngx_auth_webauthn_attestation_t)
    : prog (ngx_rc * ptr ngx_auth_webauthn_attestation_t) :=
  if nullp pool || nullp out then Ret (NGX_ERROR, out) else
  let out := attestation_zero in
  match data with
  | None => Ret (NGX_ERROR, Some out)
  | Some buf =>
      if zlen buf <? len then UB else
      match cbor_load (take (Z.to_nat len) buf) with
      | (None, _, _) => Ret (NGX_DECLINED, Some out)
      | (Some root, no_error, read) =>
          call (res_hold R_CBOR) ;;
          '(rc, out) <- (if negb no_error || negb (read =? len) || negb (cbor_isa_map root)
                         then Ret (NGX_DECLINED, out) else parse_root root) ;;
          call (res_free R_CBOR) ;;
          Ret (rc, Some out)
      end
  end.

(** The digest argument of a key algorithm. *)
Definition packed_md (key_alg : Z) : option (ptr evp_md) :=
  if (key_alg =? NGX_AUTH_WEBAUTHN_COSE_ALG_ES256) || (key_alg =? NGX_AUTH_WEBAUTHN_COSE_ALG_RS256)
  then Some (Some EVP_sha256)
  else if key_alg =? NGX_AUTH_WEBAUTHN_COSE_ALG_EDDSA then Some NULL
  else None.

Definition ngx_auth_webauthn_attestation_verify_packed (att : ngx_auth_webauthn_attestation_t)
    (ad : ngx_auth_webauthn_authdata_t) (client_data_hash : ngx_str_t) : prog ngx_rc :=
  if str_len (att_sig att) =? 0 then Ret NGX_DECLINED else
  if (Z.land (flags ad) NGX_AUTH_WEBAUTHN_AUTHDATA_FLAG_AT =? 0)
     || (str_len (cose_public_key ad) =? 0)
  then Ret NGX_DECLINED else
  '(rc, pkey, key_alg) <- ngx_auth_webauthn_cose_to_pkey (cose_public_key ad)
      (str_len (cose_public_key ad)) (Some NULL) (Some 0) ;;
  if negb (is_ok rc) then Ret rc else
  key_alg <- deref key_alg ;;
  pkey <- deref pkey ;;
  pkey <- deref pkey ;;
  if negb (att_alg att =? key_alg) then call (res_free R_EVP_PKEY) ;; Ret NGX_DECLINED else
  match packed_md key_alg with
  | None => call (res_free R_EVP_PKEY) ;; Ret NGX_DECLINED
  | Some md =>
      let signed_len := size_t (str_len (att_auth_data att) + str_len client_data_hash) in
      ok <- call (ngx_pnalloc signed_len) ;;
      if negb ok then call (res_free R_EVP_PKEY) ;; Ret NGX_ERROR else
      let signed_data := str_bytes (att_auth_data att) ++ str_bytes client_data_hash in
      if signed_len <? zlen signed_data then UB else
      ctx <- call (res_new R_EVP_MD_CTX) ;;
      if negb ctx then call (res_free R_EVP_PKEY) ;; Ret NGX_ERROR else
      let rc :=
        if EVP_DigestVerifyInit md pkey =? 1 then
          let ret := EVP_DigestVerify md pkey (str_bytes (att_sig att)) signed_data in
          if ret =? 1 then NGX_OK else if ret =? 0 then NGX_DECLINED else NGX_ERROR
        else NGX_ERROR in
      call (res_free R_EVP_MD_CTX) ;;
      call (res_free R_EVP_PKEY) ;;
      Ret rc
  end.

Definition ngx_auth_webauthn_attestation_verify (pool : ptr unit)
    (att : ptr ngx_auth_webauthn_attestation_t) (expected_rp_id client_data_hash : ptr ngx_str_t)
    (require : Z) : prog ngx_rc :=
  match att, expected_rp_id, client_data_hash with
  | Some att, Some rp, Some cdh =>
      if nullp pool then Ret NGX_ERROR else
      '(rc, ad) <- defined (ngx_auth_webauthn_authdata_parse (att_auth_data att)
                              (str_len (att_auth_data att)) (Some authdata_zero)) ;;
      if negb (is_ok rc) then Ret rc else
      ad <- deref ad ;;
      let '(rc, rp_hash) := ngx_auth_webauthn_hash_sha256 rp (str_len rp) (Some tt) in
      if negb (is_ok rc) then Ret NGX_ERROR else
      if negb (CRYPTO_memcmp (rp_id_hash ad) rp_hash NGX_AUTH_WEBAUTHN_SHA256_LEN =? 0)
      then Ret NGX_DECLINED else
      if ngx_auth_webauthn_attestation_fmt_is att (bs "none") then Ret NGX_OK else
      if require =? NGX_AUTH_WEBAUTHN_ATT_NONE then Ret NGX_DECLINED else
      if negb (ngx_auth_webauthn_attestation_fmt_is att (bs "packed")) then Ret NGX_DECLINED else
      if negb (att_has_x5c att =? 0) then Ret NGX_DECLINED else
      ngx_auth_webauthn_attestation_verify_packed att ad cdh
  | _, _, _ => Ret NGX_ERROR
  end.

(** ** What an attestation object says *)

Definition text_of_item (item : cbor_item_t) : option bytes :=
  if cbor_isa_string item && cbor_string_is_definite item then Some (cbor_string item) else None.

(** The values under a text label, in order; the last one. *)
Definition text_values (l : bytes) (pairs : list (cbor_item_t * cbor_item_t)) : list cbor_item_t :=
  omap (fun p => if bool_decide (text_of_item p.1 = Some l) then Some p.2 else None) pairs.
Definition text_value l pairs : option cbor_item_t := list.last (text_values l pairs).

Definition is_chain (v : cbor_item_t) : bool := cbor_isa_array v && (0 <? cbor_array_size v).

(** The statement of a map: the last integer alg, the last sig, all of which
    must be byte strings, and whether there is a certificate chain. *)
Definition stmt_of (pairs : list (cbor_item_t * cbor_item_t)) : option (Z * ngx_str_t * Z) :=
  sigs ← mapM bytes_of_item (text_values (bs "sig") pairs);
  Some (default 0 (int32 <$> list.last (omap int_of_item (text_values (bs "alg") pairs))),
        list.last sigs,
        if existsb is_chain (text_values (bs "x5c") pairs) then 1 else 0).

Definition attestation_of (pairs : list (cbor_item_t * cbor_item_t))
    : option ngx_auth_webauthn_attestation_t :=
  fmt ← text_value (bs "fmt") pairs ≫= text_of_item;
  ad ← text_value (bs "authData") pairs ≫= bytes_of_item;
  st ← match text_value (bs "attStmt") pairs with
       | None => Some (0, NULL, 0)
       | Some stmt => _ ← guard_bool (cbor_isa_map stmt); stmt_of (cbor_map stmt)
       end;
  Some {| att_fmt := Some fmt; att_auth_data := Some ad; att_alg := st.1.1;
          att_sig := st.1.2; att_has_x5c := st.2 |}.

(** [data] is the encoding of one map, to its last byte. *)
Definition decodes (data : bytes) (a : ngx_auth_webauthn_attestation_t) : Prop :=
  exists root, cbor_load data = (Some root, true, zlen data) /\ cbor_isa_map root = true /\
    attestation_of (cbor_map root) = Some a.

Lemma packed_md_table alg md : packed_md alg = Some md <-> exists want, cose_algorithm alg md want.
Proof.
  split; [|by intros [? []]]. unfold packed_md.
  destruct (Z.eqb_spec alg NGX_AUTH_WEBAUTHN_COSE_ALG_ES256) as [->|];
    [intros [= <-]; eexists; constructor|].
  destruct (Z.eqb_spec alg NGX_AUTH_WEBAUTHN_COSE_ALG_RS256) as [->|];
    [intros [= <-]; eexists; constructor|].
  destruct (Z.eqb_spec alg NGX_AUTH_WEBAUTHN_COSE_ALG_EDDSA) as [->|]; [|done].
  intros [= <-]; eexists; constructor.
Qed.

(** What self-attestation proves: possession of the registered key. *)
Record packed_valid (att : ngx_auth_webauthn_attestation_t) (ad : ngx_auth_webauthn_authdata_t)
    (cdh : ngx_str_t) : Prop := {
  pv_key : exists cose root n m k md want,
    cose_public_key ad = Some cose /\ cose <> [] /\
    cbor_load cose = (Some root, true, n) /\ cbor_isa_map root = true /\
    cose_key (cbor_map root) = Some (att_alg att, m) /\ make_key m = Some k /\
    cose_algorithm (att_alg att) md want /\ EVP_DigestVerifyInit md k = 1 /\
    EVP_DigestVerify md k (str_bytes (att_sig att))
      (str_bytes (att_auth_data att) ++ str_bytes cdh) = 1;
  pv_sig : str_bytes (att_sig att) <> [];
  pv_at : Z.testbit (flags ad) 6 = true;
}.

(** The policy of Phase 1. *)
Definition attestation_valid (att : ngx_auth_webauthn_attestation_t) (rp cdh : ngx_str_t)
    (require : Z) : Prop :=
  exists adb ad, att_auth_data att = Some adb /\ authdata_reads adb ad /\
    EVP_Digest (str_bytes rp) = Some (rp_id_hash ad) /\
    (str_bytes (att_fmt att) = bs "none" \/
     (require <> NGX_AUTH_WEBAUTHN_ATT_NONE /\ str_bytes (att_fmt att) = bs "packed" /\
      att_has_x5c att = 0 /\ packed_valid att ad cdh)).

(** ** The loops compute the specification *)

Lemma len_memeq_z a b : (zlen a =? zlen b) && memeq a b (length b) = bytes_eqb a b.
Proof.
  rewrite <- len_memeq. unfold zlen.
  destruct (Z.eqb_spec (Z.of_nat (length a)) (Z.of_nat (length b))), (Nat.eqb_spec (length a) (length b));
    try lia. by replace (length b) with (length a).
Qed.

Lemma str_eq_text k l :
  ngx_auth_webauthn_attestation_str_eq (Some k) l = bool_decide (text_of_item k = Some l).
Proof.
  unfold ngx_auth_webauthn_attestation_str_eq, text_of_item.
  destruct (cbor_isa_string k); cbn [negb orb andb]; [|done].
  destruct (cbor_string_is_definite k); cbn [negb orb andb]; [|done].
  pose proof (len_memeq_z (cbor_string k) l) as E. unfold bytes_eqb in E.
  rewrite (bool_decide_ext (Some (cbor_string k) = Some l) (cbor_string k = l)), <- E
    by (split; [by intros [= ->]|by intros ->]).
  by destruct (zlen (cbor_string k) =? zlen l).
Qed.

Lemma fmt_is_eq att l :
  ngx_auth_webauthn_attestation_fmt_is att l = bytes_eqb (str_bytes (att_fmt att)) l.
Proof. unfold ngx_auth_webauthn_attestation_fmt_is. rewrite str_len_zlen. apply len_memeq_z. Qed.

Lemma attestation_int_cose item :
  ngx_auth_webauthn_attestation_int item = ngx_auth_webauthn_cose_int item.
Proof. done. Qed.

Lemma text_values_snoc l pairs p :
  text_values l (pairs ++ [p]) =
  text_values l pairs ++ (if bool_decide (text_of_item p.1 = Some l) then [p.2] else []).
Proof.
  unfold text_values. rewrite omap_app. f_equal. cbn. by case_bool_decide.
Qed.

Lemma text_values_cons l p pairs :
  text_values l (p :: pairs) =
  (if bool_decide (text_of_item p.1 = Some l) then [p.2] else []) ++ text_values l pairs.
Proof. unfold text_values. cbn. by case_bool_decide. Qed.

Lemma members_spec pairs :
  foldl members_one (NULL, NULL, NULL) pairs =
  (text_value (bs "fmt") pairs, text_value (bs "authData") pairs, text_value (bs "attStmt") pairs).
Proof.
  induction pairs as [|p pairs IH] using rev_ind; [done|].
  rewrite foldl_app, IH. cbn [foldl]. unfold members_one, text_value.
  rewrite !str_eq_text, !text_values_snoc.
  destruct (text_of_item p.1) as [t|].
  2:{ rewrite !bool_decide_false by done. by rewrite !app_nil_r. }
  assert (forall l, bool_decide (Some t = Some l) = bytes_eqb t l) as E.
  { intros l. apply bool_decide_ext. split; [by intros [= ->]|by intros ->]. }
  rewrite !E. unfold bytes_eqb.
  destruct (decide (t = bs "fmt")) as [->|H1].
  { rewrite bool_decide_true, !bool_decide_false by done. by rewrite last_snoc, !app_nil_r. }
  rewrite (bool_decide_false (t = bs "fmt")) by done.
  destruct (decide (t = bs "authData")) as [->|H2].
  { rewrite bool_decide_true, !bool_decide_false by done. by rewrite last_snoc, !app_nil_r. }
  rewrite (bool_decide_false (t = bs "authData")) by done.
  destruct (decide (t = bs "attStmt")) as [->|H3].
  { rewrite bool_decide_true by done. by rewrite last_snoc, !app_nil_r. }
  rewrite bool_decide_false by done. by rewrite !app_nil_r.
Qed.

(** The statement on top of what [out] already holds. *)
Definition stmt_apply (out : ngx_auth_webauthn_attestation_t)
    (pairs : list (cbor_item_t * cbor_item_t)) : option ngx_auth_webauthn_attestation_t :=
  sigs ← mapM bytes_of_item (text_values (bs "sig") pairs);
  Some {| att_fmt := att_fmt out; att_auth_data := att_auth_data out;
    att_alg := default (att_alg out)
      (int32 <$> list.last (omap int_of_item (text_values (bs "alg") pairs)));
    att_sig := match list.last sigs with None => att_sig out | Some s => Some s end;
    att_has_x5c := if existsb is_chain (text_values (bs "x5c") pairs) then 1 else att_has_x5c out |}.

Lemma stmt_apply_nil out : stmt_apply out [] = Some out.
Proof. by destruct out. Qed.

(** One step of the loop, by the label of the pair. *)
Lemma stmt_apply_other out k v pairs :
  text_of_item k <> Some (bs "alg") -> text_of_item k <> Some (bs "sig") ->
  text_of_item k <> Some (bs "x5c") -> stmt_apply out ((k, v) :: pairs) = stmt_apply out pairs.
Proof. intros. unfold stmt_apply. rewrite !text_values_cons, !bool_decide_false by done. done. Qed.

Lemma stmt_apply_alg out k v pairs :
  text_of_item k = Some (bs "alg") ->
  stmt_apply out ((k, v) :: pairs) =
  stmt_apply (match int_of_item v with
    | None => out
    | Some z => {| att_fmt := att_fmt out; att_auth_data := att_auth_data out; att_alg := int32 z;
        att_sig := att_sig out; att_has_x5c := att_has_x5c out |}
    end) pairs.
Proof.
  intros Hk. unfold stmt_apply. rewrite !text_values_cons. cbn [fst snd]. rewrite Hk.
  rewrite (bool_decide_true (Some (bs "alg") = Some (bs "alg"))) by done. rewrite !bool_decide_false by done. cbn [app omap list_omap].
  destruct (int_of_item v) as [z|]; [|done]. rewrite last_cons.
  by destruct (list.last (omap _ _)).
Qed.

Lemma mapM_cons (v : cbor_item_t) l :
  mapM bytes_of_item (v :: l) = (b ← bytes_of_item v; k ← mapM bytes_of_item l; Some (b :: k)).
Proof. done. Qed.

Lemma stmt_apply_sig out k v pairs :
  text_of_item k = Some (bs "sig") ->
  stmt_apply out ((k, v) :: pairs) =
  (b ← bytes_of_item v; stmt_apply {| att_fmt := att_fmt out; att_auth_data := att_auth_data out;
     att_alg := att_alg out; att_sig := Some b; att_has_x5c := att_has_x5c out |} pairs).
Proof.
  intros Hk. unfold stmt_apply. rewrite !text_values_cons. cbn [fst snd]. rewrite Hk.
  rewrite (bool_decide_true (Some (bs "sig") = Some (bs "sig"))) by done. rewrite !bool_decide_false by done. cbn [app].
  rewrite mapM_cons. destruct (bytes_of_item v) as [b|]; [|done]. cbn [mbind option_bind].
  destruct (mapM bytes_of_item _) as [sigs|]; [|done]. cbn [mbind option_bind].
  rewrite last_cons. by destruct (list.last sigs).
Qed.

Lemma stmt_apply_x5c out k v pairs :
  text_of_item k = Some (bs "x5c") ->
  stmt_apply out ((k, v) :: pairs) =
  stmt_apply (if is_chain v then {| att_fmt := att_fmt out; att_auth_data := att_auth_data out;
     att_alg := att_alg out; att_sig := att_sig out; att_has_x5c := 1 |} else out) pairs.
Proof.
  intros Hk. unfold stmt_apply. rewrite !text_values_cons. cbn [fst snd]. rewrite Hk.
  rewrite (bool_decide_true (Some (bs "x5c") = Some (bs "x5c"))) by done. rewrite !bool_decide_false by done. cbn [app existsb].
  destruct (is_chain v); [|done]. cbn [orb att_alg att_sig att_has_x5c att_fmt att_auth_data].
  by destruct (existsb is_chain _).
Qed.

Lemma cbor_dup_trace b (h : trace) Q :
  zlen b < 2 ^ 64 -> (forall h', env_failed h' -> Q (NGX_ERROR, NULL) h') ->
  (forall h', Q (NGX_OK, Some b) h') -> wp (ngx_auth_webauthn_attestation_dup b) Q h.
Proof.
  intros Hb HE HO. unfold ngx_auth_webauthn_attestation_dup.
  destruct (Z.eqb_spec (zlen b) 0) as [E|_]; [apply zlen_0 in E as ->; apply HO|].
  pose proof (zlen_nonneg b). apply wp_bind, pool_fill_trace; [rewrite size_t_small; lia| |].
  - apply HE. by apply env_failed_last.
  - apply HO.
Qed.

(** Every value that is copied fits in memory. *)
Definition copies_fit (pairs : list (cbor_item_t * cbor_item_t)) : Prop :=
  forall k v b, (k, v) ∈ pairs -> bytes_of_item v = Some b -> zlen b < 2 ^ 64.

Definition applied (o : option ngx_auth_webauthn_attestation_t)
    (out : ngx_rc * ngx_auth_webauthn_attestation_t) (h : trace) : Prop :=
  match out.1 with
  | NGX_OK => o = Some out.2
  | NGX_DECLINED => o = None
  | NGX_ERROR => env_failed h
  end.

Lemma stmt_loop_trace pairs out (h : trace) :
  copies_fit pairs -> wp (stmt_loop pairs out) (applied (stmt_apply out pairs)) h.
Proof.
  revert out h. induction pairs as [|[k v] pairs IH]; intros out h Hfit; cbn [stmt_loop].
  { unfold applied. cbn [wp fst snd]. by rewrite stmt_apply_nil. }
  assert (copies_fit pairs) as Hfit' by (intros k' v' b' Hin; eapply Hfit; by right).
  rewrite !str_eq_text. case_bool_decide as H1.
  { rewrite (stmt_apply_alg _ _ _ _ H1), attestation_int_cose, cose_int_some.
    destruct (int_of_item v) as [z|]; cbn [is_ok]; by apply IH. }
  case_bool_decide as H2.
  { rewrite (stmt_apply_sig _ _ _ _ H2).
    assert (negb (cbor_isa_bytestring v) || negb (cbor_bytestring_is_definite v) =
      match bytes_of_item v with Some _ => false | None => true end) as ->.
    { unfold bytes_of_item. destruct (cbor_isa_bytestring v); [|done].
      by destruct (cbor_bytestring_is_definite v). }
    destruct (bytes_of_item v) as [b|] eqn:Eb; [|done]. cbn [mbind option_bind].
    assert (cbor_bytestring v = b) as ->.
    { unfold bytes_of_item in Eb. destruct (_ && _); [|done]. by injection Eb. }
    apply wp_bind, cbor_dup_trace; [eapply Hfit; [by left|done]|done|].
    intros h1. cbn [is_ok negb]. by apply IH. }
  case_bool_decide as H3.
  { rewrite (stmt_apply_x5c _ _ _ _ H3). unfold is_chain. by apply IH. }
  rewrite stmt_apply_other by done. by apply IH.
Qed.

Lemma text_value_in l pairs v : text_value l pairs = Some v -> exists k, (k, v) ∈ pairs.
Proof.
  unfold text_value. intros Hv%last_Some_elem_of. unfold text_values in Hv.
  apply list_elem_of_omap in Hv as ([k w] & Hin & Hw). cbn [fst snd] in Hw.
  case_bool_decide; [|done]. injection Hw as ->. by exists k.
Qed.

Lemma bytes_of_size `{!CborLaws} v b : bytes_of_item v = Some b -> zlen b <= cbor_size v.
Proof.
  unfold bytes_of_item. destruct (cbor_isa_bytestring v) eqn:E; [|done].
  destruct (cbor_bytestring_is_definite v); [|done]. intros [= <-]. by apply bytestring_size.
Qed.

Lemma text_of_size `{!CborLaws} v b : text_of_item v = Some b -> zlen b <= cbor_size v.
Proof.
  unfold text_of_item. destruct (cbor_isa_string v) eqn:E; [|done].
  destruct (cbor_string_is_definite v); [|done]. intros [= <-]. by apply cstring_size.
Qed.

Lemma map_copies_fit `{!CborLaws} i :
  cbor_isa_map i = true -> cbor_size i < 2 ^ 63 -> copies_fit (cbor_map i).
Proof.
  intros Hm Hs k v b Hin Hb. apply bytes_of_size in Hb. apply (map_size i) in Hin as [_ Hv]; [|done].
  lia.
Qed.

Lemma stmt_of_apply f a pairs :
  stmt_apply {| att_fmt := f; att_auth_data := a; att_alg := 0; att_sig := NULL; att_has_x5c := 0 |}
    pairs =
  st ← stmt_of pairs; Some {| att_fmt := f; att_auth_data := a; att_alg := st.1.1;
    att_sig := st.1.2; att_has_x5c := st.2 |}.
Proof.
  unfold stmt_apply, stmt_of. destruct (mapM bytes_of_item _) as [sigs|]; [|done].
  cbn [mbind option_bind att_fmt att_auth_data att_alg att_sig att_has_x5c fst snd].
  by destruct (list.last sigs).
Qed.

Lemma parse_root_trace `{!CborLaws} root (h : trace) :
  cbor_isa_map root = true -> cbor_size root < 2 ^ 63 ->
  wp (parse_root root) (applied (attestation_of (cbor_map root))) h.
Proof.
  intros Hm Hs. unfold parse_root, attestation_of. rewrite members_spec.
  assert (forall l v, text_value l (cbor_map root) = Some v -> cbor_size v < 2 ^ 63) as Hv.
  { intros l v [k Hin]%text_value_in. apply (map_size root) in Hin as [_ ?]; [lia|done]. }
  destruct (text_value (bs "fmt") (cbor_map root)) as [f|] eqn:Hf; [|done].
  destruct (text_value (bs "authData") (cbor_map root)) as [a|] eqn:Ha; cbn [mbind option_bind].
  2:{ unfold applied. cbn. by destruct (text_of_item f). }
  assert (negb (cbor_isa_string f) || negb (cbor_string_is_definite f)
      || negb (cbor_isa_bytestring a) || negb (cbor_bytestring_is_definite a) =
    match text_of_item f, bytes_of_item a with Some _, Some _ => false | _, _ => true end) as ->.
  { unfold text_of_item, bytes_of_item. destruct (cbor_isa_string f), (cbor_string_is_definite f),
      (cbor_isa_bytestring a), (cbor_bytestring_is_definite a); done. }
  destruct (text_of_item f) as [fmt|] eqn:Ef; [|done].
  destruct (bytes_of_item a) as [ad|] eqn:Ea; [|done]. cbn [mbind option_bind].
  assert (cbor_string f = fmt) as ->.
  { unfold text_of_item in Ef. destruct (_ && _); [|done]. by injection Ef. }
  assert (cbor_bytestring a = ad) as ->.
  { unfold bytes_of_item in Ea. destruct (_ && _); [|done]. by injection Ea. }
  apply text_of_size in Ef. apply bytes_of_size in Ea. pose proof (Hv _ _ Hf). pose proof (Hv _ _ Ha).
  apply wp_bind, cbor_dup_trace; [lia|done|]. intros h1. cbn [is_ok negb].
  apply wp_bind, cbor_dup_trace; [lia|done|]. intros h2. cbn [is_ok negb].
  destruct (text_value (bs "attStmt") (cbor_map root)) as [stmt|] eqn:Hst; [|done].
  unfold ngx_auth_webauthn_attestation_parse_stmt.
  destruct (cbor_isa_map stmt) eqn:Hsm; cbn [negb guard_bool mbind option_bind]; [|done].
  eapply wp_mono; [|apply stmt_loop_trace, map_copies_fit; [done|by eapply Hv]].
  intros out h'. by rewrite stmt_of_apply.
Qed.

Definition parse_post (data : bytes) (out : ngx_rc * ptr ngx_auth_webauthn_attestation_t)
    (h : trace) : Prop :=
  match out.1 with
  | NGX_OK => exists a, out.2 = Some a /\ decodes data a
  | NGX_DECLINED => forall a, ~ decodes data a
  | NGX_ERROR => env_failed h
  end.

Lemma attestation_parse_trace `{!CborLaws} data out (h : trace) :
  zlen data < 2 ^ 63 ->
  wp (ngx_auth_webauthn_attestation_parse (Some tt) (Some data) (zlen data) (Some out))
     (parse_post data) h.
Proof.
  intros Hlen. unfold ngx_auth_webauthn_attestation_parse. cbn [nullp orb].
  rewrite Z.ltb_irrefl, take_ge by (unfold zlen; lia).
  destruct (cbor_load data) as [[[root|] no_error] read] eqn:Hload.
  2:{ intros a (root & E & _). congruence. }
  apply wp_bind, wp_trace_call. intros [] _.
  assert (forall o h', (forall a, o = Some a <-> decodes data a) -> forall out, applied o out h' ->
    wp (let '(rc, out) := out in call (res_free R_CBOR) ;; Ret (rc, Some out)) (parse_post data) h')
    as Hend.
  { intros o h' Ho [rc a] Ha. apply wp_bind, wp_trace_call. intros [] _. unfold applied in Ha.
    cbn [wp fst snd] in *. unfold parse_post. cbn [fst snd]. destruct rc.
    - exists a. split; [done|]. by apply Ho.
    - auto with env.
    - intros b Hb%Ho. congruence. }
  apply wp_bind. destruct no_error; cbn [negb orb].
  2:{ eapply (Hend None); [|done]. intros a. split; [done|]. intros (r & E & _). congruence. }
  destruct (Z.eqb_spec read (zlen data)) as [->|Hr]; cbn [negb orb].
  2:{ eapply (Hend None); [|done]. intros a. split; [done|]. intros (r & E & _). congruence. }
  destruct (cbor_isa_map root) eqn:Hm; cbn [negb].
  2:{ eapply (Hend None); [|done]. intros a. split; [done|]. intros (r & E & Hm' & _). congruence. }
  eapply wp_mono; [|apply parse_root_trace; [done|]].
  - intros o h' Ha. eapply Hend; [|exact Ha]. intros a. split.
    + intros E. by exists root.
    + intros (r & E & _ & Hat). rewrite Hload in E. by injection E as <-.
  - apply load_size in Hload. lia.
Qed.

(** ** Resources *)

Lemma attestation_parse_neutral root : all_calls neutral (parse_root root).
Proof.
  assert (forall b, all_calls neutral (ngx_auth_webauthn_attestation_dup b)) as Hd.
  { intros b. unfold ngx_auth_webauthn_attestation_dup. destruct (_ =? _); [done|].
    split; [done|]. intros []; [|done]. by destruct (_ <=? _). }
  assert (forall pairs out, all_calls neutral (stmt_loop pairs out)) as Hl.
  { intros pairs. induction pairs as [|[k v] pairs IH]; intros out; cbn [stmt_loop]; [done|].
    destruct (ngx_auth_webauthn_attestation_str_eq _ _).
    { destruct (ngx_auth_webauthn_attestation_int _). apply IH. }
    destruct (ngx_auth_webauthn_attestation_str_eq _ _).
    { destruct (_ || _); [done|]. apply all_calls_bind; [apply Hd|]. intros [rc sig].
      destruct (negb _); [done|apply IH]. }
    destruct (ngx_auth_webauthn_attestation_str_eq _ _); apply IH. }
  unfold parse_root. destruct (foldl _ _ _) as [[[f|] [a|]] st]; try done.
  destruct (_ || _); [done|]. apply all_calls_bind; [apply Hd|]. intros [rc fmt].
  destruct (negb _); [done|]. apply all_calls_bind; [apply Hd|]. intros [rc' ad].
  destruct (negb _); [done|]. destruct st as [stmt|]; [|done].
  unfold ngx_auth_webauthn_attestation_parse_stmt. destruct (negb _); [done|apply Hl].
Qed.

Lemma attestation_parse_balanced `{!CborLaws} data out :
  zlen data < 2 ^ 63 ->
  balanced ∅ (ngx_auth_webauthn_attestation_parse (Some tt) (Some data) (zlen data) (Some out)).
Proof.
  intros Hlen w _. unfold ngx_auth_webauthn_attestation_parse. cbn [nullp orb].
  rewrite Z.ltb_irrefl, take_ge by (unfold zlen; lia).
  destruct (cbor_load data) as [[[root|] no_error] read] eqn:Hload; [|done].
  apply wp_bind, wp_held_call; [done|]. intros [] _. cbn [held_next].
  assert (forall out, wp (let '(rc, out) := out in call (res_free R_CBOR) ;;
      Ret (rc : ngx_rc, Some (out : ngx_auth_webauthn_attestation_t)))
    (fun _ w' => w' = w) (w ⊎ {[+ R_CBOR +]})) as Hend.
  { intros [rc a]. apply wp_bind, wp_held_call; [apply held_in|]. intros [] _. apply held_release. }
  apply wp_bind. destruct (negb no_error || _); cbn [orb]; [apply Hend|].
  destruct (cbor_isa_map root) eqn:Hm; cbn [negb]; [|apply Hend].
  eapply wp_mono; [|apply (neutral_balanced _ _ [] (attestation_parse_neutral root)
    (parse_root_trace root [] Hm ltac:(apply load_size in Hload; lia))); multiset_solver].
  intros o w' ->. apply Hend.
Qed.

(** C21: an attestation object is accepted exactly when the input is, to its
    last byte, the CBOR of one map with a text fmt and a byte string authData
    (the last of each) and, if present, a map attStmt; the result holds those,
    the last integer alg as an int, the last sig, and whether a certificate
    chain is there.  NGX_DECLINED is any other input, NGX_ERROR only a failed
    allocation, and the decoded tree is released on every path. *)
Theorem attestation_parse_correct `{!CborLaws} data out (h : trace) :
  zlen data < 2 ^ 63 ->
  wp (ngx_auth_webauthn_attestation_parse (Some tt) (Some data) (zlen data) (Some out))
     (parse_post data) h /\
  balanced ∅ (ngx_auth_webauthn_attestation_parse (Some tt) (Some data) (zlen data) (Some out)).
Proof. intros. split; [by apply attestation_parse_trace|by apply attestation_parse_balanced]. Qed.

(** ** The statement policy *)

Lemma at_clear z : (Z.land z NGX_AUTH_WEBAUTHN_AUTHDATA_FLAG_AT =? 0) = negb (Z.testbit z 6).
Proof. change NGX_AUTH_WEBAUTHN_AUTHDATA_FLAG_AT with (2 ^ 6). apply land_pow2. lia. Qed.

Lemma free_judged P rc (h : trace) r :
  judged P rc h -> wp (call (res_free r) ;; Ret rc) (judged P) h.
Proof.
  intros Hj. apply wp_bind, wp_trace_call. intros [] _. cbn [wp].
  destruct rc; cbn [judged] in *; [done| |done]. destruct Hj; auto with env.
Qed.

(** With the key of the credential at hand: the algorithm, then the signature. *)
Definition packed_signature (att : ngx_auth_webauthn_attestation_t) (cdh : ngx_str_t) (k : EVP_PKEY)
    (al : Z) : Prop :=
  al = att_alg att /\ exists md want, cose_algorithm al md want /\ EVP_DigestVerifyInit md k = 1 /\
    EVP_DigestVerify md k (str_bytes (att_sig att))
      (str_bytes (att_auth_data att) ++ str_bytes cdh) = 1.

Lemma packed_judged_key att ad cdh cose root n m al k rc h :
  cose_public_key ad = Some cose -> cbor_load cose = (Some root, true, n) ->
  cbor_isa_map root = true -> cose_key (cbor_map root) = Some (al, m) -> make_key m = Some k ->
  str_bytes (att_sig att) <> [] -> Z.testbit (flags ad) 6 = true -> cose <> [] ->
  judged (packed_signature att cdh k al) rc h -> judged (packed_valid att ad cdh) rc h.
Proof.
  intros Hc Hl Hm Hk Hmk Hs Hf Hne.
  assert (packed_signature att cdh k al <-> packed_valid att ad cdh) as E.
  { split.
    - intros (-> & md & want & ? & ? & ?). split; [|done|done]. by exists cose, root, n, m, k, md, want.
    - intros [(c' & root' & n' & m' & k' & md & want & Hc' & _ & Hl' & _ & Hk' & Hmk' & ? & ? & ?) _ _].
      rewrite Hc in Hc'. injection Hc' as <-. rewrite Hl in Hl'. injection Hl' as <- <-.
      rewrite Hk in Hk'. injection Hk' as -> <-. rewrite Hmk in Hmk'. injection Hmk' as <-.
      split; [done|]. by exists md, want. }
  destruct rc; cbn [judged]; tauto.
Qed.

Definition signature_rc (md : ptr evp_md) (k : EVP_PKEY) (sig signed : bytes) : ngx_rc :=
  if EVP_DigestVerifyInit md k =? 1 then
    let ret := EVP_DigestVerify md k sig signed in
    if ret =? 1 then NGX_OK else if ret =? 0 then NGX_DECLINED else NGX_ERROR
  else NGX_ERROR.

Lemma signature_judged att cdh k md h :
  packed_md (att_alg att) = Some md ->
  judged (packed_signature att cdh k (att_alg att))
    (signature_rc md k (str_bytes (att_sig att)) (str_bytes (att_auth_data att) ++ str_bytes cdh)) h.
Proof.
  intros Hmd. pose proof (proj1 (packed_md_table _ _) Hmd) as [want Hw].
  unfold signature_rc, packed_signature.
  assert (forall md' want', cose_algorithm (att_alg att) md' want' -> md' = md) as Huniq.
  { intros md' want' Hw'. assert (packed_md (att_alg att) = Some md') by (apply packed_md_table; eauto).
    congruence. }
  destruct (Z.eqb_spec (EVP_DigestVerifyInit md k) 1) as [Hi|Hi].
  2:{ left. by intros (_ & md' & w' & ->%Huniq & ? & _). }
  set (ret := EVP_DigestVerify _ _ _ _). destruct (Z.eqb_spec ret 1) as [H1|H1].
  { split; [done|]. by exists md, want. }
  assert (~ packed_signature att cdh k (att_alg att)) as Hno.
  { by intros (_ & md' & w' & ->%Huniq & _ & ?). }
  destruct (ret =? 0); [exact Hno|by left].
Qed.

Lemma verify_packed_trace att ad cdh (h : trace) :
  str_len (att_auth_data att) + str_len cdh < 2 ^ 64 ->
  wp (ngx_auth_webauthn_attestation_verify_packed att ad cdh) (judged (packed_valid att ad cdh)) h.
Proof.
  intros Hfit. unfold ngx_auth_webauthn_attestation_verify_packed.
  destruct (Z.eqb_spec (str_len (att_sig att)) 0) as [Hs|Hs].
  { intros [_ Hs' _]. by apply str_len_0 in Hs. }
  rewrite at_clear. destruct (Z.testbit (flags ad) 6) eqn:Hf; cbn [negb orb].
  2:{ intros [_ _ Hf']. congruence. }
  destruct (cose_public_key ad) as [cose|] eqn:Hc.
  2:{ intros [(c & ? & ? & ? & ? & ? & ? & ? & _) _ _]. congruence. }
  destruct (Z.eqb_spec (str_len (Some cose)) 0) as [Hl|Hl].
  { apply str_len_0 in Hl. cbn in Hl. intros [(c & ? & ? & ? & ? & ? & ? & Hc' & Hne & _) _ _]. congruence. }
  rewrite str_len_0 in Hs, Hl. cbn [str_bytes] in Hl.
  eapply wp_seq; [apply to_pkey_trace|]. intros [[rc key] alg] h1 Hp. cbn beta iota in Hp.
  destruct rc; cbn [is_ok negb].
  2:{ destruct Hp as (_ & _ & [Hf'|Hno]); [by right|left].
      intros [(c & root & n & m & k & md & want & Hc' & _ & Hl' & Hm & Hk & Hmk & _) _ _].
      rewrite Hc in Hc'. injection Hc' as <-.
      destruct (Hno _ _ Hl') as [?|(al & m' & Hk' & Hmk')]; [congruence|].
      rewrite Hk in Hk'. injection Hk' as <- <-. congruence. }
  2:{ destruct Hp as (_ & _ & root & n & Hl' & Hm & Hno).
      intros [(c & root' & n' & m & k & md & want & Hc' & _ & Hl2 & _ & Hk & _) _ _].
      rewrite Hc in Hc'. injection Hc' as <-. rewrite Hl' in Hl2. injection Hl2 as <- <-. congruence. }
  destruct Hp as (root & n & al & m & k & Hl' & Hm & Hk & Hmk & -> & ->). cbn [deref bind].
  eapply wp_mono; [intros rc h2; by eapply packed_judged_key|].
  destruct (Z.eqb_spec (att_alg att) al) as [<-|Hal]; cbn [negb].
  2:{ apply free_judged. by intros [-> _]. }
  destruct (packed_md (att_alg att)) as [md|] eqn:Hmd.
  2:{ apply free_judged. intros (_ & md & want & Hw & _).
      assert (packed_md (att_alg att) = Some md) by (apply packed_md_table; eauto). congruence. }
  apply wp_bind, wp_trace_call. intros [] _; cbn [negb].
  2:{ apply free_judged. right. auto with env. }
  pose proof (zlen_nonneg (str_bytes (att_auth_data att))).
  pose proof (zlen_nonneg (str_bytes cdh)). rewrite !str_len_zlen in *.
  rewrite size_t_small, zlen_app, Z.ltb_irrefl by lia.
  apply wp_bind, wp_trace_call. intros [] _; cbn [negb].
  2:{ apply free_judged. right. auto with env. }
  apply wp_bind, wp_trace_call. intros [] _. apply free_judged. by apply signature_judged.
Qed.

Lemma verify_packed_balanced att ad cdh :
  str_len (att_auth_data att) + str_len cdh < 2 ^ 64 ->
  balanced ∅ (ngx_auth_webauthn_attestation_verify_packed att ad cdh).
Proof.
  intros Hfit w _. unfold ngx_auth_webauthn_attestation_verify_packed.
  destruct (_ =? 0); [done|]. destruct (_ || _); [done|].
  eapply wp_seq; [apply to_pkey_held|]. intros [[rc key] alg] w1 Hw. unfold pkey_held in Hw.
  cbn [fst snd] in Hw. destruct rc; cbn [is_ok negb]; [|done|done].
  destruct Hw as (-> & k & al & -> & ->). cbn [deref bind].
  pose proof (zlen_nonneg (str_bytes (att_auth_data att))).
  pose proof (zlen_nonneg (str_bytes cdh)). rewrite !str_len_zlen in *.
  rewrite size_t_small, zlen_app, Z.ltb_irrefl by lia. held_steps.
  all: multiset_solver.
Qed.

(** After the relying party: the format and the statement. *)
Definition format_rc (att : ngx_auth_webauthn_attestation_t) (ad : ngx_auth_webauthn_authdata_t)
    (cdh : ngx_str_t) (require : Z) : prog ngx_rc :=
  if ngx_auth_webauthn_attestation_fmt_is att (bs "none") then Ret NGX_OK else
  if require =? NGX_AUTH_WEBAUTHN_ATT_NONE then Ret NGX_DECLINED else
  if negb (ngx_auth_webauthn_attestation_fmt_is att (bs "packed")) then Ret NGX_DECLINED else
  if negb (att_has_x5c att =? 0) then Ret NGX_DECLINED else
  ngx_auth_webauthn_attestation_verify_packed att ad cdh.

Definition format_valid (att : ngx_auth_webauthn_attestation_t) (ad : ngx_auth_webauthn_authdata_t)
    (cdh : ngx_str_t) (require : Z) : Prop :=
  str_bytes (att_fmt att) = bs "none" \/
  (require <> NGX_AUTH_WEBAUTHN_ATT_NONE /\ str_bytes (att_fmt att) = bs "packed" /\
   att_has_x5c att = 0 /\ packed_valid att ad cdh).

Lemma judged_iff P P' rc h : (P <-> P') -> judged P rc h -> judged P' rc h.
Proof. destruct rc; cbn [judged]; tauto. Qed.

Lemma format_trace att ad cdh require (h : trace) :
  str_len (att_auth_data att) + str_len cdh < 2 ^ 64 ->
  wp (format_rc att ad cdh require) (judged (format_valid att ad cdh require)) h.
Proof.
  intros Hfit. unfold format_rc, format_valid. rewrite !fmt_is_eq.
  destruct (bytes_eqb _ (bs "none")) eqn:Hn; [left; by apply bytes_eqb_eq|].
  assert (str_bytes (att_fmt att) <> bs "none") as Hn' by (intros E%bytes_eqb_eq; congruence).
  destruct (Z.eqb_spec require NGX_AUTH_WEBAUTHN_ATT_NONE); [cbn; tauto|].
  destruct (bytes_eqb _ (bs "packed")) eqn:Hp; cbn [negb].
  2:{ intros [?|(_ & E%bytes_eqb_eq & _)]; [done|]. congruence. }
  apply bytes_eqb_eq in Hp.
  destruct (Z.eqb_spec (att_has_x5c att) 0); cbn [negb]; [|cbn; tauto].
  eapply wp_mono; [|by apply verify_packed_trace]. intros rc h'. apply judged_iff. tauto.
Qed.

(** What fits in memory together. *)
Record attestation_sizes (att : ngx_auth_webauthn_attestation_t) (cdh : ngx_str_t) : Prop := {
  ats_auth_data : str_len (att_auth_data att) < 2 ^ 63;
  ats_cdh : str_len cdh < 2 ^ 63;
}.

Lemma attestation_verify_trace `{!OpenSSLLaws} att rp cdh require (h : trace) :
  attestation_sizes att cdh ->
  wp (ngx_auth_webauthn_attestation_verify (Some tt) (Some att) (Some rp) (Some cdh) require)
     (judged (attestation_valid att rp cdh require)) h.
Proof.
  intros [Ha Hc]. unfold ngx_auth_webauthn_attestation_verify. cbn [nullp].
  destruct (att_auth_data att) as [adb|] eqn:Hadb.
  2:{ cbn. intros (? & ? & ? & _). congruence. }
  change (str_len (Some adb)) with (zlen adb) in *.
  destruct (authdata_parse_answers adb authdata_zero Ha) as (rc & ad & Hne & E).
  rewrite E. cbn [defined deref bind].
  destruct rc; cbn [is_ok negb]; [|done|].
  2:{ intros (b & ad' & Hb & Hr & _). rewrite Hadb in Hb. injection Hb as <-.
      rewrite (authdata_reads_ok _ authdata_zero _ Ha Hr) in E. done. }
  apply authdata_ok_reads in E; [|done]. cbn [deref bind]. rewrite hash_of_str.
  assert (attestation_valid att rp cdh require <->
    EVP_Digest (str_bytes rp) = Some (rp_id_hash ad) /\ format_valid att ad cdh require) as Hv.
  { split.
    - intros (b & ad' & Hb & Hr & ? & ?). rewrite Hadb in Hb. injection Hb as <-.
      by rewrite (authdata_reads_inj _ _ _ Ha E Hr).
    - intros [? ?]. by exists adb, ad. }
  destruct (EVP_Digest (str_bytes rp)) as [d|]; cbn [is_ok negb].
  2:{ left. rewrite Hv. by intros [? _]. }
  pose proof (proj1 (proj1 E)) as Hrp.
  destruct (Z.eqb_spec (zlen d) 32) as [H32|H32]; cbn [is_ok negb].
  2:{ left. rewrite Hv. intros [[= ->] _]. done. }
  rewrite memcmp_32 by done. case_bool_decide as Hd; cbn [negb].
  2:{ cbn [wp judged]. rewrite Hv. intros [[= ->] _]. done. }
  eapply wp_mono; [|apply format_trace].
  - intros rc h'. apply judged_iff. rewrite Hv, Hd. tauto.
  - rewrite Hadb. change (str_len (Some adb)) with (zlen adb). lia.
Qed.

Lemma attestation_verify_balanced pool att rp cdh require :
  attestation_sizes att cdh ->
  balanced ∅ (ngx_auth_webauthn_attestation_verify pool (Some att) (Some rp) (Some cdh) require).
Proof.
  intros [Ha Hc] w _. unfold ngx_auth_webauthn_attestation_verify. destruct (nullp pool); [done|].
  destruct (att_auth_data att) as [adb|] eqn:Hadb; [|done].
  destruct (authdata_parse_answers adb authdata_zero Ha) as (rc & ad & Hne & E).
  change (str_len (Some adb)) with (zlen adb) in *.
  rewrite E. cbn [defined deref bind]. destruct rc; cbn [is_ok negb]; [|done|done].
  cbn [deref bind]. destruct (ngx_auth_webauthn_hash_sha256 _ _ _) as [rc d].
  destruct (negb _); [done|]. destruct (negb _); [done|].
  destruct (ngx_auth_webauthn_attestation_fmt_is _ _); [done|]. destruct (_ =? _); [done|].
  destruct (negb _); [done|]. destruct (negb _); [done|].
  apply verify_packed_balanced; [|multiset_solver].
  rewrite Hadb. change (str_len (Some adb)) with (zlen adb). lia.
Qed.

(** C19: the registration policy: NGX_OK exactly when the authenticator data
    parses, carries the SHA-256 of the relying party, and the format is
    "none", or, unless only "none" is asked for, "packed" without a
    certificate chain and with a signature over authData || clientDataHash
    that the registered key itself verifies under the algorithm of the
    statement, one of ES256, RS256 and EdDSA.  "none" is accepted whatever is
    asked for: the comment of the header says so of "packed", while
    docs/ADMIN_TOOL.md promises that "packed" rejects every other format, and
    that "none" does not verify, although it rejects every statement but
    "none".  Any other statement is never accepted; NGX_ERROR only for
    such a one or a failed allocation.  The key and the context are freed on
    every path. *)
Theorem attestation_verify_correct `{!OpenSSLLaws} att rp cdh require (h : trace) :
  attestation_sizes att cdh ->
  wp (ngx_auth_webauthn_attestation_verify (Some tt) (Some att) (Some rp) (Some cdh) require)
     (judged (attestation_valid att rp cdh require)) h /\
  balanced ∅ (ngx_auth_webauthn_attestation_verify (Some tt) (Some att) (Some rp) (Some cdh)
                require).
Proof. intros. split; [by apply attestation_verify_trace|by apply attestation_verify_balanced]. Qed.
End attestation.

Import Samples CborSamples.

(** A registration with a self-signed statement by the sample key. *)
Definition registered : ngx_auth_webauthn_authdata_t :=
  {| rp_id_hash := digest (bs "a.example"); flags := 69; sign_count := 0;
     aaguid := replicate 16 Byte.x07; credential_id := Some (bs "cid");
     cose_public_key := Some sample_cose |}.
Definition text_item (s : bytes) : bytes := z2b (96 + zlen s) :: s.
Definition bytes_item (s : bytes) : bytes := Byte.x58 :: z2b (zlen s) :: s.
Definition attestation_object (fmt : bytes) (sig : bytes) : bytes :=
  [Byte.xa3] ++ text_item (bs "fmt") ++ text_item fmt ++
  text_item (bs "attStmt") ++ [Byte.xa2] ++ text_item (bs "alg") ++ [Byte.x26] ++
  text_item (bs "sig") ++ bytes_item sig ++
  text_item (bs "authData") ++ bytes_item (authdata_encode registered).
Definition sample_cdh : bytes := digest (bs "client data").
Definition self_signature : bytes :=
  Byte.x04 :: sample_x ++ sample_y ++ authdata_encode registered ++ sample_cdh.
Definition sample_attestation (fmt sig : bytes) : ngx_auth_webauthn_attestation_t :=
  {| att_fmt := Some fmt; att_auth_data := Some (authdata_encode registered); att_alg := -7;
     att_sig := Some sig; att_has_x5c := 0 |}.

Definition parse_sample (data : bytes) :=
  ok_run (ngx_auth_webauthn_attestation_parse (Some tt) (Some data) (zlen data)
            (Some attestation_zero)).

(** A whole object is read; a byte after it is not tolerated. *)
Lemma attestation_parse_correct_witness :
  let data := attestation_object (bs "packed") self_signature in
  parse_sample data = Some (NGX_OK, Some (sample_attestation (bs "packed") self_signature)) /\
  parse_sample (data ++ [Byte.x00]) = Some (NGX_DECLINED, Some attestation_zero) /\
  wp (ngx_auth_webauthn_attestation_parse (Some tt) (Some data) (zlen data) (Some attestation_zero))
     (parse_post data) ([] : trace).
Proof.
  split_and!; [vm_compute; reflexivity..|].
  refine (proj1 (attestation_parse_correct (attestation_object (bs "packed") self_signature)
    attestation_zero [] _)). vm_compute. reflexivity.
Defined.

Definition verify_sample (fmt sig : bytes) (require : Z) :=
  ok_run (ngx_auth_webauthn_attestation_verify (Some tt) (Some (sample_attestation fmt sig))
            (Some (Some (bs "a.example"))) (Some (Some sample_cdh)) require).

(** Self-attestation with the right and a wrong signature; "none" under both
    policies; an unknown format. *)
Lemma attestation_verify_correct_witness :
  verify_sample (bs "packed") self_signature NGX_AUTH_WEBAUTHN_ATT_PACKED = Some NGX_OK /\
  verify_sample (bs "packed") (bs "forged") NGX_AUTH_WEBAUTHN_ATT_PACKED = Some NGX_DECLINED /\
  verify_sample (bs "packed") self_signature NGX_AUTH_WEBAUTHN_ATT_NONE = Some NGX_DECLINED /\
  verify_sample (bs "none") [] NGX_AUTH_WEBAUTHN_ATT_NONE = Some NGX_OK /\
  verify_sample (bs "tpm") self_signature NGX_AUTH_WEBAUTHN_ATT_PACKED = Some NGX_DECLINED /\
  wp (ngx_auth_webauthn_attestation_verify (Some tt)
        (Some (sample_attestation (bs "packed") self_signature)) (Some (Some (bs "a.example")))
        (Some (Some sample_cdh)) NGX_AUTH_WEBAUTHN_ATT_PACKED)
     (judged (attestation_valid (sample_attestation (bs "packed") self_signature)
        (Some (bs "a.example")) (Some sample_cdh) NGX_AUTH_WEBAUTHN_ATT_PACKED)) ([] : trace).
Proof.
  split_and!; [vm_compute; reflexivity..|].
  refine (proj1 (attestation_verify_correct (sample_attestation (bs "packed") self_signature)
    (Some (bs "a.example")) (Some sample_cdh) NGX_AUTH_WEBAUTHN_ATT_PACKED [] _)).
  split; vm_compute; reflexivity.
Defined.
