(* ===== verification/Redis.v ===== *)
(** * Redis client: src/ngx_auth_webauthn_redis.c

    Every operation of the synchronous client, command by command: the
    arguments it sends, what it makes of each reply type, and the release of
    the reply.  A handle is a pointer to a record whose [ctx] is NULL once
    closed.  Out-parameters are passed as addresses (NULL or not) and their
    new contents are returned. *)

From S2P Require Import Prelude Effects.
#[global] Open Scope Z_scope.

(** Connection settings (ngx_auth_webauthn_redis_conf_t). *)
Record ngx_auth_webauthn_redis_conf_t := {
  rconf_host : ngx_str_t;
  rconf_port : Z;
  rconf_password : ngx_str_t;    (* len == 0 skips AUTH *)
  rconf_db : Z;                  (* 0 skips SELECT *)
  rconf_timeout_ms : Z;          (* 0 uses the library default *)
}.

(** The handle; [ctx] is the redisContext pointer. *)
Record ngx_auth_webauthn_redis_t := { ctx : ptr unit }.

Record ngx_auth_webauthn_redis_pair_t := {
  pair_name : ngx_str_t;
  pair_value : ngx_str_t;
}.

(** [redis == NULL || redis->ctx == NULL] *)
Definition no_ctx (redis : ptr ngx_auth_webauthn_redis_t) : bool :=
  match redis with None => true | Some r => nullp (ctx r) end.

Definition NGX_AUTH_WEBAUTHN_REDIS_NUMBUF : Z := 32.

(** [snprintf(buf, size, ...)] printing [s]: the buffer keeps at most
    [size - 1] characters, the result is the untruncated length. *)
Definition snprintf (size : Z) (s : bytes) : bytes * Z :=
  (take (Z.to_nat (size - 1)) s, zlen s).

Definition NGX_LOG_ERR : Z := 4.
Definition NGX_LOG_WARN : Z := 5.

Definition ngx_auth_webauthn_redis_timeval (ms : Z) : timeval :=
  {| tv_sec := ms / 1000; tv_usec := (ms mod 1000) * 1000 |}.

(** The [redis] argument is only ever used for its (open) context. *)
Definition ngx_auth_webauthn_redis_exec (redis : ptr ngx_auth_webauthn_redis_t)
    (argv : list bytes) : prog (ptr redisReply) :=
  r <- deref redis ;;
  _ <- deref (ctx r) ;;
  reply <- call (redisCommandArgv argv) ;;
  match reply with
  | None =>
      call (ngx_log_error NGX_LOG_ERR (bs "auth_webauthn: redis command failed: %s")) ;;
      Ret NULL
  | Some (RError _) =>
      call (ngx_log_error NGX_LOG_ERR (bs "auth_webauthn: redis error reply: %s")) ;;
      Ret reply
  | Some _ => Ret reply
  end.

(** Copy [src[0..len)] into the pool; the empty string is not allocated. *)
Definition ngx_auth_webauthn_redis_dup (src : bytes) : prog (ngx_rc * ngx_str_t) :=
  if zlen src =? 0 then Ret (NGX_OK, Some [])
  else
    p <- pool_fill (zlen src) src ;;
    match p with
    | None => Ret (NGX_ERROR, NULL)
    | Some d => Ret (NGX_OK, Some d)
    end.

(** [redisFree] and forget the context; the updated handle is returned. *)
Definition ngx_auth_webauthn_redis_close (redis : ptr ngx_auth_webauthn_redis_t)
    : prog (ptr ngx_auth_webauthn_redis_t) :=
  if no_ctx redis then Ret redis
  else call redisFree ;; Ret (Some {| ctx := NULL |}).

(** [reply != NULL && reply->type != REDIS_REPLY_ERROR], then free the reply:
    the common tail of the commands that only report success. *)
Definition reply_status (reply : ptr redisReply) : prog ngx_rc :=
  match reply with
  | None => Ret NGX_ERROR
  | Some (RError _) => call freeReplyObject ;; Ret NGX_ERROR
  | Some _ => call freeReplyObject ;; Ret NGX_OK
  end.

(** [n = snprintf(numbuf, 32, "%lu", v)]; the argument bytes, or nothing when
    the number did not fit. *)
Definition redis_numbuf (v : Z) : option bytes :=
  let '(buf, n) := snprintf NGX_AUTH_WEBAUTHN_REDIS_NUMBUF (dec (uint64 v)) in
  if (n <? 0) || (NGX_AUTH_WEBAUTHN_REDIS_NUMBUF <=? n) then None
  else Some (take (Z.to_nat n) buf).

(** The bytes of [s] up to the first NUL, as a C function reads them. *)
Fixpoint c_string (s : bytes) : bytes :=
  match s with
  | [] => []
  | c :: t => if bool_decide (c = Byte.x00) then [] else c :: c_string t
  end.

(** After the connect: AUTH when there is a password. *)
Definition redis_auth (redis : ptr ngx_auth_webauthn_redis_t)
    (conf : ngx_auth_webauthn_redis_conf_t) : prog ngx_rc :=
  if 0 <? str_len (rconf_password conf) then
    reply <- ngx_auth_webauthn_redis_exec redis
               [bs "AUTH"; str_bytes (rconf_password conf)] ;;
    rc <- reply_status reply ;;
    match rc with
    | NGX_OK => Ret NGX_OK
    | _ => ngx_auth_webauthn_redis_close redis ;; Ret NGX_ERROR
    end
  else Ret NGX_OK.

(** Then SELECT when the database is not 0. *)
Definition redis_select (redis : ptr ngx_auth_webauthn_redis_t)
    (conf : ngx_auth_webauthn_redis_conf_t) : prog ngx_rc :=
  if 0 <? rconf_db conf then
    match redis_numbuf (rconf_db conf) with
    | None => ngx_auth_webauthn_redis_close redis ;; Ret NGX_ERROR
    | Some num =>
        reply <- ngx_auth_webauthn_redis_exec redis [bs "SELECT"; num] ;;
        rc <- reply_status reply ;;
        match rc with
        | NGX_OK => Ret NGX_OK
        | _ => ngx_auth_webauthn_redis_close redis ;; Ret NGX_ERROR
        end
    end
  else Ret NGX_OK.

(** The result is the return code and the new [*out]. *)
Definition ngx_auth_webauthn_redis_connect (pool : ptr unit)
    (conf : ptr ngx_auth_webauthn_redis_conf_t)
    (out : ptr (ptr ngx_auth_webauthn_redis_t))
    : prog (ngx_rc * ptr ngx_auth_webauthn_redis_t) :=
  let old := default NULL out in
  match conf with
  | None => Ret (NGX_ERROR, old)
  | Some conf =>
    if nullp pool || nullp out || (str_len (rconf_host conf) =? 0)
    then Ret (NGX_ERROR, old)
    else
      ok <- call (ngx_pnalloc 24) ;;
      if negb ok then Ret (NGX_ERROR, old) else
      hostz <- pool_fill (str_len (rconf_host conf) + 1)
                 (str_bytes (rconf_host conf) ++ [Byte.x00]) ;;
      match hostz with
      | None => Ret (NGX_ERROR, old)
      | Some h =>
        let tv := ngx_auth_webauthn_redis_timeval (rconf_timeout_ms conf) in
        let with_timeout := 0 <? rconf_timeout_ms conf in
        c <- call (redisConnect (c_string h) (rconf_port conf)
                     (if with_timeout then Some tv else None)) ;;
        let msg := bs "auth_webauthn: redis connect to %s:%d failed: %s" in
        match c with
        | ConnNull => call (ngx_log_error NGX_LOG_ERR msg) ;; Ret (NGX_ERROR, old)
        | ConnErr =>
            call (ngx_log_error NGX_LOG_ERR msg) ;;
            call redisFree ;; Ret (NGX_ERROR, old)
        | ConnOk =>
            let redis := Some {| ctx := Some tt |} in
            (if with_timeout then call (redisSetTimeout tv) else Ret tt) ;;
            rc <- redis_auth redis conf ;;
            match rc with
            | NGX_OK =>
                rc <- redis_select redis conf ;;
                match rc with
                | NGX_OK => Ret (NGX_OK, redis)
                | _ => Ret (NGX_ERROR, old)
                end
            | _ => Ret (NGX_ERROR, old)
            end
        end
      end
  end.

(** ** Commands *)

(** [field value field value ...] *)
Definition hset_args (pairs : list ngx_auth_webauthn_redis_pair_t) : list bytes :=
  flat_map (fun p => [str_bytes (pair_name p); str_bytes (pair_value p)]) pairs.

Definition ngx_auth_webauthn_redis_hset (redis : ptr ngx_auth_webauthn_redis_t)
    (key : ptr ngx_str_t) (pairs : ptr (list ngx_auth_webauthn_redis_pair_t))
    (npairs : Z) : prog ngx_rc :=
  if no_ctx redis || nullp key || ((0 <? npairs) && nullp pairs) then Ret NGX_ERROR
  else if npairs =? 0 then Ret NGX_OK
  else
    let argc := 2 + npairs * 2 in
    argv <- call (ngx_pnalloc (size_t (argc * 8))) ;;
    argvlen <- call (ngx_pnalloc (size_t (argc * 8))) ;;
    if negb argv || negb argvlen then Ret NGX_ERROR
    else
      k <- deref key ;;
      ps <- deref pairs ;;
      if zlen ps <? npairs then UB
      else
        reply <- ngx_auth_webauthn_redis_exec redis
          (bs "HSET" :: str_bytes k :: hset_args (take (Z.to_nat npairs) ps)) ;;
        reply_status reply.

(** The copy loop of HGETALL over [element[2i], element[2i + 1]]. *)
Fixpoint hgetall_loop (element : list redisReply)
    (acc : list ngx_auth_webauthn_redis_pair_t)
    : prog (ngx_rc * list ngx_auth_webauthn_redis_pair_t) :=
  match element with
  | name :: value :: rest =>
      match name, value with
      | RString n, RString v =>
          '(rc1, dn) <- ngx_auth_webauthn_redis_dup n ;;
          if negb (is_ok rc1) then Ret (NGX_ERROR, acc) else
          '(rc2, dv) <- ngx_auth_webauthn_redis_dup v ;;
          if negb (is_ok rc2) then Ret (NGX_ERROR, acc) else
          hgetall_loop rest (acc ++ [{| pair_name := dn; pair_value := dv |}])
      | _, _ => Ret (NGX_ERROR, acc)
      end
  | _ => Ret (NGX_OK, acc)
  end.

Definition ngx_auth_webauthn_redis_hgetall (redis : ptr ngx_auth_webauthn_redis_t)
    (pool : ptr unit) (key : ptr ngx_str_t) (pairs npairs : ptr unit)
    : prog (ngx_rc * list ngx_auth_webauthn_redis_pair_t) :=
  if no_ctx redis || nullp pool || nullp key || nullp pairs || nullp npairs
  then Ret (NGX_ERROR, [])
  else
    k <- deref key ;;
    reply <- ngx_auth_webauthn_redis_exec redis [bs "HGETALL"; str_bytes k] ;;
    match reply with
    | None => Ret (NGX_ERROR, [])
    | Some (RError _) => call freeReplyObject ;; Ret (NGX_ERROR, [])
    | Some (RArray element) =>
        if zlen element =? 0 then call freeReplyObject ;; Ret (NGX_OK, [])
        else
          let n := zlen element / 2 in
          ok <- call (ngx_pnalloc (size_t (n * 32))) ;;
          if negb ok then call freeReplyObject ;; Ret (NGX_ERROR, [])
          else
            '(rc, out) <- hgetall_loop element [] ;;
            call freeReplyObject ;;
            if is_ok rc then Ret (NGX_OK, out) else Ret (rc, [])
    | Some _ => call freeReplyObject ;; Ret (NGX_OK, [])
    end.

Definition ngx_auth_webauthn_redis_del (redis : ptr ngx_auth_webauthn_redis_t)
    (key : ptr ngx_str_t) : prog ngx_rc :=
  if no_ctx redis || nullp key then Ret NGX_ERROR
  else
    k <- deref key ;;
    reply <- ngx_auth_webauthn_redis_exec redis [bs "DEL"; str_bytes k] ;;
    reply_status reply.

Definition ngx_auth_webauthn_redis_set_op (redis : ptr ngx_auth_webauthn_redis_t)
    (cmd : bytes) (key member : ptr ngx_str_t) : prog ngx_rc :=
  if no_ctx redis || nullp key || nullp member then Ret NGX_ERROR
  else
    k <- deref key ;;
    m <- deref member ;;
    reply <- ngx_auth_webauthn_redis_exec redis [cmd; str_bytes k; str_bytes m] ;;
    reply_status reply.

Definition ngx_auth_webauthn_redis_sadd redis key member :=
  ngx_auth_webauthn_redis_set_op redis (bs "SADD") key member.

Definition ngx_auth_webauthn_redis_srem redis key member :=
  ngx_auth_webauthn_redis_set_op redis (bs "SREM") key member.

(** The copy loop of SMEMBERS. *)
Fixpoint smembers_loop (element : list redisReply) (acc : list ngx_str_t)
    : prog (ngx_rc * list ngx_str_t) :=
  match element with
  | [] => Ret (NGX_OK, acc)
  | RString m :: rest =>
      '(rc, d) <- ngx_auth_webauthn_redis_dup m ;;
      if negb (is_ok rc) then Ret (NGX_ERROR, acc)
      else smembers_loop rest (acc ++ [d])
  | _ :: _ => Ret (NGX_ERROR, acc)
  end.

Definition ngx_auth_webauthn_redis_smembers (redis : ptr ngx_auth_webauthn_redis_t)
    (pool : ptr unit) (key : ptr ngx_str_t) (members nmembers : ptr unit)
    : prog (ngx_rc * list ngx_str_t) :=
  if no_ctx redis || nullp pool || nullp key || nullp members || nullp nmembers
  then Ret (NGX_ERROR, [])
  else
    k <- deref key ;;
    reply <- ngx_auth_webauthn_redis_exec redis [bs "SMEMBERS"; str_bytes k] ;;
    match reply with
    | None => Ret (NGX_ERROR, [])
    | Some (RError _) => call freeReplyObject ;; Ret (NGX_ERROR, [])
    | Some (RArray element) =>
        if zlen element =? 0 then call freeReplyObject ;; Ret (NGX_OK, [])
        else
          ok <- call (ngx_pnalloc (size_t (zlen element * 16))) ;;
          if negb ok then call freeReplyObject ;; Ret (NGX_ERROR, [])
          else
            '(rc, out) <- smembers_loop element [] ;;
            call freeReplyObject ;;
            if is_ok rc then Ret (NGX_OK, out) else Ret (rc, [])
    | Some _ => call freeReplyObject ;; Ret (NGX_OK, [])
    end.

Definition ngx_auth_webauthn_redis_expire (redis : ptr ngx_auth_webauthn_redis_t)
    (key : ptr ngx_str_t) (seconds : Z) : prog ngx_rc :=
  if no_ctx redis || nullp key then Ret NGX_ERROR
  else
    match redis_numbuf seconds with
    | None => Ret NGX_ERROR
    | Some num =>
        k <- deref key ;;
        reply <- ngx_auth_webauthn_redis_exec redis [bs "EXPIRE"; str_bytes k; num] ;;
        reply_status reply
    end.

Definition newline : bytes := [Byte.x0a].

(** The server-side script of [incr_expire], line by line. *)
Definition incr_expire_script : bytes :=
  bs "local c = redis.call('INCR', KEYS[1])" ++ newline ++
  bs "if c == 1 or redis.call('TTL', KEYS[1]) < 0 then" ++ newline ++
  bs "  redis.call('EXPIRE', KEYS[1], ARGV[1])" ++ newline ++
  bs "end" ++ newline ++
  bs "return c".

(** The new [*value] is returned with the code. *)
Definition ngx_auth_webauthn_redis_incr_expire (redis : ptr ngx_auth_webauthn_redis_t)
    (key : ptr ngx_str_t) (seconds : Z) (value : ptr Z) : prog (ngx_rc * Z) :=
  if no_ctx redis || nullp key || nullp value then Ret (NGX_ERROR, default 0 value)
  else
    match redis_numbuf seconds with
    | None => Ret (NGX_ERROR, 0)
    | Some num =>
        k <- deref key ;;
        reply <- ngx_auth_webauthn_redis_exec redis
          [bs "EVAL"; incr_expire_script; bs "1"; str_bytes k; num] ;;
        match reply with
        | None => Ret (NGX_ERROR, 0)
        | Some (RInteger i) => call freeReplyObject ;; Ret (NGX_OK, i)
        | Some _ => call freeReplyObject ;; Ret (NGX_ERROR, 0)
        end
    end.

Definition ngx_auth_webauthn_redis_set_ex (redis : ptr ngx_auth_webauthn_redis_t)
    (key value : ptr ngx_str_t) (seconds : Z) : prog ngx_rc :=
  if no_ctx redis || nullp key || nullp value then Ret NGX_ERROR
  else
    match redis_numbuf seconds with
    | None => Ret NGX_ERROR
    | Some num =>
        k <- deref key ;;
        v <- deref value ;;
        reply <- ngx_auth_webauthn_redis_exec redis
          [bs "SET"; str_bytes k; str_bytes v; bs "EX"; num] ;;
        reply_status reply
    end.

(** The new [*found] is returned with the code. *)
Definition ngx_auth_webauthn_redis_getdel (redis : ptr ngx_auth_webauthn_redis_t)
    (key : ptr ngx_str_t) (found : ptr Z) : prog (ngx_rc * Z) :=
  if no_ctx redis || nullp key || nullp found then Ret (NGX_ERROR, default 0 found)
  else
    k <- deref key ;;
    reply <- ngx_auth_webauthn_redis_exec redis [bs "GETDEL"; str_bytes k] ;;
    match reply with
    | None => Ret (NGX_ERROR, 0)
    | Some (RError _) => call freeReplyObject ;; Ret (NGX_ERROR, 0)
    | Some (RString _) => call freeReplyObject ;; Ret (NGX_OK, 1)
    | Some _ => call freeReplyObject ;; Ret (NGX_OK, 0)
    end.

(** * Resources and definedness *)

(** What an operation on [redis] needs held: the context, unless the handle
    is NULL or closed. *)
Definition needs (redis : ptr ngx_auth_webauthn_redis_t) : held :=
  if no_ctx redis then ∅ else {[+ REDIS_CTX +]}.

Definition with_reply (w : held) (reply : ptr redisReply) : held :=
  match reply with None => w | Some _ => w ⊎ {[+ REDIS_REPLY +]} end.

Section balanced.
Implicit Types (redis : ptr ngx_auth_webauthn_redis_t) (w : held).

Lemma no_ctx_false redis :
  no_ctx redis = false -> redis = Some {| ctx := Some tt |} /\ needs redis = {[+ REDIS_CTX +]}.
Proof. intros Hr. by destruct redis as [[[[]|]]|]. Qed.

Lemma needs_in redis w : no_ctx redis = false -> needs redis ⊆ w -> REDIS_CTX ∈ w.
Proof. intros [_ ->]%no_ctx_false ?. multiset_solver. Qed.

Lemma exec_held redis argv w Q :
  no_ctx redis = false -> needs redis ⊆ w ->
  (forall reply, (forall r, reply = Some r -> reply_ok r) -> Q reply (with_reply w reply)) ->
  wp (ngx_auth_webauthn_redis_exec redis argv) Q w.
Proof.
  intros Hr Hw HQ. pose proof (needs_in _ _ Hr Hw).
  apply no_ctx_false in Hr as [-> _].
  unfold ngx_auth_webauthn_redis_exec. cbn [deref ctx bind].
  held_steps; by apply (HQ (Some _)) || apply (HQ None).
Qed.

Lemma reply_status_held reply w Q :
  (forall rc, Q rc w) -> wp (reply_status reply) Q (with_reply w reply).
Proof. intros HQ. destruct reply as [[]|]; cbn [reply_status with_reply]; held_steps. Qed.

Lemma pool_fill_held size content w Q :
  zlen content <= size_t size -> Q NULL w -> Q (Some content) w ->
  wp (pool_fill size content) Q w.
Proof.
  intros Hs H0 H1. apply wp_bind, wp_held_call; [done|]. intros [] _; [|done].
  by destruct (Z.leb_spec (zlen content) (size_t size)); [|lia].
Qed.

Lemma dup_held src w Q :
  fits src -> Q (NGX_ERROR, NULL) w -> Q (NGX_OK, Some src) w ->
  wp (ngx_auth_webauthn_redis_dup src) Q w.
Proof.
  intros Hs HE HO. unfold ngx_auth_webauthn_redis_dup.
  destruct (Z.eqb_spec (zlen src) 0) as [E|_]; [by apply zlen_0 in E as ->|].
  unfold fits in Hs. pose proof (zlen_nonneg src).
  apply wp_bind, pool_fill_held; [rewrite size_t_small; lia|done..].
Qed.
End balanced.

(** Symbolic execution through the helpers. *)
Ltac redis_step :=
  first
    [ apply exec_held; [done|done|intros ? ?]
    | progress cbn [with_reply]
    | apply reply_status_held; intros ?
    | apply dup_held; [eauto with held|..]
    | held_step ].
Ltac redis_steps := repeat redis_step; try done.

Section balanced_ops.
Implicit Types (redis : ptr ngx_auth_webauthn_redis_t) (w : held).

Lemma set_op_balanced redis cmd key member :
  balanced (needs redis) (ngx_auth_webauthn_redis_set_op redis cmd key member).
Proof.
  intros w Hw. unfold ngx_auth_webauthn_redis_set_op.
  destruct (no_ctx redis) eqn:Hr, key, member; cbn [orb nullp]; redis_steps.
Qed.

Lemma del_balanced redis key : balanced (needs redis) (ngx_auth_webauthn_redis_del redis key).
Proof.
  intros w Hw. unfold ngx_auth_webauthn_redis_del.
  destruct (no_ctx redis) eqn:Hr, key; cbn [orb nullp]; redis_steps.
Qed.

Lemma expire_balanced redis key seconds :
  balanced (needs redis) (ngx_auth_webauthn_redis_expire redis key seconds).
Proof.
  intros w Hw. unfold ngx_auth_webauthn_redis_expire.
  destruct (no_ctx redis) eqn:Hr, key; cbn [orb nullp]; redis_steps.
Qed.

Lemma set_ex_balanced redis key value seconds :
  balanced (needs redis) (ngx_auth_webauthn_redis_set_ex redis key value seconds).
Proof.
  intros w Hw. unfold ngx_auth_webauthn_redis_set_ex.
  destruct (no_ctx redis) eqn:Hr, key, value; cbn [orb nullp]; redis_steps.
Qed.

Lemma getdel_balanced redis key found :
  balanced (needs redis) (ngx_auth_webauthn_redis_getdel redis key found).
Proof.
  intros w Hw. unfold ngx_auth_webauthn_redis_getdel.
  destruct (no_ctx redis) eqn:Hr, key, found; cbn [orb nullp]; redis_steps.
Qed.

Lemma incr_expire_balanced redis key seconds value :
  balanced (needs redis) (ngx_auth_webauthn_redis_incr_expire redis key seconds value).
Proof.
  intros w Hw. unfold ngx_auth_webauthn_redis_incr_expire.
  destruct (no_ctx redis) eqn:Hr, key, value; cbn [orb nullp]; redis_steps.
Qed.

Lemma hset_balanced redis key pairs npairs :
  (forall ps, pairs = Some ps -> npairs <= zlen ps) ->
  0 <= npairs ->
  balanced (needs redis) (ngx_auth_webauthn_redis_hset redis key pairs npairs).
Proof.
  intros Hps H0 w Hw. unfold ngx_auth_webauthn_redis_hset.
  destruct (no_ctx redis) eqn:Hr, key as [k|]; cbn [orb nullp andb];
    rewrite ?andb_false_r, ?andb_true_r; try done.
  destruct pairs as [ps|]; cbn [nullp]; rewrite ?andb_false_r, ?andb_true_r.
  - specialize (Hps _ eq_refl). cbn [deref]. redis_steps. lia.
  - redis_steps. lia.
Qed.

(** Strings copied out of a reply are as short as the reply's. *)
Definition pair_fits (p : ngx_auth_webauthn_redis_pair_t) : Prop :=
  fits (str_bytes (pair_name p)) /\ fits (str_bytes (pair_value p)).

Lemma hgetall_loop_held n element acc w Q :
  (length element <= n)%nat -> Forall reply_ok element -> Forall pair_fits acc ->
  (forall rc out, Forall pair_fits out -> Q (rc, out) w) ->
  wp (hgetall_loop element acc) Q w.
Proof.
  revert element acc. induction n as [|n IH]; intros element acc Hn Hok Hacc HQ.
  { destruct element; [by apply HQ|simpl in Hn; lia]. }
  destruct element as [|name [|value rest]]; try by apply HQ.
  simpl in Hn. apply Forall_cons_1 in Hok as [Hname Hok].
  apply Forall_cons_1 in Hok as [Hvalue Hok].
  cbn [hgetall_loop]. destruct name, value; try by apply HQ.
  redis_steps; eauto. apply IH; [lia|done| |done].
  apply Forall_app. split; [done|]. constructor; [|done]. by split; apply bulk_fits.
Qed.

Lemma hgetall_held redis pool key pairs npairs w Q :
  needs redis ⊆ w -> (forall rc out, Forall pair_fits out -> Q (rc, out) w) ->
  wp (ngx_auth_webauthn_redis_hgetall redis pool key pairs npairs) Q w.
Proof.
  intros Hw HQ. assert (forall rc, Q (rc, []) w) as HQ0 by (intros; by apply HQ).
  unfold ngx_auth_webauthn_redis_hgetall.
  destruct (no_ctx redis) eqn:Hr, key, pool, pairs, npairs; cbn [orb nullp]; try apply HQ0; cbn [deref bind].
  apply wp_bind, exec_held; [done..|]. intros reply Hok. cbn [with_reply].
  destruct reply as [[]|]; redis_steps; try apply HQ0.
  eapply hgetall_loop_held; [done|by apply reply_ok_array, Hok|done|].
  intros [] out Hout; redis_steps; auto.
Qed.

Lemma hgetall_balanced redis pool key pairs npairs :
  balanced (needs redis) (ngx_auth_webauthn_redis_hgetall redis pool key pairs npairs).
Proof. intros w Hw. by apply hgetall_held. Qed.

Lemma smembers_loop_held element acc w Q :
  Forall reply_ok element -> Forall (fun m => bulk (str_bytes m)) acc ->
  (forall rc out, zlen out <= zlen acc + zlen element ->
     Forall (fun m => bulk (str_bytes m)) out -> Q (rc, out) w) ->
  wp (smembers_loop element acc) Q w.
Proof.
  intros Hok. revert acc. induction Hok as [|x l Hx Hl IH]; intros acc Hacc HQ.
  { apply HQ; [rewrite zlen_nil; lia|done]. }
  pose proof (zlen_nonneg l). rewrite zlen_cons in HQ.
  assert (forall rc, Q (rc, acc) w) as HE by (intros; apply HQ; [lia|done]).
  cbn [smembers_loop]. destruct x; try apply HE.
  redis_steps; try apply HE. apply IH.
  - apply Forall_app. split; [done|]. by repeat constructor.
  - intros rc out Hlen. rewrite zlen_app, zlen_cons, zlen_nil in Hlen. apply HQ. lia.
Qed.

Lemma smembers_held redis pool key members nmembers w Q :
  needs redis ⊆ w ->
  (forall rc out, zlen out < 2 ^ 32 -> Forall (fun m => bulk (str_bytes m)) out ->
     Q (rc, out) w) ->
  wp (ngx_auth_webauthn_redis_smembers redis pool key members nmembers) Q w.
Proof.
  intros Hw HQ. assert (forall rc, Q (rc, []) w) as HQ0 by (intros; by apply HQ).
  unfold ngx_auth_webauthn_redis_smembers.
  destruct (no_ctx redis) eqn:Hr, key, pool, members, nmembers; cbn [orb nullp]; try apply HQ0; cbn [deref bind].
  apply wp_bind, exec_held; [done..|]. intros reply Hok. cbn [with_reply].
  destruct reply as [[]|]; redis_steps; try apply HQ0.
  specialize (Hok _ eq_refl). destruct Hok as [Hlen Hall].
  eapply smembers_loop_held; [by apply reply_ok_array; split|done|].
  rewrite zlen_nil. intros [] out Hn Hout; redis_steps; try (apply HQ; [lia|done]); try apply HQ0.
Qed.

Lemma smembers_balanced redis pool key members nmembers :
  balanced (needs redis) (ngx_auth_webauthn_redis_smembers redis pool key members nmembers).
Proof. intros w Hw. by apply smembers_held. Qed.
End balanced_ops.

(** ** Opening and closing a connection *)

Section connection.
Implicit Types (redis : ptr ngx_auth_webauthn_redis_t) (w : held).

Abbreviation open_handle := (Some {| ctx := Some tt |} : ptr ngx_auth_webauthn_redis_t).

Lemma close_held w Q :
  (forall h, no_ctx h = true -> Q h w) ->
  wp (ngx_auth_webauthn_redis_close open_handle) Q (w ⊎ {[+ REDIS_CTX +]}).
Proof.
  intros HQ. unfold ngx_auth_webauthn_redis_close. cbn [no_ctx nullp ctx]. held_steps.
  by apply HQ.
Qed.

Lemma needs_open w : needs open_handle ⊆ w ⊎ {[+ REDIS_CTX +]}.
Proof. unfold needs. cbn. multiset_solver. Qed.

(** AUTH and SELECT keep the context on success and give it up on failure. *)
Definition opening_post (w : held) (rc : ngx_rc) (w' : held) : Prop :=
  match rc with NGX_OK => w' = w ⊎ {[+ REDIS_CTX +]} | _ => w' = w end.

Lemma auth_held conf w :
  wp (redis_auth open_handle conf) (opening_post w) (w ⊎ {[+ REDIS_CTX +]}).
Proof.
  unfold redis_auth. destruct (0 <? _); [|done].
  apply wp_bind, exec_held; [done|apply needs_open|]. intros reply _.
  apply wp_bind, reply_status_held. intros []; [done|..];
    apply wp_bind, close_held; done.
Qed.

Lemma select_held conf w :
  wp (redis_select open_handle conf) (opening_post w) (w ⊎ {[+ REDIS_CTX +]}).
Proof.
  unfold redis_select. destruct (0 <? _); [|done]. destruct (redis_numbuf _).
  - apply wp_bind, exec_held; [done|apply needs_open|]. intros reply _.
    apply wp_bind, reply_status_held. intros []; [done|..];
      apply wp_bind, close_held; done.
  - apply wp_bind, close_held; done.
Qed.

(** A successful connect hands out one open handle; any failure leaves
    [*out] as it was and holds nothing. *)
Lemma connect_held pool conf out w Q :
  (forall c, conf = Some c -> fits (str_bytes (rconf_host c))) ->
  Q (NGX_OK, open_handle) (w ⊎ {[+ REDIS_CTX +]}) ->
  Q (NGX_ERROR, default NULL out) w ->
  wp (ngx_auth_webauthn_redis_connect pool conf out) Q w.
Proof.
  intros Hfit HOK HERR. unfold ngx_auth_webauthn_redis_connect.
  destruct conf as [c|]; [|done]. specialize (Hfit _ eq_refl). unfold fits in Hfit.
  destruct (_ || _); [done|].
  apply wp_bind, wp_held_call; [done|]. intros [] _; cbn [held_next negb]; [|done].
  apply wp_bind, pool_fill_held.
  { rewrite zlen_app. unfold str_len. rewrite size_t_small; unfold zlen in *; simpl; lia. }
  { done. }
  apply wp_bind, wp_held_call; [done|]. intros [] _; cbn [held_next].
  - by held_steps.
  - by held_steps.
  - apply wp_seq with (fun _ w' => w' = w ⊎ {[+ REDIS_CTX +]}); [by held_steps|].
    intros _ ? ->. eapply wp_seq; [apply auth_held|]. intros [] ? ->; try done.
    eapply wp_seq; [apply select_held|]. intros [] ? ->; done.
Qed.
End connection.
