(* ===== verification/RedisCalls.v ===== *)
(** * The commands each client operation sends

    For any predicate on calls that allows the internal ones, an operation
    satisfies it as soon as its own command does. *)

From S2P Require Import Prelude Effects Redis.
#[global] Open Scope Z_scope.

(** [P] of a command. *)
Abbreviation cmd P argv := (P (redisCommandArgv argv)).

Section calls.
Context (P : eff -> Prop) `{!Background P}.
Implicit Types (redis : ptr ngx_auth_webauthn_redis_t).

Lemma exec_calls redis argv :
  cmd P argv -> all_calls P (ngx_auth_webauthn_redis_exec redis argv).
Proof. intros Hc. unfold ngx_auth_webauthn_redis_exec. calls. done. Qed.

Lemma reply_status_calls reply : all_calls P (reply_status reply).
Proof. unfold reply_status. calls. Qed.

Lemma close_calls redis : all_calls P (ngx_auth_webauthn_redis_close redis).
Proof. unfold ngx_auth_webauthn_redis_close. calls. Qed.

Lemma dup_calls src : all_calls P (ngx_auth_webauthn_redis_dup src).
Proof. unfold ngx_auth_webauthn_redis_dup. calls. Qed.

#[local] Hint Resolve exec_calls reply_status_calls close_calls dup_calls : calls.

Lemma connect_calls pool conf out :
  (forall p, cmd P [bs "AUTH"; p]) -> (forall n, cmd P [bs "SELECT"; n]) ->
  all_calls P (ngx_auth_webauthn_redis_connect pool conf out).
Proof.
  intros HA HS.
  assert (forall r c, all_calls P (redis_auth r c)) by (intros; unfold redis_auth; calls).
  assert (forall r c, all_calls P (redis_select r c)) by (intros; unfold redis_select; calls).
  unfold ngx_auth_webauthn_redis_connect. calls.
Qed.

Lemma set_op_calls redis c key member :
  (forall k m, key = Some k -> member = Some m -> cmd P [c; str_bytes k; str_bytes m]) ->
  all_calls P (ngx_auth_webauthn_redis_set_op redis c key member).
Proof.
  intros Hc. unfold ngx_auth_webauthn_redis_set_op. destruct (_ || _); [done|].
  destruct key as [k|]; [|done]. destruct member as [m|]; [|done]. cbn [deref bind].
  calls; apply exec_calls; auto.
Qed.

Lemma del_calls redis key :
  (forall k, key = Some k -> cmd P [bs "DEL"; str_bytes k]) ->
  all_calls P (ngx_auth_webauthn_redis_del redis key).
Proof.
  intros Hc. unfold ngx_auth_webauthn_redis_del. destruct (_ || _); [done|].
  destruct key as [k|]; [|done]. cbn [deref bind]. calls; apply exec_calls; auto.
Qed.

Lemma getdel_calls redis key found :
  (forall k, key = Some k -> cmd P [bs "GETDEL"; str_bytes k]) ->
  all_calls P (ngx_auth_webauthn_redis_getdel redis key found).
Proof.
  intros Hc. unfold ngx_auth_webauthn_redis_getdel. destruct (_ || _); [done|].
  destruct key as [k|]; [|done]. cbn [deref bind].
  apply all_calls_bind; [apply exec_calls; auto|]. intros reply. calls.
Qed.

Lemma set_ex_calls redis key value seconds :
  (forall k v n, key = Some k -> value = Some v -> redis_numbuf seconds = Some n ->
     cmd P [bs "SET"; str_bytes k; str_bytes v; bs "EX"; n]) ->
  all_calls P (ngx_auth_webauthn_redis_set_ex redis key value seconds).
Proof.
  intros Hc. unfold ngx_auth_webauthn_redis_set_ex. destruct (_ || _); [done|].
  destruct (redis_numbuf seconds) as [n|] eqn:?; [|done].
  destruct key as [k|]; [|done]. destruct value as [v|]; [|done]. cbn [deref bind].
  calls; apply exec_calls; auto.
Qed.

Lemma incr_expire_calls redis key seconds value :
  (forall k n, key = Some k -> redis_numbuf seconds = Some n ->
     cmd P [bs "EVAL"; incr_expire_script; bs "1"; str_bytes k; n]) ->
  all_calls P (ngx_auth_webauthn_redis_incr_expire redis key seconds value).
Proof.
  intros Hc. unfold ngx_auth_webauthn_redis_incr_expire. destruct (_ || _); [done|].
  destruct (redis_numbuf seconds) as [n|] eqn:?; [|done].
  destruct key as [k|]; [|done]. cbn [deref bind].
  apply all_calls_bind; [apply exec_calls; auto|]. intros reply. calls.
Qed.

Lemma hset_calls redis key pairs n :
  (forall k ps, key = Some k -> pairs = Some ps ->
     cmd P (bs "HSET" :: str_bytes k :: hset_args (take (Z.to_nat n) ps))) ->
  all_calls P (ngx_auth_webauthn_redis_hset redis key pairs n).
Proof.
  intros Hc. unfold ngx_auth_webauthn_redis_hset. destruct (_ || _); [done|].
  destruct (_ =? 0); [done|]. destruct key as [k|]; [|calls].
  apply all_calls_bind; [by apply all_calls_internal|]. intros a.
  apply all_calls_bind; [by apply all_calls_internal|]. intros b.
  destruct (_ || _); [done|]. cbn [deref bind]. destruct pairs as [ps|]; [|done]. cbn [deref bind].
  destruct (_ <? _); [done|]. calls; apply exec_calls; auto.
Qed.

Lemma hgetall_loop_calls n element acc :
  (length element <= n)%nat -> all_calls P (hgetall_loop element acc).
Proof.
  revert element acc. induction n as [|n IH]; intros element acc Hn.
  { by destruct element; [|simpl in Hn; lia]. }
  destruct element as [|name [|value rest]]; try done. simpl in Hn. cbn [hgetall_loop].
  destruct name, value; try done. calls; apply IH; lia.
Qed.

Lemma hgetall_calls redis pool key pairs npairs :
  (forall k, key = Some k -> cmd P [bs "HGETALL"; str_bytes k]) ->
  all_calls P (ngx_auth_webauthn_redis_hgetall redis pool key pairs npairs).
Proof.
  intros Hc. unfold ngx_auth_webauthn_redis_hgetall. destruct (_ || _); [done|].
  destruct key as [k|]; [|done]. cbn [deref bind].
  apply all_calls_bind; [apply exec_calls; auto|]. intros reply. calls.
  by eapply hgetall_loop_calls.
Qed.

Lemma smembers_loop_calls element acc : all_calls P (smembers_loop element acc).
Proof.
  revert acc. induction element as [|x l IH]; intros acc; [done|]. cbn [smembers_loop].
  destruct x; try done. calls; apply IH.
Qed.

Lemma smembers_calls redis pool key members n :
  (forall k, key = Some k -> cmd P [bs "SMEMBERS"; str_bytes k]) ->
  all_calls P (ngx_auth_webauthn_redis_smembers redis pool key members n).
Proof.
  intros Hc. unfold ngx_auth_webauthn_redis_smembers. destruct (_ || _); [done|].
  destruct key as [k|]; [|done]. cbn [deref bind].
  apply all_calls_bind; [apply exec_calls; auto|]. intros reply. calls.
  apply smembers_loop_calls.
Qed.
End calls.

#[export] Hint Resolve exec_calls reply_status_calls close_calls dup_calls connect_calls
  set_op_calls del_calls getdel_calls set_ex_calls incr_expire_calls hset_calls
  hgetall_calls smembers_calls : calls.
