(* ===== verification/RedisSpec.v ===== *)
(** * The Redis server, as an interface

    The server is not part of the repository.  [RedisServer] names what the
    client talks to, [RedisLaws] what it relies on: the documented effect of
    the commands of src/ngx_auth_webauthn_redis.c on a keyspace of typed
    values with optional expiry.  Any command may instead be rejected with an
    error reply and no effect, any reply may be lost, and keys with a TTL may
    vanish between commands.  [MiniRedis] is an executable server that
    satisfies the laws, used to evaluate the development on concrete data. *)

From S2P Require Import Prelude Effects Externals Base64 Samples Redis.
#[global] Open Scope Z_scope.

Inductive value :=
  | VString (s : bytes)
  | VHash (h : gmap bytes bytes)
  | VSet (s : gset bytes).

#[export] Instance value_eq_dec : EqDecision value.
Proof. solve_decision. Defined.

Class RedisServer (S : Type) := {
  (** one command: reply and next state *)
  srv_exec : list bytes -> S -> redisReply * S;
  (** time passes and keys with a TTL may expire *)
  srv_tick : S -> S -> Prop;
  (** the live keyspace and the keys that carry an expiry *)
  kv : S -> gmap bytes value;
  ttl : S -> gmap bytes Z;
}.

Section laws.
Context {S : Type} `{SRV : RedisServer S}.
Implicit Types (s : S) (k : bytes).

(** State [s'] holds keyspace [m] and expiries [t]. *)
Definition holds s' (m : gmap bytes value) (t : gmap bytes Z) : Prop :=
  kv s' = m /\ ttl s' = t.

Definition is_error (r : redisReply) : Prop := exists e, r = RError e.

(** The command was refused (OOM, LOADING, WRONGTYPE, ...). *)
Definition rejected s (o : redisReply * S) : Prop :=
  is_error (fst o) /\ holds (snd o) (kv s) (ttl s).

Definition replied (o : redisReply * S) (r : redisReply) m t : Prop :=
  fst o = r /\ holds (snd o) m t.

(** Fields set one after the other, as HSET does. *)
Fixpoint hset_fields (h : gmap bytes bytes) (args : list bytes) : gmap bytes bytes :=
  match args with
  | f :: v :: rest => hset_fields (<[f := v]> h) rest
  | _ => h
  end.

(** An alternating list of field and value strings. *)
Definition flat_pairs (l : list (bytes * bytes)) : list redisReply :=
  flat_map (fun '(f, v) => [RString f; RString v]) l.

Definition hash_at s k : option (gmap bytes bytes) :=
  match kv s !! k with
  | None => Some ∅ | Some (VHash h) => Some h | Some _ => None
  end.

Definition set_at s k : option (gset bytes) :=
  match kv s !! k with
  | None => Some ∅ | Some (VSet x) => Some x | Some _ => None
  end.

(** What is stored for a set: the empty set is no key at all. *)
Definition put_set (m : gmap bytes value) k (x : gset bytes) : gmap bytes value :=
  if decide (x = ∅) then delete k m else <[k := VSet x]> m.

(** The value of a counter key, if it is one. *)
Definition counter_at s k : option Z :=
  match kv s !! k with
  | None => Some 0
  | Some (VString b) =>
      if bool_decide (b = dec (dec_val b)) then Some (dec_val b) else None
  | Some _ => None
  end.

(** The script of [ngx_auth_webauthn_redis_incr_expire], over the commands
    it calls; a failing call ends the script with its error. *)
Definition lua_incr_expire k (seconds : bytes) s : redisReply * S :=
  match srv_exec [bs "INCR"; k] s with
  | (RInteger c, s1) =>
      let expire s2 :=
        match srv_exec [bs "EXPIRE"; k; seconds] s2 with
        | (RError e, s3) => (RError e, s3)
        | (_, s3) => (RInteger c, s3)
        end in
      if c =? 1 then expire s1
      else
        match srv_exec [bs "TTL"; k] s1 with
        | (RInteger t, s2) => if t <? 0 then expire s2 else (RInteger c, s2)
        | (r, s2) => (r, s2)
        end
  | (r, s1) => (r, s1)
  end.
End laws.
Arguments holds : simpl never.

Class RedisLaws (S : Type) `{RedisServer S} := {
  tick_law : forall s s', srv_tick s s' ->
    (forall k, kv s' !! k = kv s !! k \/ (is_Some (ttl s !! k) /\ kv s' !! k = None)) /\
    (forall k, ttl s' !! k = ttl s !! k \/ ttl s' !! k = None);
  tick_refl : forall s, srv_tick s s;
  set_ex_law : forall s k v n, 0 < n ->
    let o := srv_exec [bs "SET"; k; v; bs "EX"; dec n] s in
    rejected s o \/
    replied o (RStatus (bs "OK")) (<[k := VString v]> (kv s)) (<[k := n]> (ttl s));
  getdel_law : forall s k,
    let o := srv_exec [bs "GETDEL"; k] s in
    rejected s o \/
    match kv s !! k with
    | None => replied o RNil (kv s) (ttl s)
    | Some (VString v) => replied o (RString v) (delete k (kv s)) (delete k (ttl s))
    | Some _ => False
    end;
  hset_law : forall s k args,
    let o := srv_exec (bs "HSET" :: k :: args) s in
    rejected s o \/
    exists h n, hash_at s k = Some h /\
      replied o (RInteger n) (<[k := VHash (hset_fields h args)]> (kv s)) (ttl s);
  hgetall_law : forall s k,
    let o := srv_exec [bs "HGETALL"; k] s in
    rejected s o \/
    exists h l, hash_at s k = Some h /\ l ≡ₚ map_to_list h /\
      replied o (RArray (flat_pairs l)) (kv s) (ttl s);
  del_law : forall s k,
    let o := srv_exec [bs "DEL"; k] s in
    rejected s o \/
    exists n, replied o (RInteger n) (delete k (kv s)) (delete k (ttl s));
  sadd_law : forall s k m,
    let o := srv_exec [bs "SADD"; k; m] s in
    rejected s o \/
    exists x n, set_at s k = Some x /\
      replied o (RInteger n) (<[k := VSet ({[ m ]} ∪ x)]> (kv s)) (ttl s);
  srem_law : forall s k m,
    let o := srv_exec [bs "SREM"; k; m] s in
    rejected s o \/
    exists x n, set_at s k = Some x /\ fst o = RInteger n /\
      kv (snd o) = put_set (kv s) k (x ∖ {[ m ]}) /\
      forall k', k' <> k -> ttl (snd o) !! k' = ttl s !! k';
  smembers_law : forall s k,
    let o := srv_exec [bs "SMEMBERS"; k] s in
    rejected s o \/
    exists x l, set_at s k = Some x /\ l ≡ₚ elements x /\
      replied o (RArray (RString <$> l)) (kv s) (ttl s);
  expire_law : forall s k n, 0 < n ->
    let o := srv_exec [bs "EXPIRE"; k; dec n] s in
    rejected s o \/
    match kv s !! k with
    | None => replied o (RInteger 0) (kv s) (ttl s)
    | Some _ => replied o (RInteger 1) (kv s) (<[k := n]> (ttl s))
    end;
  incr_law : forall s k,
    let o := srv_exec [bs "INCR"; k] s in
    rejected s o \/
    exists c, counter_at s k = Some c /\
      replied o (RInteger (c + 1)) (<[k := VString (dec (c + 1))]> (kv s)) (ttl s);
  ttl_cmd_law : forall s k,
    let o := srv_exec [bs "TTL"; k] s in
    rejected s o \/
    exists t, replied o (RInteger t) (kv s) (ttl s) /\
      (t < 0 <-> (kv s !! k = None \/ ttl s !! k = None));
  eval_law : forall s k n,
    let o := srv_exec [bs "EVAL"; incr_expire_script; bs "1"; k; n] s in
    rejected s o \/ o = lua_incr_expire k n s;
  (** connection commands: the keyspace of [S] is the one database in use *)
  auth_law : forall s p, holds (snd (srv_exec [bs "AUTH"; p] s)) (kv s) (ttl s);
  select_law : forall s n, holds (snd (srv_exec [bs "SELECT"; n] s)) (kv s) (ttl s);
}.

(** The world of a client alone with its server: before each command keys may
    expire; a lost reply says nothing of whether the command ran. *)
Definition server_step {S} `{RedisServer S} (s : S) (e : eff) : ans e -> S -> Prop :=
  match e with
  | redisCommandArgv argv => fun a s' =>
      match a with
      | Some r => exists s1, srv_tick s s1 /\ srv_exec argv s1 = (r, s')
      | None => srv_tick s s' \/ exists s1, srv_tick s s1 /\ s' = snd (srv_exec argv s1)
      end
  | _ => fun _ s' => s' = s
  end.

Definition server_env {S} `{RedisServer S} : Env S := {|
  env_pre _ _ := True;
  env_step s e a s' := ans_ok e a /\ server_step s e a s';
|}.

(** ** A small executable server *)

Module MiniRedis.
Record db := Db { db_kv : gmap bytes value; db_ttl : gmap bytes Z }.

Definition wrongtype : redisReply := RError (bs "WRONGTYPE").
Definition syntax : redisReply := RError (bs "ERR syntax error").

(** A positive decimal argument. *)
Definition positive_arg (b : bytes) : option Z :=
  if bool_decide (b = dec (dec_val b)) && (0 <? dec_val b) then Some (dec_val b) else None.

Definition cmd_set k v n s :=
  match positive_arg n with
  | Some t => (RStatus (bs "OK"), Db (<[k := VString v]> (db_kv s)) (<[k := t]> (db_ttl s)))
  | None => (syntax, s)
  end.

Definition cmd_getdel k s :=
  match db_kv s !! k with
  | None => (RNil, s)
  | Some (VString v) => (RString v, Db (delete k (db_kv s)) (delete k (db_ttl s)))
  | Some _ => (wrongtype, s)
  end.

Definition cmd_hset k args s :=
  match db_kv s !! k with
  | None => (RInteger 0, Db (<[k := VHash (hset_fields ∅ args)]> (db_kv s)) (db_ttl s))
  | Some (VHash h) =>
      (RInteger 0, Db (<[k := VHash (hset_fields h args)]> (db_kv s)) (db_ttl s))
  | Some _ => (wrongtype, s)
  end.

Definition cmd_hgetall k s :=
  match db_kv s !! k with
  | None => (RArray [], s)
  | Some (VHash h) => (RArray (flat_pairs (map_to_list h)), s)
  | Some _ => (wrongtype, s)
  end.

Definition cmd_del k s :=
  (RInteger 1, Db (delete k (db_kv s)) (delete k (db_ttl s))).

Definition cmd_sadd k m s :=
  match db_kv s !! k with
  | None => (RInteger 1, Db (<[k := VSet ({[ m ]} ∪ ∅)]> (db_kv s)) (db_ttl s))
  | Some (VSet x) => (RInteger 1, Db (<[k := VSet ({[ m ]} ∪ x)]> (db_kv s)) (db_ttl s))
  | Some _ => (wrongtype, s)
  end.

Definition cmd_srem k m s :=
  match db_kv s !! k with
  | None => (RInteger 0, s)
  | Some (VSet x) => (RInteger 1, Db (put_set (db_kv s) k (x ∖ {[ m ]})) (db_ttl s))
  | Some _ => (wrongtype, s)
  end.

Definition cmd_smembers k s :=
  match db_kv s !! k with
  | None => (RArray [], s)
  | Some (VSet x) => (RArray (RString <$> elements x), s)
  | Some _ => (wrongtype, s)
  end.

Definition cmd_expire k n s :=
  match positive_arg n, db_kv s !! k with
  | None, _ => (syntax, s)
  | Some _, None => (RInteger 0, s)
  | Some t, Some _ => (RInteger 1, Db (db_kv s) (<[k := t]> (db_ttl s)))
  end.

Definition cmd_incr k s :=
  match db_kv s !! k with
  | None => (RInteger 1, Db (<[k := VString (dec 1)]> (db_kv s)) (db_ttl s))
  | Some (VString b) =>
      if bool_decide (b = dec (dec_val b)) then
        (RInteger (dec_val b + 1),
         Db (<[k := VString (dec (dec_val b + 1))]> (db_kv s)) (db_ttl s))
      else (wrongtype, s)
  | Some _ => (wrongtype, s)
  end.

Definition cmd_ttl k s :=
  match db_kv s !! k, db_ttl s !! k with
  | None, _ => (RInteger (-2), s)
  | Some _, None => (RInteger (-1), s)
  | Some _, Some t => (RInteger (Z.max 0 t), s)
  end.

Definition named (c : bytes) (name : bytes) : bool := bool_decide (c = name).

Definition base_exec (argv : list bytes) (s : db) : redisReply * db :=
  match argv with
  | [c; k] =>
      if named c (bs "GETDEL") then cmd_getdel k s
      else if named c (bs "HGETALL") then cmd_hgetall k s
      else if named c (bs "DEL") then cmd_del k s
      else if named c (bs "SMEMBERS") then cmd_smembers k s
      else if named c (bs "INCR") then cmd_incr k s
      else if named c (bs "TTL") then cmd_ttl k s
      else if named c (bs "HSET") then cmd_hset k [] s
      else if named c (bs "AUTH") || named c (bs "SELECT") then (RStatus (bs "OK"), s)
      else (syntax, s)
  | c :: k :: args =>
      if named c (bs "HSET") then cmd_hset k args s
      else match args with
      | [m] =>
          if named c (bs "SADD") then cmd_sadd k m s
          else if named c (bs "SREM") then cmd_srem k m s
          else if named c (bs "EXPIRE") then cmd_expire k m s
          else (syntax, s)
      | [v; ex; n] =>
          if named c (bs "SET") && named ex (bs "EX") then cmd_set k v n s else (syntax, s)
      | _ => (syntax, s)
      end
  | _ => (syntax, s)
  end.

(** Any subset of the keys with a TTL may be gone. *)
Definition tick (s s' : db) : Prop :=
  exists gone : gset bytes,
    (forall k, k ∈ gone -> is_Some (db_ttl s !! k)) /\
    s' = Db (filter (fun kv => kv.1 ∉ gone) (db_kv s))
            (filter (fun kv => kv.1 ∉ gone) (db_ttl s)).

#[local] Instance base : RedisServer db :=
  {| srv_exec := base_exec; srv_tick := tick; kv := db_kv; ttl := db_ttl |}.

Definition mini_exec (argv : list bytes) (s : db) : redisReply * db :=
  match argv with
  | [c; script; one; k; n] =>
      if named c (bs "EVAL") && named script incr_expire_script && named one (bs "1")
      then lua_incr_expire k n s
      else base_exec argv s
  | _ => base_exec argv s
  end.

#[export] Instance server : RedisServer db | 0 :=
  {| srv_exec := mini_exec; srv_tick := tick; kv := db_kv; ttl := db_ttl |}.

Lemma positive_arg_dec n : 0 < n -> positive_arg (dec n) = Some n.
Proof.
  intros Hn. destruct (dec_nonneg_spec n ltac:(lia)) as (Hv & _).
  assert (dec n = dec_nonneg n) as E by (unfold dec; destruct (Z.ltb_spec n 0); [lia|done]).
  unfold positive_arg. rewrite E, Hv, <- E, bool_decide_true by done. simpl.
  by destruct (Z.ltb_spec 0 n); [|lia].
Qed.

Lemma rejected_same (s : db) r : is_error r -> rejected s (r, s).
Proof. intros He. by split. Qed.

Create HintDb mini.
#[local] Hint Extern 1 (rejected _ _) => apply rejected_same; eexists; done : mini.
#[local] Hint Extern 1 (replied _ _ _ _) => repeat split; done : mini.

Lemma tick_keeps (s s' : db) : tick s s' ->
  (forall k, kv s' !! k = kv s !! k \/ (is_Some (ttl s !! k) /\ kv s' !! k = None)) /\
  (forall k, ttl s' !! k = ttl s !! k \/ ttl s' !! k = None).
Proof.
  intros (gone & Hg & ->). split; intros k; cbn -[filter]; destruct (decide (k ∈ gone)).
  - right. split; [by apply Hg|]. apply map_lookup_filter_None. right. naive_solver.
  - left. destruct (db_kv s !! k) eqn:E.
    + by apply map_lookup_filter_Some.
    + apply map_lookup_filter_None. by left.
  - right. apply map_lookup_filter_None. right. naive_solver.
  - left. destruct (db_ttl s !! k) eqn:E.
    + by apply map_lookup_filter_Some.
    + apply map_lookup_filter_None. by left.
Qed.

Lemma tick_none (s : db) : tick s s.
Proof.
  exists ∅. split; [set_solver|]. destruct s as [m t]. f_equal; simpl;
    symmetry; apply map_filter_id; set_solver.
Qed.

#[export] Instance laws : RedisLaws db.
Proof.
  split.
  - apply tick_keeps.
  - apply tick_none.
  - intros s k v n Hn. right. cbn. unfold cmd_set.
    rewrite positive_arg_dec by done. auto with mini.
  - intros s k. cbn. unfold cmd_getdel. destruct (db_kv s !! k) as [[]|] eqn:E; auto with mini.
  - intros s k args. unfold hash_at.
    assert (srv_exec (bs "HSET" :: k :: args) s = cmd_hset k args s) as ->.
    { by destruct args as [|? [|? [|? []]]]. }
    unfold cmd_hset. cbn [kv server].
    destruct (db_kv s !! k) as [[]|] eqn:E; eauto 6 with mini.
  - intros s k. cbn. unfold cmd_hgetall, hash_at. cbn [kv server].
    destruct (db_kv s !! k) as [[]|] eqn:E; auto with mini; right.
    + eauto 6 with mini.
    + exists ∅, []. rewrite map_to_list_empty. auto with mini.
  - intros s k. right. cbn. eauto with mini.
  - intros s k m. cbn. unfold cmd_sadd, set_at. cbn [kv server].
    destruct (db_kv s !! k) as [[]|] eqn:E; eauto 6 with mini.
  - intros s k m. cbn. unfold cmd_srem, set_at. cbn [kv server].
    destruct (db_kv s !! k) as [[]|] eqn:E; auto with mini; right.
    + eexists _, _. by split_and!.
    + eexists _, _. split_and!; try done. cbn. unfold put_set.
      rewrite decide_True by set_solver. by rewrite delete_id.
  - intros s k. cbn. unfold cmd_smembers, set_at. cbn [kv server].
    destruct (db_kv s !! k) as [[]|] eqn:E; auto with mini; right.
    + eauto 6 with mini.
    + exists ∅, []. rewrite elements_empty. auto with mini.
  - intros s k n Hn. right. cbn. unfold cmd_expire. rewrite positive_arg_dec by done.
    cbn [kv server]. destruct (db_kv s !! k) eqn:E; auto with mini.
  - intros s k. cbn. unfold cmd_incr, counter_at. cbn [kv server].
    destruct (db_kv s !! k) as [[]|] eqn:E; auto with mini.
    + destruct (bool_decide _); eauto with mini.
    + right. exists 0. auto with mini.
  - intros s k. right. cbn. unfold cmd_ttl. cbn [kv ttl server].
    destruct (db_kv s !! k) eqn:E; [destruct (db_ttl s !! k) eqn:E'|];
      eexists; (split; [by split|]); split; intros; naive_solver lia.
  - intros s k n. right. done.
  - done.
  - done.
Qed.

(** Running a program against the server; everything else succeeds. *)
Definition answer (s : db) (e : eff) : ans e * db :=
  match e with
  | redisCommandArgv argv => let '(r, s') := mini_exec argv s in (Some r, s')
  | e => (Samples.ok_ans e, s)
  end.

Definition mini_run {A} (p : prog A) (s : db) : option (A * db) := run answer p s.

(** The calls a run makes, in order. *)
Definition traced (w : db * trace) (e : eff) : ans e * (db * trace) :=
  let '(a, s) := answer w.1 e in (a, (s, w.2 ++ [Ev e a])).
Definition mini_trace {A} (p : prog A) (s : db) : option (A * trace) :=
  '(a, w) ← run traced p (s, []); Some (a, w.2).

End MiniRedis.
