(* ===== verification/RedisOps.v ===== *)
(** * What each client operation does to the server

    The operations of Redis.v against the laws of RedisSpec.v, in the world
    of a client alone with a server whose keys may expire, whose commands may
    be refused and whose replies may be lost.  Every operation is described by
    its effect on the keyspace: NGX_OK means the effect took place, NGX_ERROR
    that it did or that nothing changed. *)

From S2P Require Import Prelude Effects Redis RedisSpec.
#[global] Open Scope Z_scope.

(** An open handle. *)
Abbreviation open_redis := (Some {| ctx := Some tt |} : ptr ngx_auth_webauthn_redis_t).

(** ** The same on the trace of commands *)

(** [h'] continues [h] by one command and its answer, and perhaps log lines. *)
Definition did (argv : list bytes) (reply : option redisReply) (h h' : trace) : Prop :=
  cmds h' = cmds h ++ [(argv, reply)] /\ finals h' = finals h /\
  (env_failed h -> env_failed h') /\
  (reply = None \/ (exists e, reply = Some (RError e)) -> env_failed h').

Lemma env_failed_more h ev : env_failed h -> env_failed (h ++ [ev]).
Proof. intros. apply env_failed_app. by left. Qed.

Lemma exec_trace argv h Q :
  (forall reply h', (forall r, reply = Some r -> reply_ok r) -> did argv reply h h' ->
     Q reply h') ->
  wp (ngx_auth_webauthn_redis_exec open_redis argv) Q h.
Proof.
  intros HQ. unfold ngx_auth_webauthn_redis_exec. cbn [deref ctx bind].
  apply wp_bind, wp_trace_call. intros reply Hok.
  assert (did argv reply h (h ++ [Ev (redisCommandArgv argv) reply])) as Hd.
  { unfold did. rewrite cmds_app, finals_app. split_and!; [done|by rewrite app_nil_r| |].
    - apply env_failed_more.
    - intros [->|[e ->]]; by apply env_failed_last. }
  assert (forall msg, did argv reply h ((h ++ [Ev (redisCommandArgv argv) reply]) ++
            [Ev (ngx_log_error NGX_LOG_ERR msg) tt])) as Hdl.
  { intros msg. destruct Hd as (H1 & H2 & H3 & H4). unfold did.
    rewrite cmds_app, finals_app, H1, H2, !app_nil_r. split_and!; auto using env_failed_more. }
  destruct reply as [[]|]; try (by apply HQ).
  all: apply wp_bind, wp_trace_call; intros [] _; by apply HQ.
Qed.

Lemma reply_status_trace reply h Q :
  (forall h', cmds h' = cmds h -> finals h' = finals h -> (env_failed h -> env_failed h') ->
     Q (match reply with None | Some (RError _) => NGX_ERROR | Some _ => NGX_OK end) h') ->
  wp (reply_status reply) Q h.
Proof.
  intros HQ. destruct reply as [[]|]; cbn [reply_status]; try (by apply HQ).
  all: apply wp_bind, wp_trace_call; intros [] _; apply HQ; auto using env_failed_more.
  all: rewrite ?cmds_app, ?finals_app; apply app_nil_r.
Qed.

(** The server acknowledged the command. *)
Definition acked (argv : list bytes) (h : trace) : Prop :=
  exists r, (argv, Some r) ∈ cmds h /\ forall e, r <> RError e.

Lemma acked_app argv h k : acked argv h -> acked argv (h ++ k).
Proof. intros (r & Hin & He). exists r. rewrite cmds_app. split; [set_solver|done]. Qed.

Lemma status_trace argv h :
  wp (reply <- ngx_auth_webauthn_redis_exec open_redis argv ;; reply_status reply)
     (fun rc h' => rc = NGX_OK -> acked argv h') h.
Proof.
  apply wp_bind, exec_trace. intros reply h1 _ (Hc & _).
  apply reply_status_trace. intros h2 Hc2 _ _.
  destruct reply as [r|]; [|done]. intros Hok. exists r. rewrite Hc2, Hc.
  split; [set_solver|]. by intros e ->.
Qed.

Lemma redis_numbuf_dec v : 0 <= v < 2 ^ 64 -> redis_numbuf v = Some (dec v).
Proof.
  intros Hv. unfold redis_numbuf, snprintf. assert (uint64 v = v) as -> by (apply Z.mod_small; lia).
  pose proof (dec_length v ltac:(lia)). pose proof (dec_pos v).
  unfold NGX_AUTH_WEBAUTHN_REDIS_NUMBUF.
  destruct (Z.ltb_spec (zlen (dec v)) 0), (Z.leb_spec 32 (zlen (dec v))); try lia. cbn [orb].
  rewrite !take_ge; [done|unfold zlen in *; lia|rewrite take_ge; unfold zlen in *; lia].
Qed.

(** A pair as HGETALL hands it out. *)
Definition hpair (n v : bytes) : ngx_auth_webauthn_redis_pair_t :=
  {| pair_name := Some n; pair_value := Some v |}.

Definition hpairs (l : list (bytes * bytes)) : list ngx_auth_webauthn_redis_pair_t :=
  (fun p => hpair p.1 p.2) <$> l.

(** The server answered [argv] with [r]. *)
Definition answered (argv : list bytes) (r : redisReply) (h : trace) : Prop :=
  (argv, Some r) ∈ cmds h.

Lemma answered_app argv r h k : answered argv r h -> answered argv r (h ++ k).
Proof. unfold answered. rewrite cmds_app. set_solver. Qed.

Lemma free_trace {A} (k : prog A) Q h :
  wp k Q (h ++ [Ev freeReplyObject tt]) -> wp (call freeReplyObject ;; k) Q h.
Proof. intros Hk. apply wp_bind, wp_trace_call. by intros [] _. Qed.

Lemma did_answered argv r h h' : did argv (Some r) h h' -> answered argv r h'.
Proof. intros (Hc & _). unfold answered. rewrite Hc. set_solver. Qed.

Lemma getdel_trace k found h :
  wp (ngx_auth_webauthn_redis_getdel open_redis (Some (Some k)) (Some found))
     (fun out h' => fst out = NGX_OK -> snd out <> 0 ->
        exists v, answered [bs "GETDEL"; k] (RString v) h') h.
Proof.
  unfold ngx_auth_webauthn_redis_getdel. cbn [no_ctx nullp ctx orb deref bind str_bytes].
  apply wp_bind, exec_trace. intros reply h1 _ Hd.
  destruct reply as [[]|]; try done; apply free_trace; cbn [wp fst snd]; try done.
  intros _ _. eexists. by apply answered_app, did_answered with (h := h).
Qed.

(** The pairs of an HGETALL reply. *)
Fixpoint reply_pairs (element : list redisReply) : list ngx_auth_webauthn_redis_pair_t :=
  match element with
  | RString n :: RString v :: rest => hpair n v :: reply_pairs rest
  | _ => []
  end.

Lemma dup_trace src h Q :
  fits src -> (forall h', cmds h' = cmds h -> Q (NGX_ERROR, NULL) h') ->
  (forall h', cmds h' = cmds h -> Q (NGX_OK, Some src) h') ->
  wp (ngx_auth_webauthn_redis_dup src) Q h.
Proof.
  unfold fits. intros Hs HE HO. unfold ngx_auth_webauthn_redis_dup.
  destruct (Z.eqb_spec (zlen src) 0) as [E|_]; [apply zlen_0 in E as ->; by apply HO|].
  pose proof (zlen_nonneg src). apply wp_bind, wp_bind, wp_trace_call.
  intros [] _; [|apply HE; rewrite cmds_app; apply app_nil_r].
  rewrite size_t_small, Z.leb_refl by lia. apply HO. rewrite cmds_app. apply app_nil_r.
Qed.

Lemma hgetall_loop_trace n element acc h :
  (length element <= n)%nat -> Forall reply_ok element ->
  wp (hgetall_loop element acc) (fun out h' => cmds h' = cmds h /\
    (fst out = NGX_OK -> snd out = acc ++ reply_pairs element)) h.
Proof.
  revert element acc h. induction n as [|n IH]; intros element acc h Hn Hok.
  { destruct element; [|simpl in Hn; lia]. split; [done|]. by rewrite app_nil_r. }
  destruct element as [|name [|value rest]]; [split; [done|]; by rewrite app_nil_r| |].
  { split; [done|]. intros _. destruct name; by rewrite app_nil_r. }
  simpl in Hn. apply Forall_cons_1 in Hok as [Hname Hok]. apply Forall_cons_1 in Hok as [Hvalue Hok].
  cbn [hgetall_loop]. destruct name, value; try done.
  apply wp_bind, dup_trace; [by apply bulk_fits|by intros h1 E1; split|]. intros h1 E1. cbn [is_ok negb].
  apply wp_bind, dup_trace; [by apply bulk_fits|intros h2 E2; split; [congruence|done]|]. intros h2 E2. cbn [is_ok negb].
  eapply wp_mono; [|apply IH; [lia|done]]. intros out h3 [E3 Hout]. split; [congruence|].
  intros Hrc. rewrite (Hout Hrc), <- app_assoc. done.
Qed.

Lemma hgetall_trace k h :
  wp (ngx_auth_webauthn_redis_hgetall open_redis (Some tt) (Some (Some k)) (Some tt) (Some tt))
     (fun out h' => fst out = NGX_OK -> snd out <> [] -> exists element,
        answered [bs "HGETALL"; k] (RArray element) h' /\ snd out = reply_pairs element) h.
Proof.
  unfold ngx_auth_webauthn_redis_hgetall. cbn [no_ctx nullp ctx orb deref bind str_bytes].
  apply wp_bind, exec_trace. intros reply h1 Hok Hd.
  destruct reply as [[| l | | | | |]|]; try done; try (apply free_trace; cbn [wp fst snd]; done).
  apply did_answered in Hd. destruct (zlen l =? 0); [apply free_trace; cbn [wp fst snd]; done|].
  apply wp_bind, wp_trace_call. intros [] _; cbn [negb]; [|by apply free_trace].
  specialize (Hok _ eq_refl).
  eapply wp_seq; [by eapply hgetall_loop_trace; [|apply reply_ok_array]|].
  intros [rc out] h2 [Hc Hout]. apply free_trace. cbn [fst snd] in Hout.
  destruct rc; cbn [is_ok wp fst snd]; try done. intros _ _. exists l.
  split; [|by apply Hout]. apply answered_app. unfold answered in *. rewrite Hc, cmds_app. set_solver.
Qed.

Lemma hset_trace k pairs h :
  wp (ngx_auth_webauthn_redis_hset open_redis (Some (Some k)) (Some pairs) (zlen pairs))
     (fun rc h' => rc = NGX_OK -> pairs <> [] -> acked (bs "HSET" :: k :: hset_args pairs) h') h.
Proof.
  unfold ngx_auth_webauthn_redis_hset. cbn [no_ctx nullp ctx orb]. rewrite andb_false_r.
  destruct (Z.eqb_spec (zlen pairs) 0) as [E|_]; [apply zlen_0 in E as ->; cbn [wp]; by intros _ []|].
  apply wp_bind, wp_trace_call. intros a _. apply wp_bind, wp_trace_call. intros b _.
  destruct (_ || _); [done|]. cbn [deref bind str_bytes]. rewrite Z.ltb_irrefl.
  rewrite take_ge by (unfold zlen; lia). eapply wp_mono; [|apply status_trace]. auto.
Qed.

Section server.
Context {S : Type} `{SRV : RedisServer S, LAWS : !RedisLaws S}.
Implicit Types (s : S).

#[local] Existing Instance server_env.

(** ** Effects on the keyspace *)

Definition nothing s s' : Prop := kv s' = kv s /\ ttl s' = ttl s.

(** Keys may expire, then [R] happens. *)
Definition after_tick (R : S -> S -> Prop) s s' : Prop := exists s1, srv_tick s s1 /\ R s1 s'.

Definition or_nothing (R : S -> S -> Prop) s s' : Prop := R s s' \/ nothing s s'.

(** What a return code says of the effect [R]. *)
Definition effect (R : S -> S -> Prop) s (rc : ngx_rc) s' : Prop :=
  match rc with
  | NGX_OK => after_tick R s s'
  | _ => after_tick (or_nothing R) s s'
  end.

Definition set_effect k v n s s' : Prop :=
  kv s' = <[k := VString v]> (kv s) /\ ttl s' = <[k := n]> (ttl s).

Definition del_effect k s s' : Prop :=
  kv s' = delete k (kv s) /\ ttl s' = delete k (ttl s).

Definition hset_effect k args s s' : Prop :=
  exists h, hash_at s k = Some h /\
    kv s' = <[k := VHash (hset_fields h args)]> (kv s) /\ ttl s' = ttl s.

Definition sadd_effect k m s s' : Prop :=
  exists x, set_at s k = Some x /\
    kv s' = <[k := VSet ({[ m ]} ∪ x)]> (kv s) /\ ttl s' = ttl s.

Definition srem_effect k m s s' : Prop :=
  exists x, set_at s k = Some x /\ kv s' = put_set (kv s) k (x ∖ {[ m ]}) /\
    forall k', k' <> k -> ttl s' !! k' = ttl s !! k'.

Lemma nothing_tick s s' : srv_tick s s' -> after_tick nothing s s'.
Proof. intros. by exists s'. Qed.

Lemma exec_server argv s Q :
  (forall reply s', (forall r, reply = Some r -> reply_ok r) ->
     server_step s (redisCommandArgv argv) reply s' -> Q reply s') ->
  wp (ngx_auth_webauthn_redis_exec open_redis argv) Q s.
Proof.
  intros HQ. unfold ngx_auth_webauthn_redis_exec. cbn [deref ctx bind].
  split; [done|]. intros reply s' [Hok Hs].
  destruct reply as [[]|]; try (by apply HQ).
  all: split; [done|]; intros [] s'' [_ ->]; by apply HQ.
Qed.

Lemma free_server s Q : Q tt s -> wp (call freeReplyObject) Q s.
Proof. intros HQ. split; [done|]. by intros [] s' [_ ->]. Qed.

(** A command that reports success only, with effect [R] unless refused. *)
Lemma status_server argv R s Q :
  (forall s1, let o := srv_exec argv s1 in
     rejected s1 o \/ ((forall e, fst o <> RError e) /\ R s1 (snd o))) ->
  (forall rc s', effect R s rc s' -> Q rc s') ->
  wp (reply <- ngx_auth_webauthn_redis_exec open_redis argv ;; reply_status reply) Q s.
Proof.
  intros Hlaw HQ. apply wp_bind, exec_server. intros reply s' _ Hs.
  assert (Q (match reply with None | Some (RError _) => NGX_ERROR | _ => NGX_OK end) s') as Hq.
  { apply HQ. destruct reply as [r|]; cbn in Hs.
    - destruct Hs as (s1 & Ht & Hx). specialize (Hlaw s1). rewrite Hx in Hlaw.
      destruct Hlaw as [[[e He] Hh]|[Hne HR]]; cbn [fst snd] in *.
      + subst r. exists s1. split; [done|]. by right.
      + destruct r; try (by exists s1). by destruct (Hne str).
    - destruct Hs as [Ht|(s1 & Ht & ->)].
      + exists s'. split; [done|]. by right.
      + exists s1. split; [done|]. destruct (Hlaw s1) as [[_ Hh]|[_ HR]]; [by right|by left]. }
  destruct reply as [[]|]; cbn [reply_status]; try done.
  all: by apply wp_bind, free_server.
Qed.

Lemma replied_ok o r m t (R : Prop) :
  replied o r m t -> (forall e, r <> RError e) -> (kv (snd o) = m -> ttl (snd o) = t -> R) ->
  (forall e, fst o <> RError e) /\ R.
Proof. intros [<- [<- <-]] Hr HR. by split; [|apply HR]. Qed.

Lemma set_ex_server k v n s Q :
  0 < n < 2 ^ 64 -> (forall rc s', effect (set_effect k v n) s rc s' -> Q rc s') ->
  wp (ngx_auth_webauthn_redis_set_ex open_redis (Some (Some k)) (Some (Some v)) n) Q s.
Proof.
  intros Hn HQ. unfold ngx_auth_webauthn_redis_set_ex. cbn [no_ctx nullp ctx orb].
  rewrite redis_numbuf_dec by lia. cbn [deref bind].
  apply (status_server _ (set_effect k v n)); [|done]. intros s1.
  destruct (set_ex_law s1 k v n ltac:(lia)) as [Hr|Hr]; [by left|right].
  eapply replied_ok; [exact Hr|done|by split].
Qed.

Lemma del_server k s Q :
  (forall rc s', effect (del_effect k) s rc s' -> Q rc s') ->
  wp (ngx_auth_webauthn_redis_del open_redis (Some (Some k))) Q s.
Proof.
  intros HQ. unfold ngx_auth_webauthn_redis_del. cbn [no_ctx nullp ctx orb deref bind].
  apply (status_server _ (del_effect k)); [|done]. intros s1.
  destruct (del_law s1 k) as [Hr|[n Hr]]; [by left|right].
  eapply replied_ok; [exact Hr|done|by split].
Qed.

Lemma sadd_server k m s Q :
  (forall rc s', effect (sadd_effect k m) s rc s' -> Q rc s') ->
  wp (ngx_auth_webauthn_redis_sadd open_redis (Some (Some k)) (Some (Some m))) Q s.
Proof.
  intros HQ. unfold ngx_auth_webauthn_redis_sadd, ngx_auth_webauthn_redis_set_op.
  cbn [no_ctx nullp ctx orb deref bind].
  apply (status_server _ (sadd_effect k m)); [|done]. intros s1.
  destruct (sadd_law s1 k m) as [Hr|(x & n & Hx & Hr)]; [by left|right].
  eapply replied_ok; [exact Hr|done|]. intros. by exists x.
Qed.

Lemma srem_server k m s Q :
  (forall rc s', effect (srem_effect k m) s rc s' -> Q rc s') ->
  wp (ngx_auth_webauthn_redis_srem open_redis (Some (Some k)) (Some (Some m))) Q s.
Proof.
  intros HQ. unfold ngx_auth_webauthn_redis_srem, ngx_auth_webauthn_redis_set_op.
  cbn [no_ctx nullp ctx orb deref bind].
  apply (status_server _ (srem_effect k m)); [|done]. intros s1.
  destruct (srem_law s1 k m) as [Hr|(x & n & Hx & E & Hk & Ht)]; [by left|right].
  cbn zeta. split; [intros e He; cbn in E, He; congruence|]. by exists x.
Qed.

Lemma alloc_server size s Q :
  (forall ok, Q ok s) -> wp (call (ngx_pnalloc size)) Q s.
Proof. intros HQ. split; [done|]. intros ok s' [_ ->]. apply HQ. Qed.

Lemma hset_server k ps s Q :
  ps <> [] -> Q NGX_ERROR s ->
  (forall rc s', effect (hset_effect k (hset_args ps)) s rc s' -> Q rc s') ->
  wp (ngx_auth_webauthn_redis_hset open_redis (Some (Some k)) (Some ps) (zlen ps)) Q s.
Proof.
  intros Hps HE HQ. unfold ngx_auth_webauthn_redis_hset.
  cbn [no_ctx nullp ctx orb]. rewrite andb_false_r.
  destruct (Z.eqb_spec (zlen ps) 0) as [E|_]; [by apply zlen_0 in E|].
  apply wp_bind, alloc_server. intros a. apply wp_bind, alloc_server. intros b.
  destruct (negb a || negb b); [done|]. cbn [deref bind]. rewrite Z.ltb_irrefl.
  unfold zlen at 1. rewrite Nat2Z.id, firstn_all.
  apply (status_server _ (hset_effect k (hset_args ps))); [|done]. intros s1.
  destruct (hset_law s1 k (hset_args ps)) as [Hr|(h & n & Hh & Hr)]; [by left|right].
  eapply replied_ok; [exact Hr|done|]. intros. by exists h.
Qed.

(** GETDEL: found, and then gone. *)
Definition getdel_post k s (out : ngx_rc * Z) s' : Prop :=
  match out with
  | (NGX_OK, 1) => after_tick (fun s s' =>
      (exists v, kv s !! k = Some (VString v)) /\ del_effect k s s') s s'
  | (NGX_OK, 0) => after_tick (fun s s' => kv s !! k = None /\ nothing s s') s s'
  | (NGX_ERROR, 0) => after_tick (or_nothing (del_effect k)) s s'
  | _ => False
  end.

Lemma getdel_server k s found Q :
  (forall out s', getdel_post k s out s' -> Q out s') ->
  wp (ngx_auth_webauthn_redis_getdel open_redis (Some (Some k)) (Some found)) Q s.
Proof.
  intros HQ. unfold ngx_auth_webauthn_redis_getdel. cbn [no_ctx nullp ctx orb deref bind].
  apply wp_bind, exec_server. intros reply s' _ Hs.
  destruct reply as [r|]; cbn in Hs.
  - destruct Hs as (s1 & Ht & Hx). pose proof (getdel_law s1 k) as Hl. rewrite Hx in Hl.
    assert (is_error r -> (exists e, r = RError e)) as _ by done.
    destruct Hl as [[[e He] Hh]|Hl]; cbn [fst snd] in *.
    + subst r. apply wp_bind, free_server, HQ. exists s1. split; [done|]. by right.
    + destruct (kv s1 !! k) as [[v| |]|] eqn:Ek; [|done|done|]; destruct Hl as [E [Hk Htt]];
        cbn [fst snd] in E, Hk, Htt; subst r; apply wp_bind, free_server, HQ; exists s1.
      * split; [done|]. split; [by exists v|]. done.
      * split; [done|]. split; [done|]. by split.
  - apply HQ. destruct Hs as [Ht|(s1 & Ht & ->)].
    + exists s'. split; [done|]. by right.
    + exists s1. split; [done|]. destruct (getdel_law s1 k) as [[_ Hh]|Hl]; [by right|].
      destruct (kv s1 !! k) as [[v| |]|] eqn:Ek; [|done|done|]; destruct Hl as [_ [Hk Htt]].
      * by left.
      * by right.
Qed.

(** HGETALL hands out the fields of the hash, in some order. *)
Lemma dup_server src s Q :
  fits src -> Q (NGX_ERROR, NULL) s -> Q (NGX_OK, Some src) s ->
  wp (ngx_auth_webauthn_redis_dup src) Q s.
Proof.
  unfold fits. intros Hs HE HO. unfold ngx_auth_webauthn_redis_dup.
  destruct (Z.eqb_spec (zlen src) 0) as [E|_]; [apply zlen_0 in E as ->; done|].
  pose proof (zlen_nonneg src).
  apply wp_bind. unfold pool_fill. apply wp_bind, alloc_server. intros []; [|done].
  rewrite size_t_small by lia. by rewrite Z.leb_refl.
Qed.

Lemma hgetall_loop_server l acc s Q :
  Forall reply_ok (flat_pairs l) -> (forall out, Q (NGX_ERROR, out) s) ->
  Q (NGX_OK, acc ++ hpairs l) s -> wp (hgetall_loop (flat_pairs l) acc) Q s.
Proof.
  revert acc. induction l as [|[f v] l IH]; intros acc Hok HE HO.
  { unfold hpairs in HO. by rewrite app_nil_r in HO. }
  cbn in Hok. apply Forall_cons_1 in Hok as [Hf Hok]. apply Forall_cons_1 in Hok as [Hv Hok].
  cbn [flat_pairs flat_map app hgetall_loop].
  apply wp_bind, dup_server; [by apply bulk_fits|apply HE|]. cbn [is_ok negb].
  apply wp_bind, dup_server; [by apply bulk_fits|apply HE|]. cbn [is_ok negb].
  apply IH; [done|done|]. by rewrite <- app_assoc.
Qed.

Definition hgetall_post k s (out : ngx_rc * list ngx_auth_webauthn_redis_pair_t) s' : Prop :=
  match out with
  | (NGX_OK, pairs) => after_tick (fun s s' => nothing s s' /\
      exists h l, hash_at s k = Some h /\ l ≡ₚ map_to_list h /\ pairs = hpairs l) s s'
  | _ => after_tick nothing s s'
  end.

Lemma rejected_nothing s o : rejected s o -> nothing s (snd o).
Proof. by intros [_ Hh]. Qed.

Lemma hgetall_server k s Q :
  (forall out s', hgetall_post k s out s' -> Q out s') ->
  wp (ngx_auth_webauthn_redis_hgetall open_redis (Some tt) (Some (Some k)) (Some tt) (Some tt)) Q s.
Proof.
  intros HQ. unfold ngx_auth_webauthn_redis_hgetall.
  cbn [no_ctx nullp ctx orb deref bind str_bytes].
  apply wp_bind, exec_server. intros reply s' Hok Hs.
  assert (after_tick nothing s s') as Hn.
  { destruct reply as [r|]; cbn in Hs.
    - destruct Hs as (s1 & Ht & Hx). exists s1. split; [done|].
      pose proof (hgetall_law s1 k) as Hl. rewrite Hx in Hl.
      by destruct Hl as [Hr%rejected_nothing|(h & l & _ & _ & _ & Hh)].
    - destruct Hs as [Ht|(s1 & Ht & ->)]; [by apply nothing_tick|]. exists s1. split; [done|].
      by destruct (hgetall_law s1 k) as [Hr%rejected_nothing|(h & l & _ & _ & _ & Hh)]. }
  assert (forall x, Q (NGX_ERROR, x) s') as HE by (intros; by apply HQ).
  destruct reply as [r|]; [|apply HE].
  destruct Hs as (s1 & Ht & Hx). pose proof (hgetall_law s1 k) as Hl. rewrite Hx in Hl.
  destruct Hl as [[[e He] _]|(h & l & Hh & Hl & Hr & Hk)]; cbn [fst snd] in *; subst r.
  { apply wp_bind, free_server, HE. }
  assert (hgetall_post k s (NGX_OK, hpairs l) s') as Hp
    by (exists s1; split; [done|]; split; [done|]; by exists h, l).
  specialize (Hok _ eq_refl). apply reply_ok_array in Hok.
  destruct (Z.eqb_spec (zlen (flat_pairs l)) 0) as [E|_].
  { apply wp_bind, free_server, HQ. destruct l as [|[] l]; [done|by apply zlen_0 in E]. }
  apply wp_bind, alloc_server. intros []; cbn [negb]; [|apply wp_bind, free_server, HE].
  apply wp_bind, hgetall_loop_server; [done|intros; apply wp_bind, free_server, HE|].
  by apply wp_bind, free_server, HQ.
Qed.
End server.
