(* ===== verification/Challenge.v ===== *)
(** * Challenge store: src/ngx_auth_webauthn_challenge.c

    Issue and one-shot consumption of the 32-byte nonces.  The contract with
    the handlers: an issued challenge is under its key with an expiry, and a
    consumed one was under its key and is gone. *)

From S2P Require Import Prelude Effects Redis RedisCalls RedisSpec RedisOps.
#[global] Open Scope Z_scope.

Definition NGX_AUTH_WEBAUTHN_CHALLENGE_LEN : Z := 32.

(** [{prefix}chal:{raw}], as ngx_str_t contents. *)
Definition challenge_key_of (prefix raw : bytes) : bytes := prefix ++ bs "chal:" ++ raw.

(** Return code and [*out]. *)
Definition ngx_auth_webauthn_challenge_key (prefix : ngx_str_t) (raw : bytes)
    : prog (ngx_rc * ngx_str_t) :=
  p <- pool_fill (str_len prefix + 5 + zlen raw)
         (str_bytes prefix ++ bs "chal:" ++ raw) ;;
  match p with
  | None => Ret (NGX_ERROR, NULL)
  | Some key => Ret (NGX_OK, Some key)
  end.

(** [out] is the address of the caller's buffer with its old contents; the
    new contents are returned. *)
Definition ngx_auth_webauthn_challenge_issue (redis : ptr ngx_auth_webauthn_redis_t)
    (pool : ptr unit) (key_prefix : ptr ngx_str_t) (ttl : Z) (out : ptr bytes)
    : prog (ngx_rc * ptr bytes) :=
  if nullp redis || nullp pool || nullp key_prefix || nullp out
     || (ttl <=? 0) || (UINT32_MAX <? ttl)
  then Ret (NGX_ERROR, out)
  else
    rnd <- call (RAND_bytes (Z.to_nat NGX_AUTH_WEBAUTHN_CHALLENGE_LEN)) ;;
    match rnd with
    | None => Ret (NGX_ERROR, out)
    | Some challenge =>
        prefix <- deref key_prefix ;;
        '(rc, key) <- ngx_auth_webauthn_challenge_key prefix challenge ;;
        if negb (is_ok rc) then Ret (NGX_ERROR, out) else
        rc <- ngx_auth_webauthn_redis_set_ex redis (Some key) (Some (Some (bs "1")))
                (uint64 ttl) ;;
        if negb (is_ok rc) then Ret (NGX_ERROR, out) else
        Ret (NGX_OK, Some challenge)
    end.

Definition ngx_auth_webauthn_challenge_consume (redis : ptr ngx_auth_webauthn_redis_t)
    (pool : ptr unit) (key_prefix : ptr ngx_str_t) (challenge : ptr bytes) (len : Z)
    : prog ngx_rc :=
  if nullp redis || nullp pool || nullp key_prefix || nullp challenge then Ret NGX_ERROR
  else if negb (len =? NGX_AUTH_WEBAUTHN_CHALLENGE_LEN) then Ret NGX_DECLINED
  else
    prefix <- deref key_prefix ;;
    buf <- deref challenge ;;
    if zlen buf <? len then UB else
    '(rc, key) <- ngx_auth_webauthn_challenge_key prefix (take (Z.to_nat len) buf) ;;
    if negb (is_ok rc) then Ret NGX_ERROR else
    '(rc, found) <- ngx_auth_webauthn_redis_getdel redis (Some key) (Some 0) ;;
    if negb (is_ok rc) then Ret NGX_ERROR else
    Ret (if found =? 0 then NGX_DECLINED else NGX_OK).

(** ** Resources *)

Lemma challenge_key_room prefix raw :
  fits (str_bytes prefix) -> fits raw ->
  zlen (str_bytes prefix ++ bs "chal:" ++ raw) <= size_t (str_len prefix + 5 + zlen raw).
Proof.
  unfold fits. intros Hp Hr. rewrite !zlen_app. change (zlen (bs "chal:")) with 5.
  change (str_len prefix) with (zlen (str_bytes prefix)).
  pose proof (zlen_nonneg raw). pose proof (zlen_nonneg (str_bytes prefix)).
  rewrite size_t_small; lia.
Qed.

Lemma challenge_key_held prefix raw (w : held) Q :
  fits (str_bytes prefix) -> fits raw -> (forall r, Q r w) ->
  wp (ngx_auth_webauthn_challenge_key prefix raw) Q w.
Proof.
  intros Hp Hr HQ. apply wp_bind, pool_fill_held; [by apply challenge_key_room|apply HQ..].
Qed.

Definition prefix_fits (p : ptr ngx_str_t) : Prop := forall s, p = Some s -> fits (str_bytes s).

Lemma issue_balanced redis pool prefix ttl out :
  prefix_fits prefix ->
  balanced (needs redis) (ngx_auth_webauthn_challenge_issue redis pool prefix ttl out).
Proof.
  intros Hp w Hw. unfold ngx_auth_webauthn_challenge_issue.
  destruct (_ || _) eqn:Hg; [done|].
  apply wp_bind, wp_held_call; [done|]. intros [c|] Hlen; [|done]. cbn [held_next].
  destruct prefix as [pre|]; [|by destruct redis, pool]. cbn [deref bind].
  specialize (Hlen c eq_refl). cbn in Hlen.
  apply wp_bind, challenge_key_held; [by apply Hp|unfold fits, zlen; rewrite Hlen; done|].
  intros [[] key]; cbn [is_ok negb]; [|done|done].
  apply wp_bind. eapply wp_balanced; [apply set_ex_balanced|done|]. by intros [].
Qed.

(** A success hands out 32 bytes. *)
Lemma issue_length redis pool prefix ttl out (w : held) :
  prefix_fits prefix -> needs redis ⊆ w ->
  wp (ngx_auth_webauthn_challenge_issue redis pool prefix ttl out)
     (fun r _ => fst r = NGX_OK -> exists c, snd r = Some c /\ zlen c = 32) w.
Proof.
  intros Hp Hw. unfold ngx_auth_webauthn_challenge_issue.
  destruct (_ || _) eqn:Hg; [done|].
  apply wp_bind, wp_held_call; [done|]. intros [c|] Hlen; [|done]. cbn [held_next].
  destruct prefix as [pre|]; [|by destruct redis, pool]. cbn [deref bind].
  specialize (Hlen c eq_refl). cbn in Hlen.
  assert (zlen c = 32) as Hc by (unfold zlen; by rewrite Hlen).
  apply wp_bind, challenge_key_held; [by apply Hp|unfold fits; lia|].
  intros [[] key]; cbn [is_ok negb]; [|done|done].
  apply wp_bind. eapply wp_balanced; [apply set_ex_balanced|done|].
  intros []; cbn [is_ok negb wp]; [|done|done]. intros _. by exists c.
Qed.

Lemma consume_balanced redis pool prefix challenge len :
  prefix_fits prefix ->
  (forall c, challenge = Some c -> zlen c = len) ->
  balanced (needs redis) (ngx_auth_webauthn_challenge_consume redis pool prefix challenge len).
Proof.
  intros Hp Hc w Hw. unfold ngx_auth_webauthn_challenge_consume.
  destruct redis as [r|], pool, prefix as [pre|], challenge as [c|]; cbn [nullp orb]; try done.
  specialize (Hc _ eq_refl). destruct (Z.eqb_spec len NGX_AUTH_WEBAUTHN_CHALLENGE_LEN) as [E|];
    cbn [negb]; [|done]. cbn [deref bind]. rewrite Hc, Z.ltb_irrefl.
  apply wp_bind, challenge_key_held; [by apply Hp| |].
  { unfold fits, zlen in *. rewrite length_take. unfold NGX_AUTH_WEBAUTHN_CHALLENGE_LEN in E. lia. }
  intros [[] key]; cbn [is_ok negb]; [|done|done].
  apply wp_bind. eapply wp_balanced; [apply getdel_balanced|done|]. by intros [[] found].
Qed.

(** ** Commands *)

Lemma challenge_key_calls P `{!Background P} {B} pre raw (f : ngx_rc * ngx_str_t -> prog B) :
  all_calls P (f (NGX_ERROR, NULL)) ->
  all_calls P (f (NGX_OK, Some (challenge_key_of (str_bytes pre) raw))) ->
  all_calls P (bind (ngx_auth_webauthn_challenge_key pre raw) f).
Proof.
  intros H0 H1. simpl. split; [by apply background|]. intros []; [|done].
  by destruct (_ <=? _).
Qed.

Lemma issue_calls P `{!Background P} redis pool pre ttl out :
  (forall raw, 0 < ttl <= UINT32_MAX ->
     cmd P [bs "SET"; challenge_key_of (str_bytes pre) raw; bs "1"; bs "EX"; dec ttl]) ->
  all_calls P (ngx_auth_webauthn_challenge_issue redis pool (Some pre) ttl out).
Proof.
  intros Hc. unfold ngx_auth_webauthn_challenge_issue.
  destruct (Z.leb_spec ttl 0), (Z.ltb_spec UINT32_MAX ttl); rewrite ?orb_true_r; try done.
  destruct (_ || _); [done|].
  apply all_calls_bind; [by apply all_calls_internal|]. intros [c|]; [|done]. cbn [deref bind].
  apply challenge_key_calls; [done|done|]. cbn [is_ok negb].
  apply all_calls_bind; [|intros []; done]. apply set_ex_calls; [done|].
  intros k v n [= <-] [= <-] Hn. assert (uint64 ttl = ttl) as E
    by (apply Z.mod_small; unfold UINT32_MAX in *; lia).
  rewrite E, redis_numbuf_dec in Hn by (unfold UINT32_MAX in *; lia).
  injection Hn as <-. by apply Hc.
Qed.

Lemma consume_calls P `{!Background P} redis pool pre challenge len :
  (forall raw, cmd P [bs "GETDEL"; challenge_key_of (str_bytes pre) raw]) ->
  all_calls P (ngx_auth_webauthn_challenge_consume redis pool (Some pre) challenge len).
Proof.
  intros Hc. unfold ngx_auth_webauthn_challenge_consume. destruct (_ || _); [done|].
  destruct (negb _); [done|]. cbn [deref bind]. destruct challenge as [c|]; [|done].
  cbn [deref bind]. destruct (_ <? _); [done|].
  apply challenge_key_calls; [done|done|]. cbn [is_ok negb].
  apply all_calls_bind; [|intros [[] ?]; done]. apply getdel_calls; [done|].
  intros k [= <-]. apply Hc.
Qed.

(** ** What the trace of a success shows *)

Lemma challenge_key_trace prefix raw (h : trace) Q :
  fits (str_bytes prefix) -> fits raw ->
  (forall h', cmds h' = cmds h -> Q (NGX_ERROR, NULL) h') ->
  (forall h', cmds h' = cmds h -> Q (NGX_OK, Some (challenge_key_of (str_bytes prefix) raw)) h') ->
  wp (ngx_auth_webauthn_challenge_key prefix raw) Q h.
Proof.
  intros Hp Hr H0 H1. apply wp_bind, wp_bind, wp_trace_call.
  pose proof (challenge_key_room prefix raw Hp Hr) as Hroom.
  intros [] _; [|apply H0; rewrite cmds_app; apply app_nil_r]. cbn [bind].
  destruct (Z.leb_spec (zlen (str_bytes prefix ++ bs "chal:" ++ raw))
              (size_t (str_len prefix + 5 + zlen raw))); [|lia].
  apply H1. rewrite cmds_app. apply app_nil_r.
Qed.

Lemma consume_trace prefix c (h : trace) :
  fits (str_bytes prefix) ->
  wp (ngx_auth_webauthn_challenge_consume open_redis (Some tt) (Some prefix) (Some c) (zlen c))
     (fun rc h' => rc = NGX_OK -> zlen c = 32 /\ exists v,
        answered [bs "GETDEL"; challenge_key_of (str_bytes prefix) c] (RString v) h') h.
Proof.
  intros Hp. unfold ngx_auth_webauthn_challenge_consume. cbn [nullp orb].
  destruct (Z.eqb_spec (zlen c) NGX_AUTH_WEBAUTHN_CHALLENGE_LEN) as [E|]; cbn [negb]; [|done].
  cbn [deref bind]. rewrite Z.ltb_irrefl.
  assert (take (Z.to_nat (zlen c)) c = c) as -> by (apply take_ge; unfold zlen; lia).
  unfold NGX_AUTH_WEBAUTHN_CHALLENGE_LEN in E.
  apply wp_bind, challenge_key_trace; [done|unfold fits; lia|done|]. intros h1 _. cbn [is_ok negb].
  eapply wp_seq; [apply getdel_trace|]. intros [rc found] h2 Hg. cbn [fst snd] in Hg.
  destruct rc; cbn [is_ok negb wp]; try done. destruct (Z.eqb_spec found 0); [done|].
  intros _. split; [done|]. by apply Hg.
Qed.

Lemma issue_trace prefix ttl old (h : trace) :
  fits (str_bytes prefix) ->
  wp (ngx_auth_webauthn_challenge_issue open_redis (Some tt) (Some prefix) ttl (Some old))
     (fun out h' => fst out = NGX_OK -> exists c, snd out = Some c /\ zlen c = 32 /\
        0 < ttl <= UINT32_MAX /\
        acked [bs "SET"; challenge_key_of (str_bytes prefix) c; bs "1"; bs "EX"; dec ttl] h') h.
Proof.
  intros Hp. unfold ngx_auth_webauthn_challenge_issue. cbn [nullp orb].
  destruct (Z.leb_spec ttl 0); [done|]. destruct (Z.ltb_spec UINT32_MAX ttl); [done|]. cbn [orb].
  apply wp_bind, wp_trace_call. intros [c|] Hlen; [|done]. cbn [deref bind].
  specialize (Hlen c eq_refl). cbn in Hlen.
  assert (zlen c = 32) as Hc by (unfold zlen; by rewrite Hlen).
  apply wp_bind, challenge_key_trace; [done|unfold fits; lia|done|]. intros h1 _. cbn [is_ok negb].
  unfold ngx_auth_webauthn_redis_set_ex. cbn [no_ctx nullp ctx orb].
  assert (uint64 ttl = ttl) as -> by (apply Z.mod_small; unfold UINT32_MAX in *; lia).
  rewrite redis_numbuf_dec by (unfold UINT32_MAX in *; lia). cbn [deref bind str_bytes].
  eapply wp_seq; [apply status_trace|]. intros [] h2 Hack; cbn [is_ok negb wp]; [|done|done].
  intros _. exists c. split_and!; [done|done|lia|lia|by apply Hack].
Qed.

(** ** Effect on the server *)

Section server.
Context {S : Type} `{SRV : RedisServer S, LAWS : !RedisLaws S}.
#[local] Existing Instance server_env.

Lemma pool_fill_server size content (s : S) Q :
  zlen content <= size_t size -> Q NULL s -> Q (Some content) s ->
  wp (pool_fill size content) Q s.
Proof.
  intros Hs H0 H1. apply wp_bind, alloc_server. intros []; [|done].
  by destruct (Z.leb_spec (zlen content) (size_t size)); [|lia].
Qed.

Lemma challenge_key_server prefix raw (s : S) Q :
  fits (str_bytes prefix) -> fits raw ->
  Q (NGX_ERROR, NULL) s ->
  Q (NGX_OK, Some (challenge_key_of (str_bytes prefix) raw)) s ->
  wp (ngx_auth_webauthn_challenge_key prefix raw) Q s.
Proof.
  intros Hp Hr H0 H1. by apply wp_bind, pool_fill_server; [apply challenge_key_room|..].
Qed.

(** Issued: 32 bytes handed out, stored under their key with the expiry. *)
Definition issue_post (prefix : bytes) (ttl : Z) (old : bytes) (s : S)
    (out : ngx_rc * ptr bytes) (s' : S) : Prop :=
  match out with
  | (NGX_OK, Some c) => zlen c = 32 /\
      after_tick (set_effect (challenge_key_of prefix c) (bs "1") ttl) s s'
  | (NGX_ERROR, buf) => buf = Some old /\
      (s' = s \/ exists c, after_tick (or_nothing
        (set_effect (challenge_key_of prefix c) (bs "1") ttl)) s s')
  | _ => False
  end.

Lemma issue_server prefix ttl old (s : S) :
  fits (str_bytes prefix) -> 0 < ttl <= UINT32_MAX ->
  wp (ngx_auth_webauthn_challenge_issue open_redis (Some tt) (Some prefix) ttl (Some old))
     (issue_post (str_bytes prefix) ttl old s) s.
Proof.
  intros Hp Ht. unfold ngx_auth_webauthn_challenge_issue. cbn [nullp orb].
  destruct (Z.leb_spec ttl 0), (Z.ltb_spec UINT32_MAX ttl); try lia. cbn [orb].
  apply wp_bind. split; [done|]. intros rnd s' [Hok ->].
  destruct rnd as [c|]; [|by split; [|left]]. specialize (Hok c eq_refl). cbn in Hok.
  cbn [deref bind]. apply wp_bind, challenge_key_server; [done|unfold fits, zlen; rewrite Hok; done| |].
  { by split; [|left]. }
  cbn [is_ok negb]. assert (uint64 ttl = ttl) as -> by (apply Z.mod_small; unfold UINT32_MAX in *; lia).
  apply wp_bind, set_ex_server; [unfold UINT32_MAX in *; lia|].
  intros [] s' He; cbn in He |- *.
  - split; [unfold zlen; by rewrite Hok|done].
  - split; [done|]. right. by exists c.
  - split; [done|]. right. by exists c.
Qed.

(** NGX_OK: the marker was there and is deleted; NGX_DECLINED: it was not. *)
Definition consume_post (key : bytes) (s : S) (rc : ngx_rc) (s' : S) : Prop :=
  match rc with
  | NGX_OK => after_tick (fun s s' =>
      (exists v, kv s !! key = Some (VString v)) /\ del_effect key s s') s s'
  | NGX_DECLINED => after_tick (fun s s' => kv s !! key = None /\ nothing s s') s s'
  | NGX_ERROR => s' = s \/ after_tick (or_nothing (del_effect key)) s s'
  end.

Lemma consume_server prefix c (s : S) :
  fits (str_bytes prefix) -> zlen c = 32 ->
  wp (ngx_auth_webauthn_challenge_consume open_redis (Some tt) (Some prefix) (Some c) 32)
     (consume_post (challenge_key_of (str_bytes prefix) c) s) s.
Proof.
  intros Hp Hc. unfold ngx_auth_webauthn_challenge_consume. cbn [nullp orb].
  change (32 =? NGX_AUTH_WEBAUTHN_CHALLENGE_LEN) with true. cbn [negb deref bind].
  rewrite Hc. change (32 <? 32) with false. cbv iota.
  assert (take (Z.to_nat 32) c = c) as -> by (apply take_ge; unfold zlen in Hc; lia).
  apply wp_bind, challenge_key_server; [done|unfold fits; lia|by left|]. cbn [is_ok negb].
  apply wp_bind, getdel_server. intros [[] found] s' Hg.
  - destruct found as [|[]|]; done.
  - destruct found as [|[]|]; cbn in Hg |- *; try done. by right.
  - destruct found as [|[]|]; done.
Qed.

(** C11: against every lawful server, an issued challenge is 32 fresh bytes
    stored under [{prefix}chal:] with exactly the requested expiry; on an
    error the caller's buffer is untouched and at most the marker was written.
    A TTL outside 1..UINT32_MAX is refused before any call, so the conversion
    to ngx_uint_t never shortens it. *)
Theorem challenge_issue_correct (prefix : ngx_str_t) (ttl : Z) (old : bytes) (s : S) :
  fits (str_bytes prefix) ->
  (0 < ttl <= UINT32_MAX ->
   wp (ngx_auth_webauthn_challenge_issue open_redis (Some tt) (Some prefix) ttl (Some old))
      (issue_post (str_bytes prefix) ttl old s) s) /\
  (~ 0 < ttl <= UINT32_MAX -> forall redis pool prefix out,
   ngx_auth_webauthn_challenge_issue redis pool prefix ttl out = Ret (NGX_ERROR, out)).
Proof.
  intros Hp. split; [by apply issue_server|]. intros Ht redis pool pre out.
  unfold ngx_auth_webauthn_challenge_issue.
  destruct (Z.leb_spec ttl 0), (Z.ltb_spec UINT32_MAX ttl); try lia;
    by rewrite !orb_true_r.
Qed.

(** C10: consumption is one-shot: against every lawful server NGX_OK means the
    challenge was stored and its key is now deleted, NGX_DECLINED that no key
    was there and nothing changed, and a string of another length is declined
    without a command. *)
Theorem challenge_consume_correct (prefix : ngx_str_t) (c : bytes) (s : S) :
  fits (str_bytes prefix) ->
  (zlen c = 32 ->
   wp (ngx_auth_webauthn_challenge_consume open_redis (Some tt) (Some prefix) (Some c) (zlen c))
      (consume_post (challenge_key_of (str_bytes prefix) c) s) s) /\
  (zlen c <> 32 ->
   ngx_auth_webauthn_challenge_consume open_redis (Some tt) (Some prefix) (Some c) (zlen c)
   = Ret NGX_DECLINED).
Proof.
  intros Hp. split; [intros E; rewrite E; by apply consume_server|]. intros E.
  unfold ngx_auth_webauthn_challenge_consume. cbn [nullp orb].
  by destruct (Z.eqb_spec (zlen c) NGX_AUTH_WEBAUTHN_CHALLENGE_LEN).
Qed.
End server.

Import MiniRedis.
#[local] Existing Instance server_env.

Definition sample_prefix : ngx_str_t := Some (bs "webauthn:").
Definition sample_nonce : bytes := replicate 32 Byte.x2a.
Definition empty_db : db := Db ∅ ∅.
Definition issued_db : db :=
  Db {[ challenge_key_of (bs "webauthn:") sample_nonce := VString (bs "1") ]}
     {[ challenge_key_of (bs "webauthn:") sample_nonce := 60 ]}.

Lemma challenge_issue_correct_witness :
  mini_run (ngx_auth_webauthn_challenge_issue open_redis (Some tt) (Some sample_prefix) 60
              (Some [])) empty_db = Some ((NGX_OK, Some sample_nonce), issued_db) /\
  wp (ngx_auth_webauthn_challenge_issue open_redis (Some tt) (Some sample_prefix) 60 (Some []))
     (issue_post (bs "webauthn:") 60 [] empty_db) empty_db.
Proof.
  split; [vm_compute; reflexivity|].
  apply (proj1 (challenge_issue_correct sample_prefix 60 [] empty_db ltac:(reflexivity))).
  done.
Defined.

Lemma challenge_consume_correct_witness :
  mini_run (ngx_auth_webauthn_challenge_consume open_redis (Some tt) (Some sample_prefix)
              (Some sample_nonce) 32) issued_db = Some (NGX_OK, empty_db) /\
  wp (ngx_auth_webauthn_challenge_consume open_redis (Some tt) (Some sample_prefix)
        (Some sample_nonce) 32)
     (consume_post (challenge_key_of (bs "webauthn:") sample_nonce) issued_db) issued_db.
Proof.
  split; [vm_compute; reflexivity|].
  apply (proj1 (challenge_consume_correct sample_prefix sample_nonce issued_db
                  ltac:(reflexivity))). reflexivity.
Defined.
