(* ===== verification/Credential.v ===== *)
(** * Credential store: src/ngx_auth_webauthn_credential.c

    Records as Redis hashes under [{prefix}cred:{id}], with the user's index
    set under [{prefix}user:{uid}:creds].  The reference is [cred_of], the
    record a hash stands for, whatever the order HGETALL lists it in. *)

From S2P Require Import Prelude Effects Redis RedisCalls RedisSpec RedisOps Challenge.
#[global] Open Scope Z_scope.

Definition NGX_AUTH_WEBAUTHN_CRED_F_USER_ID : bytes := bs "user_id".
Definition NGX_AUTH_WEBAUTHN_CRED_F_PUBLIC_KEY : bytes := bs "public_key".
Definition NGX_AUTH_WEBAUTHN_CRED_F_ALG : bytes := bs "alg".
Definition NGX_AUTH_WEBAUTHN_CRED_F_SIGN_COUNT : bytes := bs "sign_count".
Definition NGX_AUTH_WEBAUTHN_CRED_F_CREATED_AT : bytes := bs "created_at".
Definition NGX_AUTH_WEBAUTHN_CRED_F_LAST_USED_AT : bytes := bs "last_used_at".
Definition NGX_AUTH_WEBAUTHN_CRED_F_AAGUID : bytes := bs "aaguid".
Definition NGX_AUTH_WEBAUTHN_CRED_F_TRANSPORTS : bytes := bs "transports".
Definition NGX_AUTH_WEBAUTHN_CRED_NUMBUF : Z := 24.

Record ngx_auth_webauthn_credential_t := {
  cr_credential_id : ngx_str_t;
  cr_user_id : ngx_str_t;
  cr_public_key : ngx_str_t;
  cr_alg : Z;
  cr_sign_count : Z;
  cr_created_at : Z;
  cr_last_used_at : Z;
  cr_aaguid : bytes;
  cr_has_aaguid : Z;
  cr_transports : ngx_str_t;
}.

Definition AAGUID_LEN : Z := 16.

(** [ngx_memzero(out, ...); out->credential_id = id] *)
Definition cred_zero (id : ngx_str_t) : ngx_auth_webauthn_credential_t := {|
  cr_credential_id := id; cr_user_id := NULL; cr_public_key := NULL; cr_alg := 0;
  cr_sign_count := 0; cr_created_at := 0; cr_last_used_at := 0;
  cr_aaguid := replicate 16 Byte.x00; cr_has_aaguid := 0; cr_transports := NULL |}.

(** ** Keys *)

Definition record_key_of (prefix cid : bytes) : bytes := prefix ++ bs "cred:" ++ cid.
Definition index_key_of (prefix uid : bytes) : bytes :=
  prefix ++ bs "user:" ++ uid ++ bs ":creds".

Definition ngx_auth_webauthn_credential_record_key (prefix cid : ngx_str_t)
    : prog (ngx_rc * ngx_str_t) :=
  p <- pool_fill (str_len prefix + 5 + str_len cid)
         (str_bytes prefix ++ bs "cred:" ++ str_bytes cid) ;;
  match p with
  | None => Ret (NGX_ERROR, NULL)
  | Some key => Ret (NGX_OK, Some key)
  end.

Definition ngx_auth_webauthn_credential_index_key (prefix uid : ngx_str_t)
    : prog (ngx_rc * ngx_str_t) :=
  p <- pool_fill (str_len prefix + 5 + str_len uid + 6)
         (str_bytes prefix ++ bs "user:" ++ str_bytes uid ++ bs ":creds") ;;
  match p with
  | None => Ret (NGX_ERROR, NULL)
  | Some key => Ret (NGX_OK, Some key)
  end.

(** ** Decimal fields *)

(** The digit loop; [None] is NGX_ERROR. *)
Fixpoint atoi64_loop (s : bytes) (limit acc : Z) : option Z :=
  match s with
  | [] => Some acc
  | c :: t =>
      let c := b2z c in
      if (c <? 48) || (57 <? c) then None
      else if (uint64 (limit - (c - 48))) / 10 <? acc then None
      else atoi64_loop t limit (uint64 (acc * 10 + (c - 48)))
  end.

(** [-x] on an [int64_t], as the compilers in use compute it: modulo 2^64.
    ISO C leaves the negation of INT64_MIN undefined. *)
Definition int64_neg (x : Z) : Z := int64 (- x).

Definition ngx_auth_webauthn_credential_atoi64 (s : ngx_str_t) : ngx_rc * Z :=
  match str_bytes s with
  | [] => (NGX_ERROR, 0)
  | c :: t =>
      let neg := b2z c =? 45 in
      if neg && nullp (head t) then (NGX_ERROR, 0)
      else
        let limit := if neg then INT64_MAX + 1 else INT64_MAX in
        match atoi64_loop (if neg then t else c :: t) limit 0 with
        | None => (NGX_ERROR, 0)
        | Some acc => (NGX_OK, if neg then int64_neg (int64 acc) else int64 acc)
        end
  end.

(** [buf], [n] from snprintf into a buffer of 24. *)
Definition ngx_auth_webauthn_credential_num_pair (name : bytes) (v : Z)
    : ngx_auth_webauthn_redis_pair_t :=
  let '(buf, n) := snprintf NGX_AUTH_WEBAUTHN_CRED_NUMBUF (dec v) in
  {| pair_name := Some name;
     pair_value := Some (if 0 <? n then take (Z.to_nat n) buf else []) |}.

(** ** Reading a record *)

(** [ngx_strncmp(a, b, n) == 0] for a NUL-terminated literal [b]. *)
Fixpoint strncmp_eq (n : nat) (a b : bytes) : bool :=
  match n with
  | O => true
  | S n =>
      match a, b with
      | x :: a, y :: b => bool_decide (x = y) && (bool_decide (x = Byte.x00) || strncmp_eq n a b)
      | x :: _, [] => bool_decide (x = Byte.x00)
      | [], _ => false
      end
  end.

Definition field_is (n : ngx_str_t) (name : bytes) : bool :=
  (str_len n =? zlen name) && strncmp_eq (Z.to_nat (str_len n)) (str_bytes n) name.

(** One turn of the field loop: the updated record, or an early NGX_DECLINED. *)
Definition get_field (p : ngx_auth_webauthn_redis_pair_t) (out : ngx_auth_webauthn_credential_t)
    : option ngx_auth_webauthn_credential_t :=
  let n := pair_name p in
  let val := pair_value p in
  let 'Build_ngx_auth_webauthn_credential_t id uid pk alg sc ca lu ag hag tr := out in
  if field_is n NGX_AUTH_WEBAUTHN_CRED_F_USER_ID then
    Some (Build_ngx_auth_webauthn_credential_t id val pk alg sc ca lu ag hag tr)
  else if field_is n NGX_AUTH_WEBAUTHN_CRED_F_PUBLIC_KEY then
    Some (Build_ngx_auth_webauthn_credential_t id uid val alg sc ca lu ag hag tr)
  else if field_is n NGX_AUTH_WEBAUTHN_CRED_F_ALG then
    let '(rc, v) := ngx_auth_webauthn_credential_atoi64 val in
    if negb (is_ok rc) || (v <? INT32_MIN) || (INT32_MAX <? v) then None
    else Some (Build_ngx_auth_webauthn_credential_t id uid pk (int32 v) sc ca lu ag hag tr)
  else if field_is n NGX_AUTH_WEBAUTHN_CRED_F_SIGN_COUNT then
    let '(rc, v) := ngx_auth_webauthn_credential_atoi64 val in
    if negb (is_ok rc) || (v <? 0) || (UINT32_MAX <? v) then None
    else Some (Build_ngx_auth_webauthn_credential_t id uid pk alg (uint32 v) ca lu ag hag tr)
  else if field_is n NGX_AUTH_WEBAUTHN_CRED_F_CREATED_AT then
    let '(rc, v) := ngx_auth_webauthn_credential_atoi64 val in
    Some (Build_ngx_auth_webauthn_credential_t id uid pk alg sc
                  (if is_ok rc then v else ca) lu ag hag tr)
  else if field_is n NGX_AUTH_WEBAUTHN_CRED_F_LAST_USED_AT then
    let '(rc, v) := ngx_auth_webauthn_credential_atoi64 val in
    Some (Build_ngx_auth_webauthn_credential_t id uid pk alg sc ca
                  (if is_ok rc then v else lu) ag hag tr)
  else if field_is n NGX_AUTH_WEBAUTHN_CRED_F_AAGUID then
    if str_len val =? AAGUID_LEN then
      Some (Build_ngx_auth_webauthn_credential_t id uid pk alg sc ca lu
                    (str_bytes val) 1 tr)
    else Some out
  else if field_is n NGX_AUTH_WEBAUTHN_CRED_F_TRANSPORTS then
    Some (Build_ngx_auth_webauthn_credential_t id uid pk alg sc ca lu ag hag val)
  else Some out.

(** The loop; [inl] is the early NGX_DECLINED with the record so far. *)
Fixpoint get_loop (pairs : list ngx_auth_webauthn_redis_pair_t)
    (out : ngx_auth_webauthn_credential_t)
    : ngx_auth_webauthn_credential_t + ngx_auth_webauthn_credential_t :=
  match pairs with
  | [] => inr out
  | p :: rest =>
      match get_field p out with
      | None => inl out
      | Some out => get_loop rest out
      end
  end.

(** Return code and new [*out]. *)
Definition ngx_auth_webauthn_credential_get (redis : ptr ngx_auth_webauthn_redis_t)
    (pool : ptr unit) (prefix credential_id : ptr ngx_str_t)
    (out : ptr ngx_auth_webauthn_credential_t)
    : prog (ngx_rc * ptr ngx_auth_webauthn_credential_t) :=
  if nullp redis || nullp pool || nullp prefix || nullp credential_id || nullp out
  then Ret (NGX_ERROR, out)
  else
    pre <- deref prefix ;;
    cid <- deref credential_id ;;
    let out := cred_zero cid in
    '(rc, key) <- ngx_auth_webauthn_credential_record_key pre cid ;;
    if negb (is_ok rc) then Ret (NGX_ERROR, Some out) else
    '(rc, pairs) <- ngx_auth_webauthn_redis_hgetall redis pool (Some key) (Some tt) (Some tt) ;;
    if negb (is_ok rc) then Ret (NGX_ERROR, Some out) else
    if zlen pairs =? 0 then Ret (NGX_DECLINED, Some out) else
    match get_loop pairs out with
    | inl out => Ret (NGX_DECLINED, Some out)
    | inr out =>
        if (str_len (cr_public_key out) =? 0) || (cr_alg out =? 0)
        then Ret (NGX_DECLINED, Some out)
        else Ret (NGX_OK, Some out)
    end.

(** ** Writing a record *)

(** The HSET pairs, in order; the last two when present. *)
Definition put_pairs (cred : ngx_auth_webauthn_credential_t)
    : list ngx_auth_webauthn_redis_pair_t :=
  [ {| pair_name := Some NGX_AUTH_WEBAUTHN_CRED_F_USER_ID; pair_value := cr_user_id cred |};
    {| pair_name := Some NGX_AUTH_WEBAUTHN_CRED_F_PUBLIC_KEY;
       pair_value := cr_public_key cred |};
    ngx_auth_webauthn_credential_num_pair NGX_AUTH_WEBAUTHN_CRED_F_ALG (cr_alg cred);
    ngx_auth_webauthn_credential_num_pair NGX_AUTH_WEBAUTHN_CRED_F_SIGN_COUNT
      (cr_sign_count cred);
    ngx_auth_webauthn_credential_num_pair NGX_AUTH_WEBAUTHN_CRED_F_CREATED_AT
      (cr_created_at cred);
    ngx_auth_webauthn_credential_num_pair NGX_AUTH_WEBAUTHN_CRED_F_LAST_USED_AT
      (cr_last_used_at cred) ] ++
  (if 0 <? str_len (cr_transports cred) then
     [ {| pair_name := Some NGX_AUTH_WEBAUTHN_CRED_F_TRANSPORTS;
          pair_value := cr_transports cred |} ]
   else []) ++
  (if negb (cr_has_aaguid cred =? 0) then
     [ {| pair_name := Some NGX_AUTH_WEBAUTHN_CRED_F_AAGUID;
          pair_value := Some (cr_aaguid cred) |} ]
   else []).

Definition ngx_auth_webauthn_credential_put (redis : ptr ngx_auth_webauthn_redis_t)
    (pool : ptr unit) (prefix : ptr ngx_str_t) (cred : ptr ngx_auth_webauthn_credential_t)
    : prog ngx_rc :=
  match cred with
  | None => Ret NGX_ERROR
  | Some cred =>
    if nullp redis || nullp pool || nullp prefix
       || (str_len (cr_credential_id cred) =? 0) || (str_len (cr_user_id cred) =? 0)
    then Ret NGX_ERROR
    else
      pre <- deref prefix ;;
      '(rc, key) <- ngx_auth_webauthn_credential_record_key pre (cr_credential_id cred) ;;
      if negb (is_ok rc) then Ret NGX_ERROR else
      let pairs := put_pairs cred in
      rc <- ngx_auth_webauthn_redis_hset redis (Some key) (Some pairs) (zlen pairs) ;;
      if negb (is_ok rc) then Ret NGX_ERROR else
      '(rc, index_key) <- ngx_auth_webauthn_credential_index_key pre (cr_user_id cred) ;;
      if negb (is_ok rc) then Ret NGX_ERROR else
      rc <- ngx_auth_webauthn_redis_sadd redis (Some index_key)
              (Some (cr_credential_id cred)) ;;
      if negb (is_ok rc) then Ret NGX_ERROR else
      Ret NGX_OK
  end.

Definition counter_pairs (new_count last_used_at : Z) : list ngx_auth_webauthn_redis_pair_t :=
  [ ngx_auth_webauthn_credential_num_pair NGX_AUTH_WEBAUTHN_CRED_F_SIGN_COUNT new_count;
    ngx_auth_webauthn_credential_num_pair NGX_AUTH_WEBAUTHN_CRED_F_LAST_USED_AT last_used_at ].

Definition ngx_auth_webauthn_credential_update_counter (redis : ptr ngx_auth_webauthn_redis_t)
    (pool : ptr unit) (prefix credential_id : ptr ngx_str_t) (new_count last_used_at : Z)
    : prog ngx_rc :=
  if nullp redis || nullp pool || nullp prefix || nullp credential_id then Ret NGX_ERROR
  else
    pre <- deref prefix ;;
    cid <- deref credential_id ;;
    '(rc, key) <- ngx_auth_webauthn_credential_record_key pre cid ;;
    if negb (is_ok rc) then Ret NGX_ERROR else
    ngx_auth_webauthn_redis_hset redis (Some key)
      (Some (counter_pairs new_count last_used_at)) 2.

Definition ngx_auth_webauthn_credential_delete (redis : ptr ngx_auth_webauthn_redis_t)
    (pool : ptr unit) (prefix credential_id : ptr ngx_str_t) : prog ngx_rc :=
  if nullp redis || nullp pool || nullp prefix || nullp credential_id then Ret NGX_ERROR
  else
    '(rc, cred) <- ngx_auth_webauthn_credential_get redis pool prefix credential_id
                     (Some (cred_zero NULL)) ;;
    if negb (is_ok rc) then Ret rc else
    pre <- deref prefix ;;
    cid <- deref credential_id ;;
    '(rc, key) <- ngx_auth_webauthn_credential_record_key pre cid ;;
    if negb (is_ok rc) then Ret NGX_ERROR else
    rc <- ngx_auth_webauthn_redis_del redis (Some key) ;;
    if negb (is_ok rc) then Ret NGX_ERROR else
    cred <- deref cred ;;
    if 0 <? str_len (cr_user_id cred) then
      '(rc, index_key) <- ngx_auth_webauthn_credential_index_key pre (cr_user_id cred) ;;
      if negb (is_ok rc) then Ret NGX_ERROR else
      rc <- ngx_auth_webauthn_redis_srem redis (Some index_key) (Some cid) ;;
      if negb (is_ok rc) then Ret NGX_ERROR else
      Ret NGX_OK
    else Ret NGX_OK.

(** ** The decimal reader *)

Definition digits (s : bytes) : Prop := Forall (fun c => is_digit c = true) s.
Definition val_from (acc : Z) (s : bytes) : Z :=
  foldl (fun acc c => acc * 10 + (b2z c - 48)) acc s.

Lemma is_digit_range c : is_digit c = true <-> 48 <= b2z c <= 57.
Proof. unfold is_digit. rewrite andb_true_iff, !Z.leb_le. lia. Qed.

Lemma val_from_ge s acc : 0 <= acc -> digits s -> acc <= val_from acc s.
Proof.
  revert acc. induction s as [|c s IH]; intros acc Ha Hd; [cbn; lia|].
  apply Forall_cons_1 in Hd as [Hc%is_digit_range Hd]. cbn.
  specialize (IH (acc * 10 + (b2z c - 48)) ltac:(lia) Hd). unfold val_from in IH. lia.
Qed.

Lemma atoi64_loop_spec s limit acc v :
  9 <= limit < 2 ^ 64 -> 0 <= acc <= limit ->
  atoi64_loop s limit acc = Some v <-> digits s /\ val_from acc s = v /\ v <= limit.
Proof.
  intros Hl. revert acc. induction s as [|c s IH]; intros acc Ha; cbn [atoi64_loop].
  { cbn. split; [intros [= <-]; split_and!; [constructor|done|lia]|].
    intros (_ & -> & _). done. }
  destruct ((b2z c <? 48) || (57 <? b2z c)) eqn:Hc.
  { split; [done|]. intros (Hd & _). apply Forall_cons_1 in Hd as [Hd%is_digit_range _]. lia. }
  assert (48 <= b2z c <= 57) as Hr by lia.
  unfold uint64. rewrite (Z.mod_small (limit - _)) by lia.
  destruct (Z.ltb_spec ((limit - (b2z c - 48)) / 10) acc) as [Hov|Hov].
  { split; [done|]. intros (Hd & Hv & Hle). apply Forall_cons_1 in Hd as [_ Hd]. cbn in Hv.
    pose proof (val_from_ge s (acc * 10 + (b2z c - 48)) ltac:(lia) Hd) as Hge.
    unfold val_from in Hge. rewrite Hv in Hge. div_lia. }
  assert (acc * 10 + (b2z c - 48) <= limit) by div_lia.
  rewrite Z.mod_small by lia. rewrite IH by lia. unfold digits. rewrite Forall_cons_iff, is_digit_range.
  change (val_from acc (c :: s)) with (val_from (acc * 10 + (b2z c - 48)) s). tauto.
Qed.

(** A decimal numeral: digits, or a minus sign and digits. *)
Definition numeral (s : bytes) (v : Z) : Prop :=
  (s <> [] /\ digits s /\ v = dec_val s) \/
  (exists t, s = Byte.x2d :: t /\ t <> [] /\ digits t /\ v = - dec_val t).

Lemma b2z_minus c : b2z c = 45 -> c = Byte.x2d.
Proof. intros E. by apply b2z_inj. Qed.

(** The reader, exactly: the numerals of int64 and nothing else. *)
Lemma atoi64_spec (s : ngx_str_t) :
  match ngx_auth_webauthn_credential_atoi64 s with
  | (NGX_OK, v) => numeral (str_bytes s) v /\ INT64_MIN <= v <= INT64_MAX
  | (NGX_ERROR, _) => forall v, numeral (str_bytes s) v -> ~ INT64_MIN <= v <= INT64_MAX
  | (NGX_DECLINED, _) => False
  end.
Proof.
  unfold ngx_auth_webauthn_credential_atoi64. destruct (str_bytes s) as [|c t] eqn:Es.
  { intros v [[Hn _]|(? & [=] & _)]. done. }
  destruct (Z.eqb_spec (b2z c) 45) as [Ec|Ec].
  - apply b2z_minus in Ec as ->. destruct t as [|d t]; cbn [head nullp andb].
    { intros v [(_ & Hd & _)|(? & [= <-] & [] & _)]; [|done].
      by apply Forall_cons_1 in Hd as [Hd _]. }
    destruct (atoi64_loop (d :: t) (INT64_MAX + 1) 0) as [acc|] eqn:El.
    + apply atoi64_loop_spec in El as (Hd & Hv & Hle); [|unfold INT64_MAX; lia..].
      pose proof (val_from_ge _ 0 ltac:(lia) Hd). rewrite Hv in *.
      assert (int64_neg (int64 acc) = - acc) as ->.
      { unfold int64_neg, int64, INT64_MAX in *.
        destruct (Z.eq_dec acc (2 ^ 63)) as [->|]; [done|].
        rewrite (Z.mod_small (acc + _)), Z.mod_small; lia. }
      split; [|unfold INT64_MIN, INT64_MAX in *; lia]. right. exists (d :: t). by subst acc.
    + intros v [(_ & Hd & _)|(u & [= <-] & _ & Hd & ->)] Hr.
      { by apply Forall_cons_1 in Hd as [Hd _]. }
      pose proof (val_from_ge _ 0 ltac:(lia) Hd).
      assert (atoi64_loop (d :: t) (INT64_MAX + 1) 0 = Some (dec_val (d :: t))) as E; [|congruence].
      apply atoi64_loop_spec; [unfold INT64_MAX; lia..|].
      unfold INT64_MIN, INT64_MAX in *. split_and!; [done|done|lia].
  - cbn [andb]. destruct (atoi64_loop (c :: t) INT64_MAX 0) as [acc|] eqn:El.
    + apply atoi64_loop_spec in El as (Hd & Hv & Hle); [|unfold INT64_MAX; lia..].
      pose proof (val_from_ge _ 0 ltac:(lia) Hd).
      rewrite int64_small by (unfold INT64_MIN in *; lia).
      split; [left; by subst acc|unfold INT64_MIN; lia].
    + intros v [(_ & Hd & ->)|(u & [= -> ->] & _)] Hr; [|done].
      assert (atoi64_loop (c :: t) INT64_MAX 0 = Some (dec_val (c :: t))) as E; [|congruence].
      apply atoi64_loop_spec; [unfold INT64_MAX; lia..|]. split_and!; [done|done|lia].
Qed.

Lemma numeral_dec v : numeral (dec v) v.
Proof.
  unfold dec. destruct (Z.ltb_spec v 0).
  - destruct (dec_nonneg_spec (- v) ltac:(lia)) as (E & Hd & Hne).
    right. exists (dec_nonneg (- v)). split_and!; [done|done|done|lia].
  - destruct (dec_nonneg_spec v ltac:(lia)) as (E & Hd & Hne). by left.
Qed.

Lemma numeral_inj s v w : numeral s v -> numeral s w -> v = w.
Proof.
  intros [(_ & Hd & ->)|(t & -> & _ & Hd & ->)] [(_ & Hd' & ->)|(t' & E & _ & Hd' & ->)];
    simplify_eq; try done.
  - by apply Forall_cons_1 in Hd as [Hd _].
  - by apply Forall_cons_1 in Hd' as [Hd' _].
Qed.

Lemma atoi64_dec v : INT64_MIN <= v <= INT64_MAX ->
  ngx_auth_webauthn_credential_atoi64 (Some (dec v)) = (NGX_OK, v).
Proof.
  intros Hv. pose proof (atoi64_spec (Some (dec v))) as H. pose proof (numeral_dec v) as Hn.
  destruct (ngx_auth_webauthn_credential_atoi64 (Some (dec v))) as [[] w];
    cbn [str_bytes] in H; [|by destruct (H v Hn)|done].
  destruct H as [H _]. by rewrite (numeral_inj _ _ _ H Hn).
Qed.

Lemma num_pair_dec name v : - 2 ^ 63 <= v < 2 ^ 64 ->
  ngx_auth_webauthn_credential_num_pair name v =
  {| pair_name := Some name; pair_value := Some (dec v) |}.
Proof.
  intros Hv. unfold ngx_auth_webauthn_credential_num_pair, snprintf.
  pose proof (dec_length v Hv). pose proof (dec_pos v).
  destruct (Z.ltb_spec 0 (zlen (dec v))); [|lia].
  unfold NGX_AUTH_WEBAUTHN_CRED_NUMBUF, zlen in *. by rewrite !take_ge by (rewrite ?take_ge; lia).
Qed.

(** ** The record a hash stands for *)

Definition num_of (v : option bytes) : Z :=
  match v with
  | None => 0
  | Some s =>
      match ngx_auth_webauthn_credential_atoi64 (Some s) with (NGX_OK, z) => z | _ => 0 end
  end.

Definition cred_of (id : ngx_str_t) (h : gmap bytes bytes) : ngx_auth_webauthn_credential_t :=
  let ag := h !! NGX_AUTH_WEBAUTHN_CRED_F_AAGUID in
  let ag_ok := match ag with Some a => zlen a =? 16 | None => false end in
  {| cr_credential_id := id;
     cr_user_id := h !! NGX_AUTH_WEBAUTHN_CRED_F_USER_ID;
     cr_public_key := h !! NGX_AUTH_WEBAUTHN_CRED_F_PUBLIC_KEY;
     cr_alg := num_of (h !! NGX_AUTH_WEBAUTHN_CRED_F_ALG);
     cr_sign_count := num_of (h !! NGX_AUTH_WEBAUTHN_CRED_F_SIGN_COUNT);
     cr_created_at := num_of (h !! NGX_AUTH_WEBAUTHN_CRED_F_CREATED_AT);
     cr_last_used_at := num_of (h !! NGX_AUTH_WEBAUTHN_CRED_F_LAST_USED_AT);
     cr_aaguid := if ag_ok then str_bytes ag else replicate 16 Byte.x00;
     cr_has_aaguid := if ag_ok then 1 else 0;
     cr_transports := h !! NGX_AUTH_WEBAUTHN_CRED_F_TRANSPORTS |}.

(** A numeric field holds a numeral of [lo..hi]. *)
Definition num_in (lo hi : Z) (v : option bytes) : Prop :=
  forall s, v = Some s -> exists z,
    ngx_auth_webauthn_credential_atoi64 (Some s) = (NGX_OK, z) /\ lo <= z <= hi.

(** The fields the loop insists on, when present. *)
Definition hash_wf (h : gmap bytes bytes) : Prop :=
  num_in INT32_MIN INT32_MAX (h !! NGX_AUTH_WEBAUTHN_CRED_F_ALG) /\
  num_in 0 UINT32_MAX (h !! NGX_AUTH_WEBAUTHN_CRED_F_SIGN_COUNT).

Lemma strncmp_literal (a b : bytes) :
  length a = length b -> Forall (fun c => c <> Byte.x00) b ->
  strncmp_eq (length a) a b = bool_decide (a = b).
Proof.
  revert b. induction a as [|x a IH]; intros [|y b] Hl Hb; try done; cbn [length strncmp_eq].
  apply Forall_cons_1 in Hb as [Hy Hb]. simpl in Hl.
  destruct (decide (x = y)) as [->|Hne].
  - rewrite bool_decide_true by done. rewrite bool_decide_false by done. cbn [orb andb].
    rewrite IH by (done || lia). apply bool_decide_ext. naive_solver.
  - by rewrite (bool_decide_false (x = y)), (bool_decide_false (_ :: _ = _)) by congruence.
Qed.

Lemma field_is_eq n name :
  forallb (fun c => negb (bool_decide (c = Byte.x00))) name = true ->
  field_is (Some n) name = bool_decide (n = name).
Proof.
  intros Hn. unfold field_is. change (str_len (Some n)) with (zlen n). cbn [str_bytes].
  destruct (Z.eqb_spec (zlen n) (zlen name)) as [E|E]; cbn [andb].
  - unfold zlen in *. rewrite Nat2Z.id. apply strncmp_literal; [lia|].
    apply List.Forall_forall. intros c Hc. rewrite forallb_forall in Hn.
    apply Hn in Hc. by case_bool_decide.
  - symmetry. apply bool_decide_eq_false. by intros ->.
Qed.

(** The field names are pairwise different. *)
Ltac other_fields := rewrite ?lookup_insert_ne by done.

(** The range check on a numeric field. *)
Lemma num_check lo hi v rc z :
  ngx_auth_webauthn_credential_atoi64 (Some v) = (rc, z) ->
  if negb (is_ok rc) || (z <? lo) || (hi <? z) then ~ num_in lo hi (Some v)
  else rc = NGX_OK /\ lo <= z <= hi /\ num_in lo hi (Some v).
Proof.
  intros E. destruct (negb (is_ok rc) || (z <? lo) || (hi <? z)) eqn:Hc.
  - intros Hn. destruct (Hn v eq_refl) as (z' & E' & ?). rewrite E in E'.
    injection E' as -> ->. cbn in Hc. lia.
  - destruct rc; try done. cbn in Hc. split_and!; [done|lia|lia|].
    intros s [= <-]. exists z. split; [done|lia].
Qed.

(** One turn of the loop adds one field to the hash read so far. *)
Lemma get_field_spec (id : ngx_str_t) (h : gmap bytes bytes) (n v : bytes) :
  h !! n = None ->
  match get_field (hpair n v) (cred_of id h) with
  | None => forall h', h' !! n = Some v -> ~ hash_wf h'
  | Some out => out = cred_of id (<[n := v]> h) /\
      (n = NGX_AUTH_WEBAUTHN_CRED_F_ALG -> num_in INT32_MIN INT32_MAX (Some v)) /\
      (n = NGX_AUTH_WEBAUTHN_CRED_F_SIGN_COUNT -> num_in 0 UINT32_MAX (Some v))
  end.
Proof.
  intros Hnone. unfold get_field. cbn [hpair pair_name pair_value].
  rewrite !field_is_eq by reflexivity. unfold cred_of at 1. cbv zeta.
  destruct (ngx_auth_webauthn_credential_atoi64 (Some v)) as [rc z] eqn:E.
  pose proof (num_check INT32_MIN INT32_MAX v rc z E) as Halg.
  pose proof (num_check 0 UINT32_MAX v rc z E) as Hsc.
  change (str_len (Some v)) with (zlen v). unfold AAGUID_LEN.
  repeat case_bool_decide; try subst n;
    lazymatch goal with
    | |- match (if ?b then None else _) with _ => _ end =>
        destruct b; [intros h' Hh [Hw1 Hw2]; rewrite Hh in *; done|]
    | |- match (if ?b then _ else _) with _ => _ end => destruct b eqn:Hb
    | _ => idtac
    end; (split; [|naive_solver]); unfold cred_of;
    rewrite ?lookup_insert_eq, ?Hnone; other_fields; cbn [num_of]; rewrite ?E, ?Hb; try done.
  - destruct Halg as (-> & ? & _). by rewrite int32_small by lia.
  - destruct Hsc as (-> & ? & _). unfold uint32, UINT32_MAX in *. by rewrite Z.mod_small by lia.
  - by destruct rc.
  - by destruct rc.
Qed.

(** The hash read after the fields [l]. *)
Definition read_all (l : list (bytes * bytes)) (h : gmap bytes bytes) : gmap bytes bytes :=
  foldl (fun h p => <[p.1 := p.2]> h) h l.

Lemma read_all_other l h n : n ∉ l.*1 -> read_all l h !! n = h !! n.
Proof.
  revert h. induction l as [|[f v] l IH]; intros h Hn; [done|]. cbn in Hn.
  apply not_elem_of_cons in Hn as [Hf Hn]. cbn [read_all foldl fst snd].
  unfold read_all in IH. rewrite IH by done. by apply lookup_insert_ne.
Qed.

Lemma read_all_in l h n v : NoDup l.*1 -> (n, v) ∈ l -> read_all l h !! n = Some v.
Proof.
  revert h. induction l as [|[f w] l IH]; intros h Hnd Hin; [by apply elem_of_nil in Hin|].
  apply list.NoDup_cons in Hnd as [Hf Hnd]. cbn [read_all foldl fst snd].
  apply elem_of_cons in Hin as [[= <- <-]|Hin]; [|by apply IH].
  change (read_all l (<[n := v]> h) !! n = Some v).
  rewrite read_all_other by done. by rewrite lookup_insert_eq.
Qed.

Lemma read_all_map (l : list (bytes * bytes)) (m : gmap bytes bytes) : l ≡ₚ map_to_list m -> read_all l ∅ = m.
Proof.
  intros Hl. assert (NoDup l.*1) as Hnd by (rewrite Hl; apply NoDup_fst_map_to_list).
  apply map_eq. intros n. destruct (m !! n) as [v|] eqn:E.
  - apply read_all_in; [done|]. rewrite Hl. by apply elem_of_map_to_list.
  - rewrite read_all_other; [apply lookup_empty|]. intros ((n' & v) & -> & Hin)%list_elem_of_fmap.
    rewrite Hl in Hin. apply elem_of_map_to_list in Hin. cbn in E; by rewrite E in Hin.
Qed.

(** The numeric fields among [l] are in range. *)
Definition fields_wf (l : list (bytes * bytes)) : Prop :=
  forall n v, (n, v) ∈ l ->
    (n = NGX_AUTH_WEBAUTHN_CRED_F_ALG -> num_in INT32_MIN INT32_MAX (Some v)) /\
    (n = NGX_AUTH_WEBAUTHN_CRED_F_SIGN_COUNT -> num_in 0 UINT32_MAX (Some v)).

Lemma get_loop_fields (id : ngx_str_t) l : forall h,
  NoDup l.*1 -> (forall n, n ∈ l.*1 -> h !! n = None) ->
  match get_loop (hpairs l) (cred_of id h) with
  | inl _ => ~ hash_wf (read_all l h)
  | inr out => out = cred_of id (read_all l h) /\ fields_wf l
  end.
Proof.
  induction l as [|[n v] l IH]; intros h Hnd Hh.
  { split; [done|]. intros ? ? []%elem_of_nil. }
  assert (h !! n = None) as Hhn by (apply Hh; rewrite fmap_cons; set_solver).
  rewrite fmap_cons in Hnd, Hh. apply list.NoDup_cons in Hnd as [Hn Hnd]. cbn [fst] in Hn.
  change (get_loop (hpairs ((n, v) :: l)) (cred_of id h)) with
    (match get_field (hpair n v) (cred_of id h) with
     | None => inl (cred_of id h) | Some out => get_loop (hpairs l) out end).
  pose proof (get_field_spec id h n v Hhn) as Hg.
  destruct (get_field _ _) as [out|].
  - destruct Hg as (-> & Halg & Hsc).
    specialize (IH (<[n := v]> h) Hnd).
    assert (forall x, x ∈ l.*1 -> <[n := v]> h !! x = None) as Hx.
    { intros x Hx. rewrite lookup_insert_ne by (by intros ->). apply Hh. set_solver. }
    specialize (IH Hx). destruct (get_loop _ _); [done|]. destruct IH as [-> Hwf].
    split; [done|]. intros n' v' [[= -> ->]|]%elem_of_cons; [done|by apply Hwf].
  - apply Hg. apply (read_all_in ((n, v) :: l)); [|set_solver]. by apply list.NoDup_cons.
Qed.

Lemma get_loop_spec (id : ngx_str_t) (l : list (bytes * bytes)) (m : gmap bytes bytes) :
  l ≡ₚ map_to_list m ->
  match get_loop (hpairs l) (cred_zero id) with
  | inl _ => ~ hash_wf m
  | inr out => out = cred_of id m /\ hash_wf m
  end.
Proof.
  intros Hl. assert (NoDup l.*1) as Hnd by (rewrite Hl; apply NoDup_fst_map_to_list).
  assert (forall n v, (n, v) ∈ l <-> m !! n = Some v) as Hin
    by (intros; rewrite Hl; apply elem_of_map_to_list).
  assert (cred_zero id = cred_of id ∅) as -> by done.
  pose proof (get_loop_fields id l ∅ Hnd ltac:(done)) as H.
  rewrite (read_all_map l m Hl) in H.
  destruct (get_loop _ _); [done|]. destruct H as [-> Hwf]. split; [done|].
  split; intros s Hs%Hin; [by apply (Hwf _ s Hs)..].
Qed.

(** ** Resources *)

Abbreviation rkey pre cid := (record_key_of (str_bytes pre) (str_bytes cid)).
Abbreviation ikey pre uid := (index_key_of (str_bytes pre) (str_bytes uid)).

Lemma record_key_room pre cid :
  fits (str_bytes pre) -> fits (str_bytes cid) ->
  zlen (rkey pre cid) <= size_t (str_len pre + 5 + str_len cid).
Proof.
  unfold fits, record_key_of. intros Hp Hr. rewrite !zlen_app. change (zlen (bs "cred:")) with 5.
  change (str_len pre) with (zlen (str_bytes pre)). change (str_len cid) with (zlen (str_bytes cid)).
  pose proof (zlen_nonneg (str_bytes cid)). pose proof (zlen_nonneg (str_bytes pre)).
  rewrite size_t_small; lia.
Qed.

Lemma index_key_room pre uid :
  fits (str_bytes pre) -> fits (str_bytes uid) ->
  zlen (ikey pre uid) <= size_t (str_len pre + 5 + str_len uid + 6).
Proof.
  unfold fits, index_key_of. intros Hp Hr. rewrite !zlen_app. change (zlen (bs "user:")) with 5.
  change (zlen (bs ":creds")) with 6.
  change (str_len pre) with (zlen (str_bytes pre)). change (str_len uid) with (zlen (str_bytes uid)).
  pose proof (zlen_nonneg (str_bytes uid)). pose proof (zlen_nonneg (str_bytes pre)).
  rewrite size_t_small; lia.
Qed.

Lemma record_key_held pre cid (w : held) Q :
  fits (str_bytes pre) -> fits (str_bytes cid) ->
  Q (NGX_ERROR, NULL) w -> Q (NGX_OK, Some (rkey pre cid)) w ->
  wp (ngx_auth_webauthn_credential_record_key pre cid) Q w.
Proof. intros Hp Hr H0 H1. by apply wp_bind, pool_fill_held; [apply record_key_room|..]. Qed.

Lemma index_key_held pre uid (w : held) Q :
  fits (str_bytes pre) -> fits (str_bytes uid) ->
  Q (NGX_ERROR, NULL) w -> Q (NGX_OK, Some (ikey pre uid)) w ->
  wp (ngx_auth_webauthn_credential_index_key pre uid) Q w.
Proof. intros Hp Hr H0 H1. by apply wp_bind, pool_fill_held; [apply index_key_room|..]. Qed.

(** The strings of a record read from replies are short. *)
Definition cred_fits (c : ngx_auth_webauthn_credential_t) : Prop :=
  fits (str_bytes (cr_user_id c)) /\ fits (str_bytes (cr_public_key c)) /\
  fits (str_bytes (cr_transports c)).

Lemma get_field_fits p out out' :
  pair_fits p -> cred_fits out -> get_field p out = Some out' -> cred_fits out'.
Proof.
  intros [_ Hp] (Hu & Hk & Ht). unfold get_field. destruct out.
  destruct (ngx_auth_webauthn_credential_atoi64 (pair_value p)) as [rc v].
  repeat case_match; intros; simplify_eq; unfold cred_fits; cbn in *; auto.
Qed.

Lemma get_loop_fits pairs : forall out,
  Forall pair_fits pairs -> cred_fits out ->
  match get_loop pairs out with inl c => cred_fits c | inr c => cred_fits c end.
Proof.
  induction pairs as [|p rest IH]; intros out Hp Ho; [done|].
  apply Forall_cons_1 in Hp as [Hp Hrest]. cbn [get_loop].
  destruct (get_field p out) as [out'|] eqn:E; [|done]. apply IH; [done|].
  by eapply get_field_fits.
Qed.

Lemma get_held redis pool prefix cid out (w : held) Q :
  needs redis ⊆ w -> prefix_fits prefix -> prefix_fits cid ->
  (forall rc c, (rc = NGX_OK -> exists c', c = Some c' /\ cred_fits c') -> Q (rc, c) w) ->
  wp (ngx_auth_webauthn_credential_get redis pool prefix cid out) Q w.
Proof.
  intros Hw Hp Hc HQ. unfold ngx_auth_webauthn_credential_get.
  assert (forall rc c, rc <> NGX_OK -> Q (rc, c) w) as HQn by (intros; apply HQ; naive_solver).
  destruct prefix as [pre|], cid as [id|]; destruct redis, pool, out;
    cbn [nullp orb]; try by apply HQn. cbn [deref bind].
  apply wp_bind, record_key_held; [by apply Hp|by apply Hc|by apply HQn|]. cbn [is_ok negb].
  apply wp_bind, hgetall_held; [done|]. intros [] pairs Hpairs; cbn [is_ok negb];
    [|by apply HQn..].
  destruct (zlen pairs =? 0); [by apply HQn|].
  pose proof (get_loop_fits pairs (cred_zero id) Hpairs ltac:(done)) as Hl.
  destruct (get_loop _ _) as [c|c]; [by apply HQn|].
  destruct (_ || _); [by apply HQn|]. apply HQ. intros _. by exists c.
Qed.

Lemma get_balanced redis pool prefix cid out :
  prefix_fits prefix -> prefix_fits cid ->
  balanced (needs redis) (ngx_auth_webauthn_credential_get redis pool prefix cid out).
Proof. intros Hp Hc w Hw. by apply get_held. Qed.

Lemma put_balanced redis pool prefix c :
  prefix_fits prefix ->
  (forall c', c = Some c' -> fits (str_bytes (cr_credential_id c')) /\
     fits (str_bytes (cr_user_id c'))) ->
  balanced (needs redis) (ngx_auth_webauthn_credential_put redis pool prefix c).
Proof.
  intros Hp Hc w Hw. unfold ngx_auth_webauthn_credential_put.
  destruct c as [c|]; [|done]. destruct (Hc c eq_refl) as [Hid Hu].
  destruct prefix as [pre|]; [|by destruct redis, pool].
  destruct (_ || _); [done|]. cbn [deref bind].
  apply wp_bind, record_key_held; [by apply Hp|done|done|]. cbn [is_ok negb].
  apply wp_bind. eapply wp_balanced; [apply hset_balanced; [intros ? [= <-]; lia|apply zlen_nonneg]
                                     |done|].
  intros []; cbn [is_ok negb]; [|done|done].
  apply wp_bind, index_key_held; [by apply Hp|done|done|]. cbn [is_ok negb].
  apply wp_bind. eapply wp_balanced; [apply set_op_balanced|done|]. by intros [].
Qed.

Lemma update_balanced redis pool prefix cid count last :
  prefix_fits prefix -> prefix_fits cid ->
  balanced (needs redis)
    (ngx_auth_webauthn_credential_update_counter redis pool prefix cid count last).
Proof.
  intros Hp Hc w Hw. unfold ngx_auth_webauthn_credential_update_counter.
  destruct prefix as [pre|], cid as [id|]; destruct redis, pool; cbn [nullp orb]; try done.
  cbn [deref bind]. apply wp_bind, record_key_held; [by apply Hp|by apply Hc|done|].
  cbn [is_ok negb]. apply hset_balanced; [intros ? [= <-]; done|done|done].
Qed.

Lemma delete_balanced redis pool prefix cid :
  prefix_fits prefix -> prefix_fits cid ->
  balanced (needs redis) (ngx_auth_webauthn_credential_delete redis pool prefix cid).
Proof.
  intros Hp Hc w Hw. unfold ngx_auth_webauthn_credential_delete.
  destruct prefix as [pre|], cid as [id|]; destruct redis as [r|], pool; cbn [nullp orb]; try done.
  apply wp_bind, get_held; [done..|]. intros rc c Hok.
  destruct rc; cbn [is_ok negb]; [|done|done]. destruct (Hok eq_refl) as (c' & -> & Hu & _).
  cbn [deref bind]. apply wp_bind, record_key_held; [by apply Hp|by apply Hc|done|].
  cbn [is_ok negb]. apply wp_bind. eapply wp_balanced; [apply del_balanced|done|].
  intros []; cbn [is_ok negb]; [|done|done]. cbn [deref bind]. destruct (0 <? _); [|done].
  apply wp_bind, index_key_held; [by apply Hp|done|done|]. cbn [is_ok negb].
  apply wp_bind. eapply wp_balanced; [apply set_op_balanced|done|]. by intros [].
Qed.

(** A record that can authenticate. *)
Definition usable (h : gmap bytes bytes) : Prop :=
  hash_wf h /\ str_len (h !! NGX_AUTH_WEBAUTHN_CRED_F_PUBLIC_KEY) <> 0 /\
  num_of (h !! NGX_AUTH_WEBAUTHN_CRED_F_ALG) <> 0.

(** ** Commands *)

Lemma record_key_calls P `{!Background P} {B} pre cid (f : ngx_rc * ngx_str_t -> prog B) :
  all_calls P (f (NGX_ERROR, NULL)) -> all_calls P (f (NGX_OK, Some (rkey pre cid))) ->
  all_calls P (bind (ngx_auth_webauthn_credential_record_key pre cid) f).
Proof.
  intros H0 H1. simpl. split; [by apply background|]. intros []; [|done].
  by destruct (_ <=? _).
Qed.

Lemma index_key_calls P `{!Background P} {B} pre uid (f : ngx_rc * ngx_str_t -> prog B) :
  all_calls P (f (NGX_ERROR, NULL)) -> all_calls P (f (NGX_OK, Some (ikey pre uid))) ->
  all_calls P (bind (ngx_auth_webauthn_credential_index_key pre uid) f).
Proof.
  intros H0 H1. simpl. split; [by apply background|]. intros []; [|done].
  by destruct (_ <=? _).
Qed.

Lemma get_calls P `{!Background P} redis pool pre cid out :
  (forall id, cmd P [bs "HGETALL"; rkey pre id]) ->
  all_calls P (ngx_auth_webauthn_credential_get redis pool (Some pre) cid out).
Proof.
  intros Hc. unfold ngx_auth_webauthn_credential_get. destruct (_ || _); [done|].
  destruct cid as [cid|]; [|done]. cbn [deref bind].
  apply record_key_calls; [done|done|]. cbn [is_ok negb].
  apply all_calls_bind; [apply hgetall_calls; [done|]; intros k [= <-]; apply Hc|].
  intros [[] pairs]; cbn [is_ok negb]; [|done|done]. calls.
Qed.

Lemma update_calls P `{!Background P} redis pool pre cid count last :
  (forall id, cmd P (bs "HSET" :: rkey pre id :: hset_args (counter_pairs count last))) ->
  all_calls P (ngx_auth_webauthn_credential_update_counter redis pool (Some pre) cid count last).
Proof.
  intros Hc. unfold ngx_auth_webauthn_credential_update_counter. destruct (_ || _); [done|].
  destruct cid as [cid|]; [|done]. cbn [deref bind].
  apply record_key_calls; [done|done|]. cbn [is_ok negb].
  apply hset_calls; [done|]. intros k ps [= <-] [= <-]. apply Hc.
Qed.

Lemma put_calls P `{!Background P} redis pool pre c :
  (forall id args, cmd P (bs "HSET" :: rkey pre id :: args)) ->
  (forall uid m, cmd P [bs "SADD"; ikey pre uid; m]) ->
  all_calls P (ngx_auth_webauthn_credential_put redis pool (Some pre) c).
Proof.
  intros Hh Hs. unfold ngx_auth_webauthn_credential_put. destruct c as [c|]; [|done].
  destruct (_ || _); [done|]. cbn [deref bind].
  apply record_key_calls; [done|done|]. cbn [is_ok negb].
  apply all_calls_bind; [apply hset_calls; [done|]; intros k ps [= <-] _; apply Hh|].
  intros []; cbn [is_ok negb]; [|done|done].
  apply index_key_calls; [done|done|]. cbn [is_ok negb].
  apply all_calls_bind; [|intros []; done]. apply set_op_calls; [done|].
  intros k m [= <-] _. apply Hs.
Qed.

Lemma delete_calls P `{!Background P} redis pool pre cid :
  (forall id, cmd P [bs "HGETALL"; rkey pre id]) -> (forall id, cmd P [bs "DEL"; rkey pre id]) ->
  (forall uid m, cmd P [bs "SREM"; ikey pre uid; m]) ->
  all_calls P (ngx_auth_webauthn_credential_delete redis pool (Some pre) cid).
Proof.
  intros Hg Hd Hs. unfold ngx_auth_webauthn_credential_delete. destruct (_ || _); [done|].
  apply all_calls_bind; [by apply get_calls|]. intros [[] c]; cbn [is_ok negb]; [|done|done].
  destruct cid as [cid|]; [|done]. cbn [deref bind].
  apply record_key_calls; [done|done|]. cbn [is_ok negb].
  apply all_calls_bind; [apply del_calls; [done|]; intros k [= <-]; apply Hd|].
  intros []; cbn [is_ok negb]; [|done|done].
  destruct c as [c|]; [|done]. cbn [deref bind]. destruct (0 <? _); [|done].
  apply index_key_calls; [done|done|]. cbn [is_ok negb].
  apply all_calls_bind; [|intros []; done]. apply set_op_calls; [done|].
  intros k m [= <-] _. apply Hs.
Qed.

(** ** What the trace of a success shows *)

(** The record an HGETALL reply holds, when it is usable. *)
Definition read_record (id : ngx_str_t) (element : list redisReply)
    (c : ngx_auth_webauthn_credential_t) : Prop :=
  get_loop (reply_pairs element) (cred_zero id) = inr c /\
  str_len (cr_public_key c) <> 0 /\ cr_alg c <> 0.

Lemma reply_pairs_flat l : reply_pairs (flat_pairs l) = hpairs l.
Proof. induction l as [|[f v] l IH]; [done|]. cbn. by f_equal. Qed.

Lemma record_key_trace pre cid (h : trace) Q :
  fits (str_bytes pre) -> fits (str_bytes cid) ->
  (forall h', cmds h' = cmds h -> Q (NGX_ERROR, NULL) h') ->
  (forall h', cmds h' = cmds h -> Q (NGX_OK, Some (rkey pre cid)) h') ->
  wp (ngx_auth_webauthn_credential_record_key pre cid) Q h.
Proof.
  intros Hp Hc HE HO. pose proof (record_key_room pre cid Hp Hc).
  apply wp_bind, wp_bind, wp_trace_call.
  intros [] _; [|apply HE; rewrite cmds_app; apply app_nil_r]. cbn [bind].
  destruct (Z.leb_spec (zlen (str_bytes pre ++ bs "cred:" ++ str_bytes cid))
              (size_t (str_len pre + 5 + str_len cid))) as [|Hlt]; [|by apply Z.lt_nge in Hlt].
  apply HO. rewrite cmds_app. apply app_nil_r.
Qed.

Lemma get_trace pre cid old (h : trace) :
  fits (str_bytes pre) -> fits (str_bytes cid) ->
  wp (ngx_auth_webauthn_credential_get open_redis (Some tt) (Some pre) (Some cid) (Some old))
     (fun out h' => fst out = NGX_OK -> exists element c, snd out = Some c /\
        answered [bs "HGETALL"; rkey pre cid] (RArray element) h' /\
        read_record cid element c) h.
Proof.
  intros Hp Hc. unfold ngx_auth_webauthn_credential_get. cbn [nullp orb deref bind].
  apply wp_bind, record_key_trace; [done|done|done|]. intros h1 _. cbn [is_ok negb].
  eapply wp_seq; [apply hgetall_trace|]. intros [rc pairs] h2 Hg. cbn [fst snd] in Hg.
  destruct rc; cbn [is_ok negb]; try done.
  destruct (Z.eqb_spec (zlen pairs) 0) as [|Hne]; [done|].
  destruct (Hg eq_refl) as (el & Hans & ->); [by rewrite <- zlen_0|].
  destruct (get_loop _ _) as [out|out] eqn:E; [done|].
  destruct (_ || _) eqn:Hu; [done|]. apply orb_false_iff in Hu as [H1%Z.eqb_neq H2%Z.eqb_neq].
  intros _. by exists el, out.
Qed.

Lemma update_trace pre cid count last (h : trace) :
  fits (str_bytes pre) -> fits (str_bytes cid) ->
  wp (ngx_auth_webauthn_credential_update_counter open_redis (Some tt) (Some pre) (Some cid)
        count last)
     (fun rc h' => rc = NGX_OK ->
        acked (bs "HSET" :: rkey pre cid :: hset_args (counter_pairs count last)) h') h.
Proof.
  intros Hp Hc. unfold ngx_auth_webauthn_credential_update_counter. cbn [nullp orb deref bind].
  apply wp_bind, record_key_trace; [done|done|done|]. intros h1 _. cbn [is_ok negb].
  eapply wp_mono; [|apply (hset_trace _ (counter_pairs count last))]. auto.
Qed.

(** ** What is written is what is read *)

(** A complete record: the caller's obligations. *)
Record cred_wf (c : ngx_auth_webauthn_credential_t) : Prop := {
  cw_id : exists s, cr_credential_id c = Some s /\ s <> [] /\ fits s;
  cw_user : exists s, cr_user_id c = Some s /\ s <> [] /\ fits s;
  cw_key : exists s, cr_public_key c = Some s /\ s <> [];
  cw_alg : INT32_MIN <= cr_alg c <= INT32_MAX /\ cr_alg c <> 0;
  cw_count : 0 <= cr_sign_count c <= UINT32_MAX;
  cw_created : INT64_MIN <= cr_created_at c <= INT64_MAX;
  cw_last : INT64_MIN <= cr_last_used_at c <= INT64_MAX;
  cw_aaguid : (cr_has_aaguid c = 1 /\ zlen (cr_aaguid c) = 16) \/
              (cr_has_aaguid c = 0 /\ cr_aaguid c = replicate 16 Byte.x00);
  cw_transports : cr_transports c = NULL \/
                  exists s, cr_transports c = Some s /\ s <> [];
}.

Definition put_hash (c : ngx_auth_webauthn_credential_t) (h : gmap bytes bytes) :
    gmap bytes bytes := hset_fields h (hset_args (put_pairs c)).

Ltac hash_lookup :=
  repeat first [rewrite lookup_insert_eq | rewrite lookup_insert_ne by done];
  rewrite ?lookup_empty.

Lemma put_hash_fields c : cred_wf c ->
  let h := put_hash c ∅ in
  h !! NGX_AUTH_WEBAUTHN_CRED_F_USER_ID = cr_user_id c /\
  h !! NGX_AUTH_WEBAUTHN_CRED_F_PUBLIC_KEY = cr_public_key c /\
  h !! NGX_AUTH_WEBAUTHN_CRED_F_ALG = Some (dec (cr_alg c)) /\
  h !! NGX_AUTH_WEBAUTHN_CRED_F_SIGN_COUNT = Some (dec (cr_sign_count c)) /\
  h !! NGX_AUTH_WEBAUTHN_CRED_F_CREATED_AT = Some (dec (cr_created_at c)) /\
  h !! NGX_AUTH_WEBAUTHN_CRED_F_LAST_USED_AT = Some (dec (cr_last_used_at c)) /\
  h !! NGX_AUTH_WEBAUTHN_CRED_F_TRANSPORTS = cr_transports c /\
  h !! NGX_AUTH_WEBAUTHN_CRED_F_AAGUID =
    if cr_has_aaguid c =? 0 then None else Some (cr_aaguid c).
Proof.
  intros [_ (u & Eu & _ & _) (k & Ek & _) [Ha _] Hs Hc Hl Hg Ht].
  unfold put_hash, put_pairs. unfold INT32_MIN, INT32_MAX, UINT32_MAX, INT64_MIN, INT64_MAX in *.
  rewrite !num_pair_dec by lia. rewrite Eu, Ek.
  destruct Ht as [Et|(tr & Et & Hne)]; rewrite Et.
  - cbn [str_len str_bytes app]. change (0 <? str_len NULL) with false.
    destruct Hg as [[-> _]|[-> _]]; cbn -[lookup]; split_and!; by hash_lookup.
  - assert (0 <? str_len (Some tr) = true) as ->.
    { apply Z.ltb_lt. rewrite str_len_zlen. cbn. pose proof (zlen_nonneg tr).
      assert (zlen tr <> 0) by by rewrite zlen_0. lia. }
    destruct Hg as [[-> _]|[-> _]]; cbn -[lookup]; split_and!; by hash_lookup.
Qed.

Lemma put_hash_cred c : cred_wf c ->
  cred_of (cr_credential_id c) (put_hash c ∅) = c /\ usable (put_hash c ∅).
Proof.
  intros Hwf. destruct (put_hash_fields c Hwf) as (Eu & Ek & Ea & Es & Ec & El & Et & Eg).
  destruct Hwf as [_ _ (k & Hk & Hk0) [Ha Ha0] Hs Hc Hl Hg _].
  unfold INT32_MIN, INT32_MAX, UINT32_MAX, INT64_MIN, INT64_MAX in *.
  assert (forall z, - 2 ^ 63 <= z <= 2 ^ 63 - 1 -> num_of (Some (dec z)) = z) as Hnum
    by (intros z Hz; cbn [num_of]; by rewrite atoi64_dec).
  split.
  - unfold cred_of. rewrite Eu, Ek, Ea, Es, Ec, El, Et, Eg, !Hnum by lia.
    destruct c; cbn in *. destruct Hg as [[-> Hg]|[-> ->]]; cbn; [by rewrite Hg|done].
  - unfold usable, hash_wf. rewrite Ea, Es, Ek, Hnum, Hk by lia. split_and!.
    + intros s [= <-]. exists (cr_alg c). split; [apply atoi64_dec|];
        unfold INT64_MIN, INT64_MAX, INT32_MIN, INT32_MAX; lia.
    + intros s [= <-]. exists (cr_sign_count c). split; [apply atoi64_dec|];
        unfold INT64_MIN, INT64_MAX, UINT32_MAX; lia.
    + by rewrite str_len_0.
    + done.
Qed.

(** The counters of a record, written over an existing hash. *)
Definition with_counters (c : ngx_auth_webauthn_credential_t) (count last : Z) :
    ngx_auth_webauthn_credential_t :=
  {| cr_credential_id := cr_credential_id c; cr_user_id := cr_user_id c;
     cr_public_key := cr_public_key c; cr_alg := cr_alg c; cr_sign_count := count;
     cr_created_at := cr_created_at c; cr_last_used_at := last; cr_aaguid := cr_aaguid c;
     cr_has_aaguid := cr_has_aaguid c; cr_transports := cr_transports c |}.

Lemma counter_hash (id : ngx_str_t) h count last :
  0 <= count <= UINT32_MAX -> INT64_MIN <= last <= INT64_MAX ->
  let h' := hset_fields h (hset_args (counter_pairs count last)) in
  cred_of id h' = with_counters (cred_of id h) count last /\
  (usable h -> usable h') /\ (h = ∅ -> ~ usable h').
Proof.
  unfold UINT32_MAX, INT64_MIN, INT64_MAX. intros Hc Hl.
  unfold counter_pairs. rewrite !num_pair_dec by lia. cbn -[lookup]. split_and!.
  - unfold cred_of, with_counters. cbn -[lookup]. hash_lookup. cbn [num_of].
    by rewrite !atoi64_dec by (unfold INT64_MIN, INT64_MAX; lia).
  - unfold usable, hash_wf. hash_lookup. intros ([Hw _] & ? & ?). split_and!; try done.
    intros s [= <-]. exists count. unfold UINT32_MAX.
    rewrite atoi64_dec by (unfold INT64_MIN, INT64_MAX; lia). split; [done|lia].
  - intros ->. unfold usable. hash_lookup. by intros (_ & ? & _).
Qed.

(** ** Effect on the server *)

Section server.
Context {S : Type} `{SRV : RedisServer S, LAWS : !RedisLaws S}.
#[local] Existing Instance server_env.
Implicit Types (s : S) (pre cid uid : ngx_str_t).

Lemma record_key_server pre cid s Q :
  fits (str_bytes pre) -> fits (str_bytes cid) ->
  Q (NGX_ERROR, NULL) s -> Q (NGX_OK, Some (rkey pre cid)) s ->
  wp (ngx_auth_webauthn_credential_record_key pre cid) Q s.
Proof. intros Hp Hr H0 H1. by apply wp_bind, pool_fill_server; [apply record_key_room|..]. Qed.

Lemma index_key_server pre uid s Q :
  fits (str_bytes pre) -> fits (str_bytes uid) ->
  Q (NGX_ERROR, NULL) s -> Q (NGX_OK, Some (ikey pre uid)) s ->
  wp (ngx_auth_webauthn_credential_index_key pre uid) Q s.
Proof. intros Hp Hr H0 H1. by apply wp_bind, pool_fill_server; [apply index_key_room|..]. Qed.

Lemma nothing_refl s : after_tick nothing s s.
Proof. apply nothing_tick, tick_refl. Qed.

Lemma hash_at_kv s k h : hash_at s k = Some h -> h = ∅ \/ kv s !! k = Some (VHash h).
Proof. unfold hash_at. destruct (kv s !! k) as [[]|]; naive_solver. Qed.

Lemma tick_back s s' k v : srv_tick s s' -> kv s' !! k = Some v -> kv s !! k = Some v.
Proof. intros Ht E. destruct (tick_law s s' Ht) as [Hk _]. by destruct (Hk k) as [<-|[_ ?]]; congruence. Qed.

Lemma tick_keeps_key s s' k :
  srv_tick s s' -> ttl s !! k = None -> kv s' !! k = kv s !! k /\ ttl s' !! k = None.
Proof.
  intros Ht E. destruct (tick_law s s' Ht) as [Hk Htt]. split.
  - destruct (Hk k) as [|[[? E'] _]]; [done|congruence].
  - destruct (Htt k) as [->|]; done.
Qed.

Definition get_post (id : ngx_str_t) (key : bytes) s
    (out : ngx_rc * ptr ngx_auth_webauthn_credential_t) s' : Prop :=
  match out with
  | (NGX_OK, c) => after_tick (fun s s' => nothing s s' /\ exists h,
      hash_at s key = Some h /\ usable h /\ c = Some (cred_of id h)) s s'
  | (NGX_DECLINED, _) => after_tick (fun s s' => nothing s s' /\ exists h,
      hash_at s key = Some h /\ ~ usable h) s s'
  | (NGX_ERROR, _) => after_tick nothing s s'
  end.

Lemma get_server pre cid old s :
  fits (str_bytes pre) -> fits (str_bytes cid) ->
  wp (ngx_auth_webauthn_credential_get open_redis (Some tt) (Some pre) (Some cid) (Some old))
     (get_post cid (rkey pre cid) s) s.
Proof.
  intros Hp Hc. unfold ngx_auth_webauthn_credential_get. cbn [nullp orb deref bind].
  apply wp_bind, record_key_server; [done|done|apply nothing_refl|]. cbn [is_ok negb].
  apply wp_bind, hgetall_server. intros [rc pairs] s' Hpost.
  destruct rc; cbn [is_ok negb hgetall_post] in *; [|done|done].
  destruct Hpost as (s1 & Ht & Hn & h & l & Hh & Hl & ->).
  pose proof (get_loop_spec cid l h Hl) as Hloop.
  assert (forall c, ~ usable h -> get_post cid (rkey pre cid) s (NGX_DECLINED, c) s') as Hdecl
    by (intros c Hu; exists s1; split; [done|]; split; [done|]; by exists h).
  destruct (Z.eqb_spec (zlen (hpairs l)) 0) as [E|_].
  { apply Hdecl. destruct l; [|by apply zlen_0 in E]. apply Permutation_nil in Hl.
    apply map_to_list_empty_iff in Hl as ->. by intros (_ & ? & _). }
  destruct (get_loop (hpairs l) (cred_zero cid)) as [out|out].
  - apply Hdecl. by intros [? _].
  - destruct Hloop as [-> Hwf].
    destruct (_ || _) eqn:Hu; [apply Hdecl; intros (_ & ? & ?); cbn in Hu; lia|].
    exists s1. split; [done|]. split; [done|]. exists h. split_and!; [done| |done].
    apply orb_false_iff in Hu as [H1%Z.eqb_neq H2%Z.eqb_neq]. done.
Qed.

Lemma put_server pre (c : ngx_auth_webauthn_credential_t) s :
  fits (str_bytes pre) -> fits (str_bytes (cr_credential_id c)) -> fits (str_bytes (cr_user_id c)) ->
  str_bytes (cr_credential_id c) <> [] -> str_bytes (cr_user_id c) <> [] ->
  wp (ngx_auth_webauthn_credential_put open_redis (Some tt) (Some pre) (Some c))
     (fun rc s' => rc = NGX_OK -> exists s1,
        after_tick (hset_effect (rkey pre (cr_credential_id c)) (hset_args (put_pairs c))) s s1 /\
        after_tick (sadd_effect (ikey pre (cr_user_id c)) (str_bytes (cr_credential_id c))) s1 s')
     s.
Proof.
  intros Hp Hc Hu Hc0 Hu0. unfold ngx_auth_webauthn_credential_put. cbn [nullp orb].
  assert ((str_len (cr_credential_id c) =? 0) || (str_len (cr_user_id c) =? 0) = false) as ->.
  { apply orb_false_iff; split; apply Z.eqb_neq; by rewrite str_len_0. }
  cbn [deref bind]. apply wp_bind, record_key_server; [done|done|done|]. cbn [is_ok negb].
  apply wp_bind, hset_server; [done|done|]. intros [] s1 He; cbn [is_ok negb]; [|done|done].
  cbn [effect] in He. apply wp_bind, index_key_server; [done|done|done|]. cbn [is_ok negb].
  destruct (cr_credential_id c) as [cid|]; [|done].
  apply wp_bind, sadd_server. intros [] s2 Hs; cbn [is_ok negb]; [|done|done].
  intros _. by exists s1.
Qed.

Lemma update_server pre cid count last s :
  fits (str_bytes pre) -> fits (str_bytes cid) ->
  wp (ngx_auth_webauthn_credential_update_counter open_redis (Some tt) (Some pre) (Some cid)
        count last)
     (effect (hset_effect (rkey pre cid) (hset_args (counter_pairs count last))) s) s.
Proof.
  intros Hp Hc. unfold ngx_auth_webauthn_credential_update_counter. cbn [nullp orb deref bind].
  assert (effect (hset_effect (rkey pre cid) (hset_args (counter_pairs count last))) s
            NGX_ERROR s) as HE by (exists s; split; [apply tick_refl|by right]).
  apply wp_bind, record_key_server; [done|done|done|]. cbn [is_ok negb].
  by apply (hset_server _ (counter_pairs count last)).
Qed.

(** ** Keys of different kinds *)

Lemma prefix_inj (pre a b : bytes) : pre ++ a = pre ++ b -> a = b.
Proof. apply app_inv_head. Qed.

Lemma record_index_neq pre cid uid : rkey pre cid <> ikey pre uid.
Proof. by intros E%prefix_inj. Qed.

Lemma put_set_lookup (m : gmap bytes value) k k' x :
  put_set m k x !! k' = if decide (k' = k) then (if decide (x = ∅) then None else Some (VSet x))
                        else m !! k'.
Proof.
  unfold put_set. destruct (decide (k' = k)) as [->|]; destruct (decide (x = ∅)).
  - apply lookup_delete_eq.
  - apply lookup_insert_eq.
  - by apply lookup_delete_ne.
  - by apply lookup_insert_ne.
Qed.

(** What remains after a deletion: neither the record nor the index entry. *)
Definition delete_post pre cid s (rc : ngx_rc) s' : Prop :=
  match rc with
  | NGX_OK => exists h, kv s !! rkey pre cid = Some (VHash h) /\ usable h /\
      kv s' !! rkey pre cid = None /\
      (str_bytes (h !! NGX_AUTH_WEBAUTHN_CRED_F_USER_ID) <> [] ->
       exists x, set_at s' (ikey pre (h !! NGX_AUTH_WEBAUTHN_CRED_F_USER_ID)) = Some x /\
         str_bytes cid ∉ x)
  | NGX_DECLINED => after_tick (fun s s' => nothing s s' /\ exists h,
      hash_at s (rkey pre cid) = Some h /\ ~ usable h) s s'
  | NGX_ERROR => kv s' !! rkey pre cid = kv s !! rkey pre cid \/ kv s' !! rkey pre cid = None
  end.

Lemma gone_or_same s s' k :
  after_tick nothing s s' -> kv s' !! k = kv s !! k \/ kv s' !! k = None.
Proof.
  intros (s1 & Ht & Hk & _). rewrite Hk. destruct (tick_law s s1 Ht) as [H _].
  destruct (H k) as [|[_ ?]]; auto.
Qed.

Lemma tick_gone s s' k : srv_tick s s' -> kv s !! k = None -> kv s' !! k = None.
Proof. intros Ht E. destruct (tick_law s s' Ht) as [H _]. destruct (H k) as [->|[_ ?]]; done. Qed.

Lemma srem_gone pre cid uid x s s' (b : bool) :
  kv s !! rkey pre cid = None ->
  after_tick (if b then srem_effect (ikey pre uid) x else or_nothing (srem_effect (ikey pre uid) x))
    s s' -> kv s' !! rkey pre cid = None.
Proof.
  intros E (s1 & Ht & Hs). apply (tick_gone _ _ _ Ht) in E.
  assert (srem_effect (ikey pre uid) x s1 s' \/ nothing s1 s') as [Hr|[Hk _]]
    by (destruct b; [by left|exact Hs]); [|by rewrite Hk].
  destruct Hr as (y & _ & -> & _). rewrite put_set_lookup, decide_False; [done|].
  apply record_index_neq.
Qed.

Lemma delete_server pre cid s :
  fits (str_bytes pre) -> str_bytes cid <> [] ->
  fits (str_bytes cid) ->
  (forall h, kv s !! rkey pre cid = Some (VHash h) ->
     fits (str_bytes (h !! NGX_AUTH_WEBAUTHN_CRED_F_USER_ID))) ->
  wp (ngx_auth_webauthn_credential_delete open_redis (Some tt) (Some pre) (Some cid))
     (delete_post pre cid s) s.
Proof.
  intros Hp Hc0 Hc Hu. unfold ngx_auth_webauthn_credential_delete. cbn [nullp orb].
  eapply wp_seq; [by apply get_server|]. intros [[] out] s1 Hg; cbn [is_ok negb get_post] in *.
  2:{ by apply gone_or_same. }
  2:{ done. }
  destruct Hg as (s0 & Ht & Hn & h & Hh & Huse & ->). cbn [deref bind].
  destruct (hash_at_kv _ _ _ Hh) as [->|Ek]; [by destruct Huse as (_ & ? & _)|].
  pose proof (tick_back _ _ _ _ Ht Ek) as Eks.
  assert (kv s1 !! rkey pre cid = kv s !! rkey pre cid \/ kv s1 !! rkey pre cid = None) as Hsame.
  { left. destruct Hn as [-> _]. congruence. }
  apply wp_bind, record_key_server; [done|done|done|]. cbn [is_ok negb].
  apply wp_bind, del_server. intros rc s2 Hd.
  assert (rc = NGX_OK -> kv s2 !! rkey pre cid = None) as Hgone.
  { intros ->. destruct Hd as (s3 & _ & -> & _). apply lookup_delete_eq. }
  assert (kv s2 !! rkey pre cid = kv s !! rkey pre cid \/ kv s2 !! rkey pre cid = None) as Hsame2.
  { destruct rc; [by right; apply Hgone|..]; destruct Hd as (s3 & Ht3 & [[-> _]|[-> _]]);
      try (by right; apply lookup_delete_eq);
      destruct (tick_law s1 s3 Ht3) as [H3 _]; destruct (H3 (rkey pre cid)) as [->|[_ ->]]; auto. }
  destruct rc; cbn [is_ok negb]; [|done|done]. specialize (Hgone eq_refl). cbn [deref bind cred_of cr_user_id].
  specialize (Hu h Eks). set (uid := h !! NGX_AUTH_WEBAUTHN_CRED_F_USER_ID) in *.
  destruct (Z.ltb_spec 0 (str_len uid)) as [Hpos|Hz].
  2:{ exists h. split_and!; [done..|]. intros Hne. destruct Hne. apply str_len_0.
      rewrite str_len_zlen in Hz |- *. pose proof (zlen_nonneg (str_bytes uid)). fold uid. lia. }
  apply wp_bind, index_key_server; [done|done|by right|]. cbn [is_ok negb].
  destruct cid as [c|]; [|done].
  apply wp_bind, srem_server. intros [] s3 Hs; cbn [is_ok negb].
  - exists h. split_and!; [done|done| |].
    + by eapply (srem_gone pre (Some c) uid _ s2 s3 true).
    + intros _. destruct Hs as (s4 & _ & y & _ & Ekv & _). exists (y ∖ {[c]}).
      split; [|set_solver]. unfold set_at. rewrite Ekv, put_set_lookup, decide_True by done.
      destruct (decide (y ∖ {[c]} = ∅)) as [->|]; done.
  - right. by eapply (srem_gone pre (Some c) uid _ s2 s3 false).
  - right. by eapply (srem_gone pre (Some c) uid _ s2 s3 false).
Qed.

(** ** The order of a deletion *)

(** A command that takes an id out of an index. *)
Definition removes (e : eff) : Prop :=
  match e with redisCommandArgv argv => head argv = Some (bs "SREM") | _ => False end.

(** Wherever an id was taken out of an index, the server had acknowledged the
    deletion of the record before. *)
Definition deleted_first (key : bytes) (h : trace) : Prop :=
  forall h1 ev h2, h = h1 ++ ev :: h2 -> removes (ev_eff ev) -> acked [bs "DEL"; key] h1.

#[local] Instance removes_background : Background (fun e => ~ removes e).
Proof. intros e He Hr. by destruct e. Qed.

Lemma none_removed key (h : trace) :
  Forall (fun ev => ~ removes (ev_eff ev)) h -> deleted_first key h.
Proof.
  intros Hh h1 ev h2 -> Hev. apply Forall_app in Hh as [_ [Hn _]%Forall_cons_1]. done.
Qed.

Lemma removed_after key (h k : trace) :
  Forall (fun ev => ~ removes (ev_eff ev)) h -> acked [bs "DEL"; key] h ->
  deleted_first key (h ++ k).
Proof.
  intros Hh Ha h1 ev h2 E Hev. apply app_eq_app in E as (l & [[-> El]|[-> _]]);
    [|by apply acked_app].
  destruct l as [|x l]; [by rewrite app_nil_r in Ha|]. injection El as <- _.
  apply Forall_app in Hh as [_ [Hn _]%Forall_cons_1]. done.
Qed.

Lemma delete_order pre cid :
  wlp (ngx_auth_webauthn_credential_delete open_redis (Some tt) (Some pre) (Some cid))
    (fun _ h => deleted_first (rkey pre cid) h) ([] : trace).
Proof.
  unfold ngx_auth_webauthn_credential_delete. cbn [nullp orb].
  assert (forall k : trace, Forall (fun ev => ~ removes (ev_eff ev)) k ->
    forall rc : ngx_rc, wlp (Ret rc) (fun _ h => deleted_first (rkey pre cid) h) k) as Hstop
    by (intros k Hk rc; by apply none_removed).
  eapply wlp_seq; [apply (wlp_calls (fun e => ~ removes e)); [|apply wlp_true|constructor]|].
  { apply get_calls; [apply _|done]. }
  intros [rc c] k1 [_ H1]. destruct (negb (is_ok rc)); [by apply Hstop|]. cbn [deref bind].
  apply wlp_bind, wlp_fill; cbn [wlp is_ok negb].
  { apply none_removed, Forall_app. by split; [|repeat constructor; intros ?]. }
  set (k2 := k1 ++ _).
  assert (Forall (fun ev => ~ removes (ev_eff ev)) k2) as H2
    by (apply Forall_app; by split; [|repeat constructor; intros ?]).
  eapply wlp_seq; [apply (wlp_calls (fun e => ~ removes e)); [| |exact H2]|].
  { apply del_calls; [apply _|]. intros k [= <-]. done. }
  { apply wp_wlp, status_trace. }
  intros rc' k3 [Hdel H3]. destruct rc'; cbn [is_ok negb]; [|by apply Hstop..].
  eapply wlp_mono; [|apply wlp_extends, wlp_true]. intros rc' h [_ [k ->]].
  by apply removed_after, Hdel.
Qed.

(** The record of [c], as [put] stores it under a new id: it never expires. *)
Definition holds_record pre (c : ngx_auth_webauthn_credential_t) s : Prop :=
  kv s !! rkey pre (cr_credential_id c) = Some (VHash (put_hash c ∅)) /\
  ttl s !! rkey pre (cr_credential_id c) = None.

Lemma put_holds pre (c : ngx_auth_webauthn_credential_t) s s1 s' :
  hash_at s (rkey pre (cr_credential_id c)) = Some ∅ ->
  ttl s !! rkey pre (cr_credential_id c) = None ->
  after_tick (hset_effect (rkey pre (cr_credential_id c)) (hset_args (put_pairs c))) s s1 ->
  after_tick (sadd_effect (ikey pre (cr_user_id c)) (str_bytes (cr_credential_id c))) s1 s' ->
  holds_record pre c s'.
Proof.
  intros Hnew Httl (s2 & Ht & h & Hh & Hk & Htt) (s3 & Ht3 & x & _ & Hk3 & Htt3).
  unfold holds_record. set (key := rkey pre (cr_credential_id c)) in *.
  assert (h = ∅) as ->.
  { destruct (hash_at_kv _ _ _ Hh) as [|E]; [done|]. apply (tick_back _ _ _ _ Ht) in E.
    unfold hash_at in Hnew. rewrite E in Hnew. by injection Hnew. }
  destruct (tick_law s s2 Ht) as [_ Htt2].
  assert (ttl s1 !! key = None) as Ht1 by (rewrite Htt; destruct (Htt2 key) as [E|E]; rewrite E; done).
  assert (kv s1 !! key = Some (VHash (put_hash c ∅))) as E1 by (rewrite Hk; apply lookup_insert_eq).
  apply (tick_keeps_key _ _ _ Ht3) in Ht1 as [E3 Ht1'].
  rewrite Hk3, Htt3, lookup_insert_ne by (symmetry; apply record_index_neq). split; congruence.
Qed.

(** C24: reading a credential, whatever order the server lists the fields in:
    NGX_OK exactly for a stored hash with a public key, a non-zero int32
    algorithm and a uint32 counter, with the record that hash stands for;
    NGX_DECLINED for any other or no hash; NGX_ERROR only on a failure, with
    the store unchanged.  Every path is defined and releases every reply. *)
Theorem credential_get_correct pre cid old s :
  fits (str_bytes pre) -> fits (str_bytes cid) ->
  wp (ngx_auth_webauthn_credential_get open_redis (Some tt) (Some pre) (Some cid) (Some old))
     (get_post cid (rkey pre cid) s) s /\
  forall redis pool out, balanced (needs redis)
    (ngx_auth_webauthn_credential_get redis pool (Some pre) (Some cid) out).
Proof.
  intros Hp Hc. split; [by apply get_server|]. intros redis pool out.
  by apply get_balanced; intros ? [= <-].
Qed.

(** C16: a record put under a new id is read back field by field, decimal
    fields, AAGUID and transports included: once [put] has answered NGX_OK,
    [get] never answers NGX_DECLINED, and on NGX_OK returns that record. *)
Theorem credential_put_get pre c old s :
  cred_wf c -> fits (str_bytes pre) ->
  hash_at s (rkey pre (cr_credential_id c)) = Some ∅ ->
  ttl s !! rkey pre (cr_credential_id c) = None ->
  wp (rc <- ngx_auth_webauthn_credential_put open_redis (Some tt) (Some pre) (Some c) ;;
      got <- ngx_auth_webauthn_credential_get open_redis (Some tt) (Some pre)
               (Some (cr_credential_id c)) (Some old) ;;
      Ret (rc, got))
     (fun '(rc, (rc', got)) _ => rc = NGX_OK ->
        rc' <> NGX_DECLINED /\ (rc' = NGX_OK -> got = Some c)) s.
Proof.
  intros Hwf Hp Hnew Httl. destruct (put_hash_cred c Hwf) as [Ecred Huse].
  destruct Hwf as [(id & Hid & Hid0 & Hidf) (u & Hu & Hu0 & Huf) _ _ _ _ _ _ _].
  eapply wp_seq; [apply put_server; rewrite ?Hid, ?Hu; done|]. intros rc s' Hput.
  eapply wp_seq; [by apply get_server; [|rewrite Hid]|]. intros [rc' got] s'' Hget. cbn [wp].
  intros ->. destruct (Hput eq_refl) as (s1 & Hs1 & Hs2).
  destruct (put_holds _ _ _ _ _ Hnew Httl Hs1 Hs2) as [E' T'].
  set (key := rkey pre (cr_credential_id c)) in *.
  assert (forall s4 h', srv_tick s' s4 -> hash_at s4 key = Some h' -> h' = put_hash c ∅) as Hsame.
  { intros s4 h' Ht4 Hh4. destruct (tick_keeps_key _ _ _ Ht4 T') as [E4 _].
    unfold hash_at in Hh4. rewrite E4, E' in Hh4. by injection Hh4. }
  destruct rc'; [|done|].
  - split; [done|]. intros _. destruct Hget as (s4 & Ht4 & _ & h' & Hh' & _ & ->).
    by rewrite (Hsame s4 h' Ht4 Hh'), Ecred.
  - destruct Hget as (s4 & Ht4 & _ & h' & Hh' & Hnu). by rewrite (Hsame s4 h' Ht4 Hh') in Hnu.
Qed.

(** C25: updating the counter, when it answers NGX_OK, changes exactly
    [sign_count] and [last_used_at] of the record and keeps it usable; on an
    error it did so or changed nothing.  If the credential was deleted in the
    meantime, it leaves a hash of those two fields that never authenticates. *)
Theorem credential_update_counter_correct pre cid count last s :
  fits (str_bytes pre) -> fits (str_bytes cid) ->
  0 <= count <= UINT32_MAX -> INT64_MIN <= last <= INT64_MAX ->
  wp (ngx_auth_webauthn_credential_update_counter open_redis (Some tt) (Some pre) (Some cid)
        count last)
     (effect (fun s s' => exists h h', hash_at s (rkey pre cid) = Some h /\
        kv s' = <[rkey pre cid := VHash h']> (kv s) /\ ttl s' = ttl s /\
        cred_of cid h' = with_counters (cred_of cid h) count last /\
        (usable h -> usable h') /\ (h = ∅ -> ~ usable h')) s) s.
Proof.
  intros Hp Hc Hcount Hlast. eapply wp_mono; [|by apply update_server].
  intros rc s' He. assert (forall s1 s2,
    hset_effect (rkey pre cid) (hset_args (counter_pairs count last)) s1 s2 ->
    exists h h', hash_at s1 (rkey pre cid) = Some h /\
        kv s2 = <[rkey pre cid := VHash h']> (kv s1) /\ ttl s2 = ttl s1 /\
        cred_of cid h' = with_counters (cred_of cid h) count last /\
        (usable h -> usable h') /\ (h = ∅ -> ~ usable h')) as Hw.
  { intros s1 s2 (h & Hh & Hk & Ht). eexists h, _. split_and!; [done|done|done|..];
      by apply counter_hash. }
  destruct rc; destruct He as (s1 & Ht & He); exists s1; (split; [done|]).
  - by apply Hw.
  - destruct He as [He|He]; [left; by apply Hw|by right].
  - destruct He as [He|He]; [left; by apply Hw|by right].
Qed.

(** C26: deleting a credential answers NGX_OK only for a usable record, and
    then the record is gone and its id is out of its user's index; NGX_DECLINED
    means there was no usable record and changes nothing; after an error the
    record is either untouched or gone.  Every run deletes first: the id is
    taken out of the index only after the server has acknowledged that the
    record is gone. *)
Theorem credential_delete_correct pre cid s :
  fits (str_bytes pre) -> fits (str_bytes cid) -> str_bytes cid <> [] ->
  (forall h, kv s !! rkey pre cid = Some (VHash h) ->
     fits (str_bytes (h !! NGX_AUTH_WEBAUTHN_CRED_F_USER_ID))) ->
  wp (ngx_auth_webauthn_credential_delete open_redis (Some tt) (Some pre) (Some cid))
     (delete_post pre cid s) s /\
  wp (ngx_auth_webauthn_credential_delete open_redis (Some tt) (Some pre) (Some cid))
     (fun _ h => deleted_first (rkey pre cid) h) ([] : trace).
Proof.
  intros Hp Hc Hc0 Hu. split; [by apply delete_server|].
  eapply (wlp_wp _ _ _ (needs open_redis)), delete_order.
  apply delete_balanced; [by intros ? [= <-]..|done].
Qed.
End server.

(** C32: the decimal reader accepts exactly the numerals of a 64-bit signed
    integer (an optional minus sign, digits, any leading zeros), with their
    value, and refuses every other string: no wrap-around gets through. *)
Theorem atoi64_exact (s : bytes) :
  (forall v, ngx_auth_webauthn_credential_atoi64 (Some s) = (NGX_OK, v) <->
     numeral s v /\ INT64_MIN <= v <= INT64_MAX) /\
  (forall v, INT64_MIN <= v <= INT64_MAX ->
     ngx_auth_webauthn_credential_atoi64 (Some (dec v)) = (NGX_OK, v)).
Proof.
  split; [|apply atoi64_dec]. intros v. pose proof (atoi64_spec (Some s)) as H.
  destruct (ngx_auth_webauthn_credential_atoi64 (Some s)) as [[] w]; cbn [str_bytes] in H;
    [|split; [done|intros [Hn Hr]; by destruct (H v Hn)]|done].
  split; [intros [= <-]; done|]. intros [Hn _]. destruct H as [H _].
  by rewrite (numeral_inj _ _ _ H Hn).
Qed.

Import MiniRedis.
#[local] Existing Instance server_env.

Definition sample_credential : ngx_auth_webauthn_credential_t := {|
  cr_credential_id := Some (bs "Y3JlZA"); cr_user_id := Some (bs "alice");
  cr_public_key := Some (Byte.x01 :: bs "key"); cr_alg := -7; cr_sign_count := 3;
  cr_created_at := 1700000000; cr_last_used_at := 0; cr_aaguid := replicate 16 Byte.x07;
  cr_has_aaguid := 1; cr_transports := Some (bs "usb,nfc") |}.

Lemma sample_credential_wf : cred_wf sample_credential.
Proof.
  split; cbn; try (eexists; split_and!; [done|done|reflexivity]);
    try (eexists; split; done); unfold INT32_MIN, INT32_MAX, UINT32_MAX, INT64_MIN, INT64_MAX;
    try lia.
  - by left.
  - right. by eexists.
Qed.

(** The store with that record and its index. *)
Definition credential_db : db :=
  Db {[ record_key_of (bs "webauthn:") (bs "Y3JlZA") := VHash (put_hash sample_credential ∅);
        index_key_of (bs "webauthn:") (bs "alice") := VSet {[ bs "Y3JlZA" ]} ]} ∅.

Definition sample_id : ngx_str_t := Some (bs "Y3JlZA").

Lemma credential_put_get_witness :
  mini_run (ngx_auth_webauthn_credential_put open_redis (Some tt) (Some sample_prefix)
              (Some sample_credential)) empty_db = Some (NGX_OK, credential_db) /\
  wp (rc <- ngx_auth_webauthn_credential_put open_redis (Some tt) (Some sample_prefix)
              (Some sample_credential) ;;
      got <- ngx_auth_webauthn_credential_get open_redis (Some tt) (Some sample_prefix)
               (Some sample_id) (Some (cred_zero NULL)) ;;
      Ret (rc, got))
     (fun '(rc, (rc', got)) _ => rc = NGX_OK ->
        rc' <> NGX_DECLINED /\ (rc' = NGX_OK -> got = Some sample_credential)) empty_db.
Proof.
  split; [vm_compute; reflexivity|].
  refine (credential_put_get sample_prefix sample_credential (cred_zero NULL) empty_db
            sample_credential_wf _ _ _); reflexivity.
Defined.

Lemma credential_get_correct_witness :
  mini_run (ngx_auth_webauthn_credential_get open_redis (Some tt) (Some sample_prefix)
              (Some sample_id) (Some (cred_zero NULL))) credential_db
    = Some ((NGX_OK, Some sample_credential), credential_db) /\
  wp (ngx_auth_webauthn_credential_get open_redis (Some tt) (Some sample_prefix)
        (Some sample_id) (Some (cred_zero NULL)))
     (get_post sample_id (rkey sample_prefix sample_id) credential_db) credential_db.
Proof.
  split; [vm_compute; reflexivity|].
  refine (proj1 (credential_get_correct sample_prefix sample_id (cred_zero NULL) credential_db
            _ _)); reflexivity.
Defined.

Lemma credential_update_counter_correct_witness :
  wp (ngx_auth_webauthn_credential_update_counter open_redis (Some tt) (Some sample_prefix)
        (Some sample_id) 9 1700000100)
     (effect (fun s s' => exists h h', hash_at s (rkey sample_prefix sample_id) = Some h /\
        kv s' = <[rkey sample_prefix sample_id := VHash h']> (kv s) /\ ttl s' = ttl s /\
        cred_of sample_id h' = with_counters (cred_of sample_id h) 9 1700000100 /\
        (usable h -> usable h') /\ (h = ∅ -> ~ usable h')) credential_db) credential_db.
Proof.
  apply (credential_update_counter_correct sample_prefix sample_id 9 1700000100 credential_db);
    done.
Defined.

(** The user id of a stored record fits. *)
Definition user_fits (o : option value) : bool :=
  match o with
  | Some (VHash h) => zlen (str_bytes (h !! NGX_AUTH_WEBAUTHN_CRED_F_USER_ID)) <? 2 ^ 32
  | _ => true
  end.

Lemma credential_delete_correct_witness :
  mini_run (ngx_auth_webauthn_credential_delete open_redis (Some tt) (Some sample_prefix)
              (Some sample_id)) credential_db = Some (NGX_OK, empty_db) /\
  wp (ngx_auth_webauthn_credential_delete open_redis (Some tt) (Some sample_prefix)
        (Some sample_id)) (delete_post sample_prefix sample_id credential_db) credential_db /\
  wp (ngx_auth_webauthn_credential_delete open_redis (Some tt) (Some sample_prefix)
        (Some sample_id))
     (fun _ h => deleted_first (rkey sample_prefix sample_id) h) ([] : trace).
Proof.
  split; [vm_compute; reflexivity|].
  refine (credential_delete_correct sample_prefix sample_id credential_db _ _ _ _);
    [reflexivity|reflexivity|done|].
  intros h Hh. assert (user_fits (kv credential_db !! rkey sample_prefix sample_id) = true) as Hf
    by (vm_compute; reflexivity).
  rewrite Hh in Hf. by apply Z.ltb_lt.
Defined.
