(* ===== verification/Conf.v ===== *)
(** * Location configuration: the data of src/ngx_http_auth_webauthn_module.c

    The configuration record the handlers read and the per-request context of
    the access gate.  Setting and merging are in ConfMerge.v. *)

From S2P Require Import Prelude.
#[global] Open Scope Z_scope.

Definition NGX_AUTH_WEBAUTHN_JTI_LEN : Z := 16.
Definition NGX_AUTH_WEBAUTHN_MAX_BODY : Z := 64 * 1024.

Definition NGX_AUTH_WEBAUTHN_JWT_HMAC : Z := 0.
Definition NGX_AUTH_WEBAUTHN_JWT_ASYM : Z := 1.

Definition NGX_AUTH_WEBAUTHN_UV_REQUIRED : Z := 0.
Definition NGX_AUTH_WEBAUTHN_UV_PREFERRED : Z := 1.
Definition NGX_AUTH_WEBAUTHN_UV_DISCOURAGED : Z := 2.

(** The compiled value of a set_header directive is nginx's. *)
Record ngx_http_auth_webauthn_header_t := {
  hdr_name : ngx_str_t;
  hdr_value : bytes;
}.

Record ngx_http_auth_webauthn_loc_conf_t := {
  rp_id : ngx_str_t;
  rp_name : ngx_str_t;
  origins : ptr (list ngx_str_t);
  challenge_ttl : Z;
  user_verification : Z;
  rate_limit_max : Z;
  rate_limit_window : Z;
  redis_url : ngx_str_t;
  redis_host : ngx_str_t;
  redis_port : Z;
  redis_password : ngx_str_t;
  redis_db : Z;
  redis_timeout : Z;
  redis_key_prefix : ngx_str_t;
  jwt_secret_file : ngx_str_t;
  jwt_secret : ngx_str_t;
  jwt_pub_pem : ngx_str_t;
  jwt_alg : ngx_str_t;
  jwt_alg_family : Z;
  jwt_ttl : Z;
  cookie_name : ngx_str_t;
  cookie_domain : ngx_str_t;
  cookie_path : ngx_str_t;
  cookie_secure : bool;
  cookie_samesite : Z;
  clone_detection : Z;
  auth : bool;
  signin_url : ngx_str_t;
  set_headers : ptr (list ngx_http_auth_webauthn_header_t);
  challenge_handler : bool;
  verify_handler : bool;
}.

Record ngx_http_auth_webauthn_ctx_t := {
  ctx_user_id : ngx_str_t;
  ctx_credential_id : ngx_str_t;
  ctx_auth_status : ngx_str_t;
  ctx_jwt_exp : Z;
  ctx_has_exp : bool;
}.
