(* ===== verification/ConfMerge.v ===== *)
(** * Configuration: directives, inheritance and key loading

    The configuration-time half of src/ngx_http_auth_webauthn_module.c: the
    command table, the directive parsers, [create_loc_conf], [merge_loc_conf]
    with the loading of the JWT key, and what the module registers.  [settle]
    turns a merged configuration into the record of Conf.v that the handlers
    read; the theorems show that it always can, and what then holds of it. *)

From stdpp Require Import functions.
From S2P Require Import Prelude Effects Externals Samples Assertion Redis Conf.
#[global] Open Scope Z_scope.

Definition NGX_LOG_EMERG : Z := 1.

(** ** A configuration under construction

    [-1] in the signed and unsigned fields, and [(void * ) -1], mean that a
    directive has not been given. *)
Definition NGX_CONF_UNSET : Z := -1.
Definition NGX_CONF_UNSET_UINT : Z := UINT64_MAX.
Definition NGX_CONF_UNSET_MSEC : Z := UINT64_MAX.

Inductive conf_ptr (A : Type) := CONF_UNSET_PTR | CONF_PTR (p : ptr A).
Arguments CONF_UNSET_PTR {A}.
Arguments CONF_PTR {A} p.

(** What a directive handler returns: NULL, [(void * ) -1] or a message. *)
Inductive conf_rv := NGX_CONF_OK | NGX_CONF_ERROR | conf_error (msg : bytes).

(** The string and the integer fields of the structure, by their offset. *)
Inductive str_field :=
  | O_rp_id | O_rp_name | O_redis_url | O_redis_host | O_redis_password | O_redis_key_prefix
  | O_jwt_secret_file | O_jwt_secret | O_jwt_pub_pem | O_jwt_alg | O_cookie_name
  | O_cookie_domain | O_cookie_path | O_signin_url.

Inductive num_field :=
  | O_challenge_ttl | O_user_verification | O_rate_limit_max | O_rate_limit_window
  | O_redis_port | O_redis_db | O_redis_timeout | O_jwt_alg_family | O_jwt_ttl
  | O_cookie_secure | O_cookie_samesite | O_clone_detection | O_auth
  | O_challenge_handler | O_verify_handler.

#[export] Instance str_field_eq_dec : EqDecision str_field.
Proof. solve_decision. Defined.
#[export] Instance num_field_eq_dec : EqDecision num_field.
Proof. solve_decision. Defined.

Record raw_conf := {
  str : str_field -> ngx_str_t;
  num : num_field -> Z;
  raw_origins : conf_ptr (list ngx_str_t);
  raw_headers : conf_ptr (list ngx_http_auth_webauthn_header_t);
}.

Definition set_str (f : str_field) (s : ngx_str_t) (c : raw_conf) : raw_conf :=
  {| str := <[f := s]> (str c); num := num c; raw_origins := raw_origins c;
     raw_headers := raw_headers c |}.
Definition set_num (f : num_field) (v : Z) (c : raw_conf) : raw_conf :=
  {| str := str c; num := <[f := v]> (num c); raw_origins := raw_origins c;
     raw_headers := raw_headers c |}.
Definition set_origins (p : conf_ptr (list ngx_str_t)) (c : raw_conf) : raw_conf :=
  {| str := str c; num := num c; raw_origins := p; raw_headers := raw_headers c |}.
Definition set_headers_ptr (p : conf_ptr (list ngx_http_auth_webauthn_header_t)) (c : raw_conf)
    : raw_conf :=
  {| str := str c; num := num c; raw_origins := raw_origins c; raw_headers := p |}.

(** ** The configuration functions of the nginx core *)

Class NginxConf := {
  (** the field, the argument; the verdict and the new field *)
  ngx_conf_set_str_slot : ngx_str_t -> bytes -> conf_rv * ngx_str_t;
  ngx_conf_set_sec_slot : Z -> bytes -> conf_rv * Z;
  ngx_conf_set_msec_slot : Z -> bytes -> conf_rv * Z;
  ngx_conf_set_num_slot : Z -> bytes -> conf_rv * Z;
  ngx_conf_set_flag_slot : Z -> bytes -> conf_rv * Z;
  ngx_conf_set_enum_slot : list (bytes * Z) -> Z -> bytes -> conf_rv * Z;
  (** the field, the parent's, the default *)
  ngx_conf_merge_str_value : ngx_str_t -> ngx_str_t -> bytes -> ngx_str_t;
  ngx_conf_merge_value : Z -> Z -> Z -> Z;
  ngx_conf_merge_sec_value : Z -> Z -> Z -> Z;
  ngx_conf_merge_uint_value : Z -> Z -> Z -> Z;
  ngx_conf_merge_msec_value : Z -> Z -> Z -> Z;
  ngx_conf_merge_ptr_value : forall A, conf_ptr A -> conf_ptr A -> ptr A -> conf_ptr A;
  (** [None]: NGX_ERROR *)
  ngx_atoi : bytes -> option Z;
  ngx_parse_time : bytes -> option Z;
  (** the offset of the first occurrence *)
  ngx_strlchr : bytes -> byte -> option nat;
  (** [Some compiled] when it returns NGX_OK *)
  ngx_http_compile_complex_value : bytes -> option bytes;
}.

(** A set field is kept, an unset one takes the parent's value, or the default
    when that is unset too. *)
Definition merged_num (unset conf prev default : Z) : Z :=
  if conf =? unset then if prev =? unset then default else prev else conf.

(** Documented results, of the slots only when they succeed. *)
Class NginxConfLaws `{NginxConf} := {
  set_str_law : forall s b s', ngx_conf_set_str_slot s b = (NGX_CONF_OK, s') -> s' = Some b;
  set_sec_law : forall z b z', ngx_conf_set_sec_slot z b = (NGX_CONF_OK, z') ->
    0 <= z' <= INT64_MAX;
  set_msec_law : forall z b z', ngx_conf_set_msec_slot z b = (NGX_CONF_OK, z') ->
    0 <= z' <= INT64_MAX;
  set_num_law : forall z b z', ngx_conf_set_num_slot z b = (NGX_CONF_OK, z') ->
    0 <= z' <= INT64_MAX;
  set_flag_law : forall z b z', ngx_conf_set_flag_slot z b = (NGX_CONF_OK, z') ->
    z' = 0 \/ z' = 1;
  set_enum_law : forall t z b z', ngx_conf_set_enum_slot t z b = (NGX_CONF_OK, z') -> z' ∈ t.*2;
  merge_str_law : forall c p d, ngx_conf_merge_str_value c p d =
    match c, p with Some s, _ => Some s | None, Some s => Some s | None, None => Some d end;
  merge_value_law : forall c p d, ngx_conf_merge_value c p d = merged_num NGX_CONF_UNSET c p d;
  merge_sec_law : forall c p d, ngx_conf_merge_sec_value c p d = merged_num NGX_CONF_UNSET c p d;
  merge_uint_law : forall c p d,
    ngx_conf_merge_uint_value c p d = merged_num NGX_CONF_UNSET_UINT c p d;
  merge_msec_law : forall c p d,
    ngx_conf_merge_msec_value c p d = merged_num NGX_CONF_UNSET_MSEC c p d;
  merge_ptr_law : forall A (c p : conf_ptr A) d, ngx_conf_merge_ptr_value A c p d =
    match c, p with
    | CONF_PTR x, _ => CONF_PTR x
    | CONF_UNSET_PTR, CONF_PTR x => CONF_PTR x
    | CONF_UNSET_PTR, CONF_UNSET_PTR => CONF_PTR d
    end;
  atoi_law : forall b v, ngx_atoi b = Some v -> 0 <= v <= INT64_MAX;
  parse_time_law : forall b v, ngx_parse_time b = Some v -> 0 <= v <= INT64_MAX;
  strlchr_law : forall s c i, ngx_strlchr s c = Some i -> s !! i = Some c;
}.

(** Reading private keys and writing public ones as PEM, of OpenSSL. *)
Class OpenSSLPem `{OpenSSL} := {
  PEM_read_bio_PrivateKey : bytes -> option EVP_PKEY;
  (** [None] when it does not return 1 *)
  PEM_write_bio_PUBKEY : EVP_PKEY -> option bytes;
}.

(** A PEM text is not empty, and a memory BIO's length is an int's. *)
Class OpenSSLPemLaws `{OpenSSLPem} := {
  pem_nonempty : PEM_read_bio_PrivateKey [] = None;
  pem_len : forall k pem, PEM_write_bio_PUBKEY k = Some pem -> zlen pem < 2 ^ 31;
}.

(** ** Files *)

(** Return code and [*out]; the caller never reads [*out] after NGX_ERROR. *)
Definition ngx_http_auth_webauthn_read_file (path : bytes) : prog (ngx_rc * ngx_str_t) :=
  full <- call (ngx_conf_full_name path) ;;
  match full with
  | None => Ret (NGX_ERROR, NULL)
  | Some full =>
      fd <- call (ngx_open_file full) ;;
      if negb fd then
        call (ngx_log_error NGX_LOG_EMERG
                (bs "auth_webauthn: cannot open " ++ [Byte.x22] ++ full ++ [Byte.x22])) ;;
        Ret (NGX_ERROR, NULL)
      else
      fi <- call ngx_fd_info ;;
      match fi with
      | None => call (res_free R_FILE) ;; Ret (NGX_ERROR, NULL)
      | Some len =>
          data <- call (ngx_pnalloc (size_t len)) ;;
          if negb data then call (res_free R_FILE) ;; Ret (NGX_ERROR, NULL) else
          n <- call (ngx_read_file (size_t len)) ;;
          call (res_free R_FILE) ;;
          match n with
          | None =>
              call (ngx_log_error NGX_LOG_EMERG
                      (bs "auth_webauthn: cannot read " ++ [Byte.x22] ++ full ++ [Byte.x22])) ;;
              Ret (NGX_ERROR, NULL)
          | Some content =>
              if negb (zlen content =? size_t len) then
                call (ngx_log_error NGX_LOG_EMERG
                        (bs "auth_webauthn: cannot read " ++ [Byte.x22] ++ full ++ [Byte.x22])) ;;
                Ret (NGX_ERROR, NULL)
              else Ret (NGX_OK, Some content)
          end
      end
  end.

(** [c == '\n' || c == '\r']. *)
Definition is_newline (c : byte) : bool :=
  bool_decide (c = Byte.x0a) || bool_decide (c = Byte.x0d).

(** The loop on [s->len]. *)
Fixpoint chomp_loop (data : bytes) (len : nat) : nat :=
  match len with
  | O => O
  | S n => if is_newline (nth n data Byte.x00) then chomp_loop data n else S n
  end.

Definition ngx_http_auth_webauthn_chomp (s : ngx_str_t) : ngx_str_t :=
  (fun data => take (chomp_loop data (length data)) data) <$> s.

Section conf.
Context `{CONF : NginxConf, SSL : OpenSSL, !OpenSSLPem}.

(** Return code and [*out].  [BIO_new_mem_buf] takes an [int] length, and
    measures a string itself when that is negative. *)
Definition ngx_http_auth_webauthn_derive_pub_pem (priv : bytes) : prog (ngx_rc * ngx_str_t) :=
  if int32 (zlen priv) <? 0 then UB else
  in_ <- call (res_new R_BIO) ;;
  if negb in_ then Ret (NGX_ERROR, NULL) else
  room <- call (lib_call (bs "PEM_read_bio_PrivateKey")) ;;
  let pkey := if room then PEM_read_bio_PrivateKey (take (Z.to_nat (int32 (zlen priv))) priv)
              else NULL in
  match pkey with
  | None =>
      call (res_free R_BIO) ;;
      call (ngx_log_error NGX_LOG_EMERG
              (bs "auth_webauthn: jwt_secret_file is not a PEM private key")) ;;
      Ret (NGX_ERROR, NULL)
  | Some pkey =>
      call (res_hold R_EVP_PKEY) ;;
      call (res_free R_BIO) ;;
      mem <- call (res_new R_BIO) ;;
      if negb mem then call (res_free R_EVP_PKEY) ;; Ret (NGX_ERROR, NULL) else
      room <- call (lib_call (bs "PEM_write_bio_PUBKEY")) ;;
      out <- match (if room then PEM_write_bio_PUBKEY pkey else None) with
             | None => Ret (NGX_ERROR, NULL)
             | Some pem =>
                 data <- pool_fill (zlen pem) pem ;;
                 match data with
                 | None => Ret (NGX_ERROR, NULL)
                 | Some d => Ret (NGX_OK, Some d)
                 end
             end ;;
      call (res_free R_BIO) ;;
      call (res_free R_EVP_PKEY) ;;
      Ret out
  end.

(** ** Creation *)

(** What [create_loc_conf] assigns to each integer field. *)
Definition unset_num (f : num_field) : Z :=
  match f with
  | O_challenge_ttl => NGX_CONF_UNSET
  | O_user_verification => NGX_CONF_UNSET_UINT
  | O_rate_limit_max => NGX_CONF_UNSET_UINT
  | O_rate_limit_window => NGX_CONF_UNSET
  | O_redis_port => NGX_CONF_UNSET
  | O_redis_db => NGX_CONF_UNSET_UINT
  | O_redis_timeout => NGX_CONF_UNSET_MSEC
  | O_jwt_alg_family => NGX_CONF_UNSET_UINT
  | O_jwt_ttl => NGX_CONF_UNSET
  | O_cookie_secure => NGX_CONF_UNSET
  | O_cookie_samesite => NGX_CONF_UNSET_UINT
  | O_clone_detection => NGX_CONF_UNSET_UINT
  | O_auth => NGX_CONF_UNSET
  | O_challenge_handler => NGX_CONF_UNSET
  | O_verify_handler => NGX_CONF_UNSET
  end.

(** [ngx_pcalloc] leaves the strings zeroed. *)
Definition created : raw_conf :=
  {| str := fun _ => NULL; num := unset_num; raw_origins := CONF_UNSET_PTR;
     raw_headers := CONF_UNSET_PTR |}.

Definition ngx_http_auth_webauthn_create_loc_conf (size : Z) : prog (ptr raw_conf) :=
  conf <- call (ngx_pnalloc size) ;;
  if negb conf then Ret NULL else Ret (Some created).

(** ** Directive parsers

    [args] is [cf->args]: the directive's name, then its arguments. *)

(** [value[i]]. *)
Definition arg (args : list bytes) (i : nat) : prog bytes := defined (args !! i).

(** [ngx_strcmp(a, literal) == 0]. *)
Definition strcmp_eq (a literal : bytes) : bool := bytes_eqb (c_string a) literal.

(** The loop pushes [value[1]], [value[2]], ...; each push may need room. *)
Fixpoint push_origins (values : list bytes) (pushed : list ngx_str_t)
    : prog (conf_rv * list ngx_str_t) :=
  match values with
  | [] => Ret (NGX_CONF_OK, pushed)
  | v :: values =>
      origin <- call (lib_call (bs "ngx_array_push")) ;;
      if negb origin then Ret (NGX_CONF_ERROR, pushed)
      else push_origins values (pushed ++ [Some v])
  end.

(** [ngx_array_create] when the array is unset, and its elements so far. *)
Definition array_of {A} (p : conf_ptr (list A)) : prog (option (list A)) :=
  match p with
  | CONF_UNSET_PTR =>
      ok <- call (lib_call (bs "ngx_array_create")) ;;
      Ret (if ok then Some [] else None)
  | CONF_PTR a => l <- deref a ;; Ret (Some l)
  end.

Definition ngx_http_auth_webauthn_conf_set_origin (args : list bytes) (wlcf : raw_conf)
    : prog (conf_rv * raw_conf) :=
  array <- array_of (raw_origins wlcf) ;;
  match array with
  | None => Ret (NGX_CONF_ERROR, wlcf)
  | Some l =>
      out <- push_origins (drop 1 args) l ;;
      Ret (out.1, set_origins (CONF_PTR (Some out.2)) wlcf)
  end.

Definition ngx_http_auth_webauthn_conf_set_set_header (args : list bytes) (wlcf : raw_conf)
    : prog (conf_rv * raw_conf) :=
  array <- array_of (raw_headers wlcf) ;;
  match array with
  | None => Ret (NGX_CONF_ERROR, wlcf)
  | Some l =>
      hdr <- call (lib_call (bs "ngx_array_push")) ;;
      if negb hdr then Ret (NGX_CONF_ERROR, set_headers_ptr (CONF_PTR (Some l)) wlcf) else
      name <- arg args 1 ;;
      text <- arg args 2 ;;
      room <- call (lib_call (bs "ngx_http_compile_complex_value")) ;;
      match (if room then ngx_http_compile_complex_value text else None) with
      | None =>
          Ret (NGX_CONF_ERROR, set_headers_ptr
                 (CONF_PTR (Some (l ++ [{| hdr_name := Some name; hdr_value := [] |}]))) wlcf)
      | Some value =>
          Ret (NGX_CONF_OK, set_headers_ptr
                 (CONF_PTR (Some (l ++ [{| hdr_name := Some name; hdr_value := value |}]))) wlcf)
      end
  end.

Definition ngx_http_auth_webauthn_conf_set_redis (args : list bytes) (wlcf : raw_conf)
    : prog (conf_rv * raw_conf) :=
  if negb (str_len (str wlcf O_redis_host) =? 0) then Ret (conf_error (bs "is duplicate"), wlcf)
  else
  value <- arg args 1 ;;
  let wlcf := set_str O_redis_url (Some value) wlcf in
  match ngx_strlchr value Byte.x3a with
  | None => Ret (conf_error (bs "expects <host>:<port>"), wlcf)
  | Some colon =>
      if (colon =? 0)%nat || (Z.of_nat colon =? zlen value - 1) then
        Ret (conf_error (bs "expects <host>:<port>"), wlcf)
      else
      let wlcf := set_str O_redis_host (Some (take colon value)) wlcf in
      match ngx_atoi (drop (S colon) value) with
      | None => Ret (conf_error (bs "has an invalid port"), wlcf)
      | Some port =>
          if (port <=? 0) || (65535 <? port) then
            Ret (conf_error (bs "has an invalid port"), wlcf)
          else Ret (NGX_CONF_OK, set_num O_redis_port port wlcf)
      end
  end.

(** [ngx_strncmp(value, "file:", 5) == 0]. *)
Definition has_file_prefix (value : bytes) : bool := memeq value (bs "file:") 5.

Definition ngx_http_auth_webauthn_conf_set_redis_password (args : list bytes) (wlcf : raw_conf)
    : prog (conf_rv * raw_conf) :=
  value <- arg args 1 ;;
  if has_file_prefix value then
    out <- ngx_http_auth_webauthn_read_file (drop 5 value) ;;
    if negb (is_ok out.1) then Ret (NGX_CONF_ERROR, wlcf)
    else Ret (NGX_CONF_OK, set_str O_redis_password (ngx_http_auth_webauthn_chomp out.2) wlcf)
  else Ret (NGX_CONF_OK, set_str O_redis_password (Some value) wlcf).

Definition ngx_http_auth_webauthn_conf_set_jwt_alg (args : list bytes) (wlcf : raw_conf)
    : prog (conf_rv * raw_conf) :=
  value <- arg args 1 ;;
  let family :=
    if strcmp_eq value (bs "HS256") then Some NGX_AUTH_WEBAUTHN_JWT_HMAC
    else if strcmp_eq value (bs "RS256") || strcmp_eq value (bs "ES256")
    then Some NGX_AUTH_WEBAUTHN_JWT_ASYM
    else None in
  match family with
  | None => Ret (conf_error (bs "must be one of HS256, RS256, ES256"), wlcf)
  | Some family =>
      Ret (NGX_CONF_OK, set_str O_jwt_alg (Some value) (set_num O_jwt_alg_family family wlcf))
  end.

Definition expects_off : bytes :=
  bs "expects " ++ [Byte.x22] ++ bs "off" ++ [Byte.x22] ++ bs " or a positive <max> count".

Definition ngx_http_auth_webauthn_conf_set_rate_limit (args : list bytes) (wlcf : raw_conf)
    : prog (conf_rv * raw_conf) :=
  value <- arg args 1 ;;
  if (length args =? 2)%nat && strcmp_eq value (bs "off") then
    Ret (NGX_CONF_OK, set_num O_rate_limit_max 0 wlcf)
  else
  match ngx_atoi value with
  | None => Ret (conf_error expects_off, wlcf)
  | Some max =>
      if max <=? 0 then Ret (conf_error expects_off, wlcf)
      else
      let wlcf := set_num O_rate_limit_max max wlcf in
      if (length args =? 3)%nat then
        text <- arg args 2 ;;
        match ngx_parse_time text with
        | None => Ret (conf_error (bs "has an invalid <window>"), wlcf)
        | Some window =>
            if window <=? 0 then Ret (conf_error (bs "has an invalid <window>"), wlcf)
            else Ret (NGX_CONF_OK, set_num O_rate_limit_window window wlcf)
        end
      else Ret (NGX_CONF_OK, wlcf)
  end.

Definition ngx_http_auth_webauthn_conf_set_challenge_handler (args : list bytes) (wlcf : raw_conf)
    : prog (conf_rv * raw_conf) :=
  value <- arg args 1 ;;
  let '(rv, flag) := ngx_conf_set_flag_slot (num wlcf O_challenge_handler) value in
  let wlcf := set_num O_challenge_handler flag wlcf in
  match rv with
  | NGX_CONF_OK =>
      if negb (flag =? 0) then
        call (clcf_handler (bs "ngx_http_auth_webauthn_challenge_content")) ;;
        Ret (NGX_CONF_OK, wlcf)
      else Ret (NGX_CONF_OK, wlcf)
  | rv => Ret (rv, wlcf)
  end.

Definition ngx_http_auth_webauthn_conf_set_verify_handler (args : list bytes) (wlcf : raw_conf)
    : prog (conf_rv * raw_conf) :=
  value <- arg args 1 ;;
  let '(rv, flag) := ngx_conf_set_flag_slot (num wlcf O_verify_handler) value in
  let wlcf := set_num O_verify_handler flag wlcf in
  match rv with
  | NGX_CONF_OK =>
      if negb (flag =? 0) then
        call (clcf_handler (bs "ngx_http_auth_webauthn_verify_content")) ;;
        Ret (NGX_CONF_OK, wlcf)
      else Ret (NGX_CONF_OK, wlcf)
  | rv => Ret (rv, wlcf)
  end.

(** ** The command table *)

Inductive conf_level := NGX_HTTP_MAIN_CONF | NGX_HTTP_SRV_CONF | NGX_HTTP_LOC_CONF.
Inductive conf_count := NGX_CONF_TAKE1 | NGX_CONF_TAKE2 | NGX_CONF_TAKE12 | NGX_CONF_1MORE
  | NGX_CONF_FLAG.

#[export] Instance conf_level_eq_dec : EqDecision conf_level.
Proof. solve_decision. Defined.

(** The number of arguments, the directive's name included. *)
Definition count_ok (count : conf_count) (nelts : nat) : bool :=
  match count with
  | NGX_CONF_TAKE1 | NGX_CONF_FLAG => nelts =? 2
  | NGX_CONF_TAKE2 => nelts =? 3
  | NGX_CONF_TAKE12 => (nelts =? 2) || (nelts =? 3)
  | NGX_CONF_1MORE => 2 <=? nelts
  end%nat.

Record ngx_command_t := {
  cmd_name : bytes;
  cmd_levels : list conf_level;
  cmd_count : conf_count;
  cmd_set : list bytes -> raw_conf -> prog (conf_rv * raw_conf);
}.

(** [ngx_conf_set_*_slot] on the field at an offset. *)
Definition str_slot (f : str_field) (args : list bytes) (conf : raw_conf)
    : prog (conf_rv * raw_conf) :=
  value <- arg args 1 ;;
  let '(rv, s) := ngx_conf_set_str_slot (str conf f) value in Ret (rv, set_str f s conf).
Definition num_slot (set : Z -> bytes -> conf_rv * Z) (f : num_field) (args : list bytes)
    (conf : raw_conf) : prog (conf_rv * raw_conf) :=
  value <- arg args 1 ;;
  let '(rv, z) := set (num conf f) value in Ret (rv, set_num f z conf).

Definition ngx_http_auth_webauthn_clone_enum : list (bytes * Z) :=
  [(bs "strict", NGX_AUTH_WEBAUTHN_CLONE_STRICT); (bs "lax", NGX_AUTH_WEBAUTHN_CLONE_LAX);
   (bs "off", NGX_AUTH_WEBAUTHN_CLONE_OFF)].
Definition ngx_http_auth_webauthn_samesite_enum : list (bytes * Z) :=
  [(bs "strict", 0); (bs "lax", 1); (bs "none", 2)].
Definition ngx_http_auth_webauthn_uv_enum : list (bytes * Z) :=
  [(bs "required", NGX_AUTH_WEBAUTHN_UV_REQUIRED); (bs "preferred", NGX_AUTH_WEBAUTHN_UV_PREFERRED);
   (bs "discouraged", NGX_AUTH_WEBAUTHN_UV_DISCOURAGED)].

Definition anywhere : list conf_level := [NGX_HTTP_MAIN_CONF; NGX_HTTP_SRV_CONF; NGX_HTTP_LOC_CONF].
Definition below_main : list conf_level := [NGX_HTTP_SRV_CONF; NGX_HTTP_LOC_CONF].

Definition command (name : bytes) (levels : list conf_level) (count : conf_count)
    (set : list bytes -> raw_conf -> prog (conf_rv * raw_conf)) : ngx_command_t :=
  {| cmd_name := name; cmd_levels := levels; cmd_count := count; cmd_set := set |}.

Definition ngx_http_auth_webauthn_commands : list ngx_command_t := [
  command (bs "auth_webauthn_rp_id") anywhere NGX_CONF_TAKE1 (str_slot O_rp_id);
  command (bs "auth_webauthn_rp_name") anywhere NGX_CONF_TAKE1 (str_slot O_rp_name);
  command (bs "auth_webauthn_origin") anywhere NGX_CONF_1MORE ngx_http_auth_webauthn_conf_set_origin;
  command (bs "auth_webauthn_challenge_ttl") anywhere NGX_CONF_TAKE1
    (num_slot ngx_conf_set_sec_slot O_challenge_ttl);
  command (bs "auth_webauthn_user_verification") anywhere NGX_CONF_TAKE1
    (num_slot (ngx_conf_set_enum_slot ngx_http_auth_webauthn_uv_enum) O_user_verification);
  command (bs "auth_webauthn_challenge_rate_limit") anywhere NGX_CONF_TAKE12
    ngx_http_auth_webauthn_conf_set_rate_limit;
  command (bs "auth_webauthn_redis") anywhere NGX_CONF_TAKE1 ngx_http_auth_webauthn_conf_set_redis;
  command (bs "auth_webauthn_redis_password") anywhere NGX_CONF_TAKE1
    ngx_http_auth_webauthn_conf_set_redis_password;
  command (bs "auth_webauthn_redis_db") anywhere NGX_CONF_TAKE1
    (num_slot ngx_conf_set_num_slot O_redis_db);
  command (bs "auth_webauthn_redis_timeout") anywhere NGX_CONF_TAKE1
    (num_slot ngx_conf_set_msec_slot O_redis_timeout);
  command (bs "auth_webauthn_redis_key_prefix") anywhere NGX_CONF_TAKE1 (str_slot O_redis_key_prefix);
  command (bs "auth_webauthn_jwt_secret_file") anywhere NGX_CONF_TAKE1 (str_slot O_jwt_secret_file);
  command (bs "auth_webauthn_jwt_alg") anywhere NGX_CONF_TAKE1 ngx_http_auth_webauthn_conf_set_jwt_alg;
  command (bs "auth_webauthn_jwt_ttl") anywhere NGX_CONF_TAKE1
    (num_slot ngx_conf_set_sec_slot O_jwt_ttl);
  command (bs "auth_webauthn_jwt_cookie_name") anywhere NGX_CONF_TAKE1 (str_slot O_cookie_name);
  command (bs "auth_webauthn_jwt_cookie_domain") anywhere NGX_CONF_TAKE1 (str_slot O_cookie_domain);
  command (bs "auth_webauthn_jwt_cookie_path") anywhere NGX_CONF_TAKE1 (str_slot O_cookie_path);
  command (bs "auth_webauthn_jwt_cookie_secure") anywhere NGX_CONF_FLAG
    (num_slot ngx_conf_set_flag_slot O_cookie_secure);
  command (bs "auth_webauthn_jwt_cookie_samesite") anywhere NGX_CONF_TAKE1
    (num_slot (ngx_conf_set_enum_slot ngx_http_auth_webauthn_samesite_enum) O_cookie_samesite);
  command (bs "auth_webauthn_clone_detection") anywhere NGX_CONF_TAKE1
    (num_slot (ngx_conf_set_enum_slot ngx_http_auth_webauthn_clone_enum) O_clone_detection);
  command (bs "auth_webauthn") below_main NGX_CONF_FLAG (num_slot ngx_conf_set_flag_slot O_auth);
  command (bs "auth_webauthn_signin_url") below_main NGX_CONF_TAKE1 (str_slot O_signin_url);
  command (bs "auth_webauthn_set_header") below_main NGX_CONF_TAKE2
    ngx_http_auth_webauthn_conf_set_set_header;
  command (bs "auth_webauthn_challenge_handler") [NGX_HTTP_LOC_CONF] NGX_CONF_FLAG
    ngx_http_auth_webauthn_conf_set_challenge_handler;
  command (bs "auth_webauthn_verify_handler") [NGX_HTTP_LOC_CONF] NGX_CONF_FLAG
    ngx_http_auth_webauthn_conf_set_verify_handler
].

(** ** Merging *)

Definition merge_str (conf prev : raw_conf) (f : str_field) : ngx_str_t :=
  let merge := ngx_conf_merge_str_value (str conf f) (str prev f) in
  match f with
  | O_rp_id => merge (bs "")
  | O_rp_name => merge (bs "")
  | O_redis_url => merge (bs "")
  | O_redis_host => merge (bs "")
  | O_redis_password => merge (bs "")
  | O_redis_key_prefix => merge (bs "webauthn:")
  | O_jwt_secret_file => merge (bs "")
  | O_jwt_secret => merge (bs "")
  | O_jwt_pub_pem => merge (bs "")
  | O_jwt_alg => merge (bs "HS256")
  | O_cookie_name => merge (bs "webauthn_session")
  | O_cookie_domain => merge (bs "")
  | O_cookie_path => merge (bs "/")
  | O_signin_url => merge (bs "")
  end.

Definition merge_num (conf prev : raw_conf) (f : num_field) : Z :=
  match f with
  | O_challenge_ttl => ngx_conf_merge_sec_value (num conf f) (num prev f) 60
  | O_user_verification =>
      ngx_conf_merge_uint_value (num conf f) (num prev f) NGX_AUTH_WEBAUTHN_UV_PREFERRED
  | O_rate_limit_max => ngx_conf_merge_uint_value (num conf f) (num prev f) 0
  | O_rate_limit_window => ngx_conf_merge_sec_value (num conf f) (num prev f) 60
  | O_redis_port => ngx_conf_merge_value (num conf f) (num prev f) 0
  | O_redis_db => ngx_conf_merge_uint_value (num conf f) (num prev f) 0
  | O_redis_timeout => ngx_conf_merge_msec_value (num conf f) (num prev f) 100
  | O_jwt_alg_family =>
      ngx_conf_merge_uint_value (num conf f) (num prev f) NGX_AUTH_WEBAUTHN_JWT_HMAC
  | O_jwt_ttl => ngx_conf_merge_sec_value (num conf f) (num prev f) 3600
  | O_cookie_secure => ngx_conf_merge_value (num conf f) (num prev f) 1
  | O_cookie_samesite => ngx_conf_merge_uint_value (num conf f) (num prev f) 0
  | O_clone_detection =>
      ngx_conf_merge_uint_value (num conf f) (num prev f) NGX_AUTH_WEBAUTHN_CLONE_STRICT
  | O_auth => ngx_conf_merge_value (num conf f) (num prev f) 0
  | O_challenge_handler => ngx_conf_merge_value (num conf f) (num prev f) 0
  | O_verify_handler => ngx_conf_merge_value (num conf f) (num prev f) 0
  end.

(** The inheritance part. *)
Definition inherit (prev conf : raw_conf) : raw_conf :=
  {| str := merge_str conf prev; num := merge_num conf prev;
     raw_origins := ngx_conf_merge_ptr_value _ (raw_origins conf) (raw_origins prev) NULL;
     raw_headers := ngx_conf_merge_ptr_value _ (raw_headers conf) (raw_headers prev) NULL |}.

(** The condition for loading the key. *)
Definition loads_key (conf : raw_conf) : bool :=
  (negb (num conf O_auth =? 0) || negb (num conf O_verify_handler =? 0))
  && (str_len (str conf O_jwt_secret) =? 0) && (0 <? str_len (str conf O_jwt_secret_file)).

(** What is done with the file's content. *)
Definition use_key (secret : ngx_str_t) (conf : raw_conf) : prog (conf_rv * raw_conf) :=
  let conf := set_str O_jwt_secret secret conf in
  if num conf O_jwt_alg_family =? NGX_AUTH_WEBAUTHN_JWT_HMAC then
    let conf := set_str O_jwt_secret (ngx_http_auth_webauthn_chomp (str conf O_jwt_secret)) conf in
    if str_len (str conf O_jwt_secret) <? 32 then
      call (ngx_log_error NGX_LOG_EMERG
              (bs "auth_webauthn: HMAC jwt secret must be at least 32 bytes")) ;;
      Ret (NGX_CONF_ERROR, conf)
    else Ret (NGX_CONF_OK, conf)
  else
    pub <- ngx_http_auth_webauthn_derive_pub_pem (str_bytes (str conf O_jwt_secret)) ;;
    if negb (is_ok pub.1) then Ret (NGX_CONF_ERROR, conf)
    else Ret (NGX_CONF_OK, set_str O_jwt_pub_pem pub.2 conf).

Definition load_key (conf : raw_conf) : prog (conf_rv * raw_conf) :=
  out <- ngx_http_auth_webauthn_read_file (str_bytes (str conf O_jwt_secret_file)) ;;
  if negb (is_ok out.1) then Ret (NGX_CONF_ERROR, conf) else use_key out.2 conf.

Definition ngx_http_auth_webauthn_merge_loc_conf (prev conf : raw_conf)
    : prog (conf_rv * raw_conf) :=
  let conf := inherit prev conf in
  if loads_key conf then load_key conf else Ret (NGX_CONF_OK, conf).
End conf.

(** ** What the module registers *)

(** Name and [data] of each variable; all have the same handler. *)
Definition ngx_http_auth_webauthn_vars : list (bytes * Z) :=
  [(bs "webauthn_user_id", 0); (bs "webauthn_credential_id", 1);
   (bs "webauthn_auth_status", 2); (bs "webauthn_jwt_exp", 3)].

Fixpoint add_variables (vars : list (bytes * Z)) : prog ngx_rc :=
  match vars with
  | [] => Ret NGX_OK
  | (name, data) :: vars =>
      var <- call (ngx_http_add_variable name) ;;
      if negb var then Ret NGX_ERROR else
      call (var_handler name data) ;;
      add_variables vars
  end.

Definition ngx_http_auth_webauthn_preconfiguration : prog ngx_rc :=
  add_variables ngx_http_auth_webauthn_vars.

Definition ngx_http_auth_webauthn_postconfiguration : prog ngx_rc :=
  ok <- call (nxe_phase_add_handler (bs "auth_webauthn")) ;;
  if negb ok then Ret NGX_ERROR else Ret NGX_OK.

(** ** The configuration the handlers see *)

Definition all_str : list str_field :=
  [O_rp_id; O_rp_name; O_redis_url; O_redis_host; O_redis_password; O_redis_key_prefix;
   O_jwt_secret_file; O_jwt_secret; O_jwt_pub_pem; O_jwt_alg; O_cookie_name; O_cookie_domain;
   O_cookie_path; O_signin_url].
Definition all_num : list num_field :=
  [O_challenge_ttl; O_user_verification; O_rate_limit_max; O_rate_limit_window; O_redis_port;
   O_redis_db; O_redis_timeout; O_jwt_alg_family; O_jwt_ttl; O_cookie_secure; O_cookie_samesite;
   O_clone_detection; O_auth; O_challenge_handler; O_verify_handler].

(** The record of Conf.v, when nothing is left unset. *)
Definition settle (c : raw_conf) : option ngx_http_auth_webauthn_loc_conf_t :=
  if forallb (fun f => negb (nullp (str c f))) all_str &&
     forallb (fun f => negb (num c f =? unset_num f)) all_num then
    match raw_origins c, raw_headers c with
    | CONF_PTR origins, CONF_PTR headers => Some {|
        rp_id := str c O_rp_id; rp_name := str c O_rp_name; origins := origins;
        challenge_ttl := num c O_challenge_ttl; user_verification := num c O_user_verification;
        rate_limit_max := num c O_rate_limit_max; rate_limit_window := num c O_rate_limit_window;
        redis_url := str c O_redis_url; redis_host := str c O_redis_host;
        redis_port := num c O_redis_port; redis_password := str c O_redis_password;
        redis_db := num c O_redis_db; redis_timeout := num c O_redis_timeout;
        redis_key_prefix := str c O_redis_key_prefix;
        jwt_secret_file := str c O_jwt_secret_file; jwt_secret := str c O_jwt_secret;
        jwt_pub_pem := str c O_jwt_pub_pem; jwt_alg := str c O_jwt_alg;
        jwt_alg_family := num c O_jwt_alg_family; jwt_ttl := num c O_jwt_ttl;
        cookie_name := str c O_cookie_name; cookie_domain := str c O_cookie_domain;
        cookie_path := str c O_cookie_path; cookie_secure := negb (num c O_cookie_secure =? 0);
        cookie_samesite := num c O_cookie_samesite; clone_detection := num c O_clone_detection;
        auth := negb (num c O_auth =? 0); signin_url := str c O_signin_url;
        set_headers := headers; challenge_handler := negb (num c O_challenge_handler =? 0);
        verify_handler := negb (num c O_verify_handler =? 0) |}
    | _, _ => None
    end
  else None.

(** The values a directive can give an integer field, defaults included. *)
Definition num_range (f : num_field) : Z * Z :=
  match f with
  | O_challenge_ttl | O_rate_limit_max | O_redis_db | O_redis_timeout | O_jwt_ttl => (0, INT64_MAX)
  | O_rate_limit_window => (1, INT64_MAX)
  | O_redis_port => (0, 65535)
  | O_user_verification | O_cookie_samesite | O_clone_detection => (0, 2)
  | O_jwt_alg_family | O_cookie_secure | O_auth | O_challenge_handler | O_verify_handler => (0, 1)
  end.
Definition num_ok (f : num_field) (z : Z) : Prop := (num_range f).1 <= z <= (num_range f).2.

(** The algorithm's name and its family agree. *)
Definition alg_names (alg : bytes) (family : Z) : Prop :=
  (c_string alg = bs "HS256" /\ family = NGX_AUTH_WEBAUTHN_JWT_HMAC) \/
  (c_string alg ∈ [bs "RS256"; bs "ES256"] /\ family = NGX_AUTH_WEBAUTHN_JWT_ASYM).

(** No server, or a host and a port. *)
Definition endpoint (host : bytes) (port : Z) : Prop :=
  (host = [] /\ port = 0) \/ (host <> [] /\ 1 <= port <= 65535).

(** An HMAC secret: long enough, no newline at its end. *)
Definition hmac_key (k : bytes) : Prop :=
  32 <= zlen k /\ forall c, list.last k = Some c -> is_newline c = false.

Section invariant.
Context `{CONF : NginxConf, SSL : OpenSSL, PEM : !OpenSSLPem}.

(** What the two key fields can hold: nothing yet, nothing, an HMAC secret, or
    a private key with its public half. *)
Inductive keys_ok : ngx_str_t -> ngx_str_t -> Prop :=
  | keys_unset : keys_ok NULL NULL
  | keys_none : keys_ok (Some []) (Some [])
  | keys_hmac k : hmac_key k -> keys_ok (Some k) (Some [])
  | keys_pair k pkey pem : k <> [] -> PEM_read_bio_PrivateKey k = Some pkey ->
      PEM_write_bio_PUBKEY pkey = Some pem -> keys_ok (Some k) (Some pem).

(** A string and an integer field that are given together. *)
Definition paired (P : bytes -> Z -> Prop) (f : str_field) (g : num_field) (c : raw_conf) : Prop :=
  (str c f = NULL /\ num c g = unset_num g) \/
  (exists s, str c f = Some s /\ num c g <> unset_num g /\ P s (num c g)).

Record conf_wf (c : raw_conf) : Prop := {
  wf_num : forall f, num c f = unset_num f \/ num_ok f (num c f);
  wf_redis : paired endpoint O_redis_host O_redis_port c;
  wf_alg : paired alg_names O_jwt_alg O_jwt_alg_family c;
  wf_keys : keys_ok (str c O_jwt_secret) (str c O_jwt_pub_pem);
}.

(** While directives are being read, the arrays are unset or exist. *)
Definition growing (c : raw_conf) : Prop :=
  raw_origins c <> CONF_PTR NULL /\ raw_headers c <> CONF_PTR NULL.

(** What a directive handler keeps: nothing held, and a good configuration
    when it succeeds. *)
Definition keeps (set : list bytes -> raw_conf -> prog (conf_rv * raw_conf)) (count : conf_count) :=
  forall args c (w : held), count_ok count (length args) = true -> conf_wf c -> growing c ->
  wp (set args c) (fun out (w' : held) => w' = w /\
        (out.1 = NGX_CONF_OK -> conf_wf out.2 /\ growing out.2)) w.

Lemma created_wf : conf_wf created /\ growing created.
Proof. by split; [split; [auto|by left|by left|constructor]|]. Qed.

(** The fields a plain string slot may set. *)
Definition plain (f : str_field) : bool :=
  match f with O_redis_host | O_jwt_alg | O_jwt_secret | O_jwt_pub_pem => false | _ => true end.

Lemma set_str_other f g s c : f <> g -> str (set_str f s c) g = str c g.
Proof. intros. by apply fn_lookup_insert_ne. Qed.

Lemma set_str_same f s c : str (set_str f s c) f = s.
Proof. apply fn_lookup_insert. Qed.

Lemma set_num_other f g z c : f <> g -> num (set_num f z c) g = num c g.
Proof. intros. by apply fn_lookup_insert_ne. Qed.

Lemma set_num_same f z c : num (set_num f z c) f = z.
Proof. apply fn_lookup_insert. Qed.

Lemma set_plain_wf f s c : plain f = true -> conf_wf c -> conf_wf (set_str f s c).
Proof.
  intros Hf [H1 H2 H3 H4].
  assert (forall g, plain g = false -> str (set_str f s c) g = str c g) as E.
  { intros g Hg. apply set_str_other. congruence. }
  split; unfold paired; rewrite ?E by done; done.
Qed.

(** The fields an integer slot may set alone. *)
Definition plain_num (f : num_field) : bool :=
  match f with O_redis_port | O_jwt_alg_family => false | _ => true end.

Lemma set_num_range f z c g : num_ok f z ->
  num c g = unset_num g \/ num_ok g (num c g) ->
  num (set_num f z c) g = unset_num g \/ num_ok g (num (set_num f z c) g).
Proof.
  intros Hz Hg. destruct (decide (f = g)) as [<-|Hne].
  - rewrite set_num_same. by right.
  - by rewrite set_num_other.
Qed.

Lemma set_plain_num_wf f z c :
  plain_num f = true -> num_ok f z -> conf_wf c -> conf_wf (set_num f z c).
Proof.
  intros Hf Hz [H1 H2 H3 H4].
  assert (forall g, plain_num g = false -> num (set_num f z c) g = num c g) as E.
  { intros g Hg. apply set_num_other. congruence. }
  split; unfold paired; rewrite ?E by done; [|done..].
  intros g. by apply set_num_range.
Qed.

(** ** Every directive keeps the invariant *)

Lemma arg_held {B} args i (f : bytes -> prog B) Q (w : held) : (i < length args)%nat ->
  (forall v, args !! i = Some v -> wp (f v) Q w) -> wp (bind (arg args i) f) Q w.
Proof.
  intros Hi Hf. unfold arg. destruct (args !! i) as [v|] eqn:E; [by apply Hf|].
  apply lookup_ge_None in E. lia.
Qed.

(** A directive of exactly one argument, or of one or two, has the first. *)
Ltac first_arg :=
  match goal with
  | H : count_ok _ _ = true |- _ =>
      apply arg_held; [cbn [count_ok] in H; rewrite ?orb_true_iff, ?Nat.eqb_eq, ?Nat.leb_le in H; lia|]
  end.

Lemma str_slot_keeps `{!NginxConfLaws} f : plain f = true -> keeps (str_slot f) NGX_CONF_TAKE1.
Proof.
  intros Hf args c w Hn Hc Hg. unfold str_slot. first_arg. intros v _.
  destruct (ngx_conf_set_str_slot _ _) as [rv s]. split; [done|]. intros _.
  split; [by apply set_plain_wf|done].
Qed.

Lemma num_slot_keeps count set f : count_ok count = count_ok NGX_CONF_TAKE1 ->
  plain_num f = true -> (forall z b z', set z b = (NGX_CONF_OK, z') -> num_ok f z') ->
  keeps (num_slot set f) count.
Proof.
  intros Hcount Hf Hset args c w Hn Hc Hg. rewrite Hcount in Hn. unfold num_slot.
  first_arg. intros v _. destruct (set _ _) as [rv z] eqn:E. split; [done|].
  cbn [fst snd]. intros ->. split; [apply set_plain_num_wf; eauto|done].
Qed.

Lemma enum_slot_ok `{!NginxConfLaws} t f : (forall z, z ∈ t.*2 -> num_ok f z) ->
  forall z b z', ngx_conf_set_enum_slot t z b = (NGX_CONF_OK, z') -> num_ok f z'.
Proof. intros Ht z b z' E. by eapply Ht, set_enum_law. Qed.

Lemma array_of_held {A} (p : conf_ptr (list A)) Q (w : held) : p <> CONF_PTR NULL ->
  Q None w -> (forall l, Q (Some l) w) -> wp (array_of p) Q w.
Proof. intros Hp H0 H1. destruct p as [|[l|]]; [|by apply H1|done]. cbn [array_of]. held_steps. Qed.

Lemma push_origins_held values pushed Q (w : held) :
  (forall out, Q out w) -> wp (push_origins values pushed) Q w.
Proof.
  intros HQ. revert pushed. induction values as [|v values IH]; intros pushed; [by apply HQ|].
  cbn [push_origins]. held_steps.
Qed.

Lemma set_origin_keeps : keeps ngx_http_auth_webauthn_conf_set_origin NGX_CONF_1MORE.
Proof.
  intros args c w _ Hc [Ho Hh]. apply wp_bind, array_of_held; [done|done|]. intros l.
  apply wp_bind, push_origins_held. intros out. split; [done|]. intros _. split; [|done].
  by destruct Hc.
Qed.

Lemma set_set_header_keeps : keeps ngx_http_auth_webauthn_conf_set_set_header NGX_CONF_TAKE2.
Proof.
  intros args c w Hn Hc [Ho Hh]. apply wp_bind, array_of_held; [done|done|]. intros l.
  apply wp_bind, wp_held_call; [done|]. intros [] _; [|done]. cbn [negb].
  first_arg. intros name _. first_arg. intros text _.
  apply wp_bind, wp_held_call; [done|]. intros room _.
  destruct (if room then _ else _) as [value|]; [|done].
  split; [done|]. intros _. split; [by destruct Hc|done].
Qed.

Lemma take_nonempty {A} n (l : list A) : (0 < n < length l)%nat -> take n l <> [].
Proof. intros Hn E. apply (f_equal length) in E. rewrite length_take in E. cbn in E. lia. Qed.

Lemma set_redis_keeps `{!NginxConfLaws} :
  keeps ngx_http_auth_webauthn_conf_set_redis NGX_CONF_TAKE1.
Proof.
  intros args c w Hn Hc Hg. unfold ngx_http_auth_webauthn_conf_set_redis.
  destruct (negb _); [done|]. first_arg. intros value _.
  destruct (ngx_strlchr _ _) as [colon|] eqn:Hcolon; [|done].
  destruct (_ || _) eqn:Hedge; [done|].
  destruct (ngx_atoi _) as [port|]; [|done].
  destruct ((port <=? 0) || _) eqn:Hport; [done|].
  apply strlchr_law, lookup_lt_Some in Hcolon.
  apply orb_false_iff in Hedge as [He _], Hport as [Hp1%Z.leb_gt Hp2%Z.ltb_ge].
  apply Nat.eqb_neq in He. split; [done|]. intros _. split; [|done]. cbn [snd].
  destruct (set_plain_wf O_redis_url (Some value) c eq_refl Hc) as [H1 H2 H3 H4]. split.
  - intros g. apply set_num_range; [split; cbn; lia|apply H1].
  - right. exists (take colon value). rewrite set_num_same. split_and!; [done|by intros ->|].
    right. split; [|lia]. apply take_nonempty. lia.
  - exact H3.
  - exact H4.
Qed.

Lemma read_file_held path Q (w : held) :
  Q (NGX_ERROR, NULL) w -> (forall b, zlen b < 2 ^ 31 -> Q (NGX_OK, Some b) w) ->
  wp (ngx_http_auth_webauthn_read_file path) Q w.
Proof.
  intros H0 H1. unfold ngx_http_auth_webauthn_read_file. held_steps.
  apply H1.
  match goal with H : negb _ = false |- _ => apply negb_false_iff, Z.eqb_eq in H; rewrite H end.
  match goal with H : forall n, Some ?z = Some n -> 0 <= n < _ |- _ => specialize (H z eq_refl) end.
  rewrite size_t_small; lia.
Qed.

Lemma set_redis_password_keeps :
  keeps ngx_http_auth_webauthn_conf_set_redis_password NGX_CONF_TAKE1.
Proof.
  intros args c w Hn Hc Hg. unfold ngx_http_auth_webauthn_conf_set_redis_password.
  first_arg. intros value _. destruct (has_file_prefix value).
  - apply wp_bind, read_file_held; [done|]. intros b _. split; [done|]. intros _.
    split; [by apply set_plain_wf|done].
  - split; [done|]. intros _. split; [by apply set_plain_wf|done].
Qed.

Lemma strcmp_eq_true a l : strcmp_eq a l = true <-> c_string a = l.
Proof. apply bytes_eqb_eq. Qed.

Lemma set_alg_wf value family c : alg_names value family -> conf_wf c ->
  conf_wf (set_str O_jwt_alg (Some value) (set_num O_jwt_alg_family family c)).
Proof.
  intros Ha [H1 H2 H3 H4]. split; [|exact H2| |exact H4].
  - intros g. apply (set_num_range O_jwt_alg_family); [|apply H1].
    destruct Ha as [[_ ->]|[_ ->]]; by vm_compute.
  - right. exists value. split_and!; [done| |done]. by destruct Ha as [[_ ->]|[_ ->]].
Qed.

Lemma set_jwt_alg_keeps : keeps ngx_http_auth_webauthn_conf_set_jwt_alg NGX_CONF_TAKE1.
Proof.
  intros args c w Hn Hc Hg. unfold ngx_http_auth_webauthn_conf_set_jwt_alg.
  first_arg. intros value _. destruct (strcmp_eq value (bs "HS256")) eqn:E1.
  - split; [done|]. intros _. split; [|done]. apply set_alg_wf; [|done]. left.
    by apply strcmp_eq_true in E1.
  - destruct (strcmp_eq value (bs "RS256") || _) eqn:E2; [|done].
    split; [done|]. intros _. split; [|done]. apply set_alg_wf; [|done]. right. split; [|done].
    apply orb_true_iff in E2 as [E%strcmp_eq_true|E%strcmp_eq_true]; rewrite E; set_solver.
Qed.

Lemma set_rate_limit_keeps `{!NginxConfLaws} :
  keeps ngx_http_auth_webauthn_conf_set_rate_limit NGX_CONF_TAKE12.
Proof.
  intros args c w Hn Hc Hg. unfold ngx_http_auth_webauthn_conf_set_rate_limit.
  first_arg. intros value _. destruct (_ && _) eqn:Hoff.
  { split; [done|]. intros _. split; [by apply set_plain_num_wf|done]. }
  destruct (ngx_atoi value) as [max|] eqn:Hmax; [|done]. apply atoi_law in Hmax.
  destruct (max <=? 0); [done|].
  assert (conf_wf (set_num O_rate_limit_max max c)) as Hc' by by apply set_plain_num_wf.
  destruct (length args =? 3)%nat eqn:H3; [|by split].
  apply Nat.eqb_eq in H3. apply arg_held; [lia|]. intros text _.
  destruct (ngx_parse_time text) as [window|] eqn:Hw; [|done]. apply parse_time_law in Hw.
  destruct (Z.leb_spec window 0); [done|]. split; [done|]. intros _.
  split; [|done]. apply set_plain_num_wf; [done| |done]. split; cbn; lia.
Qed.

Lemma set_handler_keeps `{!NginxConfLaws} :
  keeps ngx_http_auth_webauthn_conf_set_challenge_handler NGX_CONF_FLAG /\
  keeps ngx_http_auth_webauthn_conf_set_verify_handler NGX_CONF_FLAG.
Proof.
  split; intros args c w Hn Hc Hg;
    unfold ngx_http_auth_webauthn_conf_set_challenge_handler,
      ngx_http_auth_webauthn_conf_set_verify_handler;
    first_arg; intros value _; destruct (ngx_conf_set_flag_slot _ _) as [rv flag] eqn:E;
    (destruct rv; [|done|done]); apply set_flag_law in E;
    destruct (negb _); (try (apply wp_bind, wp_held_call; [done|]; intros [] _));
    (split; [done|]); intros _; (split; [|done]); apply set_plain_num_wf; try done;
    (destruct E as [-> | ->]; split; cbn; lia).
Qed.

(** Whatever directive of the table nginx calls. *)
Lemma commands_keep `{!NginxConfLaws} cmd :
  cmd ∈ ngx_http_auth_webauthn_commands -> keeps (cmd_set cmd) (cmd_count cmd).
Proof.
  destruct set_handler_keeps as [Hch Hvh]. revert cmd. apply list.Forall_forall.
  repeat apply Forall_cons_2; [..|constructor];
    cbn [cmd_set cmd_count command];
    first [ by apply str_slot_keeps | apply set_origin_keeps | apply set_set_header_keeps
          | apply set_redis_keeps | apply set_redis_password_keeps | apply set_jwt_alg_keeps
          | apply set_rate_limit_keeps | exact Hch | exact Hvh
          | apply num_slot_keeps; [done|done|] ].
  all: try (apply enum_slot_ok; intros z Hz; repeat (apply elem_of_cons in Hz as [->|Hz]; [by vm_compute|]);
            by apply elem_of_nil in Hz).
  all: intros z b z' E;
    first [ by apply set_sec_law in E | by apply set_msec_law in E | by apply set_num_law in E
          | apply set_flag_law in E as [-> | ->]; by vm_compute ].
Qed.

(** ** Trailing newlines *)

Lemma chomp_loop_spec data len : (len <= length data)%nat ->
  (chomp_loop data len <= len)%nat /\
  Forall (fun c => is_newline c = true) (drop (chomp_loop data len) (take len data)) /\
  forall c, list.last (take (chomp_loop data len) data) = Some c -> is_newline c = false.
Proof.
  induction len as [|n IH]; intros Hn; [done|]. cbn [chomp_loop].
  destruct (lookup_lt_is_Some_2 data n) as [c Hc]; [lia|].
  rewrite (nth_lookup_Some _ _ _ _ Hc). destruct (is_newline c) eqn:Ec.
  - destruct IH as (H1 & H2 & H3); [lia|]. split_and!; [lia| |done].
    rewrite (take_S_r _ _ c) by done. rewrite drop_app_le by (rewrite length_take; lia).
    apply Forall_app. split; [done|]. by repeat constructor.
  - split_and!; [done|by rewrite drop_ge by (rewrite length_take; lia)|].
    intros c' Hl. rewrite (take_S_r _ _ c) in Hl by done. rewrite last_snoc in Hl. congruence.
Qed.

(** [k] is [data] without the newlines at its end. *)
Definition chomped (data k : bytes) : Prop :=
  (exists rest, data = k ++ rest /\ Forall (fun c => is_newline c = true) rest) /\
  forall c, list.last k = Some c -> is_newline c = false.

Lemma chomp_chomped data :
  exists k, ngx_http_auth_webauthn_chomp (Some data) = Some k /\ chomped data k.
Proof.
  destruct (chomp_loop_spec data (length data)) as (H1 & H2 & H3); [done|].
  eexists. split; [done|]. split; [|exact H3].
  exists (drop (chomp_loop data (length data)) data). rewrite take_drop. split; [done|].
  by rewrite firstn_all in H2.
Qed.

(** ** Merging keeps the invariant and leaves nothing unset *)

Definition str_default (f : str_field) : bytes :=
  match f with
  | O_redis_key_prefix => bs "webauthn:"
  | O_jwt_alg => bs "HS256"
  | O_cookie_name => bs "webauthn_session"
  | O_cookie_path => bs "/"
  | _ => []
  end.

Definition num_default (f : num_field) : Z :=
  match f with
  | O_challenge_ttl | O_rate_limit_window => 60
  | O_user_verification | O_cookie_secure => 1
  | O_redis_timeout => 100
  | O_jwt_ttl => 3600
  | _ => 0
  end.

(** Own value, else the parent's, else the default. *)
Definition inherits_str (conf prev : raw_conf) (f : str_field) : bytes :=
  default (default (str_default f) (str prev f)) (str conf f).

Lemma merge_str_value `{!NginxConfLaws} conf prev f :
  merge_str conf prev f = Some (inherits_str conf prev f).
Proof.
  unfold inherits_str. destruct f; cbn [merge_str str_default]; rewrite merge_str_law;
    (destruct (str conf _); [done|]); by destruct (str prev _).
Qed.

Lemma merge_num_value `{!NginxConfLaws} conf prev f :
  merge_num conf prev f = merged_num (unset_num f) (num conf f) (num prev f) (num_default f).
Proof.
  destruct f; cbn [merge_num unset_num num_default];
    first [apply merge_value_law | apply merge_sec_law | apply merge_uint_law | apply merge_msec_law].
Qed.

Record settled (c : raw_conf) : Prop := {
  st_str : forall f, str c f <> NULL;
  st_num : forall f, num c f <> unset_num f;
  st_arrays : raw_origins c <> CONF_UNSET_PTR /\ raw_headers c <> CONF_UNSET_PTR;
}.

Lemma num_ok_set f z : num_ok f z -> z <> unset_num f.
Proof.
  unfold num_ok. intros [H1 H2] ->. destruct f; vm_compute in H1, H2; (by apply H1) || (by apply H2).
Qed.

Lemma default_ok f : num_ok f (num_default f).
Proof. destruct f; by vm_compute. Qed.

Lemma merged_num_ok f c p : (c = unset_num f \/ num_ok f c) -> (p = unset_num f \/ num_ok f p) ->
  num_ok f (merged_num (unset_num f) c p (num_default f)).
Proof.
  unfold merged_num. intros [-> |Hc] Hp.
  - rewrite Z.eqb_refl. destruct (Z.eqb_spec p (unset_num f)); [apply default_ok|]. by destruct Hp.
  - pose proof (num_ok_set _ _ Hc). by destruct (Z.eqb_spec c (unset_num f)).
Qed.

Lemma inherit_num_ok `{!NginxConfLaws} prev c f : conf_wf prev -> conf_wf c ->
  num_ok f (num (inherit prev c) f).
Proof.
  intros Hp Hc. cbn [inherit num]. rewrite merge_num_value. apply merged_num_ok; by apply wf_num.
Qed.

Lemma inherit_settled `{!NginxConfLaws} prev c :
  conf_wf prev -> conf_wf c -> settled (inherit prev c).
Proof.
  intros Hp Hc. split.
  - intros f. cbn [inherit str]. by rewrite merge_str_value.
  - intros f. by apply num_ok_set, inherit_num_ok.
  - cbn [inherit raw_origins raw_headers]. rewrite !merge_ptr_law.
    split; [destruct (raw_origins c), (raw_origins prev)|destruct (raw_headers c), (raw_headers prev)]; done.
Qed.

Lemma inherit_paired `{!NginxConfLaws} P f g prev c :
  P (str_default f) (num_default g) -> num_default g <> unset_num g ->
  paired P f g c -> paired P f g prev -> paired P f g (inherit prev c).
Proof.
  intros Hd Hg Hc Hp. right. cbn [inherit str num]. rewrite merge_str_value, merge_num_value.
  unfold inherits_str, merged_num. eexists. split; [done|].
  destruct Hc as [[-> ->]|(s & -> & Hs & HP)].
  - rewrite Z.eqb_refl. destruct Hp as [[-> ->]|(s & -> & Hs & HP)].
    + by rewrite Z.eqb_refl.
    + by destruct (Z.eqb_spec (num prev g) (unset_num g)).
  - by destruct (Z.eqb_spec (num c g) (unset_num g)).
Qed.

Lemma inherit_keys `{!NginxConfLaws} prev c : conf_wf prev -> conf_wf c ->
  keys_ok (str (inherit prev c) O_jwt_secret) (str (inherit prev c) O_jwt_pub_pem).
Proof.
  intros Hp Hc. cbn [inherit str]. rewrite !merge_str_value. unfold inherits_str.
  destruct (wf_keys _ Hc); [|by econstructor..].
  destruct (wf_keys _ Hp); by econstructor.
Qed.

Lemma inherit_wf `{!NginxConfLaws} prev c :
  conf_wf prev -> conf_wf c -> conf_wf (inherit prev c).
Proof.
  intros Hp Hc. split.
  - intros f. right. by apply inherit_num_ok.
  - apply inherit_paired; [by left|done|by apply wf_redis..].
  - apply inherit_paired; [by left|done|by apply wf_alg..].
  - by apply inherit_keys.
Qed.

(** A merged configuration without a secret has no public key either. *)
Lemma no_key c : conf_wf c -> settled c -> str_len (str c O_jwt_secret) = 0 ->
  str c O_jwt_secret = Some [] /\ str c O_jwt_pub_pem = Some [].
Proof.
  intros Hc Hs Hl. pose proof (st_str _ Hs O_jwt_secret) as Hn.
  destruct (wf_keys _ Hc) as [| |k [Hk _]|k pkey pem Hk]; [done|done| |].
  - rewrite str_len_zlen in Hl. cbn in Hl. lia.
  - by apply str_len_0 in Hl.
Qed.

Lemma set_keys_settled f s c : settled c -> settled (set_str f (Some s) c).
Proof.
  intros [H1 H2 H3]. split; [|done|done]. intros g.
  destruct (decide (f = g)) as [<-|Hne]; [by rewrite set_str_same|by rewrite set_str_other].
Qed.

Lemma set_keys_wf s p c : keys_ok s p -> conf_wf c ->
  conf_wf (set_str O_jwt_pub_pem p (set_str O_jwt_secret s c)).
Proof. intros Hk [H1 H2 H3 H4]. by split. Qed.

(** The call a program makes next. *)
Ltac eff_step := apply wp_bind, wp_held_call; [cbn [held_pre]; solve [done | eauto with held]|].

Lemma derive_held `{!OpenSSLPemLaws} priv Q (w : held) : zlen priv < 2 ^ 31 ->
  Q (NGX_ERROR, NULL) w ->
  (forall pkey pem, PEM_read_bio_PrivateKey priv = Some pkey ->
     PEM_write_bio_PUBKEY pkey = Some pem -> Q (NGX_OK, Some pem) w) ->
  wp (ngx_http_auth_webauthn_derive_pub_pem priv) Q w.
Proof.
  intros Hl H0 H1. unfold ngx_http_auth_webauthn_derive_pub_pem. pose proof (zlen_nonneg priv).
  rewrite int32_small by (unfold INT32_MIN, INT32_MAX; lia).
  destruct (Z.ltb_spec (zlen priv) 0); [lia|]. rewrite take_ge by (unfold zlen; lia).
  eff_step. intros [] _; [|done]. cbn [negb held_next].
  eff_step. intros room _. cbn [held_next]. cbv zeta.
  destruct (if room then _ else _) as [pkey|] eqn:Hread.
  2: { do 2 (eff_step; intros [] _; cbn [held_next]).
       by autorewrite with held_rw. }
  destruct room; [|done].
  do 2 (eff_step; intros [] _; cbn [held_next]).
  replace ((w ⊎ {[+ R_BIO +]} ⊎ {[+ R_EVP_PKEY +]}) ∖ {[+ R_BIO +]}) with (w ⊎ {[+ R_EVP_PKEY +]})
    by multiset_solver.
  eff_step. intros [] _; cbn [negb held_next].
  2: { eff_step. intros [] _. cbn [held_next]. by autorewrite with held_rw. }
  eff_step. intros room _. cbn [held_next].
  apply wp_bind, (wp_mono _ (fun out (w' : held) =>
    w' = w ⊎ {[+ R_EVP_PKEY +]} ⊎ {[+ R_BIO +]} /\ Q out w)).
  { intros out w' [-> HQ].
    do 2 (eff_step; intros [] _; cbn [held_next]; autorewrite with held_rw).
    done. }
  destruct room; [|done]. destruct (PEM_write_bio_PUBKEY pkey) as [pem|] eqn:Hw; [|done].
  pose proof (pem_len _ _ Hw). pose proof (zlen_nonneg pem).
  apply wp_bind, pool_fill_held; [rewrite size_t_small; lia|done|]. split; [done|]. by eapply H1.
Qed.

(** ** Loading the key *)

(** All but the two key fields. *)
Definition same_but_keys (c c' : raw_conf) : Prop :=
  (forall f, f <> O_jwt_secret -> f <> O_jwt_pub_pem -> str c' f = str c f) /\
  num c' = num c /\ raw_origins c' = raw_origins c /\ raw_headers c' = raw_headers c.

(** The key fields after the file held [content]: for an HMAC algorithm the
    secret without its trailing newlines, otherwise the private key and the
    public key derived from it. *)
Definition key_loaded (content : bytes) (c c' : raw_conf) : Prop :=
  same_but_keys c c' /\
  ((num c O_jwt_alg_family = NGX_AUTH_WEBAUTHN_JWT_HMAC /\
    exists k, chomped content k /\ 32 <= zlen k /\ str c' O_jwt_secret = Some k /\
      str c' O_jwt_pub_pem = str c O_jwt_pub_pem) \/
   (num c O_jwt_alg_family <> NGX_AUTH_WEBAUTHN_JWT_HMAC /\
    exists pkey pem, PEM_read_bio_PrivateKey content = Some pkey /\
      PEM_write_bio_PUBKEY pkey = Some pem /\
      str c' O_jwt_secret = Some content /\ str c' O_jwt_pub_pem = Some pem)).

Lemma set_key_same f s c : f = O_jwt_secret \/ f = O_jwt_pub_pem -> same_but_keys c (set_str f s c).
Proof.
  intros Hf. split_and!; [|done..]. intros g H1 H2. apply set_str_other.
  by destruct Hf as [-> | ->].
Qed.

Lemma same_but_keys_trans a b c : same_but_keys a b -> same_but_keys b c -> same_but_keys a c.
Proof.
  intros (H1 & H2 & H3 & H4) (K1 & K2 & K3 & K4). split_and!; try congruence.
  intros f Hf Hg. by rewrite K1, H1.
Qed.

Lemma use_key_held `{!OpenSSLPemLaws} content c (w : held) : zlen content < 2 ^ 31 ->
  wp (use_key (Some content) c) (fun out (w' : held) => w' = w /\
        ((out.1 = NGX_CONF_OK /\ key_loaded content c out.2) \/ out.1 = NGX_CONF_ERROR)) w.
Proof.
  intros Hl. unfold use_key. destruct (chomp_chomped content) as (k & Hk & Hch).
  cbv zeta. rewrite !set_str_same, Hk. cbn [str_bytes]. set (c1 := set_str O_jwt_secret (Some content) c).
  assert (same_but_keys c c1) as H1 by (apply set_key_same; by left).
  destruct (Z.eqb_spec (num c1 O_jwt_alg_family) NGX_AUTH_WEBAUTHN_JWT_HMAC) as [Ef|Ef].
  - rewrite str_len_zlen. cbn [str_bytes]. destruct (Z.ltb_spec (zlen k) 32).
    { eff_step. intros [] _. split; [done|]. by right. }
    split; [done|]. left. split; [done|]. split.
    { eapply same_but_keys_trans; [exact H1|]. apply set_key_same. by left. }
    left. split; [done|]. exists k. cbn [snd]. rewrite set_str_same. by split_and!.
  - apply wp_bind, derive_held; [done|split; [done|by right]|]. intros pkey pem Hr Hw.
    split; [done|]. left. split; [done|]. cbn [snd]. split.
    { eapply same_but_keys_trans; [exact H1|]. apply set_key_same. by right. }
    right. split; [done|]. exists pkey, pem. rewrite set_str_same. by split_and!.
Qed.

Lemma loaded_keeps `{!OpenSSLPemLaws} content c c' : conf_wf c -> settled c ->
  str_len (str c O_jwt_secret) = 0 -> key_loaded content c c' -> conf_wf c' /\ settled c'.
Proof.
  intros Hc Hs Hl [(H1 & H2 & H3 & H4) Hk]. pose proof (no_key _ Hc Hs Hl) as [_ Ep].
  assert (keys_ok (str c' O_jwt_secret) (str c' O_jwt_pub_pem)) as Hkeys.
  { destruct Hk as [(_ & k & [_ Hch] & Hk & -> & ->)|(_ & pkey & pem & Hr & Hw & -> & ->)].
    - rewrite Ep. by constructor.
    - eapply keys_pair; [|done|done]. intros ->. by rewrite pem_nonempty in Hr. }
  split.
  - destruct Hc as [W1 W2 W3 _]. split; [by rewrite H2| | |done]; unfold paired; by rewrite H1, H2 by done.
  - destruct Hs as [S1 S2 S3]. split; [|by rewrite H2|by rewrite H3, H4]. intros f.
    destruct (decide (f = O_jwt_secret)) as [->|Hf].
    { by destruct Hk as [(_ & ? & _ & _ & -> & _)|(_ & ? & ? & _ & _ & -> & _)]. }
    destruct (decide (f = O_jwt_pub_pem)) as [->|Hg]; [|by rewrite H1].
    by destruct Hk as [(_ & ? & _ & _ & _ & ->)|(_ & ? & ? & _ & _ & _ & ->)].
Qed.

(** The calls by which a file was read whole. *)
Definition file_read (path content : bytes) (h : trace) : Prop :=
  exists full, h =
    [Ev (ngx_conf_full_name path) (Some full); Ev (ngx_open_file full) true;
     Ev ngx_fd_info (Some (zlen content)); Ev (ngx_pnalloc (zlen content)) true;
     Ev (ngx_read_file (zlen content)) (Some content); Ev (res_free R_FILE) tt].

Lemma read_file_trace path Q (h : trace) :
  (forall h', Q (NGX_ERROR, NULL) h') ->
  (forall content k, zlen content < 2 ^ 31 -> file_read path content k ->
     Q (NGX_OK, Some content) (h ++ k)) ->
  wp (ngx_http_auth_webauthn_read_file path) Q h.
Proof.
  intros H0 H1. unfold ngx_http_auth_webauthn_read_file.
  apply wp_bind, wp_trace_call. intros [full|] _; [|apply H0].
  apply wp_bind, wp_trace_call. intros [] _; cbn [negb].
  2: { apply wp_bind, wp_trace_call. intros [] _. apply H0. }
  apply wp_bind, wp_trace_call. intros [len|] Hlen.
  2: { apply wp_bind, wp_trace_call. intros [] _. apply H0. }
  specialize (Hlen len eq_refl). rewrite size_t_small by lia.
  apply wp_bind, wp_trace_call. intros [] _; cbn [negb].
  2: { apply wp_bind, wp_trace_call. intros [] _. apply H0. }
  apply wp_bind, wp_trace_call. intros content _.
  apply wp_bind, wp_trace_call. intros [] _. destruct content as [content|].
  2: { apply wp_bind, wp_trace_call. intros [] _. apply H0. }
  destruct (Z.eqb_spec (zlen content) len) as [<-|_]; cbn [negb].
  - rewrite <- !app_assoc. apply H1; [lia|]. by exists full.
  - apply wp_bind, wp_trace_call. intros [] _. apply H0.
Qed.

(** ** What merging does *)

(** What the location inherits. *)
Definition inherits (prev c c' : raw_conf) : Prop :=
  (forall f, str c' f = Some (inherits_str c prev f)) /\
  (forall f, num c' f = merged_num (unset_num f) (num c f) (num prev f) (num_default f)).

(** A value: the one given in this block, else the one given around it, else
    the default. *)
Inductive chosen {A} (own parent : option A) (dflt : A) : A -> Prop :=
  | chosen_own v : own = Some v -> chosen own parent dflt v
  | chosen_parent v : own = None -> parent = Some v -> chosen own parent dflt v
  | chosen_default : own = None -> parent = None -> chosen own parent dflt dflt.

Definition given_num (c : raw_conf) (f : num_field) : option Z :=
  if decide (num c f = unset_num f) then None else Some (num c f).
Definition given_array {A} (p : conf_ptr A) : option (ptr A) :=
  match p with CONF_PTR x => Some x | CONF_UNSET_PTR => None end.

(** Every field of [c1] is inherited in that way. *)
Record inherited (prev c c1 : raw_conf) : Prop := {
  in_str : forall f, exists v, str c1 f = Some v /\ chosen (str c f) (str prev f) (str_default f) v;
  in_num : forall f, chosen (given_num c f) (given_num prev f) (num_default f) (num c1 f);
  in_origins : exists v, raw_origins c1 = CONF_PTR v /\
    chosen (given_array (raw_origins c)) (given_array (raw_origins prev)) NULL v;
  in_headers : exists v, raw_headers c1 = CONF_PTR v /\
    chosen (given_array (raw_headers c)) (given_array (raw_headers prev)) NULL v;
}.

(** A location that checks or mints tokens, has no secret and names a file. *)
Definition needs_key (c : raw_conf) : Prop :=
  (num c O_auth <> 0 \/ num c O_verify_handler <> 0) /\
  str_bytes (str c O_jwt_secret) = [] /\ str_bytes (str c O_jwt_secret_file) <> [].

(** On success the location has its own values, its parent's or the defaults;
    when it needs a key, the key comes from the file, read in this run. *)
Definition merged (prev c : raw_conf) (out : conf_rv * raw_conf) (h : trace) : Prop :=
  exists c1, inherited prev c c1 /\
  match out.1 with
  | NGX_CONF_OK =>
      (~ needs_key c1 /\ out.2 = c1 /\ h = []) \/
      (needs_key c1 /\ exists content k l,
         file_read (str_bytes (str c1 O_jwt_secret_file)) content k /\
         key_loaded content c1 out.2 /\ h = k ++ l)
  | NGX_CONF_ERROR => needs_key c1
  | conf_error _ => False
  end.

Lemma inherit_inherited `{!NginxConfLaws} prev c : inherited prev c (inherit prev c).
Proof.
  split; cbn [inherit str num raw_origins raw_headers].
  - intros f. exists (inherits_str c prev f). rewrite merge_str_value. split; [done|].
    unfold inherits_str. destruct (str c f) eqn:E; [by constructor|].
    destruct (str prev f) eqn:E'; by constructor.
  - intros f. rewrite merge_num_value. unfold merged_num, given_num.
    destruct (Z.eqb_spec (num c f) (unset_num f)) as [E|E];
      [rewrite (decide_True _ _ E)|rewrite (decide_False _ _ E); by constructor].
    destruct (Z.eqb_spec (num prev f) (unset_num f)) as [E'|E'];
      [rewrite (decide_True _ _ E')|rewrite (decide_False _ _ E')]; by constructor.
  - rewrite merge_ptr_law. destruct (raw_origins c), (raw_origins prev); eexists; split; by constructor.
  - rewrite merge_ptr_law. destruct (raw_headers c), (raw_headers prev); eexists; split; by constructor.
Qed.

Lemma loads_key_needs c : loads_key c = true <-> needs_key c.
Proof.
  unfold loads_key, needs_key.
  rewrite !andb_true_iff, orb_true_iff, !negb_true_iff, !Z.eqb_neq, Z.eqb_eq, Z.ltb_lt, str_len_0.
  pose proof (str_len_0 (str c O_jwt_secret_file)) as H0. rewrite str_len_zlen in *.
  pose proof (zlen_nonneg (str_bytes (str c O_jwt_secret_file))).
  split; [intros [[? ?] ?]|intros (? & ? & ?)]; split_and!; try done; try (split; done); try tauto.
  - intros E%H0. lia.
  - assert (zlen (str_bytes (str c O_jwt_secret_file)) <> 0) by tauto. lia.
Qed.

Lemma inherit_inherits `{!NginxConfLaws} prev c : inherits prev c (inherit prev c).
Proof. split; intros f; [apply merge_str_value|apply merge_num_value]. Qed.

Lemma merge_held `{!NginxConfLaws, !OpenSSLPemLaws} prev c (w : held) :
  conf_wf prev -> conf_wf c ->
  wp (ngx_http_auth_webauthn_merge_loc_conf prev c) (fun out (w' : held) => w' = w /\
        (out.1 = NGX_CONF_OK -> conf_wf out.2 /\ settled out.2)) w.
Proof.
  intros Hp Hc. pose proof (inherit_wf _ _ Hp Hc) as Hi. pose proof (inherit_settled _ _ Hp Hc) as Hs.
  unfold ngx_http_auth_webauthn_merge_loc_conf. destruct (loads_key _) eqn:Hl; [|done].
  apply andb_true_iff in Hl as [[_ Hl%Z.eqb_eq]%andb_true_iff _].
  apply wp_bind, read_file_held; [done|]. intros content Hlen. cbn [fst snd is_ok negb].
  eapply wp_mono; [|by apply use_key_held]. intros [rv c'] w' [-> [[Hrv Hk]|Hrv]].
  - split; [done|]. intros _. by eapply loaded_keeps.
  - split; [done|]. cbn [fst] in *. by rewrite Hrv.
Qed.

Lemma merge_trace `{!NginxConfLaws, !OpenSSLPemLaws} prev c :
  wp (ngx_http_auth_webauthn_merge_loc_conf prev c) (merged prev c) ([] : trace).
Proof.
  pose proof (inherit_inherited prev c) as Hi. unfold ngx_http_auth_webauthn_merge_loc_conf.
  destruct (loads_key _) eqn:Hl.
  2:{ exists (inherit prev c). split; [done|]. left. split; [|done].
      intros Hn%loads_key_needs. congruence. }
  apply loads_key_needs in Hl.
  apply wp_bind, read_file_trace.
  { intros h'. by exists (inherit prev c). }
  intros content k Hlen Hk. cbn [fst snd is_ok negb app].
  eapply wp_mono; [|eapply (held_to_trace _ (fun out =>
    (out.1 = NGX_CONF_OK /\ key_loaded content (inherit prev c) out.2) \/ out.1 = NGX_CONF_ERROR) ∅)].
  - intros [rv c'] h' [Hout [l ->]]. exists (inherit prev c). split; [done|]. cbn [fst snd] in *.
    destruct Hout as [[-> Hkey]| ->]; [|done]. right. split; [done|]. by exists content, k, l.
  - eapply wp_mono; [|by apply use_key_held]. intros out w' [-> Hout]. exact Hout.
Qed.

(** ** Blocks of directives

    nginx creates a configuration per block, calls the command's handler for
    each directive in order until one fails, and merges a block into the one
    around it; the outermost block is merged into nothing. *)

Definition directive : Type := ngx_command_t * list bytes.

(** A directive of the table, where and with as many arguments as it allows. *)
Definition legal (level : conf_level) (d : directive) : Prop :=
  d.1 ∈ ngx_http_auth_webauthn_commands /\ level ∈ cmd_levels d.1 /\
  count_ok (cmd_count d.1) (length d.2) = true.

Fixpoint parse_block (ds : list directive) (c : raw_conf) : prog (conf_rv * raw_conf) :=
  match ds with
  | [] => Ret (NGX_CONF_OK, c)
  | (cmd, args) :: ds =>
      out <- cmd_set cmd args c ;;
      match out.1 with
      | NGX_CONF_OK => parse_block ds out.2
      | rv => Ret (rv, out.2)
      end
  end.

Definition read_block (size : Z) (ds : list directive) : prog (conf_rv * raw_conf) :=
  conf <- ngx_http_auth_webauthn_create_loc_conf size ;;
  match conf with
  | None => Ret (NGX_CONF_ERROR, created)
  | Some conf => parse_block ds conf
  end.

(** From the block outside inwards. *)
Fixpoint merge_blocks (size : Z) (prev : raw_conf) (blocks : list (list directive))
    : prog (conf_rv * raw_conf) :=
  match blocks with
  | [] => Ret (NGX_CONF_OK, prev)
  | ds :: blocks =>
      conf <- read_block size ds ;;
      match conf.1 with
      | NGX_CONF_OK =>
          out <- ngx_http_auth_webauthn_merge_loc_conf prev conf.2 ;;
          match out.1 with
          | NGX_CONF_OK => merge_blocks size out.2 blocks
          | rv => Ret (rv, out.2)
          end
      | rv => Ret (rv, conf.2)
      end
  end.

(** The configuration of a location: http, server, location, nested ones. *)
Definition configure (size : Z) (http server location : list directive)
    (nested : list (list directive)) : prog (conf_rv * raw_conf) :=
  out <- read_block size http ;;
  match out.1 with
  | NGX_CONF_OK => merge_blocks size out.2 (server :: location :: nested)
  | rv => Ret (rv, out.2)
  end.

(** What the handlers may rely on. *)
Record conf_ok (lc : ngx_http_auth_webauthn_loc_conf_t) : Prop := {
  co_strings : Forall (fun s => s <> NULL)
    [rp_id lc; rp_name lc; redis_url lc; redis_host lc; redis_password lc; redis_key_prefix lc;
     jwt_secret_file lc; jwt_secret lc; jwt_pub_pem lc; jwt_alg lc; cookie_name lc;
     cookie_domain lc; cookie_path lc; signin_url lc];
  co_uv : 0 <= user_verification lc <= 2;
  co_samesite : 0 <= cookie_samesite lc <= 2;
  co_clone : 0 <= clone_detection lc <= 2;
  co_ttl : 0 <= challenge_ttl lc <= INT64_MAX;
  co_jwt_ttl : 0 <= jwt_ttl lc <= INT64_MAX;
  co_window : 0 < rate_limit_window lc <= INT64_MAX;
  co_redis : endpoint (str_bytes (redis_host lc)) (redis_port lc);
  co_alg : alg_names (str_bytes (jwt_alg lc)) (jwt_alg_family lc);
  co_keys : keys_ok (jwt_secret lc) (jwt_pub_pem lc);
}.

Lemma settled_range c f : conf_wf c -> settled c -> num_ok f (num c f).
Proof. intros Hc Hs. destruct (wf_num _ Hc f) as [E|]; [|done]. by apply st_num in E. Qed.

Lemma settled_pair P f g c : settled c -> paired P f g c -> P (str_bytes (str c f)) (num c g).
Proof. intros Hs [[E _]|(s & -> & _ & HP)]; [by apply st_str in E|done]. Qed.

Lemma settle_ok c : conf_wf c -> settled c -> exists lc, settle c = Some lc /\ conf_ok lc.
Proof.
  intros Hc Hs. unfold settle.
  replace (forallb _ all_str) with true.
  2: { symmetry. apply forallb_forall. intros f _. pose proof (st_str _ Hs f). by destruct (str c f). }
  replace (forallb _ all_num) with true.
  2: { symmetry. apply forallb_forall. intros f _. by apply negb_true_iff, Z.eqb_neq, st_num. }
  destruct (st_arrays _ Hs) as [Ho Hh].
  destruct (raw_origins c) as [|o]; [done|]. destruct (raw_headers c) as [|hd]; [done|].
  eexists. split; [done|]. split; cbn.
  - repeat constructor; by apply st_str.
  - by apply (settled_range c O_user_verification).
  - by apply (settled_range c O_cookie_samesite).
  - by apply (settled_range c O_clone_detection).
  - by apply (settled_range c O_challenge_ttl).
  - by apply (settled_range c O_jwt_ttl).
  - pose proof (settled_range c O_rate_limit_window Hc Hs) as [H1 H2]. cbn in H1, H2. lia.
  - apply settled_pair; [done|by apply wf_redis].
  - apply settled_pair; [done|by apply wf_alg].
  - by apply wf_keys.
Qed.

Lemma parse_block_held `{!NginxConfLaws} level ds c (w : held) :
  Forall (legal level) ds -> conf_wf c -> growing c ->
  wp (parse_block ds c) (fun out (w' : held) => w' = w /\
        (out.1 = NGX_CONF_OK -> conf_wf out.2)) w.
Proof.
  intros Hds. revert c. induction Hds as [|[cmd args] ds (Hcmd & _ & Hn) _ IH]; intros c Hc Hg; [done|].
  cbn [parse_block]. eapply wp_seq; [by apply commands_keep|]. intros [[] c'] w' [-> Hout]; [|done|done].
  destruct Hout as [Hc' Hg']; [done|]. by apply IH.
Qed.

Lemma read_block_held `{!NginxConfLaws} level size ds (w : held) : Forall (legal level) ds ->
  wp (read_block size ds) (fun out (w' : held) => w' = w /\
        (out.1 = NGX_CONF_OK -> conf_wf out.2)) w.
Proof.
  intros Hds. unfold read_block, ngx_http_auth_webauthn_create_loc_conf.
  apply wp_bind. eff_step. intros [] _; [|done]. destruct created_wf.
  by eapply parse_block_held.
Qed.

Lemma merge_blocks_held `{!NginxConfLaws, !OpenSSLPemLaws} size prev blocks (w : held) :
  Forall (fun ds => exists level, Forall (legal level) ds) blocks -> conf_wf prev ->
  blocks <> [] \/ settled prev ->
  wp (merge_blocks size prev blocks) (fun out (w' : held) => w' = w /\
        (out.1 = NGX_CONF_OK -> conf_wf out.2 /\ settled out.2)) w.
Proof.
  intros Hbs. revert prev. induction Hbs as [|ds blocks [level Hds] _ IH]; intros prev Hp Hs.
  { destruct Hs; done. }
  cbn [merge_blocks]. eapply wp_seq; [by eapply read_block_held|].
  intros [[] c] w' [-> Hc]; [|done|done]. specialize (Hc eq_refl).
  eapply wp_seq; [by apply merge_held|]. intros [[] c'] w' [-> Hc']; [|done|done].
  destruct Hc' as [Hc' Hs']; [done|]. apply IH; auto.
Qed.
End invariant.

Section correct.
Context `{CONF : NginxConf, SSL : OpenSSL, PEM : !OpenSSLPem}.

(** C14: a configuration nginx accepts has a value in every field.  Whatever
    directives of the module's table appear in the http, server, location and
    nested location blocks, with as many arguments as the table allows, the
    handlers and the merges are defined, close the files and free the OpenSSL
    objects they open; and when all succeed, the merged location has no field
    left unset, its enumerated values are in the ranges of the tables the
    handlers index, the rate-limit window is positive, host and port come
    together, the algorithm's name and family agree, and the secret is absent,
    an HMAC key of at least 32 bytes without a trailing newline, or a private
    key with its own public half.  Of the two lifetimes no more is known than
    that they are not negative: a jwt_ttl that overflows the expiry and a
    challenge_ttl that the challenge endpoint refuses are both accepted
    ([lifetimes_unchecked]). *)
Theorem configuration_settles `{!NginxConfLaws, !OpenSSLPemLaws} (size : Z)
    (http server location : list directive) (nested : list (list directive)) (w : held) :
  Forall (legal NGX_HTTP_MAIN_CONF) http -> Forall (legal NGX_HTTP_SRV_CONF) server ->
  Forall (legal NGX_HTTP_LOC_CONF) location ->
  Forall (Forall (legal NGX_HTTP_LOC_CONF)) nested ->
  wp (configure size http server location nested)
     (fun out (w' : held) => w' = w /\
        (out.1 = NGX_CONF_OK -> exists lc, settle out.2 = Some lc /\ conf_ok lc)) w.
Proof.
  intros Hh Hs Hl Hn. unfold configure. eapply wp_seq; [by eapply read_block_held|].
  intros [[] c] w' [-> Hc]; [|done|done]. specialize (Hc eq_refl).
  eapply wp_mono; [|apply merge_blocks_held; [|exact Hc|by left]].
  - intros out w' [-> Hout]. split; [done|]. intros Hok. destruct (Hout Hok). by apply settle_ok.
  - repeat (constructor; [by eexists|]). eapply Forall_impl; [|exact Hn]. by eexists.
Qed.

(** C15: merging gives a location its own values, else its parent's, else the
    documented defaults, in every field, the lists of origins and of headers
    included; the key file is opened exactly when the location
    checks or mints tokens, no secret was inherited and a file is named, and
    then the whole file is read in this run: an HMAC secret is stripped of
    its trailing newlines and at least 32 bytes long, any other key is a PEM
    private key whose public half is derived.  Merging fails only while
    loading the key, and leaks nothing. *)
Theorem merge_loc_conf_correct `{!NginxConfLaws, !OpenSSLPemLaws} (prev c : raw_conf) (w : held) :
  conf_wf prev -> conf_wf c ->
  wp (ngx_http_auth_webauthn_merge_loc_conf prev c) (merged prev c) ([] : trace) /\
  wp (ngx_http_auth_webauthn_merge_loc_conf prev c) (fun _ (w' : held) => w' = w) w.
Proof.
  intros Hp Hc. split; [apply merge_trace|].
  eapply wp_mono; [|by apply merge_held]. by intros out w' [-> _].
Qed.

(** C34: an inherited secret wins over the location's own key settings.  When
    the surrounding block already holds a secret, merging reads no file: the
    location keeps its own jwt_secret_file and jwt_alg for show, and signs
    with the parent's secret, even when its algorithm is of the other
    family. *)
Theorem inherited_key_wins `{!NginxConfLaws} (prev c : raw_conf) (k : bytes) :
  str prev O_jwt_secret = Some k -> k <> [] -> str c O_jwt_secret = NULL ->
  ngx_http_auth_webauthn_merge_loc_conf prev c = Ret (NGX_CONF_OK, inherit prev c) /\
  str (inherit prev c) O_jwt_secret = Some k /\
  (forall path, str c O_jwt_secret_file = Some path ->
     str (inherit prev c) O_jwt_secret_file = Some path) /\
  (forall alg, str c O_jwt_alg = Some alg -> str (inherit prev c) O_jwt_alg = Some alg) /\
  (num c O_jwt_alg_family <> unset_num O_jwt_alg_family ->
     num (inherit prev c) O_jwt_alg_family = num c O_jwt_alg_family).
Proof.
  intros Hk Hne Hc. unfold ngx_http_auth_webauthn_merge_loc_conf.
  destruct (inherit_inherits prev c) as [Hs Hn].
  assert (str (inherit prev c) O_jwt_secret = Some k) as Hsec.
  { rewrite Hs. unfold inherits_str. by rewrite Hc, Hk. }
  split_and!; [|done|..].
  - unfold loads_key. rewrite Hsec. cbn [str_len str_bytes]. destruct k; [done|].
    by rewrite andb_false_r.
  - intros path E. rewrite Hs. unfold inherits_str. by rewrite E.
  - intros alg E. rewrite Hs. unfold inherits_str. by rewrite E.
  - intros E. rewrite Hn. unfold merged_num. by destruct (Z.eqb_spec (num c O_jwt_alg_family) (unset_num O_jwt_alg_family)).
Qed.
End correct.

(** ** A concrete configuration parser, for the witnesses *)

Module ConfSamples.

Definition atoi (b : bytes) : option Z :=
  match Samples.digits_of b with
  | ((_ :: _) as d, []) => if dec_val d <=? INT64_MAX then Some (dec_val d) else None
  | _ => None
  end.

Fixpoint strlchr (s : bytes) (c : byte) : option nat :=
  match s with
  | [] => None
  | x :: s => if bool_decide (x = c) then Some O else S <$> strlchr s c
  end.

Definition nat_slot (z : Z) (b : bytes) : conf_rv * Z :=
  match atoi b with Some v => (NGX_CONF_OK, v) | None => (conf_error (bs "invalid value"), z) end.
Definition flag_slot (z : Z) (b : bytes) : conf_rv * Z :=
  if bool_decide (b = bs "on") then (NGX_CONF_OK, 1)
  else if bool_decide (b = bs "off") then (NGX_CONF_OK, 0)
  else (conf_error (bs "invalid value"), z).
Fixpoint enum_slot (t : list (bytes * Z)) (z : Z) (b : bytes) : conf_rv * Z :=
  match t with
  | [] => (conf_error (bs "invalid value"), z)
  | (name, v) :: t => if bool_decide (b = name) then (NGX_CONF_OK, v) else enum_slot t z b
  end.

#[export] Instance conf_lib : NginxConf := {|
  ngx_conf_set_str_slot s b :=
    match s with Some _ => (conf_error (bs "is duplicate"), s) | None => (NGX_CONF_OK, Some b) end;
  ngx_conf_set_sec_slot := nat_slot; ngx_conf_set_msec_slot := nat_slot;
  ngx_conf_set_num_slot := nat_slot; ngx_conf_set_flag_slot := flag_slot;
  ngx_conf_set_enum_slot := enum_slot;
  ngx_conf_merge_str_value c p d :=
    match c, p with Some s, _ => Some s | None, Some s => Some s | None, None => Some d end;
  ngx_conf_merge_value := merged_num NGX_CONF_UNSET;
  ngx_conf_merge_sec_value := merged_num NGX_CONF_UNSET;
  ngx_conf_merge_uint_value := merged_num NGX_CONF_UNSET_UINT;
  ngx_conf_merge_msec_value := merged_num NGX_CONF_UNSET_MSEC;
  ngx_conf_merge_ptr_value A c p d :=
    match c, p with
    | CONF_PTR x, _ => CONF_PTR x
    | CONF_UNSET_PTR, CONF_PTR x => CONF_PTR x
    | CONF_UNSET_PTR, CONF_UNSET_PTR => CONF_PTR d
    end;
  ngx_atoi := atoi; ngx_parse_time := atoi; ngx_strlchr := strlchr;
  ngx_http_compile_complex_value := Some;
|}.

Lemma foldl_digits d : Forall (fun c => is_digit c = true) d -> forall acc, 0 <= acc ->
  0 <= foldl (fun acc c => acc * 10 + (b2z c - 48)) acc d.
Proof.
  induction 1 as [|c d Hc Hd IH]; intros acc Hacc; [done|]. cbn [foldl]. apply IH.
  unfold is_digit in Hc. apply andb_true_iff in Hc as [Hc%Z.leb_le _]. lia.
Qed.

Lemma digits_digits s : Forall (fun c => is_digit c = true) (fst (Samples.digits_of s)).
Proof.
  induction s as [|c s IH]; cbn [Samples.digits_of]; [constructor|].
  destruct (is_digit c) eqn:Hc; [|constructor]. destruct (Samples.digits_of s). by constructor.
Qed.

Lemma atoi_range b v : atoi b = Some v -> 0 <= v <= INT64_MAX.
Proof.
  unfold atoi. pose proof (digits_digits b) as Hd. destruct (Samples.digits_of b) as [[|c d] [|? ?]]; try done.
  destruct (Z.leb_spec (dec_val (c :: d)) INT64_MAX); [|done]. intros [= <-]. split; [|done].
  by apply foldl_digits.
Qed.

Lemma nat_slot_range z b z' : nat_slot z b = (NGX_CONF_OK, z') -> 0 <= z' <= INT64_MAX.
Proof.
  unfold nat_slot. destruct (atoi b) eqn:E; [|done]. intros [= <-]. by eapply atoi_range.
Qed.

Lemma enum_slot_in t z b z' : enum_slot t z b = (NGX_CONF_OK, z') -> z' ∈ t.*2.
Proof.
  induction t as [|[name v] t IH]; cbn [enum_slot]; [done|].
  destruct (bool_decide _); [intros [= <-]; set_solver|]. intros. set_solver.
Qed.

Lemma strlchr_at s c i : strlchr s c = Some i -> s !! i = Some c.
Proof.
  revert i. induction s as [|x s IH]; intros i; cbn [strlchr]; [done|]. case_bool_decide as E.
  - intros [= <-]. by rewrite E.
  - intros (j & Hj & ->)%fmap_Some. by apply IH.
Qed.

#[export] Instance conf_laws : NginxConfLaws.
Proof.
  split; try done; cbn.
  - intros [|] b s'; [done|]. by intros [= <-].
  - apply nat_slot_range.
  - apply nat_slot_range.
  - apply nat_slot_range.
  - intros z b z'. unfold flag_slot. repeat case_bool_decide; try done; intros [= <-]; auto.
  - apply enum_slot_in.
  - apply atoi_range.
  - apply atoi_range.
  - apply strlchr_at.
Qed.

Import Samples.

#[export] Instance pem_lib : OpenSSLPem := {|
  PEM_read_bio_PrivateKey b := if bool_decide (b = []) then None else d2i_PUBKEY b;
  PEM_write_bio_PUBKEY k := Some (bs "PUBLIC");
|}.

#[export] Instance pem_laws : OpenSSLPemLaws.
Proof. split; [done|]. by intros k pem [= <-]. Qed.

Definition find_command (name : bytes) : option ngx_command_t :=
  find (fun cmd => bytes_eqb (cmd_name cmd) name) ngx_http_auth_webauthn_commands.

(** The directives of a block, by name and arguments. *)
Definition named (ds : list (bytes * list bytes)) : list directive :=
  omap (fun d => (fun cmd => (cmd, d.1 :: d.2)) <$> find_command d.1) ds.

Definition legalb (level : conf_level) (d : directive) : bool :=
  bool_decide (level ∈ cmd_levels d.1) && count_ok (cmd_count d.1) (length d.2).

Lemma named_legal level ds :
  forallb (legalb level) (named ds) = true -> Forall (legal level) (named ds).
Proof.
  intros Hb. apply list.Forall_forall. intros d Hd. rewrite forallb_forall in Hb.
  pose proof (Hb d) as Hl. rewrite <- list_elem_of_In in Hl. specialize (Hl Hd).
  apply andb_true_iff in Hl as [Hl%bool_decide_eq_true Hn]. split; [|done].
  apply list_elem_of_omap in Hd as (x & _ & Hx). apply fmap_Some in Hx as (cmd & Hf & ->).
  apply find_some in Hf as [Hin _]. by apply list_elem_of_In.
Qed.

Definition http_block : list directive := named [(bs "auth_webauthn_redis", [bs "redis:6379"])].
Definition server_block : list directive :=
  named [(bs "auth_webauthn_rp_id", [bs "a.example"]);
         (bs "auth_webauthn_jwt_secret_file", [bs "/etc/secret"]);
         (bs "auth_webauthn", [bs "on"]);
         (bs "auth_webauthn_origin", [bs "https://a.example"; bs "https://b.example"])].
Definition location_block : list directive :=
  named [(bs "auth_webauthn_verify_handler", [bs "on"]); (bs "auth_webauthn_jwt_alg", [bs "ES256"]);
         (bs "auth_webauthn_jwt_secret_file", [bs "/etc/other"])].

(** A server with a loaded secret, and a location with key settings of its own. *)
Definition parent : raw_conf :=
  set_str O_jwt_pub_pem (Some []) (set_str O_jwt_secret (Some (replicate 32 Byte.x6b)) created).
Definition child : raw_conf :=
  set_num O_jwt_alg_family NGX_AUTH_WEBAUTHN_JWT_ASYM (set_str O_jwt_alg (Some (bs "ES256"))
    (set_str O_jwt_secret_file (Some (bs "/etc/other")) (set_num O_auth 1 created))).
End ConfSamples.

Import Samples ConfSamples.

Lemma configuration_settles_witness :
  (out ← ok_run (configure 512 http_block server_block location_block []);
   lc ← settle out.2;
   Some (str_bytes (jwt_secret lc), auth lc, verify_handler lc, redis_port lc, origins lc))
  = Some (replicate 32 Byte.x6b, true, true, 6379,
          Some [Some (bs "https://a.example"); Some (bs "https://b.example")]) /\
  wp (configure 512 http_block server_block location_block [])
     (fun out (w' : held) => w' = ∅ /\
        (out.1 = NGX_CONF_OK -> exists lc, settle out.2 = Some lc /\ conf_ok lc)) ∅.
Proof.
  split; [vm_compute; reflexivity|].
  apply (configuration_settles 512 http_block server_block location_block [] ∅);
    [by apply named_legal..|constructor].
Defined.

(** A location that only mints tokens, below one that names an origin. *)
Definition minting : raw_conf :=
  set_num O_verify_handler 1 (set_str O_jwt_secret_file (Some (bs "/etc/secret")) created).
Definition with_origin : raw_conf :=
  {| str := str created; num := num created;
     raw_origins := CONF_PTR (Some [Some (bs "https://a.example")]);
     raw_headers := raw_headers created |}.

Lemma merge_loc_conf_correct_witness :
  (out ← ok_run (ngx_http_auth_webauthn_merge_loc_conf with_origin minting);
   Some (str out.2 O_jwt_secret, str out.2 O_cookie_name, raw_origins out.2)) =
  Some (Some (replicate 32 Byte.x6b), Some (bs "webauthn_session"),
        CONF_PTR (Some [Some (bs "https://a.example")])) /\
  wp (ngx_http_auth_webauthn_merge_loc_conf with_origin minting)
     (merged with_origin minting) ([] : trace) /\
  wp (ngx_http_auth_webauthn_merge_loc_conf with_origin minting)
     (fun _ (w' : held) => w' = ∅) ∅.
Proof.
  split; [vm_compute; reflexivity|].
  apply (merge_loc_conf_correct with_origin minting ∅).
  - destruct created_wf as [[H1 H2 H3 H4] _]. by split.
  - apply set_plain_num_wf; [done|by vm_compute|]. apply set_plain_wf; [done|]. apply created_wf.
Defined.

(** Nothing bounds the two lifetimes: a challenge that may not live a second,
    and sessions whose expiry is past the largest time. *)
Example lifetimes_unchecked :
  (out ← ok_run (configure 512 [] []
      (named [(bs "auth_webauthn_challenge_ttl", [bs "0"]);
              (bs "auth_webauthn_jwt_ttl", [bs "9223372036854775807"])]) []);
   lc ← settle out.2; Some (challenge_ttl lc, jwt_ttl lc)) = Some (0, INT64_MAX).
Proof. vm_compute. reflexivity. Qed.

Lemma inherited_key_wins_witness :
  str (inherit parent child) O_jwt_secret = Some (replicate 32 Byte.x6b) /\
  str (inherit parent child) O_jwt_alg = Some (bs "ES256") /\
  str (inherit parent child) O_jwt_secret_file = Some (bs "/etc/other").
Proof.
  destruct (inherited_key_wins parent child (replicate 32 Byte.x6b) eq_refl ltac:(done) eq_refl)
    as (_ & Hk & Hf & Ha & _).
  split; [exact Hk|]. split; [by apply Ha|by apply Hf].
Defined.
