(* ===== verification/Http.v ===== *)
(** * Requests and responses: helpers of src/ngx_http_auth_webauthn_module.c

    [send_json], [json_escape] and [b64url], with what the handlers see of a
    request.  The reference for the escaping is a lexer of JSON strings. *)

From S2P Require Import Prelude Effects Externals Base64 Samples Redis RedisCalls Conf.
#[global] Open Scope Z_scope.

Definition NGX_HTTP_OK : Z := 200.
Definition NGX_HTTP_SPECIAL_RESPONSE : Z := 300.
Definition NGX_HTTP_MOVED_TEMPORARILY : Z := 302.
Definition NGX_HTTP_UNAUTHORIZED : Z := 401.
Definition NGX_HTTP_NOT_ALLOWED : Z := 405.
Definition NGX_HTTP_TOO_MANY_REQUESTS : Z := 429.
Definition NGX_HTTP_INTERNAL_SERVER_ERROR : Z := 500.
Definition NGX_DONE : Z := -4.

(** A body buffer: the bytes from [pos] to [last], and [in_file]. *)
Record ngx_buf_t := { buf_bytes : bytes; in_file : bool }.

(** What the module reads of a request. *)
Record ngx_http_request_t := {
  r_method_post : bool;
  r_header_only : bool;
  r_addr_text : ngx_str_t;               (* connection->addr_text *)
  r_args : bytes;                        (* the query string *)
  r_cookie : ptr (list bytes);           (* headers_in.cookie *)
  r_body : ptr (ptr (list ngx_buf_t));   (* request_body, ->bufs *)
}.

(** nginx core functions on a request. *)
Class NginxHttp := {
  ngx_http_arg : ngx_http_request_t -> bytes -> option bytes;
  ngx_unescape_uri : bytes -> bytes;
  ngx_http_parse_cookie : list bytes -> bytes -> option bytes;
  ngx_http_complex_value : ngx_http_request_t -> ngx_http_auth_webauthn_ctx_t -> bytes ->
    option bytes;
}.

(** Decoding never makes a string longer. *)
Class NginxHttpLaws `{NginxHttp} := {
  unescape_len : forall s, zlen (ngx_unescape_uri s) <= zlen s;
}.

Definition ngx_http_auth_webauthn_send_json (r : ngx_http_request_t) (status : Z)
    (body : bytes) : prog Z :=
  ok <- call (ngx_pnalloc (size_t (zlen body))) ;;
  if negb ok then Ret NGX_HTTP_INTERNAL_SERVER_ERROR else
  rc <- call (ngx_http_send_header status (zlen body) (bs "application/json")) ;;
  if (rc =? ngx_rc_Z NGX_ERROR) || (0 <? rc) || r_header_only r then Ret rc else
  call (ngx_http_output_filter body).

(** A template of the source, with its double quotes written as single ones. *)
Definition js (s : string) : bytes :=
  (fun c => if bool_decide (c = Byte.x27) then Byte.x22 else c) <$> bs s.
Arguments js s%_string : simpl never.

(** ** JSON escaping *)

Definition hex : bytes := bs "0123456789abcdef".
Definition hex_at (i : Z) : byte := nth (Z.to_nat i) hex Byte.x00.

(** What the switch writes for one byte. *)
Definition escape_byte (c : byte) : bytes :=
  if b2z c =? 34 then [Byte.x5c; Byte.x22]
  else if b2z c =? 92 then [Byte.x5c; Byte.x5c]
  else if b2z c =? 10 then [Byte.x5c; Byte.x6e]
  else if b2z c =? 13 then [Byte.x5c; Byte.x72]
  else if b2z c =? 9 then [Byte.x5c; Byte.x74]
  else if b2z c <? 32 then
    [Byte.x5c; Byte.x75; Byte.x30; Byte.x30;
     hex_at (Z.land (Z.shiftr (b2z c) 4) 15); hex_at (Z.land (b2z c) 15)]
  else [c].

Definition escape (src : bytes) : bytes := flat_map escape_byte src.

(** [data] NULL: the allocation failed. *)
Definition ngx_http_auth_webauthn_json_escape (src : ngx_str_t) : prog ngx_str_t :=
  if str_len src =? 0 then Ret (Some [])
  else pool_fill (str_len src * 6) (escape (str_bytes src)).

Section b64url.
Context `{B64 : NginxBase64}.

(** Return code and [*dst]. *)
Definition ngx_http_auth_webauthn_b64url (src : ngx_str_t) : prog (ngx_rc * ngx_str_t) :=
  p <- pool_fill (ngx_base64_encoded_length (str_len src))
         (ngx_encode_base64url (str_bytes src)) ;;
  match p with
  | None => Ret (NGX_ERROR, NULL)
  | Some d => Ret (NGX_OK, Some d)
  end.

Lemma b64url_held `{!NginxBase64Laws} src (w : held) Q :
  fits (str_bytes src) -> Q (NGX_ERROR, NULL) w ->
  Q (NGX_OK, Some (ngx_encode_base64url (str_bytes src))) w ->
  wp (ngx_http_auth_webauthn_b64url src) Q w.
Proof.
  unfold fits. intros Hs H0 H1. apply wp_bind, pool_fill_held; [|done|done].
  pose proof (encode_fits (str_bytes src)) as He. rewrite str_len_zlen.
  pose proof (zlen_nonneg (str_bytes src)).
  rewrite size_t_small; [done|]. unfold ngx_base64_encoded_length in *. div_lia.
Qed.

Lemma b64url_calls P `{!Background P} {B} src (f : ngx_rc * ngx_str_t -> prog B) :
  all_calls P (f (NGX_ERROR, NULL)) ->
  all_calls P (f (NGX_OK, Some (ngx_encode_base64url (str_bytes src)))) ->
  all_calls P (bind (ngx_http_auth_webauthn_b64url src) f).
Proof.
  intros H0 H1. simpl. split; [by apply background|]. intros []; [|done].
  by destruct (_ <=? _).
Qed.

Lemma b64url_finalizes P `{!Background P} F src (f : ngx_rc * ngx_str_t -> prog unit) :
  finalizes P F (f (NGX_ERROR, NULL)) ->
  finalizes P F (f (NGX_OK, Some (ngx_encode_base64url (str_bytes src)))) ->
  finalizes P F (bind (ngx_http_auth_webauthn_b64url src) f).
Proof.
  intros H0 H1. simpl. right. split; [by apply background|]. intros []; [|done].
  by destruct (_ <=? _).
Qed.
End b64url.

(** ** A reference lexer of JSON strings

    Reads the rest of a string literal after its opening quote, and hands
    back its value and what follows the closing quote.  A raw control byte
    is an error. *)
Definition hex_val (c : byte) : option Z :=
  let c := b2z c in
  if (48 <=? c) && (c <=? 57) then Some (c - 48)
  else if (97 <=? c) && (c <=? 102) then Some (c - 87)
  else None.

Definition put_byte (b : byte) (r : option (bytes * bytes)) : option (bytes * bytes) :=
  '(v, rest) ← r; Some (b :: v, rest).

Fixpoint lex_string (s : bytes) : option (bytes * bytes) :=
  match s with
  | [] => None
  | c :: t =>
      if b2z c =? 34 then Some ([], t)
      else if b2z c =? 92 then
        match t with
        | [] => None
        | e :: t =>
            if (b2z e =? 34) || (b2z e =? 92) then put_byte e (lex_string t)
            else if b2z e =? 110 then put_byte Byte.x0a (lex_string t)
            else if b2z e =? 114 then put_byte Byte.x0d (lex_string t)
            else if b2z e =? 116 then put_byte Byte.x09 (lex_string t)
            else if b2z e =? 117 then
              match t with
              | z0 :: z1 :: h :: l :: t =>
                  if (b2z z0 =? 48) && (b2z z1 =? 48) then
                    h ← hex_val h; l ← hex_val l;
                    put_byte (z2b (h * 16 + l)) (lex_string t)
                  else None
              | _ => None
              end
            else None
        end
      else if b2z c <? 32 then None
      else put_byte c (lex_string t)
  end.

Lemma lex_escape_byte c rest :
  lex_string (escape_byte c ++ rest) = put_byte c (lex_string rest).
Proof. destruct c; reflexivity. Qed.

Lemma lex_escape src rest :
  lex_string (escape src ++ Byte.x22 :: rest) = Some (src, rest).
Proof.
  induction src as [|c src IH]; [done|]. cbn [escape flat_map].
  rewrite <- app_assoc, lex_escape_byte. fold (escape src). by rewrite IH.
Qed.

Lemma escape_length src : zlen src <= zlen (escape src) <= zlen src * 6.
Proof.
  induction src as [|c src IH]; [done|]. cbn [escape flat_map].
  rewrite zlen_app, zlen_cons. fold (escape src).
  assert (1 <= zlen (escape_byte c) <= 6) by (destruct c; vm_compute; split; intros [=]).
  lia.
Qed.

Lemma json_escape_held src (w : held) Q :
  fits (str_bytes src) -> Q NULL w -> Q (Some (escape (str_bytes src))) w ->
  wp (ngx_http_auth_webauthn_json_escape src) Q w.
Proof.
  unfold fits. intros Hs H0 H1. unfold ngx_http_auth_webauthn_json_escape.
  destruct (Z.eqb_spec (str_len src) 0) as [E|_].
  { apply str_len_0 in E. by rewrite E in H1. }
  apply pool_fill_held; [|done|done].
  pose proof (escape_length (str_bytes src)). rewrite str_len_zlen.
  pose proof (zlen_nonneg (str_bytes src)). rewrite size_t_small; lia.
Qed.

Lemma json_escape_finalizes P `{!Background P} F src (f : ngx_str_t -> prog unit) :
  finalizes P F (f NULL) -> finalizes P F (f (Some (escape (str_bytes src)))) ->
  finalizes P F (bind (ngx_http_auth_webauthn_json_escape src) f).
Proof.
  intros H0 H1. unfold ngx_http_auth_webauthn_json_escape.
  destruct (Z.eqb_spec (str_len src) 0) as [E|_]; [|by apply finalizes_fill].
  apply str_len_0 in E. by rewrite E in H1.
Qed.

(** Calls that say nothing to the client. *)
Definition quiet (e : eff) : Prop :=
  match e with
  | ngx_http_send_header _ _ _ | ngx_http_output_filter _ | headers_out_push _ _
  | headers_in_push _ _ | headers_in_hash _ | ngx_http_finalize_request _ => False
  | _ => True
  end.

#[export] Instance quiet_background : Background quiet.
Proof. by intros []. Qed.

Lemma send_json_calls P `{!Background P} r status body :
  P (ngx_http_send_header status (zlen body) (bs "application/json")) ->
  P (ngx_http_output_filter body) ->
  all_calls P (ngx_http_auth_webauthn_send_json r status body).
Proof. intros Hh Hb. unfold ngx_http_auth_webauthn_send_json. calls; done. Qed.

Lemma send_json_balanced r status body : balanced ∅ (ngx_http_auth_webauthn_send_json r status body).
Proof. intros w _. unfold ngx_http_auth_webauthn_send_json. held_steps. Qed.

(** C23: whatever user id, PEM text or other bytes are escaped, a JSON lexer
    started after the opening quote reads exactly those bytes back and stops
    at the closing quote the template adds: nothing escapes its string.  The
    escaped text fits the [len * 6] bytes allocated for it. *)
Theorem json_escape_injection_free (src : ngx_str_t) (rest : bytes) (w : held) :
  fits (str_bytes src) ->
  lex_string (escape (str_bytes src) ++ Byte.x22 :: rest) = Some (str_bytes src, rest) /\
  wp (ngx_http_auth_webauthn_json_escape src)
     (fun out w' => w' = w /\ (out = NULL \/ out = Some (escape (str_bytes src)))) w.
Proof.
  intros Hs. split; [apply lex_escape|]. by apply json_escape_held; [|auto..].
Qed.

Lemma json_escape_injection_free_witness :
  let src := [Byte.x61; Byte.x22; Byte.x5c; Byte.x0a; Byte.x1f] in
  Samples.ok_run (ngx_http_auth_webauthn_json_escape (Some src)) = Some (Some (escape src)) /\
  lex_string (escape src ++ Byte.x22 :: bs "}") = Some (src, bs "}").
Proof.
  split; [reflexivity|].
  exact (proj1 (json_escape_injection_free
    (Some [Byte.x61; Byte.x22; Byte.x5c; Byte.x0a; Byte.x1f]) (bs "}") ∅ ltac:(reflexivity))).
Defined.

(** ** Concrete request functions, for the witnesses *)

Module HttpSamples.

(** One [name=value] argument or cookie. *)
Definition value_of (s name : bytes) : option bytes := Samples.strip (name ++ bs "=") s.

#[export] Instance http_lib : NginxHttp := {|
  ngx_http_arg r name := value_of (r_args r) name;
  ngx_unescape_uri s := s;
  ngx_http_parse_cookie cookies name := head (omap (fun c => value_of c name) cookies);
  ngx_http_complex_value _ ctx v :=
    if bool_decide (v = bs "$webauthn_user_id") then Some (str_bytes (ctx_user_id ctx)) else Some v;
|}.

#[export] Instance http_laws : NginxHttpLaws.
Proof. split. intros s. cbn. lia. Qed.

Definition conf : ngx_http_auth_webauthn_loc_conf_t := {|
  rp_id := Some (bs "a.example"); rp_name := Some [];
  origins := Some [Some (bs "https://a.example")];
  challenge_ttl := 60; user_verification := NGX_AUTH_WEBAUTHN_UV_REQUIRED;
  rate_limit_max := 2; rate_limit_window := 60;
  redis_url := Some (bs "redis:6379"); redis_host := Some (bs "redis"); redis_port := 6379;
  redis_password := Some []; redis_db := 0; redis_timeout := 100;
  redis_key_prefix := Some (bs "webauthn:");
  jwt_secret_file := Some []; jwt_secret := Some (replicate 32 Byte.x6b);
  jwt_pub_pem := Some []; jwt_alg := Some (bs "HS256");
  jwt_alg_family := NGX_AUTH_WEBAUTHN_JWT_HMAC; jwt_ttl := 3600;
  cookie_name := Some (bs "webauthn_session"); cookie_domain := Some [];
  cookie_path := Some (bs "/"); cookie_secure := true; cookie_samesite := 0;
  clone_detection := 0; auth := true; signin_url := Some [];
  set_headers := Some [{| hdr_name := Some (bs "X-User"); hdr_value := bs "$webauthn_user_id" |}];
  challenge_handler := true; verify_handler := true |}.

Definition request : ngx_http_request_t := {|
  r_method_post := true; r_header_only := false; r_addr_text := Some (bs "10.0.0.1");
  r_args := []; r_cookie := None; r_body := None |}.

End HttpSamples.
