(* ===== verification/ChallengeHandler.v ===== *)
(** * The challenge endpoint: src/ngx_http_auth_webauthn_module.c

    [rate_limit] and [challenge_content]: connect, count the client, issue,
    list the user's credentials, answer with the JSON of
    navigator.credentials.get(). *)

From S2P Require Import Prelude Effects Externals Base64 Samples Redis RedisCalls RedisSpec RedisOps.
From S2P Require Import Challenge Credential Conf Http.
#[global] Open Scope Z_scope.

(** The connection settings both handlers fill in. *)
Definition rconf_of (wlcf : ngx_http_auth_webauthn_loc_conf_t) : ngx_auth_webauthn_redis_conf_t :=
  {| rconf_host := redis_host wlcf; rconf_port := int32 (redis_port wlcf);
     rconf_password := redis_password wlcf; rconf_db := redis_db wlcf;
     rconf_timeout_ms := redis_timeout wlcf |}.

(** [{prefix}ratelimit:challenge:{ip}] *)
Definition rate_key_of (prefix ip : bytes) : bytes := prefix ++ bs "ratelimit:challenge:" ++ ip.

Definition ngx_http_auth_webauthn_rate_limit (r : ngx_http_request_t)
    (redis : ptr ngx_auth_webauthn_redis_t) (wlcf : ngx_http_auth_webauthn_loc_conf_t)
    : prog ngx_rc :=
  if rate_limit_max wlcf =? 0 then Ret NGX_OK else
  let ip := r_addr_text r in
  key <- pool_fill (str_len (redis_key_prefix wlcf) + 20 + str_len ip)
           (str_bytes (redis_key_prefix wlcf) ++ bs "ratelimit:challenge:" ++ str_bytes ip) ;;
  match key with
  | None => Ret NGX_OK
  | Some k =>
      '(rc, count) <- ngx_auth_webauthn_redis_incr_expire redis (Some (Some k))
                        (uint64 (rate_limit_window wlcf)) (Some 0) ;;
      if negb (is_ok rc) then
        call (ngx_log_error NGX_LOG_WARN
          (bs "auth_webauthn: rate-limit counter unavailable, allowing challenge")) ;;
        Ret NGX_OK
      else if rate_limit_max wlcf <? uint64 count then Ret NGX_DECLINED
      else Ret NGX_OK
  end.

Definition ngx_http_auth_webauthn_uv_names : list bytes :=
  [bs "required"; bs "preferred"; bs "discouraged"].

Definition NGX_AUTH_WEBAUTHN_ALLOWCRED_OVERHEAD : Z := 32.

(** The allowCredentials entries, comma separated. *)
Definition allow_entry (id : ngx_str_t) : bytes :=
  js "{'type':'public-key','id':'" ++ str_bytes id ++ js "'}".
Fixpoint allow_list (first : bool) (creds : list ngx_str_t) : bytes :=
  match creds with
  | [] => []
  | id :: rest => (if first then [] else bs ",") ++ allow_entry id ++ allow_list false rest
  end.

Definition challenge_body (b64 rp uv : bytes) (timeout : Z) (creds : list ngx_str_t) : bytes :=
  js "{'challenge':'" ++ b64 ++ js "','rpId':'" ++ rp ++ js "','timeout':" ++ dec timeout ++
  js ",'userVerification':'" ++ uv ++ js "','allowCredentials':[" ++
  allow_list true creds ++ bs "]}".

Definition sum_len (creds : list ngx_str_t) : Z :=
  foldr (fun c acc => str_len c + acc) 0 creds.

Section handler.
Context `{B64 : NginxBase64, HTTP : NginxHttp}.

(** From the user_id argument to the user's credential ids; [inr] is the
    status to answer instead. *)
Definition challenge_creds (r : ngx_http_request_t) (redis : ptr ngx_auth_webauthn_redis_t)
    (wlcf : ngx_http_auth_webauthn_loc_conf_t) : prog (list ngx_str_t + Z) :=
  match ngx_http_arg r (bs "user_id") with
  | None | Some [] => Ret (inl [])
  | Some uid =>
      let fail :=
        ngx_auth_webauthn_redis_close redis ;; Ret (inr NGX_HTTP_INTERNAL_SERVER_ERROR) in
      dst <- pool_fill (zlen uid) (ngx_unescape_uri uid) ;;
      match dst with
      | None => fail
      | Some uid =>
          key <- pool_fill (str_len (redis_key_prefix wlcf) + 5 + zlen uid + 6)
                   (str_bytes (redis_key_prefix wlcf) ++ bs "user:" ++ uid ++ bs ":creds") ;;
          match key with
          | None => fail
          | Some k =>
              '(rc, creds) <- ngx_auth_webauthn_redis_smembers redis (Some tt) (Some (Some k))
                                (Some tt) (Some tt) ;;
              if negb (is_ok rc) then fail else Ret (inl creds)
          end
      end
  end.

(** The end of the handler, once a challenge is issued. *)
Definition challenge_respond (r : ngx_http_request_t) (redis : ptr ngx_auth_webauthn_redis_t)
    (wlcf : ngx_http_auth_webauthn_loc_conf_t) (challenge : ngx_str_t) : prog Z :=
  cr <- challenge_creds r redis wlcf ;;
  match cr with
  | inr status => Ret status
  | inl creds =>
      ngx_auth_webauthn_redis_close redis ;;
      '(rc, b64) <- ngx_http_auth_webauthn_b64url challenge ;;
      if negb (is_ok rc) then Ret NGX_HTTP_INTERNAL_SERVER_ERROR else
      uv <- defined (ngx_http_auth_webauthn_uv_names !! Z.to_nat (user_verification wlcf)) ;;
      let size := 160 + str_len b64 + str_len (rp_id wlcf) + zlen uv
                  + zlen creds * NGX_AUTH_WEBAUTHN_ALLOWCRED_OVERHEAD + sum_len creds in
      body <- pool_fill size
        (challenge_body (str_bytes b64) (str_bytes (rp_id wlcf)) uv
           (int64 (challenge_ttl wlcf * 1000)) creds) ;;
      match body with
      | None => Ret NGX_HTTP_INTERNAL_SERVER_ERROR
      | Some b => ngx_http_auth_webauthn_send_json r NGX_HTTP_OK b
      end
  end.

Definition ngx_http_auth_webauthn_challenge_content (r : ngx_http_request_t)
    (wlcf : ngx_http_auth_webauthn_loc_conf_t) : prog Z :=
  if (str_len (rp_id wlcf) =? 0) || (str_len (redis_host wlcf) =? 0) then
    call (ngx_log_error NGX_LOG_ERR (bs "auth_webauthn: challenge handler needs auth_webauthn_rp_id and auth_webauthn_redis")) ;;
    Ret NGX_HTTP_INTERNAL_SERVER_ERROR
  else
  '(rc, redis) <- ngx_auth_webauthn_redis_connect (Some tt) (Some (rconf_of wlcf)) (Some NULL) ;;
  if negb (is_ok rc) then Ret NGX_HTTP_INTERNAL_SERVER_ERROR else
  rc <- ngx_http_auth_webauthn_rate_limit r redis wlcf ;;
  if bool_decide (rc = NGX_DECLINED) then
    ngx_auth_webauthn_redis_close redis ;; Ret NGX_HTTP_TOO_MANY_REQUESTS
  else
  '(rc, challenge) <- ngx_auth_webauthn_challenge_issue redis (Some tt)
      (Some (redis_key_prefix wlcf)) (challenge_ttl wlcf) (Some (replicate 32 Byte.x00)) ;;
  if negb (is_ok rc) then
    ngx_auth_webauthn_redis_close redis ;; Ret NGX_HTTP_INTERNAL_SERVER_ERROR
  else
  challenge_respond r redis wlcf challenge.

(** ** Sizes *)

(** What the configuration parser and the request parser guarantee. *)
Record issue_sizes (r : ngx_http_request_t) (wlcf : ngx_http_auth_webauthn_loc_conf_t) : Prop := {
  is_host : fits (str_bytes (redis_host wlcf));
  is_prefix : fits (str_bytes (redis_key_prefix wlcf));
  is_rp : fits (str_bytes (rp_id wlcf));
  is_addr : fits (str_bytes (r_addr_text r));
  is_uid : forall uid, ngx_http_arg r (bs "user_id") = Some uid -> fits uid;
  is_uv : 0 <= user_verification wlcf <= 2;
}.

Lemma js_len s : zlen (js s) = zlen (bs s).
Proof. unfold js, zlen. by rewrite length_fmap. Qed.

Lemma allow_list_len creds first :
  zlen (allow_list first creds) <= zlen creds * 32 + sum_len creds.
Proof.
  revert first. induction creds as [|c rest IH]; intros first; cbn [allow_list sum_len foldr].
  { done. }
  specialize (IH false). unfold sum_len in IH. unfold allow_entry.
  rewrite !zlen_app, !zlen_cons, !js_len, str_len_zlen.
  assert (zlen (if first then [] else bs ",") <= 1) by by destruct first.
  change (zlen (bs "{'type':'public-key','id':'")) with 27. change (zlen (bs "'}")) with 2. lia.
Qed.

Lemma challenge_body_len b64 rp uv timeout creds :
  INT64_MIN <= timeout <= INT64_MAX ->
  zlen (challenge_body b64 rp uv timeout creds) <=
  160 + zlen b64 + zlen rp + zlen uv + zlen creds * 32 + sum_len creds.
Proof.
  intros Ht. unfold challenge_body. rewrite !zlen_app, !js_len.
  pose proof (allow_list_len creds true).
  pose proof (dec_length timeout ltac:(unfold INT64_MIN, INT64_MAX in *; lia)).
  change (zlen (bs "{'challenge':'")) with 14. change (zlen (bs "','rpId':'")) with 10.
  change (zlen (bs "','timeout':")) with 12. change (zlen (bs ",'userVerification':'")) with 21.
  change (zlen (bs "','allowCredentials':[")) with 22. change (zlen (bs "]}")) with 2. lia.
Qed.

Lemma sum_len_bound creds :
  Forall (fun m => bulk (str_bytes m)) creds -> 0 <= sum_len creds <= zlen creds * 2 ^ 29.
Proof.
  induction 1 as [|c l Hc Hl IH]; [done|]. cbn [sum_len foldr]. unfold bulk in Hc.
  rewrite zlen_cons, str_len_zlen. pose proof (zlen_nonneg (str_bytes c)). unfold sum_len in IH. lia.
Qed.

(** ** Resources: every path closes the connection, and every buffer fits *)

Lemma rate_limit_balanced r redis wlcf :
  fits (str_bytes (redis_key_prefix wlcf)) -> fits (str_bytes (r_addr_text r)) ->
  balanced (needs redis) (ngx_http_auth_webauthn_rate_limit r redis wlcf).
Proof.
  unfold fits. intros Hp Ha w Hw. unfold ngx_http_auth_webauthn_rate_limit.
  destruct (_ =? 0); [done|].
  pose proof (zlen_nonneg (str_bytes (redis_key_prefix wlcf))).
  pose proof (zlen_nonneg (str_bytes (r_addr_text r))).
  apply wp_bind, pool_fill_held; [|done|].
  { rewrite !zlen_app, !str_len_zlen. change (zlen (bs "ratelimit:challenge:")) with 20.
    rewrite size_t_small; lia. }
  apply wp_bind. eapply wp_balanced; [apply incr_expire_balanced|done|].
  intros [[] count]; cbn [is_ok negb]; held_steps.
Qed.

Lemma challenge_creds_held `{!NginxHttpLaws} r wlcf (w : held) Q :
  issue_sizes r wlcf ->
  Q (inr NGX_HTTP_INTERNAL_SERVER_ERROR) w ->
  (forall creds, zlen creds < 2 ^ 32 -> Forall (fun m => bulk (str_bytes m)) creds ->
     Q (inl creds) (w ⊎ {[+ REDIS_CTX +]})) ->
  wp (challenge_creds r open_redis wlcf) Q (w ⊎ {[+ REDIS_CTX +]}).
Proof.
  intros [_ Hp _ _ Hu _] HE HQ. unfold challenge_creds.
  destruct (ngx_http_arg r (bs "user_id")) as [[|c uid]|]; [by apply HQ| |by apply HQ].
  specialize (Hu _ eq_refl). set (raw := c :: uid) in *. unfold fits in *.
  assert (wp (ngx_auth_webauthn_redis_close open_redis ;;
              Ret (inr NGX_HTTP_INTERNAL_SERVER_ERROR)) Q (w ⊎ {[+ REDIS_CTX +]})) as Hfail
    by by apply wp_bind, close_held.
  pose proof (unescape_len raw) as Hun. pose proof (zlen_nonneg (ngx_unescape_uri raw)).
  pose proof (zlen_nonneg (str_bytes (redis_key_prefix wlcf))).
  apply wp_bind, pool_fill_held; [rewrite size_t_small; lia|done|].
  apply wp_bind, pool_fill_held; [|done|].
  { rewrite !zlen_app, !str_len_zlen. change (zlen (bs "user:")) with 5.
    change (zlen (bs ":creds")) with 6. rewrite size_t_small; lia. }
  apply wp_bind, smembers_held; [apply needs_open|]. intros [] creds Hn Hall; cbn [is_ok negb];
    [by apply HQ|done|done].
Qed.

Lemma uv_name wlcf : 0 <= user_verification wlcf <= 2 ->
  exists uv, ngx_http_auth_webauthn_uv_names !! Z.to_nat (user_verification wlcf) = Some uv /\
    fits uv.
Proof.
  intros Hu. assert (user_verification wlcf = 0 \/ user_verification wlcf = 1 \/
    user_verification wlcf = 2) as [->|[->| ->]] by lia; by eexists.
Qed.

Lemma connect_conf_held wlcf (w : held) Q :
  fits (str_bytes (redis_host wlcf)) ->
  Q (NGX_OK, open_redis) (w ⊎ {[+ REDIS_CTX +]}) -> Q (NGX_ERROR, NULL) w ->
  wp (ngx_auth_webauthn_redis_connect (Some tt) (Some (rconf_of wlcf)) (Some NULL)) Q w.
Proof. intros Hh HO HE. apply connect_held; [by intros c [= <-]|done|done]. Qed.

Lemma close_open_held (w : held) {A} (k : prog A) Q :
  wp k Q w -> wp (ngx_auth_webauthn_redis_close open_redis ;; k) Q (w ⊎ {[+ REDIS_CTX +]}).
Proof. intros Hk. by apply wp_bind, close_held. Qed.

Lemma challenge_respond_held `{!NginxBase64Laws, !NginxHttpLaws} r wlcf c (w : held) :
  issue_sizes r wlcf -> fits c ->
  wp (challenge_respond r open_redis wlcf (Some c)) (fun _ w' => w' = w) (w ⊎ {[+ REDIS_CTX +]}).
Proof.
  intros Hs Hc. unfold challenge_respond.
  apply wp_bind, challenge_creds_held; [done|done|]. intros creds Hn Hall.
  apply close_open_held. destruct Hs as [_ _ Hrp _ _ Huv].
  apply wp_bind, b64url_held; [done|done|]. cbn [is_ok negb str_bytes].
  destruct (uv_name wlcf Huv) as (uv & -> & Hfuv). cbn [defined deref bind].
  pose proof (challenge_body_len (ngx_encode_base64url c) (str_bytes (rp_id wlcf)) uv
    (int64 (challenge_ttl wlcf * 1000)) creds (int64_range _)).
  pose proof (sum_len_bound creds Hall). pose proof (encode_fits c) as He.
  unfold fits, ngx_base64_encoded_length, NGX_AUTH_WEBAUTHN_ALLOWCRED_OVERHEAD in *.
  pose proof (zlen_nonneg creds). pose proof (zlen_nonneg c). pose proof (zlen_nonneg uv).
  pose proof (zlen_nonneg (ngx_encode_base64url c)). pose proof (zlen_nonneg (str_bytes (rp_id wlcf))).
  rewrite !str_len_zlen. cbn [str_bytes].
  assert ((zlen c + 2) / 3 * 4 <= 2 ^ 33) by div_lia.
  apply wp_bind, pool_fill_held; [rewrite size_t_small; lia|done|].
  apply send_json_balanced. multiset_solver.
Qed.

Lemma challenge_content_balanced `{!NginxBase64Laws, !NginxHttpLaws} r wlcf :
  issue_sizes r wlcf -> balanced ∅ (ngx_http_auth_webauthn_challenge_content r wlcf).
Proof.
  intros Hs w _. unfold ngx_http_auth_webauthn_challenge_content.
  destruct (_ || _); [held_steps|].
  apply wp_bind, connect_conf_held; [apply Hs| |done]. cbn [is_ok negb].
  apply wp_bind. eapply wp_balanced;
    [apply rate_limit_balanced; apply Hs|apply needs_open|]. intros rc.
  case_bool_decide; [by apply close_open_held|].
  apply wp_bind. eapply wp_mono; [|apply wp_and;
    [apply issue_balanced; [intros ? [= <-]; apply Hs|apply needs_open]
    |apply issue_length; [intros ? [= <-]; apply Hs|apply needs_open]]].
  intros [rc' c] w' [-> Hc]. destruct rc'; cbn [is_ok negb]; [|by apply close_open_held..].
  destruct (Hc eq_refl) as (ch & E & Hlen). cbn [snd] in E. subst c.
  apply challenge_respond_held; [done|]. unfold fits. lia.
Qed.

(** ** What an answer shows *)

(** Nothing said, no challenge stored. *)
Definition before_issue (e : eff) : Prop :=
  quiet e /\ match e with redisCommandArgv argv => head argv <> Some (bs "SET") | _ => True end.

#[local] Instance before_issue_background : Background before_issue.
Proof. by intros []. Qed.

(** Calls of the response to challenge [c]. *)
Definition answers (wlcf : ngx_http_auth_webauthn_loc_conf_t) (c : bytes) (e : eff) : Prop :=
  match e with
  | ngx_http_send_header status _ _ => status = NGX_HTTP_OK
  | ngx_http_output_filter b => exists uv creds,
      ngx_http_auth_webauthn_uv_names !! Z.to_nat (user_verification wlcf) = Some uv /\
      b = challenge_body (ngx_encode_base64url c) (str_bytes (rp_id wlcf)) uv
            (int64 (challenge_ttl wlcf * 1000)) creds
  | e => quiet e
  end.

#[local] Instance answers_background wlcf c : Background (answers wlcf c).
Proof. by intros []. Qed.

Lemma rate_limit_calls P `{!Background P} r redis wlcf :
  (forall ip n, redis_numbuf (uint64 (rate_limit_window wlcf)) = Some n ->
     P (redisCommandArgv [bs "EVAL"; incr_expire_script; bs "1";
          rate_key_of (str_bytes (redis_key_prefix wlcf)) ip; n])) ->
  all_calls P (ngx_http_auth_webauthn_rate_limit r redis wlcf).
Proof.
  intros Hc. unfold ngx_http_auth_webauthn_rate_limit. destruct (_ =? 0); [done|].
  apply all_calls_fill; [apply _|done|]. apply all_calls_bind.
  - apply incr_expire_calls; [done|]. intros k n [= <-] Hn. by apply Hc.
  - intros [[] count]; cbn [is_ok negb]; calls.
Qed.

Lemma challenge_creds_calls r redis wlcf c :
  all_calls (answers wlcf c) (challenge_creds r redis wlcf).
Proof.
  unfold challenge_creds. destruct (ngx_http_arg r _) as [[|x uid]|]; try done.
  assert (all_calls (answers wlcf c) (ngx_auth_webauthn_redis_close redis ;;
            Ret (inr (list ngx_str_t) NGX_HTTP_INTERNAL_SERVER_ERROR))) as Hf
    by (apply all_calls_bind; [apply close_calls, _|done]).
  apply all_calls_fill; [apply _|done|]. apply all_calls_fill; [apply _|done|].
  apply all_calls_bind; [by apply smembers_calls; [apply _|]|].
  by intros [[] creds]; cbn [is_ok negb].
Qed.

Lemma challenge_respond_calls r redis wlcf c :
  all_calls (answers wlcf c) (challenge_respond r redis wlcf (Some c)).
Proof.
  unfold challenge_respond. apply all_calls_bind; [apply challenge_creds_calls|].
  intros [creds|status]; [|done]. apply all_calls_bind; [apply close_calls, _|]. intros _.
  apply b64url_calls; [apply _|done|]. cbn [is_ok negb].
  destruct (_ !! _) as [uv|] eqn:Huv; [|done]. cbn [defined deref bind].
  apply all_calls_fill; [apply _|done|]. apply send_json_calls; [apply _|done|].
  by exists uv, creds.
Qed.

(** What the trace of a request shows: a body sent is the JSON of one fresh
    challenge that the server acknowledged storing for [challenge_ttl]
    seconds; a request over the quota stores nothing. *)
Definition challenge_backed (wlcf : ngx_http_auth_webauthn_loc_conf_t) (status : Z) (h : trace)
    : Prop :=
  (Forall (fun ev => before_issue (ev_eff ev)) h /\ status <> NGX_HTTP_OK) \/
  (exists k, Forall (fun ev => quiet (ev_eff ev)) k /\ h = k /\
     status = NGX_HTTP_INTERNAL_SERVER_ERROR) \/
  (exists c k k', h = k ++ k' /\ zlen c = 32 /\
     acked [bs "SET"; challenge_key_of (str_bytes (redis_key_prefix wlcf)) c; bs "1"; bs "EX";
            dec (challenge_ttl wlcf)] k /\
     Forall (fun ev => quiet (ev_eff ev)) k /\
     Forall (fun ev => answers wlcf c (ev_eff ev)) k').

Lemma connect_trace wlcf (h : trace) :
  fits (str_bytes (redis_host wlcf)) ->
  wp (ngx_auth_webauthn_redis_connect (Some tt) (Some (rconf_of wlcf)) (Some NULL))
     (fun out h' => (out = (NGX_OK, open_redis) \/ out = (NGX_ERROR, NULL)) /\
        exists k, h' = h ++ k /\ Forall (fun ev => before_issue (ev_eff ev)) k) h.
Proof.
  intros Hh. apply (trace_segment before_issue _ _ ∅).
  - by apply connect_calls; [apply _|..].
  - apply connect_conf_held; auto.
Qed.

Lemma close_trace {A} (k : prog A) Q (h : trace) :
  wp k Q (h ++ [Ev redisFree tt]) -> wp (ngx_auth_webauthn_redis_close open_redis ;; k) Q h.
Proof.
  intros Hk. unfold ngx_auth_webauthn_redis_close. cbn [no_ctx nullp ctx].
  apply wp_bind, wp_bind, wp_trace_call. by intros [] _.
Qed.

Lemma before_quiet (k : trace) :
  Forall (fun ev => before_issue (ev_eff ev)) k -> Forall (fun ev => quiet (ev_eff ev)) k.
Proof. intros Hk. eapply Forall_impl; [|exact Hk]. by intros ev [? _]. Qed.

Lemma rate_limit_trace r wlcf (h : trace) :
  issue_sizes r wlcf ->
  wp (ngx_http_auth_webauthn_rate_limit r open_redis wlcf)
     (fun _ h' => exists k, h' = h ++ k /\ Forall (fun ev => before_issue (ev_eff ev)) k) h.
Proof.
  intros Hs. eapply wp_mono; [|apply (trace_segment before_issue _ (fun _ => True) {[+ REDIS_CTX +]})].
  - by intros rc h' [_ ?].
  - by apply rate_limit_calls; [apply _|].
  - eapply wp_mono; [|apply rate_limit_balanced; [apply Hs|apply Hs|done]]. done.
Qed.

Lemma issue_segment r wlcf old (h : trace) :
  issue_sizes r wlcf ->
  wp (ngx_auth_webauthn_challenge_issue open_redis (Some tt) (Some (redis_key_prefix wlcf))
        (challenge_ttl wlcf) (Some old))
     (fun out h' => (fst out = NGX_OK -> exists c, snd out = Some c /\ zlen c = 32 /\
         0 < challenge_ttl wlcf <= UINT32_MAX /\
         acked [bs "SET"; challenge_key_of (str_bytes (redis_key_prefix wlcf)) c; bs "1";
                bs "EX"; dec (challenge_ttl wlcf)] h') /\
       exists k, h' = h ++ k /\ Forall (fun ev => quiet (ev_eff ev)) k) h.
Proof.
  intros Hs. apply (wp_all_calls quiet); [by apply issue_calls; [apply _|]|].
  apply issue_trace, Hs.
Qed.

Lemma respond_segment `{!NginxBase64Laws, !NginxHttpLaws} r wlcf c (h : trace) :
  issue_sizes r wlcf -> zlen c = 32 ->
  wp (challenge_respond r open_redis wlcf (Some c))
     (fun _ h' => exists k, h' = h ++ k /\ Forall (fun ev => answers wlcf c (ev_eff ev)) k) h.
Proof.
  intros Hs Hc.
  eapply wp_mono; [|apply (trace_segment (answers wlcf c) _ (fun _ => True) (∅ ⊎ {[+ REDIS_CTX +]}))].
  - by intros st h' [_ ?].
  - apply challenge_respond_calls.
  - eapply wp_mono; [|apply challenge_respond_held; [done|unfold fits; lia]]. done.
Qed.

(** C12: the challenge endpoint, for every behaviour of the server and the
    allocator: whatever body it sends carries the base64url of 32 bytes which
    the server acknowledged storing under [{prefix}chal:] with exactly the
    configured TTL, with the configured rpId, timeout and userVerification,
    and nothing else is ever sent; a request over the quota or before issuance
    stores no challenge.  Every buffer fits, the connection is closed and
    every reply released on all paths. *)
Theorem challenge_content_correct `{!NginxBase64Laws, !NginxHttpLaws} r wlcf :
  issue_sizes r wlcf ->
  wp (ngx_http_auth_webauthn_challenge_content r wlcf) (challenge_backed wlcf) ([] : trace) /\
  balanced ∅ (ngx_http_auth_webauthn_challenge_content r wlcf).
Proof.
  intros Hs. split; [|by apply challenge_content_balanced].
  unfold ngx_http_auth_webauthn_challenge_content. destruct (_ || _).
  { apply wp_bind, wp_trace_call. intros [] _. left. split; [|done]. by repeat constructor. }
  eapply wp_seq; [apply connect_trace, Hs|].
  intros [rc redis] h1 [[[= -> ->]|[= -> ->]] (k1 & -> & Hk1)]; cbn [is_ok negb app]; [|by left].
  eapply wp_seq; [by apply rate_limit_trace|]. intros rc h2 (k2 & -> & Hk2).
  assert (Forall (fun ev => before_issue (ev_eff ev)) (k1 ++ k2)) as Hk12 by by apply Forall_app.
  case_bool_decide.
  { apply close_trace. left. split; [|done]. apply Forall_app. split; [done|].
    by repeat constructor. }
  eapply wp_seq; [by apply (issue_segment r)|]. intros [rc' c] h3 [Hack (k3 & -> & Hk3)].
  assert (Forall (fun ev => quiet (ev_eff ev)) ((k1 ++ k2) ++ k3)) as Hk123
    by (apply Forall_app; split; [by apply before_quiet|done]).
  destruct rc'; cbn [is_ok negb].
  2,3: apply close_trace; right; left; eexists; split_and!; [|done|done];
    apply Forall_app; split; [done|]; by repeat constructor.
  destruct (Hack eq_refl) as (ch & E & Hlen & _ & Hch). cbn [snd] in E. subst c.
  eapply wp_mono; [|by apply respond_segment]. intros status h4 (k4 & -> & Hk4).
  right. right. by exists ch, ((k1 ++ k2) ++ k3), k4.
Qed.
End handler.

Import Samples MiniRedis HttpSamples.

(** A request over a quota of zero remaining, and one within it. *)
Definition counted_db (n : Z) : db :=
  Db {[ rate_key_of (bs "webauthn:") (bs "10.0.0.1") := VString (dec n) ]}
     {[ rate_key_of (bs "webauthn:") (bs "10.0.0.1") := 60 ]}.

Lemma sample_issue_sizes : issue_sizes HttpSamples.request HttpSamples.conf.
Proof. split; try reflexivity; [done|]. cbn. unfold NGX_AUTH_WEBAUTHN_UV_REQUIRED. lia. Qed.

Lemma challenge_content_correct_witness :
  (exists s, mini_run (ngx_http_auth_webauthn_challenge_content HttpSamples.request
                         HttpSamples.conf) empty_db = Some (0, s) /\
     db_kv s !! challenge_key_of (bs "webauthn:") sample_nonce = Some (VString (bs "1"))) /\
  fst <$> mini_run (ngx_http_auth_webauthn_challenge_content HttpSamples.request
                      HttpSamples.conf) (counted_db 2) = Some NGX_HTTP_TOO_MANY_REQUESTS /\
  wp (ngx_http_auth_webauthn_challenge_content HttpSamples.request HttpSamples.conf)
     (challenge_backed HttpSamples.conf) ([] : trace).
Proof.
  split; [eexists; split; vm_compute; reflexivity|]. split; [vm_compute; reflexivity|].
  exact (proj1 (challenge_content_correct HttpSamples.request HttpSamples.conf
                  sample_issue_sizes)).
Defined.
