(* ===== verification/VerifyHandler.v ===== *)
(** * The verify endpoint: src/ngx_http_auth_webauthn_module.c

    [read_body], [b64url_field], [verify_done] and [verify_content].  The
    gotos of [verify_done] are the programs [reject] and [reject_redis]; its
    consecutive blocks are [verify_request] (up to the Redis connection),
    [verify_redis] (consume, look up, verify, update) and [mint_session]
    (token, cookie, answer). *)

From S2P Require Import Prelude Effects Externals Base64 Samples AuthData Hash ClientData.
From S2P Require Import Assertion Redis RedisCalls RedisSpec RedisOps Challenge Credential.
From S2P Require Import Conf Http ChallengeHandler.
#[global] Open Scope Z_scope.

Definition fail_body : bytes := js "{'ok':false,'error':'E_ASSERTION'}".

Definition ngx_http_auth_webauthn_verify_fail (r : ngx_http_request_t) : prog Z :=
  ngx_http_auth_webauthn_send_json r NGX_HTTP_UNAUTHORIZED fail_body.

(** Return code and [*out]. *)
Definition ngx_http_auth_webauthn_read_body (r : ngx_http_request_t) : prog (ngx_rc * ngx_str_t) :=
  match r_body r with
  | None | Some None => Ret (NGX_ERROR, NULL)
  | Some (Some bufs) =>
      if existsb in_file bufs then Ret (NGX_ERROR, NULL) else
      let body := concat (buf_bytes <$> bufs) in
      let len := size_t (zlen body) in
      if (len =? 0) || (NGX_AUTH_WEBAUTHN_MAX_BODY <? len) then Ret (NGX_ERROR, NULL) else
      p <- pool_fill len body ;;
      match p with
      | None => Ret (NGX_ERROR, NULL)
      | Some b => Ret (NGX_OK, Some b)
      end
  end.

Definition ngx_http_auth_webauthn_samesite_name : list bytes := [bs "Strict"; bs "Lax"; bs "None"].

Section verify.
Context `{JSON : NxeJson, B64 : NginxBase64, SSL : OpenSSL, JWX : NxeJwx, HTTP : NginxHttp}.

(** Return code and [*out]. *)
Definition ngx_http_auth_webauthn_b64url_field (obj : nxe_json_t) (name : bytes)
    : prog (ngx_rc * ngx_str_t) :=
  match nxe_json_object_get_string obj name with
  | None | Some [] => Ret (NGX_ERROR, NULL)
  | Some enc =>
      let room := size_t (ngx_base64_decoded_length (zlen enc)) in
      ok <- call (ngx_pnalloc room) ;;
      if negb ok then Ret (NGX_ERROR, NULL) else
      match ngx_decode_base64url enc with
      | None => Ret (NGX_ERROR, NULL)
      | Some d => if room <? zlen d then UB else Ret (NGX_OK, Some d)
      end
  end.

(** [goto reject] and [goto reject_redis]. *)
Definition reject (r : ngx_http_request_t) : prog unit :=
  rc <- ngx_http_auth_webauthn_verify_fail r ;;
  call (ngx_http_finalize_request rc).
Definition reject_redis (r : ngx_http_request_t) (redis : ptr ngx_auth_webauthn_redis_t)
    : prog unit :=
  (if nullp redis then Ret redis else ngx_auth_webauthn_redis_close redis) ;;
  reject r.

Definition finalize_500 : prog unit :=
  call (ngx_http_finalize_request NGX_HTTP_INTERNAL_SERVER_ERROR).

(** From the body to the credential id, the assertion and the challenge named
    in clientDataJSON; [None] is [goto reject].  The JSON trees are left to
    the request pool. *)
Definition verify_request (body : bytes)
    : prog (option (bytes * ngx_auth_webauthn_assertion_t * bytes)) :=
  match nxe_json_parse_untrusted body with
  | None => Ret None
  | Some root =>
    if negb (nxe_json_is_object root) then Ret None else
    match nxe_json_object_get_string root (bs "id") with
    | None | Some [] => Ret None
    | Some id =>
      match nxe_json_object_get root (bs "response") with
      | None => Ret None
      | Some response =>
        if negb (nxe_json_is_object response) then Ret None else
        '(rc, cdj) <- ngx_http_auth_webauthn_b64url_field response (bs "clientDataJSON") ;;
        if negb (is_ok rc) then Ret None else
        '(rc, ad) <- ngx_http_auth_webauthn_b64url_field response (bs "authenticatorData") ;;
        if negb (is_ok rc) then Ret None else
        '(rc, sig) <- ngx_http_auth_webauthn_b64url_field response (bs "signature") ;;
        if negb (is_ok rc) then Ret None else
        match nxe_json_parse_untrusted (str_bytes cdj) with
        | None => Ret None
        | Some cd =>
          if negb (nxe_json_is_object cd) then Ret None else
          match nxe_json_object_get_string cd (bs "challenge") with
          | None => Ret None
          | Some challenge_b64 =>
            let room := size_t (ngx_base64_decoded_length (zlen challenge_b64)) in
            ok <- call (ngx_pnalloc room) ;;
            if negb ok then Ret None else
            match ngx_decode_base64url challenge_b64 with
            | None => Ret None
            | Some challenge =>
              if room <? zlen challenge then UB else
              Ret (Some (id, {| authenticator_data := ad; client_data_json := cdj;
                                signature := sig |}, challenge))
            end
          end
        end
      end
    end
  end.

Definition acred_of (cred : ngx_auth_webauthn_credential_t) : ngx_auth_webauthn_assertion_cred_t :=
  {| acred_public_key := cr_public_key cred; acred_alg := cr_alg cred;
     acred_sign_count := cr_sign_count cred |}.

Definition policy_of (wlcf : ngx_http_auth_webauthn_loc_conf_t) (origins : list ngx_str_t)
    (challenge : bytes) : ngx_auth_webauthn_assertion_policy_t :=
  {| policy_rp_id := rp_id wlcf; expected_challenge := Some challenge;
     allowed_origins := Some origins; norigins := zlen origins;
     require_uv := user_verification wlcf =? NGX_AUTH_WEBAUTHN_UV_REQUIRED;
     Assertion.clone_detection := Conf.clone_detection wlcf |}.

(** Consume, look up, verify, update the counter: the record and the time, or
    [None] for [goto reject_redis]. *)
Definition verify_redis (redis : ptr ngx_auth_webauthn_redis_t)
    (wlcf : ngx_http_auth_webauthn_loc_conf_t) (origins : list ngx_str_t) (id : bytes)
    (assertion : ngx_auth_webauthn_assertion_t) (challenge : bytes)
    : prog (option (ngx_auth_webauthn_credential_t * Z)) :=
  rc <- ngx_auth_webauthn_challenge_consume redis (Some tt) (Some (redis_key_prefix wlcf))
          (Some challenge) (zlen challenge) ;;
  if negb (is_ok rc) then Ret None else
  '(rc, cred) <- ngx_auth_webauthn_credential_get redis (Some tt)
      (Some (redis_key_prefix wlcf)) (Some (Some id)) (Some (cred_zero NULL)) ;;
  if negb (is_ok rc) then Ret None else
  cred <- deref cred ;;
  '(rc, result) <- ngx_auth_webauthn_assertion_verify (Some tt) (Some assertion)
      (Some (acred_of cred)) (Some (policy_of wlcf origins challenge))
      (Some {| auth_sign_count := 0 |}) ;;
  if negb (is_ok rc) then Ret None else
  result <- deref result ;;
  now <- call ngx_time ;;
  rc <- ngx_auth_webauthn_credential_update_counter redis (Some tt)
      (Some (redis_key_prefix wlcf)) (Some (Some id)) (auth_sign_count result) now ;;
  (if negb (is_ok rc) then
     call (ngx_log_error NGX_LOG_WARN (bs "auth_webauthn: sign-counter update failed; clone detection may be degraded for this credential"))
   else Ret tt) ;;
  Ret (Some (cred, now)).

(** The texts of a session; the sum is a [time_t]. *)
Definition session_exp (wlcf : ngx_http_auth_webauthn_loc_conf_t) (now : Z) : Z :=
  int64 (now + jwt_ttl wlcf).

Definition claims_text (wlcf : ngx_http_auth_webauthn_loc_conf_t) (sub id jti : bytes) (now : Z)
    : bytes :=
  js "{'iss':'nginx-webauthn','aud':'" ++ str_bytes (rp_id wlcf) ++ js "','sub':'" ++ sub ++
  js "','cid':'" ++ id ++ js "','iat':" ++ dec now ++ js ",'exp':" ++
  dec (session_exp wlcf now) ++ js ",'jti':'" ++ jti ++ js "'}".

Definition cookie_text (wlcf : ngx_http_auth_webauthn_loc_conf_t) (samesite jwt : bytes) : bytes :=
  str_bytes (cookie_name wlcf) ++ bs "=" ++ jwt ++ bs "; HttpOnly; SameSite=" ++ samesite ++
  bs "; Path=" ++ str_bytes (cookie_path wlcf) ++
  (if cookie_secure wlcf then bs "; Secure" else []) ++
  (if str_len (cookie_domain wlcf) =? 0 then [] else
     bs "; Domain=" ++ str_bytes (cookie_domain wlcf)) ++
  bs "; Max-Age=" ++ dec (jwt_ttl wlcf).

Definition ok_body (wlcf : ngx_http_auth_webauthn_loc_conf_t) (sub : bytes) (now : Z) : bytes :=
  js "{'ok':true,'user_id':'" ++ sub ++ js "','exp':" ++ dec (session_exp wlcf now) ++ bs "}".

(** From the closed connection to the final answer. *)
Definition mint_session (r : ngx_http_request_t) (wlcf : ngx_http_auth_webauthn_loc_conf_t)
    (cred : ngx_auth_webauthn_credential_t) (id : bytes) (now : Z) : prog unit :=
  jti <- call (RAND_bytes (Z.to_nat NGX_AUTH_WEBAUTHN_JTI_LEN)) ;;
  match jti with
  | None => finalize_500
  | Some jti =>
  '(rc, jti_b64) <- ngx_http_auth_webauthn_b64url (Some jti) ;;
  if negb (is_ok rc) then finalize_500 else
  sub <- ngx_http_auth_webauthn_json_escape (cr_user_id cred) ;;
  match sub with
  | None => finalize_500
  | Some sub =>
  claims <- pool_fill (256 + zlen sub + zlen id + str_len (rp_id wlcf) + str_len jti_b64)
              (claims_text wlcf sub id (str_bytes jti_b64) now) ;;
  match claims with
  | None => finalize_500
  | Some claims =>
  match nxe_jwx_encode (str_bytes (jwt_alg wlcf)) claims (str_bytes (jwt_secret wlcf)) with
  | None =>
      call (ngx_log_error NGX_LOG_ERR (bs "auth_webauthn: failed to mint session token")) ;;
      finalize_500
  | Some jwt =>
  samesite <- defined (ngx_http_auth_webauthn_samesite_name !! Z.to_nat (cookie_samesite wlcf)) ;;
  cookie <- pool_fill (str_len (cookie_name wlcf) + zlen jwt + str_len (cookie_path wlcf)
                       + str_len (cookie_domain wlcf) + 128)
              (cookie_text wlcf samesite jwt) ;;
  match cookie with
  | None => finalize_500
  | Some cookie =>
  pushed <- call (headers_out_push (bs "Set-Cookie") cookie) ;;
  if negb pushed then finalize_500 else
  out <- pool_fill (64 + zlen sub) (ok_body wlcf sub now) ;;
  match out with
  | None => finalize_500
  | Some out =>
      rc <- ngx_http_auth_webauthn_send_json r NGX_HTTP_OK out ;;
      call (ngx_http_finalize_request rc)
  end end end end end
  end.

Definition ngx_http_auth_webauthn_verify_done (r : ngx_http_request_t)
    (wlcf : ngx_http_auth_webauthn_loc_conf_t) : prog unit :=
  match origins wlcf with
  | Some origins =>
    if (str_len (rp_id wlcf) =? 0) || (str_len (redis_host wlcf) =? 0)
       || (str_len (jwt_secret wlcf) =? 0)
    then
      call (ngx_log_error NGX_LOG_ERR
              (bs "auth_webauthn: verify handler is missing required directives")) ;;
      finalize_500
    else
    '(rc, body) <- ngx_http_auth_webauthn_read_body r ;;
    if negb (is_ok rc) then reject r else
    req <- verify_request (str_bytes body) ;;
    match req with
    | None => reject r
    | Some (id, assertion, challenge) =>
        '(rc, redis) <- ngx_auth_webauthn_redis_connect (Some tt) (Some (rconf_of wlcf))
                          (Some NULL) ;;
        if negb (is_ok rc) then finalize_500 else
        verified <- verify_redis redis wlcf origins id assertion challenge ;;
        match verified with
        | None => reject_redis r redis
        | Some (cred, now) =>
            ngx_auth_webauthn_redis_close redis ;;
            mint_session r wlcf cred id now
        end
    end
  | None =>
      call (ngx_log_error NGX_LOG_ERR
              (bs "auth_webauthn: verify handler is missing required directives")) ;;
      finalize_500
  end.

(** The content handler hands [verify_done] to the body reader of nginx,
    whose return code is [read_rc]. *)
Definition ngx_http_auth_webauthn_verify_content (r : ngx_http_request_t) (read_rc : Z) : Z :=
  if negb (r_method_post r) then NGX_HTTP_NOT_ALLOWED
  else if NGX_HTTP_SPECIAL_RESPONSE <=? read_rc then read_rc
  else NGX_DONE.

(** ** What a request says *)

Definition body_of (r : ngx_http_request_t) : option bytes :=
  match r_body r with
  | Some (Some bufs) => if existsb in_file bufs then None else Some (concat (buf_bytes <$> bufs))
  | _ => None
  end.

(** A non-empty base64url member. *)
Definition field_of (obj : nxe_json_t) (name : bytes) : option bytes :=
  enc ← nxe_json_object_get_string obj name;
  if bool_decide (enc = []) then None else ngx_decode_base64url enc.

Definition object_of (s : bytes) : option nxe_json_t :=
  j ← nxe_json_parse_untrusted s; if nxe_json_is_object j then Some j else None.

(** The credential id, the assertion and the challenge that a body names. *)
Definition request_of (body : bytes) : option (bytes * ngx_auth_webauthn_assertion_t * bytes) :=
  root ← object_of body;
  id ← nxe_json_object_get_string root (bs "id");
  if bool_decide (id = []) then None else
  resp ← nxe_json_object_get root (bs "response");
  if negb (nxe_json_is_object resp) then None else
  cdj ← field_of resp (bs "clientDataJSON");
  ad ← field_of resp (bs "authenticatorData");
  sig ← field_of resp (bs "signature");
  cd ← object_of cdj;
  enc ← nxe_json_object_get_string cd (bs "challenge");
  c ← ngx_decode_base64url enc;
  Some (id, {| authenticator_data := Some ad; client_data_json := Some cdj;
               signature := Some sig |}, c).

Definition request_reads (body id : bytes) (a : ngx_auth_webauthn_assertion_t)
    (challenge : bytes) : Prop := request_of body = Some (id, a, challenge).

(** ** Sizes *)

(** What the configuration parser, nginx and the token library guarantee. *)
Record verify_sizes (r : ngx_http_request_t) (wlcf : ngx_http_auth_webauthn_loc_conf_t) : Prop := {
  vs_host : fits (str_bytes (redis_host wlcf));
  vs_prefix : fits (str_bytes (redis_key_prefix wlcf));
  vs_rp : fits (str_bytes (rp_id wlcf));
  vs_name : fits (str_bytes (cookie_name wlcf));
  vs_path : fits (str_bytes (cookie_path wlcf));
  vs_domain : fits (str_bytes (cookie_domain wlcf));
  vs_samesite : 0 <= cookie_samesite wlcf <= 2;
  vs_ttl : 0 <= jwt_ttl wlcf < 2 ^ 62;
  vs_body : forall bufs, r_body r = Some (Some bufs) -> zlen (concat (buf_bytes <$> bufs)) < 2 ^ 63;
  vs_jwt : forall claims jwt, zlen claims <= 2 ^ 40 ->
    nxe_jwx_encode (str_bytes (jwt_alg wlcf)) claims (str_bytes (jwt_secret wlcf)) = Some jwt ->
    zlen jwt < 2 ^ 62;
}.

Lemma exp_exact wlcf now : 0 <= jwt_ttl wlcf < 2 ^ 62 -> 0 <= now < 2 ^ 40 ->
  session_exp wlcf now = now + jwt_ttl wlcf.
Proof. intros Ht Hn. apply int64_small. unfold INT64_MIN, INT64_MAX. lia. Qed.

Lemma exp_len wlcf now : zlen (dec (session_exp wlcf now)) <= 20.
Proof.
  pose proof (int64_range (now + jwt_ttl wlcf)) as H. apply dec_length.
  unfold session_exp, INT64_MIN, INT64_MAX in *. lia.
Qed.

Lemma claims_len wlcf sub id jti now : 0 <= now < 2 ^ 40 ->
  zlen (claims_text wlcf sub id jti now) <=
  256 + zlen sub + zlen id + str_len (rp_id wlcf) + zlen jti.
Proof.
  intros Hn. unfold claims_text. rewrite !zlen_app, !js_len, str_len_zlen.
  pose proof (exp_len wlcf now). pose proof (dec_length now ltac:(lia)).
  change (zlen (bs "{'iss':'nginx-webauthn','aud':'")) with 31.
  change (zlen (bs "','sub':'")) with 9. change (zlen (bs "','cid':'")) with 9.
  change (zlen (bs "','iat':")) with 8. change (zlen (bs ",'exp':")) with 7.
  change (zlen (bs ",'jti':'")) with 8. change (zlen (bs "'}")) with 2. lia.
Qed.

Lemma cookie_len wlcf samesite jwt : 0 <= jwt_ttl wlcf < 2 ^ 62 ->
  samesite ∈ ngx_http_auth_webauthn_samesite_name ->
  zlen (cookie_text wlcf samesite jwt) <=
  str_len (cookie_name wlcf) + zlen jwt + str_len (cookie_path wlcf)
    + str_len (cookie_domain wlcf) + 128.
Proof.
  intros Ht Hs. unfold cookie_text. rewrite !zlen_app, !str_len_zlen.
  pose proof (dec_length (jwt_ttl wlcf) ltac:(lia)).
  assert (zlen samesite <= 6) by (repeat (apply elem_of_cons in Hs as [->|Hs]; [done|]); by apply elem_of_nil in Hs).
  assert (zlen (if cookie_secure wlcf then bs "; Secure" else []) <= 8) by by destruct (cookie_secure wlcf).
  pose proof (zlen_nonneg (str_bytes (cookie_domain wlcf))).
  assert (zlen (if zlen (str_bytes (cookie_domain wlcf)) =? 0 then [] else
            bs "; Domain=" ++ str_bytes (cookie_domain wlcf))
          <= 9 + zlen (str_bytes (cookie_domain wlcf))).
  { destruct (_ =? 0); [change (zlen (@nil byte)) with 0; lia|]. rewrite zlen_app.
    change (zlen (bs "; Domain=")) with 9. lia. }
  change (zlen (bs "=")) with 1. change (zlen (bs "; HttpOnly; SameSite=")) with 21.
  change (zlen (bs "; Path=")) with 7. change (zlen (bs "; Max-Age=")) with 10. lia.
Qed.

Lemma ok_len wlcf sub now : zlen (ok_body wlcf sub now) <= 64 + zlen sub.
Proof.
  unfold ok_body. rewrite !zlen_app, !js_len. pose proof (exp_len wlcf now).
  change (zlen (bs "{'ok':true,'user_id':'")) with 22. change (zlen (bs "','exp':")) with 8.
  change (zlen (bs "}")) with 1. lia.
Qed.

Lemma samesite_some wlcf : 0 <= cookie_samesite wlcf <= 2 ->
  exists ss, ngx_http_auth_webauthn_samesite_name !! Z.to_nat (cookie_samesite wlcf) = Some ss /\
    ss ∈ ngx_http_auth_webauthn_samesite_name.
Proof.
  intros Hu. assert (cookie_samesite wlcf = 0 \/ cookie_samesite wlcf = 1 \/
    cookie_samesite wlcf = 2) as [->|[->| ->]] by lia;
    (eexists; split; [reflexivity|]; unfold ngx_http_auth_webauthn_samesite_name; set_solver).
Qed.

(** ** Resources *)

Lemma reject_held r (w : held) : wp (reject r) (fun _ w' => w' = w) w.
Proof.
  apply wp_bind. eapply wp_balanced; [apply send_json_balanced|multiset_solver|].
  intros rc. held_steps.
Qed.

Lemma finalize_500_held (w : held) : wp finalize_500 (fun _ w' => w' = w) w.
Proof. unfold finalize_500. held_steps. Qed.

Lemma read_body_held r wlcf (w : held) Q :
  verify_sizes r wlcf -> (forall x, Q (NGX_ERROR, x) w) ->
  (forall b, body_of r = Some b -> zlen b <= NGX_AUTH_WEBAUTHN_MAX_BODY -> Q (NGX_OK, Some b) w) ->
  wp (ngx_http_auth_webauthn_read_body r) Q w.
Proof.
  intros Hs HE HQ. unfold ngx_http_auth_webauthn_read_body.
  destruct (r_body r) as [[bufs|]|] eqn:Hb; try apply HE.
  unfold body_of in HQ. rewrite Hb in HQ. destruct (existsb in_file bufs); [apply HE|].
  pose proof (vs_body _ _ Hs _ Hb) as Hlen. set (body := concat (buf_bytes <$> bufs)) in *.
  pose proof (zlen_nonneg body). rewrite (size_t_small (zlen body)) by lia.
  destruct (Z.eqb_spec (zlen body) 0); [apply HE|].
  destruct (Z.ltb_spec NGX_AUTH_WEBAUTHN_MAX_BODY (zlen body)); [apply HE|]. cbn [orb].
  apply wp_bind, pool_fill_held; [rewrite size_t_small; lia|apply HE|by apply HQ].
Qed.

Lemma decoded_room enc d `{!NginxBase64Laws} :
  zlen enc <= 2 ^ 20 -> ngx_decode_base64url enc = Some d ->
  zlen d <= size_t (ngx_base64_decoded_length (zlen enc)) /\ zlen d <= 2 ^ 20.
Proof.
  intros He Hd. pose proof (decode_fits _ _ Hd) as Hf. pose proof (zlen_nonneg enc).
  assert (0 <= ngx_base64_decoded_length (zlen enc) <= 2 ^ 20)
    by (unfold ngx_base64_decoded_length; div_lia).
  rewrite size_t_small; lia.
Qed.

Lemma field_held `{!NginxBase64Laws, !NxeJsonLaws} obj name (w : held) Q :
  json_size obj <= 2 ^ 20 -> (forall x, Q (NGX_ERROR, x) w) ->
  (forall d, field_of obj name = Some d -> zlen d <= 2 ^ 20 -> Q (NGX_OK, Some d) w) ->
  wp (ngx_http_auth_webauthn_b64url_field obj name) Q w.
Proof.
  intros Hj HE HQ. unfold ngx_http_auth_webauthn_b64url_field.
  destruct (nxe_json_object_get_string obj name) as [enc|] eqn:Hg; [|apply HE].
  destruct enc as [|c enc']; [apply HE|]. pose proof (get_string_size _ _ _ Hg).
  set (enc := c :: enc') in *. apply wp_bind, wp_held_call; [done|]. intros [] _; [|apply HE].
  cbn [negb held_next]. destruct (ngx_decode_base64url enc) as [d|] eqn:Hd; [|apply HE].
  destruct (decoded_room enc d ltac:(lia) Hd).
  destruct (Z.ltb_spec (size_t (ngx_base64_decoded_length (zlen enc))) (zlen d)); [lia|].
  apply HQ; [|done]. unfold field_of. rewrite Hg. cbn [mbind option_bind].
  by rewrite bool_decide_false.
Qed.

Lemma verify_request_held `{!NginxBase64Laws, !NxeJsonLaws} body (w : held) Q :
  zlen body <= NGX_AUTH_WEBAUTHN_MAX_BODY -> Q None w ->
  (forall id a c, request_reads body id a c -> fits id -> assertion_sizes a ->
     Q (Some (id, a, c)) w) ->
  wp (verify_request body) Q w.
Proof.
  unfold NGX_AUTH_WEBAUTHN_MAX_BODY. intros Hb HN HQ. unfold verify_request.
  destruct (nxe_json_parse_untrusted body) as [root|] eqn:Hp; [|done].
  pose proof (parse_size _ _ Hp).
  destruct (nxe_json_is_object root) eqn:Ho; cbn [negb]; [|done].
  destruct (nxe_json_object_get_string root (bs "id")) as [[|x id']|] eqn:Hid; [done| |done].
  pose proof (get_string_size _ _ _ Hid). set (id := x :: id') in *.
  destruct (nxe_json_object_get root (bs "response")) as [resp|] eqn:Hr; [|done].
  pose proof (get_size _ _ _ Hr). destruct (nxe_json_is_object resp) eqn:Hro; cbn [negb]; [|done].
  apply wp_bind, field_held; [lia|done|]. intros cdj Fcdj Hcdj. cbn [is_ok negb].
  apply wp_bind, field_held; [lia|done|]. intros ad Fad Had. cbn [is_ok negb].
  apply wp_bind, field_held; [lia|done|]. intros sig Fsig Hsig. cbn [is_ok negb str_bytes].
  destruct (nxe_json_parse_untrusted cdj) as [cd|] eqn:Hcd; [|done].
  destruct (nxe_json_is_object cd) eqn:Hco; cbn [negb]; [|done].
  destruct (nxe_json_object_get_string cd (bs "challenge")) as [c64|] eqn:Hc; [|done].
  pose proof (get_string_size _ _ _ Hc). pose proof (parse_size _ _ Hcd).
  apply wp_bind, wp_held_call; [done|]. intros [] _; cbn [negb held_next]; [|done].
  destruct (ngx_decode_base64url c64) as [c|] eqn:Hd; [|done].
  destruct (decoded_room c64 c ltac:(lia) Hd).
  destruct (Z.ltb_spec (size_t (ngx_base64_decoded_length (zlen c64))) (zlen c)); [lia|].
  assert (request_reads body id {| authenticator_data := Some ad; client_data_json := Some cdj;
    signature := Some sig |} c) as Hreads.
  { unfold request_reads, request_of, object_of. rewrite Hp. cbn [mbind option_bind].
    rewrite Ho. cbn [mbind option_bind]. rewrite Hid. cbn [mbind option_bind].
    rewrite bool_decide_false by done. rewrite Hr. cbn [mbind option_bind]. rewrite Hro.
    cbn [negb]. rewrite Fcdj, Fad, Fsig. cbn [mbind option_bind]. rewrite Hcd. cbn [mbind option_bind].
    rewrite Hco. cbn [mbind option_bind]. rewrite Hc. cbn [mbind option_bind]. by rewrite Hd. }
  apply HQ; [exact Hreads|unfold fits; lia|]. split; cbn.
  - unfold fits. lia.
  - intros cdj' root' b64 [= <-] Hp' Hg. unfold get_str in Hg.
    destruct (nxe_json_object_get root' (bs "challenge")) as [n|] eqn:Hn; [|done].
    apply parse_size in Hp'. apply get_size in Hn. apply string_size in Hg. unfold fits. lia.
Qed.

Lemma verify_redis_held `{!NginxBase64Laws} wlcf os id a c (w : held) Q :
  fits (str_bytes (redis_key_prefix wlcf)) -> fits id -> assertion_sizes a ->
  Q None (w ⊎ {[+ REDIS_CTX +]}) ->
  (forall cred now, cred_fits cred -> 0 <= now < 2 ^ 40 ->
     Q (Some (cred, now)) (w ⊎ {[+ REDIS_CTX +]})) ->
  wp (verify_redis open_redis wlcf os id a c) Q (w ⊎ {[+ REDIS_CTX +]}).
Proof.
  intros Hp Hid Ha HN HQ. unfold verify_redis. pose proof (needs_open w).
  assert (prefix_fits (Some (redis_key_prefix wlcf))) as Hpf by by intros ? [= <-].
  assert (prefix_fits (Some (Some id))) as Hif by by intros ? [= <-].
  apply wp_bind. eapply wp_balanced; [apply consume_balanced; [done|by intros ? [= <-]]|done|].
  intros []; cbn [is_ok negb]; [|done|done].
  apply wp_bind, get_held; [done..|]. intros rc cred Hok. destruct rc; cbn [is_ok negb]; [|done|done].
  destruct (Hok eq_refl) as (cr & -> & Hcr). cbn [deref bind].
  apply wp_bind, assertion_verify_held; [done|intros os' [= <-]; cbn; lia|].
  intros rc res Hres. destruct rc; cbn [is_ok negb]; [|done|done].
  destruct (Hres eq_refl) as [x ->]. cbn [deref bind].
  apply wp_bind, wp_held_call; [done|]. intros now Hnow. cbn [held_next ans_ok] in *.
  apply wp_bind. eapply wp_balanced; [by apply update_balanced|done|].
  intros []; cbn [is_ok negb bind]; [by apply HQ|..]; apply wp_bind, wp_held_call; try done;
    intros [] _; by apply HQ.
Qed.

Lemma mint_session_held `{!NginxBase64Laws} r wlcf cred id now (w : held) :
  verify_sizes r wlcf -> fits id -> cred_fits cred -> 0 <= now < 2 ^ 40 ->
  wp (mint_session r wlcf cred id now) (fun _ w' => w' = w) w.
Proof.
  intros Hs Hid [Hu _] Hnow. destruct Hs as [_ _ Hrp Hcn Hcp Hcd Hss Httl _ Hjwt].
  unfold mint_session. apply wp_bind, wp_held_call; [done|]. intros [jti|] Hj; [|apply finalize_500_held].
  specialize (Hj _ eq_refl). cbn [held_next]. cbn in Hj.
  assert (zlen jti = 16) as Hj16 by (unfold zlen; by rewrite Hj).
  apply wp_bind, b64url_held; [unfold fits; cbn; lia|apply finalize_500_held|].
  cbn [is_ok negb str_bytes]. set (j64 := ngx_encode_base64url jti).
  assert (0 <= zlen j64 <= 24) as Hj64.
  { pose proof (encode_fits jti) as He. rewrite Hj16 in He. split; [apply zlen_nonneg|exact He]. }
  apply wp_bind, json_escape_held; [done|apply finalize_500_held|].
  pose proof (escape_length (str_bytes (cr_user_id cred))) as Hesc.
  set (sub := escape (str_bytes (cr_user_id cred))) in *.
  pose proof (zlen_nonneg id). pose proof (zlen_nonneg (str_bytes (cr_user_id cred))).
  unfold fits in *. rewrite !str_len_zlen.
  pose proof (zlen_nonneg (str_bytes (rp_id wlcf))).
  pose proof (zlen_nonneg (str_bytes (cookie_name wlcf))).
  pose proof (zlen_nonneg (str_bytes (cookie_path wlcf))).
  pose proof (zlen_nonneg (str_bytes (cookie_domain wlcf))).
  pose proof (claims_len wlcf sub id j64 now Hnow) as Hcl. rewrite str_len_zlen in Hcl.
  apply wp_bind, pool_fill_held; [cbn [str_bytes]; rewrite size_t_small; lia|apply finalize_500_held|].
  destruct (nxe_jwx_encode _ _ _) as [jwt|] eqn:Hjw.
  2:{ apply wp_bind, wp_held_call; [done|]. intros [] _. apply finalize_500_held. }
  apply Hjwt in Hjw; [|lia]. pose proof (zlen_nonneg jwt).
  destruct (samesite_some wlcf Hss) as (ss & -> & Hin). cbn [defined deref bind].
  pose proof (cookie_len wlcf ss jwt Httl Hin) as Hck. rewrite !str_len_zlen in Hck.
  apply wp_bind, pool_fill_held; [rewrite size_t_small; lia|apply finalize_500_held|].
  apply wp_bind, wp_held_call; [done|]. intros [] _; cbn [negb held_next]; [|apply finalize_500_held].
  pose proof (ok_len wlcf sub now).
  apply wp_bind, pool_fill_held; [rewrite size_t_small; lia|apply finalize_500_held|].
  apply wp_bind. eapply wp_balanced; [apply send_json_balanced|multiset_solver|].
  intros rc. held_steps.
Qed.

Lemma verify_done_balanced `{!NginxBase64Laws, !NxeJsonLaws} r wlcf :
  verify_sizes r wlcf -> balanced ∅ (ngx_http_auth_webauthn_verify_done r wlcf).
Proof.
  intros Hs w _. unfold ngx_http_auth_webauthn_verify_done.
  assert (forall msg, wp (call (ngx_log_error NGX_LOG_ERR msg) ;; finalize_500)
            (fun _ w' => w' = w) w) as Hlog.
  { intros msg. apply wp_bind, wp_held_call; [done|]. intros [] _. apply finalize_500_held. }
  destruct (origins wlcf) as [os|]; [|apply Hlog]. destruct (_ || _); [apply Hlog|].
  apply wp_bind, (read_body_held r wlcf); [done|intros; apply reject_held|]. intros body _ Hb.
  cbn [is_ok negb str_bytes].
  apply wp_bind, verify_request_held; [done|apply reject_held|]. intros id a c _ Hid Ha.
  apply wp_bind, connect_conf_held; [apply Hs| |apply finalize_500_held]. cbn [is_ok negb].
  apply wp_bind, verify_redis_held; [apply Hs|done|done| |].
  - unfold reject_redis. cbn [nullp]. apply close_open_held, reject_held.
  - intros cred now Hcred Hnow. apply close_open_held. by apply mint_session_held.
Qed.
End verify.
