(* ===== verification/VerifySound.v ===== *)
(** * The verify endpoint: who gets a session

    The trace of [verify_done]: one response, a session only after the server
    handed over the challenge and the credential record and the assertion was
    verified against both. *)

From S2P Require Import Prelude Effects Externals Base64 Samples AuthData Hash ClientData.
From S2P Require Import Assertion Redis RedisCalls RedisSpec RedisOps Challenge Credential.
From S2P Require Import Conf Http ChallengeHandler VerifyHandler.
#[global] Open Scope Z_scope.

Section verify.
Context `{JSON : NxeJson, B64 : NginxBase64, SSL : OpenSSL, JWX : NxeJwx, HTTP : NginxHttp}.

(** Calls of a refusal: the uniform 401 and no cookie. *)
Definition refuses (e : eff) : Prop :=
  match e with
  | ngx_http_send_header status _ _ => status = NGX_HTTP_UNAUTHORIZED
  | ngx_http_output_filter b => b = fail_body
  | e => quiet e
  end.

(** Calls of a session for the owner of [cred], signed in at [now]. *)
Definition grants (wlcf : ngx_http_auth_webauthn_loc_conf_t) (id : bytes)
    (cred : ngx_auth_webauthn_credential_t) (now : Z) (e : eff) : Prop :=
  let sub := escape (str_bytes (cr_user_id cred)) in
  match e with
  | headers_out_push k v => k = bs "Set-Cookie" /\ exists ss jti jwt,
      ngx_http_auth_webauthn_samesite_name !! Z.to_nat (cookie_samesite wlcf) = Some ss /\
      nxe_jwx_encode (str_bytes (jwt_alg wlcf))
        (claims_text wlcf sub id (ngx_encode_base64url jti) now) (str_bytes (jwt_secret wlcf))
        = Some jwt /\
      v = cookie_text wlcf ss jwt
  | ngx_http_send_header status _ _ => status = NGX_HTTP_OK
  | ngx_http_output_filter b => b = ok_body wlcf sub now
  | e => quiet e
  end.

#[local] Instance refuses_background : Background refuses.
Proof. by intros []. Qed.
#[local] Instance grants_background wlcf id cred now : Background (grants wlcf id cred now).
Proof. by intros []. Qed.

Lemma quiet_refuses e : quiet e -> refuses e.
Proof. by destruct e. Qed.

(** The counter was stored, or the failure to store it logged. *)
Definition counter_handled (wlcf : ngx_http_auth_webauthn_loc_conf_t) (id : bytes)
    (count now : Z) (h : trace) : Prop :=
  acked (bs "HSET" :: record_key_of (str_bytes (redis_key_prefix wlcf)) id
           :: hset_args (counter_pairs count now)) h \/
  exists msg, Ev (ngx_log_error NGX_LOG_WARN msg) tt ∈ h.

(** The challenge was handed over, the record read, the assertion valid for
    both, the counter dealt with. *)
Record verified (wlcf : ngx_http_auth_webauthn_loc_conf_t) (os : list ngx_str_t) (id : bytes)
    (a : ngx_auth_webauthn_assertion_t) (c : bytes) (cred : ngx_auth_webauthn_credential_t)
    (count now : Z) (h : trace) : Prop := {
  ve_challenge : zlen c = 32 /\ exists v,
    answered [bs "GETDEL"; challenge_key_of (str_bytes (redis_key_prefix wlcf)) c] (RString v) h;
  ve_record : exists element,
    answered [bs "HGETALL"; record_key_of (str_bytes (redis_key_prefix wlcf)) id]
      (RArray element) h /\ read_record (Some id) element cred;
  ve_assertion : assertion_valid a (acred_of cred) (policy_of wlcf os c) os count;
  ve_counter : counter_handled wlcf id count now h;
}.

(** What was established before a session is granted. *)
Record authenticated (wlcf : ngx_http_auth_webauthn_loc_conf_t) (body id : bytes)
    (cred : ngx_auth_webauthn_credential_t) (now : Z) (h : trace) : Prop := {
  au_assertion : exists a c os count,
    request_reads body id a c /\ origins wlcf = Some os /\
    verified wlcf os id a c cred count now h;
  au_now : 0 <= now < 2 ^ 40;
}.

(** One response, and what it is. *)
Definition verify_outcome (r : ngx_http_request_t) (wlcf : ngx_http_auth_webauthn_loc_conf_t)
    (h : trace) : Prop :=
  exists k rc, h = k ++ [Ev (ngx_http_finalize_request rc) tt] /\
  (Forall (fun ev => refuses (ev_eff ev)) k \/
   (Forall (fun ev => quiet (ev_eff ev)) k /\ rc = NGX_HTTP_INTERNAL_SERVER_ERROR) \/
   (exists k1 k2 body id cred now, k = k1 ++ k2 /\ body_of r = Some body /\
      Forall (fun ev => quiet (ev_eff ev)) k1 /\ authenticated wlcf body id cred now k1 /\
      Forall (fun ev => grants wlcf id cred now (ev_eff ev)) k2)).

Lemma verified_app wlcf os id a c cred count now (h k : trace) :
  verified wlcf os id a c cred count now h -> verified wlcf os id a c cred count now (h ++ k).
Proof.
  intros [[? [v ?]] (el & ? & ?) ? Hcnt].
  split; [|exists el; split|..]; [|by auto using answered_app|done|done|].
  - split; [done|]. exists v. auto using answered_app.
  - destruct Hcnt as [?|[msg ?]]; [left; by apply acked_app|right].
    exists msg. apply elem_of_app. by left.
Qed.

Lemma authenticated_app wlcf body id cred now (h k : trace) :
  authenticated wlcf body id cred now h -> authenticated wlcf body id cred now (h ++ k).
Proof.
  intros [(a & c & os & count & ? & ? & ?) ?]. split; [|done].
  exists a, c, os, count. split_and!; [done|done|by apply verified_app].
Qed.

(** ** Which calls each block makes *)

Lemma verify_fail_calls r : all_calls refuses (ngx_http_auth_webauthn_verify_fail r).
Proof. by apply send_json_calls; [apply _|..]. Qed.

Lemma reject_finalizes r : finalizes refuses (fun _ => True) (reject r).
Proof. apply finalizes_bind; [apply verify_fail_calls|]. intros rc. by apply finalizes_call. Qed.

Lemma reject_redis_finalizes r redis : finalizes refuses (fun _ => True) (reject_redis r redis).
Proof.
  unfold reject_redis. apply finalizes_bind; [|intros _; apply reject_finalizes].
  destruct (nullp redis); [done|apply close_calls, _].
Qed.

Lemma finalize_500_finalizes P :
  finalizes P (fun rc => rc = NGX_HTTP_INTERNAL_SERVER_ERROR) finalize_500.
Proof. by apply finalizes_call. Qed.

Lemma logged_500_finalizes P `{!Background P} msg :
  finalizes P (fun rc => rc = NGX_HTTP_INTERNAL_SERVER_ERROR)
    (call (ngx_log_error NGX_LOG_ERR msg) ;; finalize_500).
Proof.
  apply finalizes_bind; [by apply all_calls_internal|]. intros _. apply finalize_500_finalizes.
Qed.

Lemma read_body_calls P `{!Background P} r : all_calls P (ngx_http_auth_webauthn_read_body r).
Proof. unfold ngx_http_auth_webauthn_read_body. calls. Qed.

Lemma field_calls P `{!Background P} obj name :
  all_calls P (ngx_http_auth_webauthn_b64url_field obj name).
Proof. unfold ngx_http_auth_webauthn_b64url_field. calls. Qed.

Lemma verify_request_calls P `{!Background P} body : all_calls P (verify_request body).
Proof.
  pose proof (field_calls P) as Hf. unfold verify_request. repeat calls_step; apply Hf.
Qed.

Lemma verify_redis_calls wlcf os id a c :
  all_calls quiet (verify_redis open_redis wlcf os id a c).
Proof.
  unfold verify_redis. apply all_calls_bind; [by apply consume_calls; [apply _|]|].
  intros rc. destruct (negb _); [done|].
  apply all_calls_bind; [by apply get_calls; [apply _|]|]. intros [rc' cred].
  destruct (negb _); [done|]. apply all_calls_bind; [apply all_calls_deref|]. intros cr.
  apply all_calls_bind; [by apply assertion_verify_calls, _|]. intros [rc'' res].
  destruct (negb _); [done|]. apply all_calls_bind; [apply all_calls_deref|]. intros x.
  apply all_calls_bind; [done|]. intros now.
  apply all_calls_bind; [by apply update_calls; [apply _|]|]. intros rc3.
  apply all_calls_bind; [by destruct (negb _)|done].
Qed.

Lemma mint_session_finalizes r wlcf cred id now :
  finalizes (grants wlcf id cred now) (fun _ => True) (mint_session r wlcf cred id now).
Proof.
  assert (finalizes (grants wlcf id cred now) (fun _ => True) finalize_500) as H500
    by by apply finalizes_call.
  unfold mint_session. apply finalizes_bind; [done|]. intros [jti|]; [|done].
  apply b64url_finalizes; [apply _|done|]. cbn [is_ok negb str_bytes].
  apply json_escape_finalizes; [apply _|done|].
  apply finalizes_fill; [apply _|done|].
  destruct (nxe_jwx_encode _ _ _) as [jwt|] eqn:Hjwt.
  2:{ apply finalizes_bind; [done|]. by intros _. }
  destruct (_ !! _) as [ss|] eqn:Hss; [|done]. cbn [defined deref bind].
  apply finalizes_fill; [apply _|done|]. apply finalizes_bind.
  { apply all_calls_call. cbn. split; [done|]. by exists ss, jti, jwt. }
  intros []; cbn [negb]; [|done]. apply finalizes_fill; [apply _|done|].
  apply finalizes_bind; [by apply send_json_calls; [apply _|..]|]. intros rc.
  by apply finalizes_call.
Qed.

(** ** Soundness *)

Lemma verify_redis_trace `{!OpenSSLLaws, !NginxBase64Laws} wlcf os id a c (h : trace) :
  fits (str_bytes (redis_key_prefix wlcf)) -> fits id -> assertion_sizes a ->
  wp (verify_redis open_redis wlcf os id a c)
     (fun out h' => forall cred now, out = Some (cred, now) ->
        0 <= now < 2 ^ 40 /\ exists count, verified wlcf os id a c cred count now h') h.
Proof.
  intros Hp Hid Ha. unfold verify_redis.
  eapply wp_step; [by apply consume_trace|]. intros rc k1 Hc.
  destruct rc; cbn [is_ok negb]; [|done|done]. specialize (Hc eq_refl).
  eapply wp_step; [by apply get_trace|]. intros [rc cred] k2 Hg.
  destruct rc; cbn [is_ok negb]; [|done|done].
  destruct (Hg eq_refl) as (el & cr & E & Hans & Hrec). cbn [snd] in E. subst cred.
  cbn [deref bind].
  eapply wp_step; [by apply (assertion_verify_spec _ _ _ os)|]. intros [rc res] k3 Hav.
  destruct rc; cbn [is_ok negb assertion_post] in *; [|done|done].
  destruct Hav as (count & -> & Hav). cbn [deref bind].
  apply wp_bind, wp_trace_call. intros now Hnow. cbn in Hnow.
  destruct Hc as (H32 & v & Hch).
  assert (forall h', (exists k, h' = (((h ++ k1) ++ k2) ++ k3) ++ k) ->
            counter_handled wlcf id count now h' -> verified wlcf os id a c cr count now h') as HV.
  { intros h' [k ->] Hcnt. split; [|exists el; split|..]; [|by auto using answered_app|done..].
    split; [done|]. exists v. auto using answered_app. }
  eapply wp_step; [by apply update_trace|]. intros rc k4 Hu.
  destruct rc; cbn [is_ok negb bind].
  - intros ? ? [= <- <-]. split; [done|]. exists count. apply HV.
    + eexists. by rewrite <- !(app_assoc (((h ++ _) ++ _) ++ _)).
    + left. by apply Hu.
  - apply wp_bind, wp_trace_call. intros [] _ ? ? [= <- <-]. split; [done|]. exists count.
    apply HV; [eexists; by rewrite <- !(app_assoc (((h ++ _) ++ _) ++ _))|]. right.
    eexists. apply elem_of_app. right. by left.
  - apply wp_bind, wp_trace_call. intros [] _ ? ? [= <- <-]. split; [done|]. exists count.
    apply HV; [eexists; by rewrite <- !(app_assoc (((h ++ _) ++ _) ++ _))|]. right.
    eexists. apply elem_of_app. right. by left.
Qed.

Lemma quietly {A} (p : prog A) (R : A -> Prop) (w : held) (h : trace) Q :
  all_calls quiet p -> wp p (fun a _ => R a) w ->
  (forall a k, R a -> Forall (fun ev => quiet (ev_eff ev)) k -> Q a (h ++ k)) -> wp p Q h.
Proof.
  intros Hp Hw HQ. eapply wp_mono; [|by apply (trace_segment quiet p R w h)].
  intros a h' (Ha & k & -> & Hk). by apply HQ.
Qed.

Lemma refused_outcome r wlcf (p : prog unit) (h : trace) :
  Forall (fun ev => quiet (ev_eff ev)) h -> finalizes refuses (fun _ => True) p ->
  (exists w : held, wp p (fun _ _ => True) w) -> wp p (fun _ => verify_outcome r wlcf) h.
Proof.
  intros Hh Hp [w Hw'].
  eapply wp_finish; [exact Hp|exact Hw'|]. intros k rc _ Hk.
  exists (h ++ k), rc. split; [by rewrite app_assoc|]. left. apply Forall_app. split; [|done].
  eapply Forall_impl; [|exact Hh]. intros ev. apply quiet_refuses.
Qed.

Lemma failed_outcome r wlcf (p : prog unit) (h : trace) :
  Forall (fun ev => quiet (ev_eff ev)) h ->
  finalizes quiet (fun rc => rc = NGX_HTTP_INTERNAL_SERVER_ERROR) p ->
  wp p (fun _ _ => True) (∅ : held) -> wp p (fun _ => verify_outcome r wlcf) h.
Proof.
  intros Hh Hp Hw. eapply wp_finish; [exact Hp|exact Hw|]. intros k rc -> Hk.
  exists (h ++ k), NGX_HTTP_INTERNAL_SERVER_ERROR. split; [by rewrite app_assoc|].
  right. left. split; [|done]. by apply Forall_app.
Qed.

Lemma granted_outcome `{!NginxBase64Laws} r wlcf body id cred now (h : trace) :
  verify_sizes r wlcf -> fits id -> cred_fits cred -> body_of r = Some body ->
  Forall (fun ev => quiet (ev_eff ev)) h -> authenticated wlcf body id cred now h ->
  wp (mint_session r wlcf cred id now) (fun _ => verify_outcome r wlcf) h.
Proof.
  intros Hs Hid Hc Hb Hh Hau.
  eapply (wp_finish _ _ _ ∅); [apply mint_session_finalizes| |].
  { eapply wp_mono; [|apply mint_session_held; [done..|apply Hau]]. done. }
  intros k rc _ Hk. exists (h ++ k), rc. split; [by rewrite app_assoc|]. right. right.
  by exists h, k, body, id, cred, now.
Qed.

(** From the open connection on. *)
Lemma verify_connected `{!OpenSSLLaws, !NginxBase64Laws} r wlcf os body id a c (h : trace) :
  verify_sizes r wlcf -> origins wlcf = Some os -> body_of r = Some body ->
  request_reads body id a c -> fits id -> assertion_sizes a ->
  Forall (fun ev => quiet (ev_eff ev)) h ->
  wp (verified <- verify_redis open_redis wlcf os id a c ;;
      match verified with
      | None => reject_redis r open_redis
      | Some (cred, now) =>
          ngx_auth_webauthn_redis_close open_redis ;; mint_session r wlcf cred id now
      end) (fun _ => verify_outcome r wlcf) h.
Proof.
  intros Hs Ho Hb Hr Hid Ha Hh.
  assert (wp (verify_redis open_redis wlcf os id a c)
            (fun out _ => forall cred now, out = Some (cred, now) -> cred_fits cred)
            (∅ ⊎ {[+ REDIS_CTX +]} : held)) as Hfit.
  { apply verify_redis_held; [apply Hs|done|done|done|]. by intros cred now Hc _ ? ? [= <- <-]. }
  apply wp_bind. eapply wp_mono; [|apply wp_and;
    [apply verify_redis_trace; [apply Hs|done|done]
    |eapply trace_segment; [apply verify_redis_calls|exact Hfit]]].
  intros out h' (Hv & Hcf & k & -> & Hk).
  assert (Forall (fun ev => quiet (ev_eff ev)) (h ++ k)) as Hq by by apply Forall_app.
  destruct out as [[cred now]|].
  - destruct (Hv _ _ eq_refl) as (Hnow & count & Hver). apply close_trace.
    eapply granted_outcome; [done|done|by eapply Hcf|done| |].
    + apply Forall_app. split; [done|]. by repeat constructor.
    + split; [|done]. exists a, c, os, count. split_and!; [done|done|by apply verified_app].
  - apply refused_outcome; [done|apply reject_redis_finalizes|]. exists (∅ ⊎ {[+ REDIS_CTX +]}).
    unfold reject_redis. cbn [nullp]. apply close_open_held.
    eapply wp_mono; [|apply reject_held]. done.
Qed.

Lemma verify_done_spec `{!OpenSSLLaws, !NginxBase64Laws, !NxeJsonLaws} r wlcf :
  verify_sizes r wlcf ->
  wp (ngx_http_auth_webauthn_verify_done r wlcf) (fun _ => verify_outcome r wlcf) ([] : trace).
Proof.
  intros Hs. unfold ngx_http_auth_webauthn_verify_done.
  assert (forall msg, wp (call (ngx_log_error NGX_LOG_ERR msg) ;; finalize_500)
            (fun _ => verify_outcome r wlcf) ([] : trace)) as Hlog.
  { intros msg. apply failed_outcome; [done|apply logged_500_finalizes, _|].
    apply wp_bind, wp_held_call; [done|]. intros [] _. unfold finalize_500. held_steps. }
  assert (forall h, Forall (fun ev => quiet (ev_eff ev)) h ->
            wp (reject r) (fun _ => verify_outcome r wlcf) h) as Hrej.
  { intros h Hh. apply refused_outcome; [done|apply reject_finalizes|]. exists ∅.
    eapply wp_mono; [|apply reject_held]. done. }
  destruct (origins wlcf) as [os|] eqn:Ho; [|apply Hlog]. destruct (_ || _); [apply Hlog|].
  apply wp_bind, (quietly _ (fun out => fst out = NGX_OK -> exists b, snd out = Some b /\
    body_of r = Some b /\ zlen b <= NGX_AUTH_WEBAUTHN_MAX_BODY) ∅).
  { apply read_body_calls, _. }
  { apply (read_body_held r wlcf); [done|done|]. intros b ? ? _. by exists b. }
  intros [rc body] k1 Hbody Hk1. destruct rc; cbn [is_ok negb app]; [|by apply Hrej..].
  destruct (Hbody eq_refl) as (b & E & Hb & Hlen). cbn [snd] in E. subst body. cbn [str_bytes].
  apply wp_bind, (quietly _ (fun out => forall id a c, out = Some (id, a, c) ->
    request_reads b id a c /\ fits id /\ assertion_sizes a) ∅).
  { apply verify_request_calls, _. }
  { apply verify_request_held; [done|done|]. by intros id a c ? ? ? ? ? ? [= <- <- <-]. }
  intros req k2 Hreq Hk2.
  assert (Forall (fun ev => quiet (ev_eff ev)) (k1 ++ k2)) as Hk12 by by apply Forall_app.
  destruct req as [[[id a] c]|]; [|by apply Hrej].
  destruct (Hreq _ _ _ eq_refl) as (Hr & Hid & Ha).
  eapply wp_seq; [apply connect_trace, Hs|].
  intros [rc redis] h3 [Hrc (k3 & -> & Hk3)]. apply before_quiet in Hk3.
  assert (Forall (fun ev => quiet (ev_eff ev)) ((k1 ++ k2) ++ k3)) as Hk by by apply Forall_app.
  destruct Hrc as [[= -> ->]|[= -> ->]]; cbn [is_ok negb].
  - by eapply verify_connected.
  - apply failed_outcome; [done|apply finalize_500_finalizes|]. unfold finalize_500. held_steps.
Qed.

(** C1: the verify endpoint, for every behaviour of the server and the
    allocator: exactly one finalization; a response other than the uniform
    401 and a bare 500 is a session, minted only after the server handed over
    (and thereby deleted) the 32-byte challenge the client data names, and
    returned a usable record for the posted credential id, and the assertion
    satisfied WebAuthn 7.2 for that challenge, record and configuration; the
    token then carries the record's user id (escaped), the credential id and
    the configured relying party.  All buffers fit, and connection, replies
    and keys are released on every path. *)
Theorem verify_done_correct `{!OpenSSLLaws, !NginxBase64Laws, !NxeJsonLaws} r wlcf :
  verify_sizes r wlcf ->
  wp (ngx_http_auth_webauthn_verify_done r wlcf) (fun _ => verify_outcome r wlcf) ([] : trace) /\
  balanced ∅ (ngx_http_auth_webauthn_verify_done r wlcf).
Proof.
  intros Hs. split; [by apply verify_done_spec|by apply verify_done_balanced].
Qed.
End verify.

Import Samples MiniRedis HttpSamples.

(** A sign-in with the sample credential, counter 7 against a stored 3. *)
Definition posted_client_data : bytes :=
  client_data (bs "webauthn.get") sample_nonce (bs "https://a.example").
Definition posted (id : bytes) : bytes :=
  let b64 := Base64.Shim.ngx_encode_base64url in
  let field k v := q k ++ bs ":" ++ q (b64 v) in
  bs "{" ++ q (bs "id") ++ bs ":" ++ q id ++ bs "," ++ q (bs "response") ++ bs ":{" ++
  field (bs "clientDataJSON") posted_client_data ++ bs "," ++
  field (bs "authenticatorData") sample_assertion_authdata ++ bs "," ++
  field (bs "signature") (bs "key" ++ sample_assertion_authdata ++ digest posted_client_data) ++
  bs "}}".
Definition post_request (body : bytes) : ngx_http_request_t := {|
  r_method_post := true; r_header_only := false; r_addr_text := Some (bs "10.0.0.1");
  r_args := []; r_cookie := None;
  r_body := Some (Some [ {| buf_bytes := body; in_file := false |} ]) |}.

Definition signin_db : db :=
  Db (<[challenge_key_of (bs "webauthn:") sample_nonce := VString (bs "1")]> (db_kv credential_db))
     {[ challenge_key_of (bs "webauthn:") sample_nonce := 60 ]}.

(** The statuses sent and the cookies set. *)
Definition spoken (h : trace) : list (Z + bytes) :=
  omap (fun ev => match ev_eff ev with
                  | ngx_http_send_header status _ _ => Some (inl status)
                  | headers_out_push k v => Some (inr k)
                  | _ => None
                  end) h.

Definition speaks (body : bytes) (s : db) : option (list (Z + bytes)) :=
  '(_, h) ← mini_trace (ngx_http_auth_webauthn_verify_done (post_request body) HttpSamples.conf) s;
  Some (spoken h).

Lemma post_sizes : verify_sizes (post_request (posted (bs "Y3JlZA"))) HttpSamples.conf.
Proof.
  split; try reflexivity; try (cbn; lia).
  - intros bufs [= <-]. vm_compute. done.
  - intros claims jwt Hc [= <-]. rewrite zlen_app.
    match goal with |- zlen claims + ?n < _ => let n' := eval vm_compute in n in
      change n with n' end. lia.
Qed.

(** Granted once; refused without the challenge or for another credential. *)
Lemma verify_done_correct_witness :
  speaks (posted (bs "Y3JlZA")) signin_db = Some [inr (bs "Set-Cookie"); inl 200] /\
  speaks (posted (bs "Y3JlZA")) credential_db = Some [inl 401] /\
  speaks (posted (bs "eHg")) signin_db = Some [inl 401] /\
  wp (ngx_http_auth_webauthn_verify_done (post_request (posted (bs "Y3JlZA"))) HttpSamples.conf)
     (fun _ => verify_outcome (post_request (posted (bs "Y3JlZA"))) HttpSamples.conf) ([] : trace).
Proof.
  split_and!; [vm_compute; reflexivity..|].
  exact (proj1 (verify_done_correct (post_request (posted (bs "Y3JlZA"))) HttpSamples.conf
                  post_sizes)).
Defined.
