(* ===== verification/VerifyComplete.v ===== *)
(** * The verify endpoint: who is refused

    The converse of VerifySound.v: when nothing outside fails, a request that
    is not granted a session has a reason, and the trace shows it. *)

From S2P Require Import Prelude Effects Externals Base64 Samples AuthData Hash ClientData Assertion.
From S2P Require Import Redis RedisCalls RedisSpec RedisOps Challenge Credential Conf Http.
From S2P Require Import ChallengeHandler VerifyHandler VerifySound.
#[global] Open Scope Z_scope.

(** ** Operations that fail for a reason *)

Lemma env_failed_trace (h k : trace) : env_failed h -> env_failed (h ++ k).
Proof. intros. apply env_failed_app. by left. Qed.
#[export] Hint Resolve env_failed_trace : env.

(** [rc] is NGX_OK, or something outside failed, or [P]. *)
Definition ok_or (P : trace -> Prop) (rc : ngx_rc) (h : trace) : Prop :=
  rc = NGX_OK \/ env_failed h \/ P h.

(** A status command and what follows it. *)
Lemma status_wlp {A} argv (f : ngx_rc -> prog A) Q (h : trace) :
  (forall rc h', (rc = NGX_OK \/ env_failed h') -> wlp (f rc) Q h') ->
  wlp (reply <- ngx_auth_webauthn_redis_exec open_redis argv ;; rc <- reply_status reply ;; f rc) Q h.
Proof.
  intros Hf. apply wlp_bind, wp_wlp, exec_trace. intros reply h1 _ (_ & _ & _ & Hfail).
  apply wlp_bind, wp_wlp, reply_status_trace. intros h2 _ _ Hmono. apply Hf.
  destruct reply as [[]|]; try (by left); right; apply Hmono, Hfail; eauto.
Qed.

Lemma close_wlp {A} (k : prog A) Q (h : trace) :
  wlp k Q (h ++ [Ev redisFree tt]) -> wlp (ngx_auth_webauthn_redis_close open_redis ;; k) Q h.
Proof.
  intros Hk. unfold ngx_auth_webauthn_redis_close. cbn [no_ctx nullp ctx bind call]. by intros [] _.
Qed.

Definition ok_or_failed (rc : ngx_rc) (h : trace) : Prop := rc = NGX_OK \/ env_failed h.

Lemma auth_wlp conf (h : trace) : wlp (redis_auth open_redis conf) ok_or_failed h.
Proof.
  unfold redis_auth. destruct (0 <? _); [|by left]. apply status_wlp. intros rc h' Hrc.
  destruct rc; [by left|..]; apply close_wlp; right; destruct Hrc; [done|auto with env|done|auto with env].
Qed.

Lemma select_wlp conf (h : trace) : wlp (redis_select open_redis conf) ok_or_failed h.
Proof.
  unfold redis_select. destruct (0 <? _); [|by left].
  assert (redis_numbuf (rconf_db conf) = Some (dec (uint64 (rconf_db conf)))) as ->.
  { rewrite <- redis_numbuf_dec by (apply Z.mod_pos_bound; lia). unfold redis_numbuf, uint64.
    by rewrite Z.mod_mod. }
  apply status_wlp. intros rc h' Hrc.
  destruct rc; [by left|..]; apply close_wlp; right; destruct Hrc; [done|auto with env|done|auto with env].
Qed.

Lemma connect_wlp conf (h : trace) :
  str_len (rconf_host conf) <> 0 ->
  wlp (ngx_auth_webauthn_redis_connect (Some tt) (Some conf) (Some NULL))
      (fun out h' => out = (NGX_OK, open_redis) \/ (is_ok (fst out) = false /\ env_failed h')) h.
Proof.
  intros Hh. unfold ngx_auth_webauthn_redis_connect. cbn [nullp orb default].
  destruct (Z.eqb_spec (str_len (rconf_host conf)) 0) as [|_]; [done|].
  apply wlp_bind, wlp_call. intros [] _; cbn [negb]; [|right; split; auto with env].
  apply wlp_fill; [right; split; auto with env|].
  apply wlp_bind, wlp_call. intros c _. destruct c.
  - apply wlp_bind, wlp_call. intros [] _. right. split; [done|]. auto with env.
  - apply wlp_bind, wlp_call. intros [] _. apply wlp_bind, wlp_call. intros [] _. right.
    split; [done|]. auto with env.
  - eapply wlp_seq; [|intros a h1 _; eapply wlp_seq; [apply auth_wlp|]].
    + instantiate (1 := fun _ _ => True). by destruct (0 <? _).
    + intros rc h2 Hrc. destruct rc; [|right; split; [done|]; by destruct Hrc..].
      eapply wlp_seq; [apply select_wlp|]. intros rc h3 Hrc3.
      destruct rc; [by left|right; split; [done|]; by destruct Hrc3..].
Qed.

(** ** The challenge *)

(** The server answered, but not with a stored challenge. *)
Definition no_challenge (prefix c : bytes) (h : trace) : Prop :=
  zlen c <> 32 \/
  exists reply, answered [bs "GETDEL"; challenge_key_of prefix c] reply h /\
    forall v, reply <> RString v.

Lemma consume_wlp prefix c (h : trace) :
  wlp (ngx_auth_webauthn_challenge_consume open_redis (Some tt) (Some prefix) (Some c) (zlen c))
    (fun rc h' => rc = NGX_OK \/ env_failed h' \/ no_challenge (str_bytes prefix) c h') h.
Proof.
  unfold ngx_auth_webauthn_challenge_consume. cbn [nullp orb].
  destruct (Z.eqb_spec (zlen c) NGX_AUTH_WEBAUTHN_CHALLENGE_LEN) as [E|E]; cbn [negb].
  2:{ right. right. by left. }
  cbn [deref bind]. rewrite Z.ltb_irrefl, take_ge by (unfold zlen; lia).
  unfold ngx_auth_webauthn_challenge_key. apply wlp_bind, wlp_fill; cbn [is_ok negb].
  { right. left. auto with env. }
  unfold ngx_auth_webauthn_redis_getdel. cbn [no_ctx nullp ctx orb deref bind str_bytes].
  apply wlp_bind, wlp_bind, wp_wlp, exec_trace. intros reply h1 _ Hd.
  pose proof Hd as (_ & _ & _ & Hf).
  destruct reply as [[]|]; try (apply wlp_bind, wlp_call; intros [] _; cbn [is_ok negb wlp Z.eqb]).
  all: try (by left).
  all: try (right; right; right; eexists; split; [by eapply answered_app, did_answered, Hd|done]).
  right. left. apply Hf. by left.
Qed.

(** ** The record *)

Definition is_string (r : redisReply) : bool := match r with RString _ => true | _ => false end.

(** The server answered, but with no usable record. *)
Definition no_record (prefix : bytes) (id : bytes) (h : trace) : Prop :=
  exists reply, answered [bs "HGETALL"; record_key_of prefix id] reply h /\
    forall element cred, reply = RArray element -> Forall (fun r => is_string r = true) element ->
      ~ read_record (Some id) element cred.

Lemma dup_wlp src (h : trace) :
  wlp (ngx_auth_webauthn_redis_dup src)
    (fun out h' => (out = (NGX_OK, Some src) /\ exists k, h' = h ++ k) \/
                   (fst out = NGX_ERROR /\ env_failed h')) h.
Proof.
  unfold ngx_auth_webauthn_redis_dup.
  destruct (Z.eqb_spec (zlen src) 0) as [->%zlen_0|_];
    [left; split; [done|]; exists []; by rewrite app_nil_r|].
  apply wlp_fill; [right; split; auto with env|left; split; eauto].
Qed.

Lemma hgetall_loop_wlp n element acc (h : trace) :
  (length element <= n)%nat -> Forall (fun r => is_string r = true) element ->
  wlp (hgetall_loop element acc)
    (fun out h' => (out = (NGX_OK, acc ++ reply_pairs element) /\ exists k, h' = h ++ k) \/
                   (fst out = NGX_ERROR /\ env_failed h')) h.
Proof.
  revert element acc h. induction n as [|n IH]; intros element acc h Hn Hs.
  { destruct element; [|simpl in Hn; lia]. left. rewrite app_nil_r.
    split; [done|]. exists []. by rewrite app_nil_r. }
  destruct element as [|name [|value rest]].
  - left. rewrite app_nil_r. split; [done|]. exists []. by rewrite app_nil_r.
  - left. destruct name; (split; [by rewrite app_nil_r|]; exists []; by rewrite app_nil_r).
  - simpl in Hn. apply Forall_cons_1 in Hs as [Hname Hs]. apply Forall_cons_1 in Hs as [Hvalue Hs].
    destruct name; try done. destruct value; try done. cbn [hgetall_loop reply_pairs].
    eapply wlp_seq; [apply dup_wlp|]. intros out1 h1 [[-> [k1 ->]]|[E1 H1]]; cbn [is_ok negb].
    2:{ destruct out1 as [[] ?]; try done. by right. }
    eapply wlp_seq; [apply dup_wlp|]. intros out2 h2 [[-> [k2 ->]]|[E2 H2]]; cbn [is_ok negb].
    2:{ destruct out2 as [[] ?]; try done. by right. }
    eapply wlp_mono; [|apply IH; [lia|done]]. intros out h3 [[-> [k3 ->]]|?]; [|by right].
    left. rewrite <- !app_assoc. split; [done|]. eauto.
Qed.

(** What HGETALL hands out, next to the reply it came from. *)
Definition copied (reply : redisReply) (out : ngx_rc * list ngx_auth_webauthn_redis_pair_t) : Prop :=
  forall element, reply = RArray element -> Forall (fun r => is_string r = true) element ->
    out = (NGX_OK, reply_pairs element).

Lemma hgetall_wlp k (h : trace) :
  wlp (ngx_auth_webauthn_redis_hgetall open_redis (Some tt) (Some (Some k)) (Some tt) (Some tt))
    (fun out h' => env_failed h' \/
       exists reply, answered [bs "HGETALL"; k] reply h' /\ copied reply out) h.
Proof.
  unfold ngx_auth_webauthn_redis_hgetall. cbn [no_ctx nullp ctx orb deref bind str_bytes].
  apply wlp_bind, wp_wlp, exec_trace. intros reply h1 _ Hd. pose proof Hd as (_ & _ & _ & Hf).
  destruct reply as [reply|]; [|left; apply Hf; by left]. apply did_answered in Hd. clear Hf.
  assert (forall out l, copied reply out -> env_failed (h1 ++ l) \/
    exists reply, answered [bs "HGETALL"; k] reply (h1 ++ l) /\ copied reply out) as Hend.
  { intros out l Hc. right. exists reply. split; [by apply answered_app|done]. }
  destruct reply as [|element| | | | |];
    try (apply wlp_bind, wlp_call; intros [] _; by apply Hend).
  destruct (Z.eqb_spec (zlen element) 0) as [E%zlen_0|_].
  { subst element. apply wlp_bind, wlp_call. intros [] _. apply Hend. by intros el [= <-] _. }
  apply wlp_bind, wlp_call. intros [] _; cbn [negb].
  2:{ apply wlp_bind, wlp_call. intros [] _. left. auto with env. }
  destruct (decide (Forall (fun r => is_string r = true) element)) as [Hs|Hs].
  - eapply wlp_seq; [by eapply hgetall_loop_wlp|].
    intros [rc out] h2 [[[= -> ->] [l ->]]|[Hrc Hf]]; apply wlp_bind, wlp_call; intros [] _.
    + cbn [is_ok wlp app]. rewrite <- !app_assoc. apply Hend. by intros el [= <-] _.
    + destruct (is_ok rc); left; auto with env.
  - apply (wlp_step _ _ (fun _ _ => True)); [apply wlp_true|]. intros [rc out] l _.
    apply wlp_bind, wlp_call. intros [] _. rewrite <- !app_assoc.
    destruct (is_ok rc); apply Hend; by intros el [= <-] ?.
Qed.

(** What [credential_get] makes of them. *)
Lemma pairs_outcome id reply pairs :
  copied reply (NGX_OK, pairs) ->
  (zlen pairs <> 0 /\ exists out, get_loop pairs (cred_zero (Some id)) = inr out /\
     (str_len (cr_public_key out) =? 0) || (cr_alg out =? 0) = false) \/
  (forall element cred, reply = RArray element ->
     Forall (fun r => is_string r = true) element -> ~ read_record (Some id) element cred).
Proof.
  intros Hp. destruct (Z.eqb_spec (zlen pairs) 0) as [E%zlen_0|Hne].
  { right. intros el cred -> Hs (Hg & Hl & _). specialize (Hp el eq_refl Hs). injection Hp as Hp.
    rewrite <- Hp, E in Hg. by injection Hg as <-. }
  destruct (get_loop pairs (cred_zero (Some id))) as [out|out] eqn:Hg.
  { right. intros el cred -> Hs (Hg' & _). specialize (Hp el eq_refl Hs). injection Hp as Hp.
    rewrite <- Hp, Hg in Hg'. done. }
  destruct ((str_len (cr_public_key out) =? 0) || (cr_alg out =? 0)) eqn:Hu; [|left; eauto]. right. intros el cred -> Hs (Hg' & Hl & Ha).
  specialize (Hp el eq_refl Hs). injection Hp as Hp. rewrite <- Hp, Hg in Hg'. injection Hg' as <-.
  apply orb_true_iff in Hu as [Hu%Z.eqb_eq|Hu%Z.eqb_eq]; congruence.
Qed.

Lemma get_wlp prefix id old (h : trace) :
  wlp (ngx_auth_webauthn_credential_get open_redis (Some tt) (Some prefix) (Some (Some id)) (Some old))
    (fun out h' => fst out = NGX_OK \/ env_failed h' \/ no_record (str_bytes prefix) id h') h.
Proof.
  unfold ngx_auth_webauthn_credential_get. cbn [nullp orb deref bind].
  unfold ngx_auth_webauthn_credential_record_key. apply wlp_bind, wlp_fill; cbn [is_ok negb].
  { right. left. auto with env. }
  eapply wlp_seq; [apply hgetall_wlp|]. intros [rc pairs] h1 [Hf|(reply & Ha & Hc)].
  { destruct (is_ok rc); cbn [negb]; [|by right; left]. destruct (_ =? 0); [by right; left|].
    destruct (get_loop _ _); [by right; left|]. destruct (_ || _); [by right; left|by left]. }
  destruct rc; cbn [is_ok negb].
  - destruct (pairs_outcome id reply pairs Hc) as [(Hne & out & Hg & Hu)|Hno].
    + apply Z.eqb_neq in Hne. rewrite Hne, Hg, Hu. by left.
    + assert (no_record (str_bytes prefix) id h1) as Hn by by exists reply.
      destruct (_ =? 0); [by right; right|]. destruct (get_loop _ _); [by right; right|].
      destruct (_ || _); by right; right.
  - right. right. exists reply. split; [done|]. intros el cred E Hs. by specialize (Hc el E Hs).
  - right. right. exists reply. split; [done|]. intros el cred E Hs. by specialize (Hc el E Hs).
Qed.

(** ** The request *)

(** The body, when the handler accepts it. *)
Definition posted_body (r : ngx_http_request_t) : option bytes :=
  b ← body_of r;
  if (zlen b =? 0) || (NGX_AUTH_WEBAUTHN_MAX_BODY <? zlen b) then None else Some b.

(** [rc, out] is [o], or something outside failed. *)
Definition yields (o : option bytes) (out : ngx_rc * ngx_str_t) (h : trace) : Prop :=
  match o with
  | Some b => out = (NGX_OK, Some b) \/ (is_ok (fst out) = false /\ env_failed h)
  | None => is_ok (fst out) = false
  end.

Lemma read_body_wlp r (h : trace) :
  (forall b, body_of r = Some b -> zlen b < 2 ^ 63) ->
  wlp (ngx_http_auth_webauthn_read_body r) (yields (posted_body r)) h.
Proof.
  intros Hlen. unfold ngx_http_auth_webauthn_read_body, posted_body, body_of in *.
  destruct (r_body r) as [[bufs|]|]; cbn [mbind option_bind wlp yields fst is_ok]; try done.
  destruct (existsb in_file bufs); [done|]. cbn [mbind option_bind].
  set (b := concat (buf_bytes <$> bufs)) in *. specialize (Hlen b eq_refl).
  pose proof (zlen_nonneg b). rewrite size_t_small by lia. destruct (_ || _); [done|].
  apply wlp_fill; [right; split; auto with env|by left].
Qed.

Section complete.
Context `{JSON : NxeJson, B64 : NginxBase64, SSL : OpenSSL, JWX : NxeJwx, HTTP : NginxHttp}.

Lemma field_wlp obj name (h : trace) :
  wlp (ngx_http_auth_webauthn_b64url_field obj name) (yields (field_of obj name)) h.
Proof.
  unfold ngx_http_auth_webauthn_b64url_field, field_of.
  destruct (nxe_json_object_get_string obj name) as [[|x enc]|]; [done| |done]. cbn [mbind option_bind].
  rewrite bool_decide_false by done. apply wlp_bind, wlp_call. intros [] _; cbn [negb].
  - destruct (ngx_decode_base64url (x :: enc)) as [d|]; [|done]. destruct (_ <? _); [done|by left].
  - destruct (ngx_decode_base64url (x :: enc)); [right; split; auto with env|done].
Qed.

(** A member, and what follows it when it is there. *)
Lemma field_bind obj name {A} (f : ngx_rc * ngx_str_t -> prog (option A)) (o : bytes -> option A) (h : trace) :
  (forall x, f (NGX_ERROR, x) = Ret None) -> (forall x, f (NGX_DECLINED, x) = Ret None) ->
  (forall d h', field_of obj name = Some d ->
     wlp (f (NGX_OK, Some d)) (fun out h2 => out = o d \/ (out = None /\ env_failed h2)) h') ->
  wlp (bind (ngx_http_auth_webauthn_b64url_field obj name) f)
    (fun out h' => out = (field_of obj name ≫= o) \/ (out = None /\ env_failed h')) h.
Proof.
  intros HE HD HO. eapply wlp_seq; [apply field_wlp|]. intros [rc x] h1 Hy. unfold yields in Hy.
  assert (is_ok rc = false -> f (rc, x) = Ret None) as Hf by by destruct rc.
  destruct (field_of obj name) as [d|] eqn:Hd; cbn [mbind option_bind fst] in *.
  - destruct Hy as [[= -> ->]|[Hrc Hf']]; [by apply HO|]. rewrite Hf by done. by right.
  - rewrite Hf by done. by left.
Qed.

Lemma request_wlp body (h : trace) :
  wlp (verify_request body)
    (fun out h' => out = request_of body \/ (out = None /\ env_failed h')) h.
Proof.
  unfold verify_request, request_of, object_of.
  destruct (nxe_json_parse_untrusted body) as [root|]; [|by left]. cbn [mbind option_bind].
  destruct (nxe_json_is_object root); cbn [negb mbind option_bind]; [|by left].
  destruct (nxe_json_object_get_string root (bs "id")) as [[|x id']|]; [by left| |by left].
  cbn [mbind option_bind]. rewrite bool_decide_false by done.
  destruct (nxe_json_object_get root (bs "response")) as [resp|]; [|by left]. cbn [mbind option_bind].
  destruct (nxe_json_is_object resp); cbn [negb]; [|by left].
  apply field_bind; [done|done|]. intros cdj h1 _. cbn [is_ok negb].
  apply field_bind; [done|done|]. intros ad h2 _. cbn [is_ok negb].
  apply field_bind; [done|done|]. intros sig h3 _. cbn [is_ok negb str_bytes].
  destruct (nxe_json_parse_untrusted cdj) as [cd|]; [|by left]. cbn [mbind option_bind].
  destruct (nxe_json_is_object cd); cbn [negb mbind option_bind]; [|by left].
  destruct (nxe_json_object_get_string cd (bs "challenge")) as [enc|]; [|by left].
  cbn [mbind option_bind]. apply wlp_bind, wlp_call. intros [] _; cbn [negb].
  - destruct (ngx_decode_base64url enc) as [c|]; [|by left]. destruct (_ <? _); [done|by left].
  - right. split; auto with env.
Qed.

(** ** The session *)

(** A session cookie and a 200 went out. *)
Definition granted (h : trace) : Prop :=
  (exists v, Ev (headers_out_push (bs "Set-Cookie") v) true ∈ h) /\
  (exists len ty rc, Ev (ngx_http_send_header NGX_HTTP_OK len ty) rc ∈ h).

Lemma granted_app h k : granted h -> granted (h ++ k).
Proof. intros [[v Hv] (len & ty & rc & Hl)]. split; [exists v|exists len, ty, rc]; set_solver. Qed.

(** The token library refused the claims of this session. *)
Definition no_token (wlcf : ngx_http_auth_webauthn_loc_conf_t) (id : bytes)
    (cred : ngx_auth_webauthn_credential_t) (now : Z) : Prop :=
  exists jti, zlen jti = 16 /\ nxe_jwx_encode (str_bytes (jwt_alg wlcf))
    (claims_text wlcf (escape (str_bytes (cr_user_id cred))) id (ngx_encode_base64url jti) now)
    (str_bytes (jwt_secret wlcf)) = None.

Lemma send_ok_wlp r body (h : trace) :
  (exists v, Ev (headers_out_push (bs "Set-Cookie") v) true ∈ h) ->
  wlp (ngx_http_auth_webauthn_send_json r NGX_HTTP_OK body)
    (fun _ h' => env_failed h' \/ granted h') h.
Proof.
  intros [v Hv]. unfold ngx_http_auth_webauthn_send_json.
  apply wlp_bind, wlp_call. intros [] _; cbn [negb]; [|left; auto with env].
  apply wlp_bind, wlp_call. intros rc _.
  set (h1 := (h ++ _) ++ _). assert (granted h1) as Hg.
  { split; [exists v; unfold h1; set_solver|]. eexists _, _, rc. unfold h1. set_solver. }
  destruct (_ || _); [by right|]. apply wlp_call. intros a _. right. by apply granted_app.
Qed.

Lemma mint_wlp r wlcf cred id now (h : trace) :
  wlp (mint_session r wlcf cred id now)
    (fun _ h' => env_failed h' \/ granted h' \/ no_token wlcf id cred now) h.
Proof.
  set (Q := fun (_ : unit) h' => env_failed h' \/ granted h' \/ no_token wlcf id cred now).
  assert (forall h', env_failed h' -> wlp finalize_500 Q h') as H500.
  { intros h' Hf. apply wlp_call. intros a _. left. auto with env. }
  assert (forall size content (f : ptr bytes -> prog unit) h', f NULL = finalize_500 ->
    (forall h'', wlp (f (Some content)) Q h'') -> wlp (bind (pool_fill size content) f) Q h') as Hfill.
  { intros size content f h' H0 H1. apply wlp_fill; [|apply H1]. rewrite H0. apply H500. auto with env. }
  unfold mint_session. apply wlp_bind, wlp_call. intros [jti|] Hjti; [|apply H500; auto with env].
  unfold ngx_http_auth_webauthn_b64url. cbn [str_bytes].
  apply wlp_bind, wlp_fill; cbn [wlp is_ok negb]; [apply H500; auto with env|].
  set (h1 := _ ++ _). clearbody h1. unfold ngx_http_auth_webauthn_json_escape.
  assert (forall (f : ngx_str_t -> prog unit) h', f NULL = finalize_500 ->
    (forall h'', wlp (f (Some (escape (str_bytes (cr_user_id cred))))) Q h'') -> wlp (bind (if str_len (cr_user_id cred) =? 0 then Ret (Some []) else
      pool_fill (str_len (cr_user_id cred) * 6) (escape (str_bytes (cr_user_id cred)))) f) Q h') as Hesc.
  { intros f h' Hf0 Hf1. destruct (Z.eqb_spec (str_len (cr_user_id cred)) 0) as [E|_];
      [|by apply Hfill]. apply str_len_0 in E. specialize (Hf1 h'). by rewrite E in Hf1. }
  apply Hesc; [done|]. intros h2. apply Hfill; [done|]. intros h3.
  destruct (nxe_jwx_encode _ _ _) as [jwt|] eqn:Hjwt.
  2:{ apply wlp_bind, wlp_call. intros [] _. apply wlp_call. intros [] _. right. right. exists jti.
      split; [|exact Hjwt]. specialize (Hjti _ eq_refl). unfold zlen. by rewrite Hjti. }
  destruct (_ !! _) as [ss|]; [|done]. cbn [defined deref bind].
  apply Hfill; [done|]. intros h4. apply wlp_bind, wlp_call. intros pushed _.
  destruct pushed; cbn [negb]; [|apply H500; auto with env].
  apply wlp_fill; [apply H500; auto with env|].
  eapply wlp_seq; [apply send_ok_wlp; exists (cookie_text wlcf ss jwt); set_solver|].
  intros rc h5 [Hf|Hg]; apply wlp_call; intros [] _; [left; auto with env|right; left].
  by apply granted_app.
Qed.

(** ** The verdict *)

Inductive refusal_reason (r : ngx_http_request_t) (wlcf : ngx_http_auth_webauthn_loc_conf_t)
    (h : trace) : Prop :=
  | RR_config : origins wlcf = None \/ str_bytes (rp_id wlcf) = [] \/
      str_bytes (redis_host wlcf) = [] \/ str_bytes (jwt_secret wlcf) = [] -> refusal_reason r wlcf h
  | RR_body : posted_body r = None -> refusal_reason r wlcf h
  | RR_request b : posted_body r = Some b -> request_of b = None -> refusal_reason r wlcf h
  | RR_challenge b id a c : posted_body r = Some b -> request_of b = Some (id, a, c) ->
      no_challenge (str_bytes (redis_key_prefix wlcf)) c h -> refusal_reason r wlcf h
  | RR_record b id a c : posted_body r = Some b -> request_of b = Some (id, a, c) ->
      no_record (str_bytes (redis_key_prefix wlcf)) id h -> refusal_reason r wlcf h
  | RR_assertion b id a c element cred os :
      posted_body r = Some b -> request_of b = Some (id, a, c) -> origins wlcf = Some os ->
      answered [bs "HGETALL"; record_key_of (str_bytes (redis_key_prefix wlcf)) id]
        (RArray element) h -> read_record (Some id) element cred ->
      (forall count, ~ assertion_valid a (acred_of cred) (policy_of wlcf os c) os count) ->
      refusal_reason r wlcf h
  | RR_token b id a c element cred now :
      posted_body r = Some b -> request_of b = Some (id, a, c) ->
      answered [bs "HGETALL"; record_key_of (str_bytes (redis_key_prefix wlcf)) id]
        (RArray element) h -> read_record (Some id) element cred ->
      no_token wlcf id cred now -> refusal_reason r wlcf h.

Definition decided (r : ngx_http_request_t) (wlcf : ngx_http_auth_webauthn_loc_conf_t) (h : trace) : Prop :=
  granted h \/ env_failed h \/ refusal_reason r wlcf h.

Lemma reason_app r wlcf h k : refusal_reason r wlcf h -> refusal_reason r wlcf (h ++ k).
Proof.
  intros []; [by apply RR_config|by apply RR_body|by eapply RR_request|..].
  - eapply RR_challenge; [done|done|]. destruct H1 as [?|(reply & Ha & ?)]; [by left|right].
    exists reply. split; [by apply answered_app|done].
  - eapply RR_record; [done|done|]. destruct H1 as (reply & Ha & ?).
    exists reply. split; [by apply answered_app|done].
  - eapply RR_assertion; try done. by apply answered_app.
  - eapply RR_token; try done. by apply answered_app.
Qed.

Lemma decided_app r wlcf h k : decided r wlcf h -> decided r wlcf (h ++ k).
Proof.
  intros [?|[?|?]]; [left; by apply granted_app|right; left; auto with env|right; right; by apply reason_app].
Qed.

(** A refusal keeps its reason. *)
Lemma wlp_keep (P : trace -> Prop) {A} (p : prog A) (h : trace) :
  (forall h k, P h -> P (h ++ k)) -> P h -> wlp p (fun _ => P) h.
Proof.
  intros HP. revert h. induction p as [a| |e k IH]; intros h Hh; simpl; [done|done|].
  intros a _. apply IH. by apply HP.
Qed.

Lemma decided_keep r wlcf {A} (p : prog A) (h : trace) :
  decided r wlcf h -> wlp p (fun _ => decided r wlcf) h.
Proof. apply wlp_keep, decided_app. Qed.

(** From the open connection on: the record and the time, or a reason. *)
Lemma verify_redis_wlp `{!OpenSSLLaws, !NginxBase64Laws} r wlcf os b id a c (h : trace) :
  fits (str_bytes (redis_key_prefix wlcf)) -> fits id -> assertion_sizes a ->
  origins wlcf = Some os -> posted_body r = Some b -> request_of b = Some (id, a, c) ->
  wlp (verify_redis open_redis wlcf os id a c)
    (fun out h' => match out with
       | None => decided r wlcf h'
       | Some (cred, _) => exists element,
           answered [bs "HGETALL"; record_key_of (str_bytes (redis_key_prefix wlcf)) id]
             (RArray element) h' /\ read_record (Some id) element cred
       end) h.
Proof.
  intros Hp Hid Ha Ho Hb Hr. unfold verify_redis.
  eapply wlp_step; [apply consume_wlp|]. intros rc k1 Hc. destruct rc; cbn [is_ok negb].
  2-3: destruct Hc as [?|[?|?]]; [done|right; left; done|right; right; by eapply RR_challenge].
  eapply wlp_step; [apply wlp_and; [apply get_wlp|by apply wp_wlp, get_trace]|].
  intros [rc cred] k2 [Hg Hgot]. cbn [fst snd] in Hg, Hgot. destruct rc; cbn [is_ok negb].
  2-3: destruct Hg as [?|[?|?]]; [done|right; left; done|right; right; by eapply RR_record].
  destruct (Hgot eq_refl) as (el & cr & -> & Hans & Hrec). cbn [deref bind].
  eapply wlp_step; [by apply wp_wlp, (assertion_verify_spec _ _ _ os)|].
  intros [rc res] k3 Hav. destruct rc; cbn [is_ok negb assertion_post] in *.
  - destruct Hav as (count & -> & _). cbn [deref bind].
    apply wlp_bind, wlp_call. intros now _. apply (wlp_step _ _ (fun _ _ => True)); [apply wlp_true|].
    intros rc k4 _. apply (wlp_step _ _ (fun _ _ => True)); [apply wlp_true|]. intros _ k5 _.
    exists el. split; [by do 4 apply answered_app|done].
  - destruct Hav as [_ [Hno|Hf]]; [|by right; left]. right. right.
    eapply RR_assertion; [done..|by apply answered_app|done|]. intros count Hv. apply Hno. by exists count.
  - destruct Hav as [_ Hno]. right. right.
    eapply RR_assertion; [done..|by apply answered_app|done|]. intros count Hv. apply Hno. by exists count.
Qed.

Lemma verify_done_wlp `{!OpenSSLLaws, !NginxBase64Laws, !NxeJsonLaws} r wlcf (h : trace) :
  verify_sizes r wlcf ->
  wlp (ngx_http_auth_webauthn_verify_done r wlcf) (fun _ => decided r wlcf) h.
Proof.
  intros Hs. unfold ngx_http_auth_webauthn_verify_done.
  destruct (origins wlcf) as [os|] eqn:Ho.
  2:{ apply decided_keep. right. right. apply RR_config. by left. }
  destruct (_ || _) eqn:Hcf.
  { apply decided_keep. right. right. apply RR_config.
    rewrite !orb_true_iff, !Z.eqb_eq, !str_len_0 in Hcf. tauto. }
  rewrite !orb_false_iff, !Z.eqb_neq in Hcf. destruct Hcf as [[Hrp Hhost] Hsec].
  eapply wlp_step; [apply read_body_wlp|].
  { intros b Hb. unfold body_of in Hb. destruct (r_body r) as [[bufs|]|] eqn:Eb; try done.
    destruct (existsb _ _); [done|]. injection Hb as <-. by apply (vs_body _ _ Hs). }
  intros [rc body] k1 Hbody. unfold yields in Hbody. cbn [fst] in Hbody.
  destruct (posted_body r) as [b|] eqn:Hb.
  2:{ rewrite Hbody. cbn [negb]. apply decided_keep. right. right. by apply RR_body. }
  destruct Hbody as [[= -> ->]|[Hrc Hf]].
  2:{ rewrite Hrc. cbn [negb]. apply decided_keep. by right; left. }
  cbn [is_ok negb str_bytes].
  assert (zlen b <= NGX_AUTH_WEBAUTHN_MAX_BODY) as Hlen.
  { unfold posted_body in Hb. destruct (body_of r) as [b'|]; [|done]. cbn [mbind option_bind] in Hb.
    destruct (_ || _) eqn:E; [done|]. injection Hb as ->.
    apply orb_false_iff in E as [_ E%Z.ltb_ge]. done. }
  eapply wlp_step.
  { apply wlp_and; [apply request_wlp|]. apply wp_wlp, (held_to_trace _
      (fun out => forall id a c, out = Some (id, a, c) -> fits id /\ assertion_sizes a) ∅).
    apply verify_request_held; [done|done|]. by intros id a c _ ? ? ? ? ? [= <- <- <-]. }
  intros out k2 [[Hreq|[-> Hf]] [Hsz _]].
  2:{ apply decided_keep. by right; left. }
  destruct out as [[[id a] c]|].
  2:{ apply decided_keep. right. right. by eapply RR_request. }
  destruct (Hsz _ _ _ eq_refl) as [Hid Ha].
  eapply wlp_step; [by apply connect_wlp|]. intros [rc redis] k3 [[= -> ->]|[Hrc Hf]].
  2:{ cbn [fst] in Hrc. rewrite Hrc. cbn [negb]. apply decided_keep. by right; left. }
  cbn [is_ok negb]. eapply wlp_seq; [by eapply (verify_redis_wlp r); [apply Hs|..]|].
  intros [[cred now]|] h4 Hd; [|by apply decided_keep]. destruct Hd as (el & Hans & Hrec).
  apply close_wlp. apply (answered_app _ _ _ [Ev redisFree tt]) in Hans.
  eapply (wlp_mono _ (fun _ h' => answered _ (RArray el) h' /\
    (env_failed h' \/ granted h' \/ no_token wlcf id cred now))).
  - intros _ h5 [? [?|[?|?]]]; [by right; left|by left|]. right. right. by apply (RR_token _ _ _ b id a c el cred now).
  - apply wlp_and; [|apply mint_wlp]. apply (wlp_keep _ _ _ (fun h k => answered_app _ _ h k) Hans).
Qed.

(** C2: nobody is refused without a reason: when a run of the verify endpoint
    does not send the session cookie and a 200, then something outside failed
    (an allocation, the connection, a command lost or refused), or the
    configuration is incomplete, or the body or the JSON in it is not a
    request, or the server did not hand out the challenge, or not a usable
    record, or the assertion violates WebAuthn 7.2 for that challenge and
    record, or the token library refused.  So a valid assertion for a stored
    challenge and record is granted. *)
Theorem verify_done_complete `{!OpenSSLLaws, !NginxBase64Laws, !NxeJsonLaws} r wlcf :
  verify_sizes r wlcf ->
  wp (ngx_http_auth_webauthn_verify_done r wlcf) (fun _ => decided r wlcf) ([] : trace).
Proof.
  intros Hs. eapply wlp_wp; [|by apply verify_done_wlp].
  apply (verify_done_balanced r wlcf Hs ∅). done.
Qed.
End complete.

Import Samples MiniRedis HttpSamples.

(** The sample sign-in has no excuse: it is granted. *)
Definition no_excuse (body : bytes) (s : db) : option bool :=
  '(_, h) ← mini_trace (ngx_http_auth_webauthn_verify_done (post_request body) HttpSamples.conf) s;
  Some (existsb ev_failed h).

Lemma verify_done_complete_witness :
  speaks (posted (bs "Y3JlZA")) signin_db = Some [inr (bs "Set-Cookie"); inl 200] /\
  no_excuse (posted (bs "Y3JlZA")) signin_db = Some false /\
  wp (ngx_http_auth_webauthn_verify_done (post_request (posted (bs "Y3JlZA"))) HttpSamples.conf)
     (fun _ => decided (post_request (posted (bs "Y3JlZA"))) HttpSamples.conf) ([] : trace).
Proof.
  split_and!; [vm_compute; reflexivity..|].
  exact (verify_done_complete (post_request (posted (bs "Y3JlZA"))) HttpSamples.conf post_sizes).
Defined.
