(* ===== verification/Gate.v ===== *)
(** * The access gate: src/ngx_http_auth_webauthn_module.c

    [build_jwks], [unauthorized], [apply_headers], [access_handler] and the
    variable handler.  The context the handler attaches to the request is
    returned next to the status. *)

From S2P Require Import Prelude Effects Externals Base64 Samples Redis RedisCalls Conf Http.
#[global] Open Scope Z_scope.

(** [ngx_http_set_ctx] after [ngx_pcalloc]. *)
Definition gate_ctx (status : bytes) : ngx_http_auth_webauthn_ctx_t :=
  {| ctx_user_id := NULL; ctx_credential_id := NULL; ctx_auth_status := Some status;
     ctx_jwt_exp := 0; ctx_has_exp := false |}.

(** ngx_tolower and [ngx_strlow]. *)
Definition ngx_tolower (c : byte) : byte :=
  if (65 <=? b2z c) && (b2z c <=? 90) then z2b (Z.lor (b2z c) 32) else c.
Definition ngx_strlow (s : bytes) : bytes := ngx_tolower <$> s.

Definition jwt_issuer : bytes := bs "nginx-webauthn".

Definition hmac_doc (k alg : bytes) : bytes :=
  js "{'keys':[{'kty':'oct','k':'" ++ k ++ js "','alg':'" ++ alg ++ js "'}]}".
Definition keyval_doc (pem : bytes) : bytes := js "{'webauthn':'" ++ pem ++ js "'}".

Section gate.
Context `{B64 : NginxBase64, JWX : NxeJwx, HTTP : NginxHttp}.

Definition ngx_http_auth_webauthn_build_jwks (wlcf : ngx_http_auth_webauthn_loc_conf_t)
    : prog (ptr nxe_jwx_jwks_t) :=
  if jwt_alg_family wlcf =? NGX_AUTH_WEBAUTHN_JWT_HMAC then
    '(rc, k_b64) <- ngx_http_auth_webauthn_b64url (jwt_secret wlcf) ;;
    if negb (is_ok rc) then Ret NULL else
    doc <- pool_fill (64 + str_len k_b64 + str_len (jwt_alg wlcf))
             (hmac_doc (str_bytes k_b64) (str_bytes (jwt_alg wlcf))) ;;
    match doc with
    | None => Ret NULL
    | Some doc => Ret (nxe_jwx_jwks_parse doc)
    end
  else
    pem_esc <- ngx_http_auth_webauthn_json_escape (jwt_pub_pem wlcf) ;;
    match pem_esc with
    | None => Ret NULL
    | Some esc =>
        doc <- pool_fill (24 + zlen esc) (keyval_doc esc) ;;
        match doc with
        | None => Ret NULL
        | Some doc => Ret (nxe_jwx_jwks_parse_keyval doc)
        end
    end.

Definition ngx_http_auth_webauthn_unauthorized (wlcf : ngx_http_auth_webauthn_loc_conf_t)
    : prog Z :=
  if str_len (signin_url wlcf) =? 0 then Ret NGX_HTTP_UNAUTHORIZED else
  ok <- call (headers_out_push (bs "Location") (str_bytes (signin_url wlcf))) ;;
  if negb ok then Ret NGX_HTTP_INTERNAL_SERVER_ERROR else Ret NGX_HTTP_MOVED_TEMPORARILY.

(** The loop over the configured headers. *)
Fixpoint apply_loop (r : ngx_http_request_t) (ctx : ngx_http_auth_webauthn_ctx_t)
    (hdrs : list ngx_http_auth_webauthn_header_t) : prog ngx_rc :=
  match hdrs with
  | [] => Ret NGX_OK
  | hdr :: rest =>
      match ngx_http_complex_value r ctx (hdr_value hdr) with
      | None => Ret NGX_ERROR
      | Some value =>
          h <- call (headers_in_push (str_bytes (hdr_name hdr)) value) ;;
          if negb h then Ret NGX_ERROR else
          lowcase_key <- pool_fill (str_len (hdr_name hdr))
                           (ngx_strlow (str_bytes (hdr_name hdr))) ;;
          match lowcase_key with
          | None => Ret NGX_ERROR
          | Some low => call (headers_in_hash low) ;; apply_loop r ctx rest
          end
      end
  end.

Definition ngx_http_auth_webauthn_apply_headers (r : ngx_http_request_t)
    (wlcf : ngx_http_auth_webauthn_loc_conf_t) (ctx : ngx_http_auth_webauthn_ctx_t)
    : prog ngx_rc :=
  match set_headers wlcf with
  | None => Ret NGX_OK
  | Some hdrs => apply_loop r ctx hdrs
  end.

(** An optional string claim copied into the context; NULL: no such claim.
    [None] is a failed allocation. *)
Definition copy_claim (payload : nxe_jwx_payload_t) (name : bytes)
    : prog (option ngx_str_t) :=
  match nxe_jwx_claims_get_string payload name with
  | None => Ret (Some NULL)
  | Some v =>
      p <- pool_fill (zlen v) v ;;
      match p with
      | None => Ret None
      | Some d => Ret (Some (Some d))
      end
  end.

(** A refusal with the given status in the context. *)
Definition deny (wlcf : ngx_http_auth_webauthn_loc_conf_t) (status : bytes)
    : prog (Z * ptr ngx_http_auth_webauthn_ctx_t) :=
  rc <- ngx_http_auth_webauthn_unauthorized wlcf ;; Ret (rc, Some (gate_ctx status)).

(** From the accepted expiry on: copy the claims, apply the headers. *)
Definition admit_session (r : ngx_http_request_t) (wlcf : ngx_http_auth_webauthn_loc_conf_t)
    (payload : nxe_jwx_payload_t) (exp : Z) : prog (Z * ptr ngx_http_auth_webauthn_ctx_t) :=
  let ctx u c status := {| ctx_user_id := u; ctx_credential_id := c;
    ctx_auth_status := Some status; ctx_jwt_exp := exp; ctx_has_exp := true |} in
  sub <- copy_claim payload (bs "sub") ;;
  match sub with
  | None => Ret (NGX_HTTP_INTERNAL_SERVER_ERROR, Some (ctx NULL NULL (bs "unauthenticated")))
  | Some sub =>
  cid <- copy_claim payload (bs "cid") ;;
  match cid with
  | None => Ret (NGX_HTTP_INTERNAL_SERVER_ERROR, Some (ctx sub NULL (bs "unauthenticated")))
  | Some cid =>
  let final := ctx sub cid (bs "authenticated") in
  rc <- ngx_http_auth_webauthn_apply_headers r wlcf final ;;
  if negb (is_ok rc) then Ret (NGX_HTTP_INTERNAL_SERVER_ERROR, Some final)
  else Ret (ngx_rc_Z NGX_OK, Some final)
  end end.

(** The claims of a verified token: policy, context, headers. *)
Definition admit_claims (r : ngx_http_request_t) (wlcf : ngx_http_auth_webauthn_loc_conf_t)
    (payload : nxe_jwx_payload_t) : prog (Z * ptr ngx_http_auth_webauthn_ctx_t) :=
  let invalid := deny wlcf (bs "invalid") in
  let expired := deny wlcf (bs "expired") in
  match nxe_jwx_claims_get_string payload (bs "aud") with
  | None => invalid
  | Some aud =>
    if negb (zlen aud =? str_len (rp_id wlcf))
       || negb (memeq aud (str_bytes (rp_id wlcf)) (length aud)) then invalid else
  match nxe_jwx_claims_get_string payload (bs "iss") with
  | None => invalid
  | Some iss =>
    if negb (zlen iss =? zlen jwt_issuer) || negb (memeq iss jwt_issuer (length iss))
    then invalid else
  match nxe_jwx_claims_get_integer payload (bs "exp") with
  | None => expired
  | Some exp =>
    now <- call ngx_time ;;
    if exp <=? now then expired else
    admit_session r wlcf payload exp
  end end end.

Definition ngx_http_auth_webauthn_access_handler (r : ngx_http_request_t)
    (wlcf : ngx_http_auth_webauthn_loc_conf_t)
    : prog (Z * ptr ngx_http_auth_webauthn_ctx_t) :=
  if negb (auth wlcf) then Ret (ngx_rc_Z NGX_DECLINED, NULL) else
  ok <- call (ngx_pnalloc 64) ;;
  if negb ok then Ret (NGX_HTTP_INTERNAL_SERVER_ERROR, NULL) else
  if str_len (jwt_secret wlcf) =? 0 then
    call (ngx_log_error NGX_LOG_ERR
      (bs "auth_webauthn: auth_webauthn on requires auth_webauthn_jwt_secret_file")) ;;
    Ret (NGX_HTTP_INTERNAL_SERVER_ERROR, Some (gate_ctx (bs "unauthenticated")))
  else
  match r_cookie r with
  | None => deny wlcf (bs "unauthenticated")
  | Some cookies =>
  match ngx_http_parse_cookie cookies (str_bytes (cookie_name wlcf)) with
  | None => deny wlcf (bs "unauthenticated")
  | Some cookie_val =>
  match nxe_jwx_decode cookie_val with
  | None => deny wlcf (bs "invalid")
  | Some token =>
  jwks <- ngx_http_auth_webauthn_build_jwks wlcf ;;
  match jwks with
  | None => Ret (NGX_HTTP_INTERNAL_SERVER_ERROR, Some (gate_ctx (bs "unauthenticated")))
  | Some jwks =>
  if negb (nxe_jwx_jws_verify token jwks) then deny wlcf (bs "invalid") else
  match nxe_jwx_token_payload token with
  | None => deny wlcf (bs "invalid")
  | Some payload => admit_claims r wlcf payload
  end end end end end.

(** The variable handler on the context of the request: the answer is
    NGX_OK with a value or not found, or NGX_ERROR. *)
Definition ngx_http_auth_webauthn_variable (ctx : ptr ngx_http_auth_webauthn_ctx_t) (data : Z)
    : prog (ngx_rc * option bytes) :=
  match ctx with
  | None => Ret (NGX_OK, if data =? 2 then Some (bs "unauthenticated") else None)
  | Some ctx =>
      let found (value : ngx_str_t) :=
        (NGX_OK, match value with None | Some [] => None | Some v => Some v end) in
      if data =? 0 then Ret (found (ctx_user_id ctx))
      else if data =? 1 then Ret (found (ctx_credential_id ctx))
      else if data =? 2 then Ret (found (ctx_auth_status ctx))
      else if data =? 3 then
        if negb (ctx_has_exp ctx) then Ret (NGX_OK, None) else
        p <- pool_fill 20 (dec (ctx_jwt_exp ctx)) ;;
        match p with
        | None => Ret (NGX_ERROR, None)
        | Some v => Ret (found (Some v))
        end
      else Ret (NGX_OK, None)
  end.

(** ** What a session is *)

Definition jwks_of (wlcf : ngx_http_auth_webauthn_loc_conf_t) : ptr nxe_jwx_jwks_t :=
  if jwt_alg_family wlcf =? NGX_AUTH_WEBAUTHN_JWT_HMAC then
    nxe_jwx_jwks_parse (hmac_doc (ngx_encode_base64url (str_bytes (jwt_secret wlcf)))
                          (str_bytes (jwt_alg wlcf)))
  else nxe_jwx_jwks_parse_keyval (keyval_doc (escape (str_bytes (jwt_pub_pem wlcf)))).

(** The request carries a token, signed under the location's key, whose
    claims are minted by this module for this relying party. *)
Record entitled (r : ngx_http_request_t) (wlcf : ngx_http_auth_webauthn_loc_conf_t)
    (payload : nxe_jwx_payload_t) (exp : Z) : Prop := {
  en_token : exists cookies cookie token jwks,
    r_cookie r = Some cookies /\
    ngx_http_parse_cookie cookies (str_bytes (cookie_name wlcf)) = Some cookie /\
    nxe_jwx_decode cookie = Some token /\ jwks_of wlcf = Some jwks /\
    nxe_jwx_jws_verify token jwks = true /\ nxe_jwx_token_payload token = Some payload;
  en_aud : nxe_jwx_claims_get_string payload (bs "aud") = Some (str_bytes (rp_id wlcf));
  en_iss : nxe_jwx_claims_get_string payload (bs "iss") = Some jwt_issuer;
  en_exp : nxe_jwx_claims_get_integer payload (bs "exp") = Some exp;
}.

(** The context of an admitted request. *)
Definition ctx_of (payload : nxe_jwx_payload_t) (exp : Z) : ngx_http_auth_webauthn_ctx_t := {|
  ctx_user_id := nxe_jwx_claims_get_string payload (bs "sub");
  ctx_credential_id := nxe_jwx_claims_get_string payload (bs "cid");
  ctx_auth_status := Some (bs "authenticated"); ctx_jwt_exp := exp; ctx_has_exp := true |}.

(** One injected request header: pushed, and hashed under its lower-case name. *)
Definition header_events (hdr : ngx_http_auth_webauthn_header_t) (value : bytes) : trace :=
  let name := str_bytes (hdr_name hdr) in
  [ Ev (headers_in_push name value) true; Ev (ngx_pnalloc (size_t (zlen name))) true;
    Ev (headers_in_hash (ngx_strlow name)) tt ].

Definition configured_headers (wlcf : ngx_http_auth_webauthn_loc_conf_t) :=
  match set_headers wlcf with None => [] | Some hdrs => hdrs end.

(** Calls of a refusal: no request header; to the client at most the
    configured redirection. *)
Definition refusal (wlcf : ngx_http_auth_webauthn_loc_conf_t) (e : eff) : Prop :=
  match e with
  | headers_out_push k v =>
      k = bs "Location" /\ v = str_bytes (signin_url wlcf) /\ v <> []
  | e => quiet e
  end.

Definition refusal_rc (wlcf : ngx_http_auth_webauthn_loc_conf_t) : Z :=
  if str_len (signin_url wlcf) =? 0 then NGX_HTTP_UNAUTHORIZED else NGX_HTTP_MOVED_TEMPORARILY.

(** Nobody is let through: 401 or the redirection when there is no live
    session, 500 when the surroundings or the configuration failed. *)
Record refused (r : ngx_http_request_t) (wlcf : ngx_http_auth_webauthn_loc_conf_t) (rc : Z)
    (ctx : ptr ngx_http_auth_webauthn_ctx_t) (h : trace) : Prop := {
  re_ctx : ctx = NULL \/ exists status, status <> bs "authenticated" /\
    ctx = Some (gate_ctx status);
  re_calls : Forall (fun ev => refusal wlcf (ev_eff ev)) h;
  re_rc : (rc = refusal_rc wlcf /\ forall payload exp, entitled r wlcf payload exp ->
             exists now, Ev ngx_time now ∈ h /\ exp <= now) \/
          (rc = NGX_HTTP_INTERNAL_SERVER_ERROR /\
             (env_failed h \/ str_len (jwt_secret wlcf) = 0 \/ jwks_of wlcf = NULL));
}.

(** A live session: let through with its claims and headers, or 500. *)
(** A context of claims not all copied yet. *)
Definition ctx_within (payload : nxe_jwx_payload_t) (exp : Z)
    (ctx : ptr ngx_http_auth_webauthn_ctx_t) : Prop :=
  exists u c status, ctx = Some {| ctx_user_id := u; ctx_credential_id := c;
    ctx_auth_status := Some status; ctx_jwt_exp := exp; ctx_has_exp := true |} /\
  status <> [] /\ (u = NULL \/ u = nxe_jwx_claims_get_string payload (bs "sub")) /\
  (c = NULL \/ c = nxe_jwx_claims_get_string payload (bs "cid")).

Definition admitted (r : ngx_http_request_t) (wlcf : ngx_http_auth_webauthn_loc_conf_t) (rc : Z)
    (ctx : ptr ngx_http_auth_webauthn_ctx_t) (h : trace) : Prop :=
  exists payload exp now, entitled r wlcf payload exp /\ Ev ngx_time now ∈ h /\ now < exp /\
    ctx_within payload exp ctx /\
    ((rc = ngx_rc_Z NGX_OK /\ ctx = Some (ctx_of payload exp) /\ exists before values,
       Forall2 (fun hdr v => ngx_http_complex_value r (ctx_of payload exp) (hdr_value hdr) = Some v)
         (configured_headers wlcf) values /\
       Forall (fun ev => quiet (ev_eff ev)) before /\
       h = before ++ concat (zip_with header_events (configured_headers wlcf) values)) \/
     (rc = NGX_HTTP_INTERNAL_SERVER_ERROR /\
       (env_failed h \/ exists hdr, hdr ∈ configured_headers wlcf /\
          ngx_http_complex_value r (ctx_of payload exp) (hdr_value hdr) = None))).

Definition gate_post (r : ngx_http_request_t) (wlcf : ngx_http_auth_webauthn_loc_conf_t)
    (out : Z * ptr ngx_http_auth_webauthn_ctx_t) (h : trace) : Prop :=
  if auth wlcf then refused r wlcf out.1 out.2 h \/ admitted r wlcf out.1 out.2 h
  else out = (ngx_rc_Z NGX_DECLINED, NULL) /\ h = [].

(** ** Sizes *)

(** What the configuration, the cookie and the tokens in memory bound. *)
Record gate_sizes (r : ngx_http_request_t) (wlcf : ngx_http_auth_webauthn_loc_conf_t) : Prop := {
  gs_secret : fits (str_bytes (jwt_secret wlcf));
  gs_pem : fits (str_bytes (jwt_pub_pem wlcf));
  gs_alg : fits (str_bytes (jwt_alg wlcf));
  gs_headers : Forall (fun hdr => fits (str_bytes (hdr_name hdr))) (configured_headers wlcf);
  gs_claims : forall payload exp k v, entitled r wlcf payload exp ->
    nxe_jwx_claims_get_string payload k = Some v -> zlen v < 2 ^ 63;
  gs_exp : forall payload exp, entitled r wlcf payload exp -> INT64_MIN <= exp <= INT64_MAX;
}.

Lemma hmac_doc_len k alg : zlen (hmac_doc k alg) <= 64 + zlen k + zlen alg.
Proof.
  unfold hmac_doc. rewrite !zlen_app. unfold js, zlen. rewrite !length_fmap.
  fold (@zlen byte). change (Z.of_nat (length (bs "{'keys':[{'kty':'oct','k':'"))) with 27.
  change (Z.of_nat (length (bs "','alg':'"))) with 9.
  change (Z.of_nat (length (bs "'}]}"))) with 4. lia.
Qed.

Lemma keyval_doc_len pem : zlen (keyval_doc pem) <= 24 + zlen pem.
Proof.
  unfold keyval_doc. rewrite !zlen_app. unfold js, zlen. rewrite !length_fmap.
  change (Z.of_nat (length (bs "{'webauthn':'"))) with 13.
  change (Z.of_nat (length (bs "'}"))) with 2. lia.
Qed.

Lemma strlow_len s : zlen (ngx_strlow s) = zlen s.
Proof. unfold ngx_strlow, zlen. by rewrite length_fmap. Qed.

(** ** Traces *)

(** [h] continued by quiet calls. *)
Definition quietly_from (h h' : trace) : Prop :=
  exists k, h' = h ++ k /\ Forall (fun ev => quiet (ev_eff ev)) k.

Lemma quietly_refl h : quietly_from h h.
Proof. exists []. by rewrite app_nil_r. Qed.

Lemma quietly_snoc h h' e a : quietly_from h h' -> quiet e -> quietly_from h (h' ++ [Ev e a]).
Proof.
  intros (k & -> & Hk) He. exists (k ++ [Ev e a]). split; [by rewrite app_assoc|].
  apply Forall_app. split; [done|]. by repeat constructor.
Qed.

Create HintDb gate discriminated.
#[local] Hint Resolve quietly_refl quietly_snoc env_failed_last : gate.
#[local] Hint Extern 1 (quiet _) => exact I : gate.

Lemma b64url_trace `{!NginxBase64Laws} src (h h0 : trace) Q :
  fits (str_bytes src) -> quietly_from h0 h ->
  (forall h', quietly_from h0 h' -> env_failed h' -> Q (NGX_ERROR, NULL) h') ->
  (forall h', quietly_from h0 h' -> Q (NGX_OK, Some (ngx_encode_base64url (str_bytes src))) h') ->
  wp (ngx_http_auth_webauthn_b64url src) Q h.
Proof.
  unfold fits. intros Hs Hh H0 H1. apply wp_bind, pool_fill_trace.
  - pose proof (encode_fits (str_bytes src)) as He. rewrite str_len_zlen.
    pose proof (zlen_nonneg (str_bytes src)).
    rewrite size_t_small; [done|]. unfold ngx_base64_encoded_length in *. div_lia.
  - apply H0; eauto with gate.
  - apply H1; eauto with gate.
Qed.

Lemma json_escape_trace src (h h0 : trace) Q :
  fits (str_bytes src) -> quietly_from h0 h ->
  (forall h', quietly_from h0 h' -> env_failed h' -> Q NULL h') ->
  (forall h', quietly_from h0 h' -> Q (Some (escape (str_bytes src))) h') ->
  wp (ngx_http_auth_webauthn_json_escape src) Q h.
Proof.
  unfold fits. intros Hs Hh H0 H1. unfold ngx_http_auth_webauthn_json_escape.
  destruct (Z.eqb_spec (str_len src) 0) as [E|_].
  { apply str_len_0 in E. rewrite E in H1. by apply H1. }
  pose proof (escape_length (str_bytes src)). pose proof (zlen_nonneg (str_bytes src)).
  apply pool_fill_trace; [rewrite str_len_zlen, size_t_small; lia| |].
  - apply H0; eauto with gate.
  - apply H1; eauto with gate.
Qed.

Lemma doc_trace {A} size doc (parse : bytes -> ptr A) (h h0 : trace) :
  zlen doc <= size -> 0 <= size < 2 ^ 64 -> quietly_from h0 h ->
  wp (p <- pool_fill size doc ;; match p with None => Ret NULL | Some d => Ret (parse d) end)
     (fun out h' => quietly_from h0 h' /\ (out = parse doc \/ out = NULL /\ env_failed h')) h.
Proof.
  intros Hd Hs Hh. apply wp_bind, pool_fill_trace; [rewrite size_t_small; lia| |];
    (split; [by eauto with gate|]); [right|by left].
  split; [done|]. by apply env_failed_last.
Qed.

Lemma build_jwks_trace `{!NginxBase64Laws} r wlcf (h0 h : trace) :
  gate_sizes r wlcf -> quietly_from h0 h ->
  wp (ngx_http_auth_webauthn_build_jwks wlcf)
     (fun out h' => quietly_from h0 h' /\ (out = jwks_of wlcf \/ out = NULL /\ env_failed h')) h.
Proof.
  intros [Hsec Hpem Halg _ _ _] Hh. unfold ngx_http_auth_webauthn_build_jwks, jwks_of.
  pose proof (zlen_nonneg (str_bytes (jwt_secret wlcf))).
  pose proof (zlen_nonneg (str_bytes (jwt_alg wlcf))).
  pose proof (zlen_nonneg (str_bytes (jwt_pub_pem wlcf))).
  destruct (_ =? _).
  - apply wp_bind, (b64url_trace _ _ h0); [done|done|by intros; split; [|right]|].
    intros h' Hh'. cbn [is_ok negb str_bytes]. rewrite !str_len_zlen. cbn [str_bytes].
    pose proof (encode_fits (str_bytes (jwt_secret wlcf))) as He.
    pose proof (zlen_nonneg (ngx_encode_base64url (str_bytes (jwt_secret wlcf)))).
    unfold fits, ngx_base64_encoded_length in *.
    apply doc_trace; [apply hmac_doc_len|div_lia|done].
  - apply wp_bind, (json_escape_trace _ _ h0); [done|done|by intros; split; [|right]|].
    intros h' Hh'. pose proof (escape_length (str_bytes (jwt_pub_pem wlcf))). unfold fits in *.
    apply doc_trace; [apply keyval_doc_len|lia|done].
Qed.

(** A refusal, given why no live session exists. *)
Lemma deny_refused r wlcf status (h : trace) :
  status <> bs "authenticated" -> Forall (fun ev => quiet (ev_eff ev)) h ->
  (forall payload exp, entitled r wlcf payload exp -> exists now, Ev ngx_time now ∈ h /\ exp <= now) ->
  wp (deny wlcf status) (fun out h' => refused r wlcf out.1 out.2 h') h.
Proof.
  intros Hst Hh Hno. unfold deny, ngx_http_auth_webauthn_unauthorized.
  assert (Forall (fun ev => refusal wlcf (ev_eff ev)) h) as Hr.
  { eapply Forall_impl; [|exact Hh]. by intros [[] a]. }
  assert (forall h', h `prefix_of` h' -> forall payload exp, entitled r wlcf payload exp ->
            exists now, Ev ngx_time now ∈ h' /\ exp <= now) as Hno'.
  { intros h' [k ->] payload exp He. destruct (Hno _ _ He) as (now & Hin & Hle).
    exists now. split; [|done]. apply elem_of_app. by left. }
  destruct (Z.eqb_spec (str_len (signin_url wlcf)) 0) as [E|E].
  { split; [right; by exists status|done|left; split; [|by apply Hno']].
    unfold refusal_rc. by rewrite E. }
  assert (refusal_rc wlcf = NGX_HTTP_MOVED_TEMPORARILY) as Hrc.
  { unfold refusal_rc. by destruct (Z.eqb_spec (str_len (signin_url wlcf)) 0). }
  apply wp_bind, wp_bind, wp_trace_call. intros [] _; cbn [negb wp fst snd].
  - split; [right; by exists status| |left; split; [done|]].
    + apply Forall_app. split; [done|]. repeat constructor. by rewrite <- str_len_0.
    + apply Hno'. by apply prefix_app_r.
  - split; [right; by exists status| |right; split; [done|left; by apply env_failed_last]].
    apply Forall_app. split; [done|]. repeat constructor. by rewrite <- str_len_0.
Qed.

Lemma copy_claim_trace payload name (h h0 : trace) Q :
  (forall v, nxe_jwx_claims_get_string payload name = Some v -> zlen v < 2 ^ 63) ->
  quietly_from h0 h ->
  (forall h', quietly_from h0 h' -> h `prefix_of` h' -> env_failed h' -> Q None h') ->
  (forall h', quietly_from h0 h' -> h `prefix_of` h' ->
     Q (Some (nxe_jwx_claims_get_string payload name)) h') ->
  wp (copy_claim payload name) Q h.
Proof.
  intros Hlen Hh H0 H1. unfold copy_claim.
  destruct (nxe_jwx_claims_get_string payload name) as [v|]; [|by apply H1].
  specialize (Hlen v eq_refl). pose proof (zlen_nonneg v).
  apply wp_bind, pool_fill_trace; [rewrite size_t_small; lia| |].
  - apply H0; [by eauto with gate|by apply prefix_app_r|by apply env_failed_last].
  - apply H1; [by eauto with gate|by apply prefix_app_r].
Qed.

Lemma apply_loop_trace r ctx hdrs (h : trace) :
  Forall (fun hdr => fits (str_bytes (hdr_name hdr))) hdrs ->
  wp (apply_loop r ctx hdrs)
     (fun rc h' =>
        (rc = NGX_OK /\ exists values,
           Forall2 (fun hdr v => ngx_http_complex_value r ctx (hdr_value hdr) = Some v) hdrs values /\
           h' = h ++ concat (zip_with header_events hdrs values)) \/
        (rc <> NGX_OK /\ (env_failed h' \/ exists hdr, hdr ∈ hdrs /\
           ngx_http_complex_value r ctx (hdr_value hdr) = None))) h.
Proof.
  intros Hf. revert h. induction Hf as [|hdr rest Hn Hf IH]; intros h; cbn [apply_loop].
  { left. split; [done|]. exists []. split; [constructor|]. by rewrite app_nil_r. }
  destruct (ngx_http_complex_value r ctx (hdr_value hdr)) as [v|] eqn:Hv.
  2:{ right. split; [done|]. right. exists hdr. split; [by left|done]. }
  apply wp_bind, wp_trace_call. intros [] _; cbn [negb].
  2:{ right. split; [done|]. left. by apply env_failed_last. }
  unfold fits in Hn. pose proof (zlen_nonneg (str_bytes (hdr_name hdr))).
  apply wp_bind, pool_fill_trace; [rewrite strlow_len, str_len_zlen, size_t_small; lia| |].
  { right. split; [done|]. left. by apply env_failed_last. }
  apply wp_bind, wp_trace_call. intros [] _. eapply wp_mono; [|apply IH].
  intros rc h' [(-> & values & H2 & ->)|(Hrc & Hwhy)]; [left|right].
  - split; [done|]. exists (v :: values). split; [by constructor|].
    rewrite <- !app_assoc. done.
  - split; [done|]. destruct Hwhy as [?|(x & Hx & ?)]; [by left|right].
    exists x. split; [by right|done].
Qed.

Lemma claim_eq (v want : bytes) :
  negb (zlen v =? zlen want) || negb (memeq v want (length v)) = negb (bytes_eqb v want).
Proof.
  rewrite <- len_memeq, negb_andb. f_equal. f_equal. unfold zlen.
  destruct (Z.eqb_spec (Z.of_nat (length v)) (Z.of_nat (length want))),
    (Nat.eqb_spec (length v) (length want)); done || lia.
Qed.

Definition headers_applied r wlcf ctx (h : trace) (rc : ngx_rc) (h' : trace) : Prop :=
  (rc = NGX_OK /\ exists values,
     Forall2 (fun hdr v => ngx_http_complex_value r ctx (hdr_value hdr) = Some v)
       (configured_headers wlcf) values /\
     h' = h ++ concat (zip_with header_events (configured_headers wlcf) values)) \/
  (rc <> NGX_OK /\ (env_failed h' \/ exists hdr, hdr ∈ configured_headers wlcf /\
     ngx_http_complex_value r ctx (hdr_value hdr) = None)).

Lemma apply_headers_trace r wlcf ctx (h : trace) :
  gate_sizes r wlcf ->
  wp (ngx_http_auth_webauthn_apply_headers r wlcf ctx)
     (fun rc h' => headers_applied r wlcf ctx h rc h' /\ h `prefix_of` h') h.
Proof.
  intros Hs. eapply wp_mono; [|apply (wp_all_calls (fun _ => True)); [apply all_calls_any|]].
  - intros rc h' [H (k & -> & _)]. split; [exact H|by apply prefix_app_r].
  - pose proof (gs_headers _ _ Hs) as Hf.
    unfold ngx_http_auth_webauthn_apply_headers, headers_applied, configured_headers in *.
    destruct (set_headers wlcf) as [hdrs|]; [by apply apply_loop_trace|].
    left. split; [done|]. exists []. split; [constructor|]. by rewrite app_nil_r.
Qed.

(** A live session: copy the claims and inject the headers. *)
Lemma admit_live r wlcf payload exp now (h : trace) :
  gate_sizes r wlcf -> entitled r wlcf payload exp -> now < exp ->
  Forall (fun ev => quiet (ev_eff ev)) h -> Ev ngx_time now ∈ h ->
  wp (admit_session r wlcf payload exp)
     (fun out h' => refused r wlcf out.1 out.2 h' \/ admitted r wlcf out.1 out.2 h') h.
Proof.
  intros Hs He Hlt Hq Hin. unfold admit_session.
  assert (forall h', h `prefix_of` h' -> Ev ngx_time now ∈ h') as Hin'.
  { intros h' [k ->]. apply elem_of_app. by left. }
  assert (forall h', h `prefix_of` h' -> env_failed h' -> forall ctx,
    ctx_within payload exp ctx -> refused r wlcf NGX_HTTP_INTERNAL_SERVER_ERROR ctx h' \/
    admitted r wlcf NGX_HTTP_INTERNAL_SERVER_ERROR ctx h') as Hfail.
  { intros h' Hpre Hf ctx Hc. right. exists payload, exp, now. split_and!; auto. }
  apply wp_bind, (copy_claim_trace _ _ _ []); [by intros; eapply gs_claims|by exists h| |].
  { intros h1 _ Hpre1 Hf. apply Hfail; [done|done|].
    exists NULL, NULL, (bs "unauthenticated"). split_and!; auto. }
  intros h1 Hq1 Hpre1. cbn beta iota.
  apply wp_bind, (copy_claim_trace _ _ _ []); [by intros; eapply gs_claims|done| |].
  { intros h2 _ Hpre2 Hf. apply Hfail; [by etrans|done|].
    eexists _, NULL, (bs "unauthenticated"). split_and!; auto. }
  intros h2 [k2 [E2 Hk2]] Hpre2. cbn [app] in E2. subst k2. cbn [deref bind].
  fold (ctx_of payload exp). unfold ngx_http_auth_webauthn_apply_headers.
  assert (h `prefix_of` h2) as Hpre by by etrans.
  assert (ctx_within payload exp (Some (ctx_of payload exp))) as Hctx.
  { eexists _, _, (bs "authenticated"). split_and!; auto. }
  eapply wp_seq; [by apply apply_headers_trace|].
  intros rc h3 [[[-> (values & HF & ->)]|[Hrc Hwhy]] Hpre3]; cbn [is_ok negb].
  - right. exists payload, exp, now. split_and!; [done|apply Hin'; by etrans|done|done|]. left.
    split_and!; [done|done|]. by exists h2, values.
  - assert (is_ok rc = false) as -> by by destruct rc. cbn [negb]. right.
    exists payload, exp, now. split_and!; [done|apply Hin'; by etrans|done|done|]. by right.
Qed.

(** The claims of a token already found to be signed. *)
Lemma admit_claims_trace r wlcf payload (h : trace) :
  gate_sizes r wlcf -> Forall (fun ev => quiet (ev_eff ev)) h ->
  (forall p exp, entitled r wlcf p exp -> p = payload) ->
  (exists cookies cookie token jwks,
    r_cookie r = Some cookies /\
    ngx_http_parse_cookie cookies (str_bytes (cookie_name wlcf)) = Some cookie /\
    nxe_jwx_decode cookie = Some token /\ jwks_of wlcf = Some jwks /\
    nxe_jwx_jws_verify token jwks = true /\ nxe_jwx_token_payload token = Some payload) ->
  wp (admit_claims r wlcf payload)
     (fun out h' => refused r wlcf out.1 out.2 h' \/ admitted r wlcf out.1 out.2 h') h.
Proof.
  intros Hs Hq Hp Htok. unfold admit_claims.
  assert (forall status h', status <> bs "authenticated" -> Forall (fun ev => quiet (ev_eff ev)) h' ->
    (forall exp, entitled r wlcf payload exp -> exists now, Ev ngx_time now ∈ h' /\ exp <= now) ->
    wp (deny wlcf status) (fun out h' => refused r wlcf out.1 out.2 h' \/
      admitted r wlcf out.1 out.2 h') h') as Hdeny.
  { intros status h' Hst Hq' Hno. eapply wp_mono; [|apply (deny_refused r); [done|done|]].
    - by left.
    - intros p exp He. pose proof (Hp _ _ He). subst p. by apply Hno. }
  destruct (nxe_jwx_claims_get_string payload (bs "aud")) as [aud|] eqn:Haud.
  2:{ apply Hdeny; [done|done|]. intros exp [_ E _ _]. congruence. }
  rewrite str_len_zlen, claim_eq. destruct (bytes_eqb aud _) eqn:E; cbn [negb].
  2:{ apply Hdeny; [done|done|]. intros exp [_ E' _ _]. rewrite Haud in E'. injection E' as ->.
      rewrite (proj2 (bytes_eqb_eq _ _)) in E; done. }
  apply bytes_eqb_eq in E as ->.
  destruct (nxe_jwx_claims_get_string payload (bs "iss")) as [iss|] eqn:Hiss.
  2:{ apply Hdeny; [done|done|]. intros exp [_ _ E _]. congruence. }
  rewrite claim_eq. destruct (bytes_eqb iss _) eqn:E; cbn [negb].
  2:{ apply Hdeny; [done|done|]. intros exp [_ _ E' _]. rewrite Hiss in E'. injection E' as ->.
      rewrite (proj2 (bytes_eqb_eq _ _)) in E; done. }
  apply bytes_eqb_eq in E as ->.
  destruct (nxe_jwx_claims_get_integer payload (bs "exp")) as [exp|] eqn:Hexp.
  2:{ apply Hdeny; [done|done|]. intros exp [_ _ _ E]. congruence. }
  apply wp_bind, wp_trace_call. intros now _.
  assert (quietly_from h (h ++ [Ev ngx_time now])) as Hq1 by eauto with gate.
  assert (Forall (fun ev => quiet (ev_eff ev)) (h ++ [Ev ngx_time now])) as Hq1'.
  { apply Forall_app. split; [done|]. by repeat constructor. }
  assert (Ev ngx_time now ∈ h ++ [Ev ngx_time now]) as Hin by (apply elem_of_app; right; by left).
  destruct (Z.leb_spec exp now) as [Hle|Hlt].
  { apply Hdeny; [done|done|]. intros exp' [_ _ _ E']. exists now. split; [done|]. congruence. }
  by eapply admit_live.
Qed.

(** ** No resources *)

Lemma fill_neutral size content : all_calls neutral (pool_fill size content).
Proof. split; [done|]. intros []; [|done]. by destruct (_ <=? _). Qed.

Lemma build_jwks_neutral wlcf : all_calls neutral (ngx_http_auth_webauthn_build_jwks wlcf).
Proof.
  unfold ngx_http_auth_webauthn_build_jwks, ngx_http_auth_webauthn_b64url,
    ngx_http_auth_webauthn_json_escape.
  repeat (cbn beta iota; first [exact I | apply fill_neutral | calls_step]).
Qed.

Lemma deny_neutral wlcf status : all_calls neutral (deny wlcf status).
Proof.
  unfold deny, ngx_http_auth_webauthn_unauthorized.
  repeat (cbn beta iota; first [exact I | calls_step]).
Qed.

Lemma apply_headers_neutral r wlcf ctx :
  all_calls neutral (ngx_http_auth_webauthn_apply_headers r wlcf ctx).
Proof.
  unfold ngx_http_auth_webauthn_apply_headers. destruct (set_headers wlcf) as [hdrs|]; [|done].
  induction hdrs as [|hdr rest IH]; cbn [apply_loop]; [done|].
  destruct (ngx_http_complex_value _ _ _); [|done].
  apply all_calls_bind; [done|]. intros []; cbn [negb]; [|done].
  apply all_calls_bind; [apply fill_neutral|]. intros [low|]; [|done].
  by apply all_calls_bind.
Qed.

Lemma admit_session_neutral r wlcf payload exp : all_calls neutral (admit_session r wlcf payload exp).
Proof.
  assert (forall name, all_calls neutral (copy_claim payload name)) as Hc.
  { intros name. unfold copy_claim. destruct (nxe_jwx_claims_get_string _ _); [|done].
    apply all_calls_bind; [apply fill_neutral|]. by intros []. }
  unfold admit_session. apply all_calls_bind; [done|]. intros [sub|]; [|done].
  apply all_calls_bind; [done|]. intros [cid|]; [|done].
  apply all_calls_bind; [apply apply_headers_neutral|]. intros rc. by destruct (negb _).
Qed.

Lemma access_handler_neutral r wlcf :
  all_calls neutral (ngx_http_auth_webauthn_access_handler r wlcf).
Proof.
  unfold ngx_http_auth_webauthn_access_handler, admit_claims.
  repeat (cbn beta iota; first [exact I | apply deny_neutral | apply build_jwks_neutral
                               | apply admit_session_neutral | calls_step]).
Qed.

(** ** The theorems *)

Lemma entitled_inj r wlcf p1 p2 e1 e2 :
  entitled r wlcf p1 e1 -> entitled r wlcf p2 e2 -> p1 = p2.
Proof.
  intros [(c1 & k1 & t1 & j1 & ? & ? & ? & ? & ? & ?) _ _ _]
         [(c2 & k2 & t2 & j2 & ? & ? & ? & ? & ? & ?) _ _ _]. congruence.
Qed.

Lemma access_handler_spec `{!NginxBase64Laws} r wlcf :
  gate_sizes r wlcf ->
  wp (ngx_http_auth_webauthn_access_handler r wlcf) (gate_post r wlcf) ([] : trace).
Proof.
  intros Hs. unfold ngx_http_auth_webauthn_access_handler, gate_post.
  destruct (auth wlcf); cbn [negb]; [|done].
  assert (forall h ctx, Forall (fun ev => quiet (ev_eff ev)) h -> ctx = NULL \/
      ctx = Some (gate_ctx (bs "unauthenticated")) ->
    env_failed h \/ str_len (jwt_secret wlcf) = 0 \/ jwks_of wlcf = NULL ->
    refused r wlcf NGX_HTTP_INTERNAL_SERVER_ERROR ctx h \/
    admitted r wlcf NGX_HTTP_INTERNAL_SERVER_ERROR ctx h) as H500.
  { intros h ctx Hh Hc Hwhy. left. split; [|by eapply Forall_impl; [|exact Hh]; intros [[] ?]|by right].
    destruct Hc as [->| ->]; [by left|right]. by exists (bs "unauthenticated"). }
  apply wp_bind, wp_trace_call. intros [] _; cbn [negb].
  2:{ apply H500; [by repeat constructor|by left|]. left. by apply env_failed_last. }
  cbn [app]. destruct (Z.eqb_spec (str_len (jwt_secret wlcf)) 0) as [E|_].
  { apply wp_bind, wp_trace_call. intros [] _. apply H500; [by repeat constructor|by right|by auto]. }
  set (h := [Ev (ngx_pnalloc 64) true]).
  assert (Forall (fun ev => quiet (ev_eff ev)) h) as Hh by by repeat constructor.
  assert (forall status h', status <> bs "authenticated" -> Forall (fun ev => quiet (ev_eff ev)) h' ->
    (forall payload exp, ~ entitled r wlcf payload exp) ->
    wp (deny wlcf status) (fun out h' => refused r wlcf out.1 out.2 h' \/
      admitted r wlcf out.1 out.2 h') h') as Hdeny.
  { intros status h' Hst Hq Hno. eapply wp_mono; [|apply (deny_refused r); [done|done|]].
    - by left.
    - intros p exp He. by destruct (Hno p exp). }
  destruct (r_cookie r) as [cookies|] eqn:Hcs.
  2:{ apply Hdeny; [done|done|]. intros p exp [(? & ? & ? & ? & ? & _) _ _ _]. congruence. }
  destruct (ngx_http_parse_cookie cookies _) as [cookie|] eqn:Hck.
  2:{ apply Hdeny; [done|done|]. intros p exp [(? & ? & ? & ? & ? & ? & _) _ _ _]. congruence. }
  destruct (nxe_jwx_decode cookie) as [token|] eqn:Htok.
  2:{ apply Hdeny; [done|done|]. intros p exp [(? & ? & ? & ? & ? & ? & ? & _) _ _ _]. congruence. }
  eapply wp_seq; [by apply (build_jwks_trace r _ [] h); [|exists h]|].
  intros jwks h1 [[k [-> Hk]] Hj]. cbn [app]. destruct jwks as [jwks|].
  2:{ apply H500; [done|by right|]. destruct Hj as [Hj|[_ Hj]]; auto. }
  assert (jwks_of wlcf = Some jwks) as Hjw by (destruct Hj as [->|[? _]]; done). clear Hj.
  destruct (nxe_jwx_jws_verify token jwks) eqn:Hv; cbn [negb].
  2:{ apply Hdeny; [done|done|].
      intros p exp [(? & ? & ? & ? & ? & ? & ? & ? & ? & _) _ _ _]. congruence. }
  destruct (nxe_jwx_token_payload token) as [payload|] eqn:Hpl.
  2:{ apply Hdeny; [done|done|].
      intros p exp [(? & ? & ? & ? & ? & ? & ? & ? & ? & ?) _ _ _]. congruence. }
  apply admit_claims_trace; [done|done| |by exists cookies, cookie, token, jwks].
  intros p exp [(? & ? & ? & ? & ? & ? & ? & ? & ? & ?) _ _ _]. congruence.
Qed.

(** C7: the access gate, for every behaviour of the allocator.  Without
    [auth_webauthn on] it declines and does nothing.  Otherwise NGX_OK is
    answered only for a request whose cookie is a token verified under the
    location's key with aud equal to rp_id, iss the minting literal and exp in
    the future; then the context carries exactly its sub, cid and exp, and the
    configured headers are injected in order, each under its lower-case name.
    A 401 or the redirection means there is no live session, and 500 means an
    allocation, the key or a header value failed; none of them injects
    anything unless a live session was found.  No buffer overflows. *)
Theorem access_handler_correct `{!NginxBase64Laws} r wlcf :
  gate_sizes r wlcf ->
  wp (ngx_http_auth_webauthn_access_handler r wlcf) (gate_post r wlcf) ([] : trace) /\
  balanced ∅ (ngx_http_auth_webauthn_access_handler r wlcf).
Proof.
  intros Hs. split; [by apply access_handler_spec|].
  eapply neutral_balanced; [apply access_handler_neutral|by apply access_handler_spec].
Qed.

(** The values the variables have for a session. *)
Definition session_value (payload : nxe_jwx_payload_t) (exp data : Z) : option bytes :=
  if data =? 0 then nxe_jwx_claims_get_string payload (bs "sub")
  else if data =? 1 then nxe_jwx_claims_get_string payload (bs "cid")
  else if data =? 3 then Some (dec exp) else None.

Lemma variable_refused r wlcf rc ctx data (h : trace) :
  refused r wlcf rc ctx h -> data <> 2 ->
  ngx_http_auth_webauthn_variable ctx data = Ret (NGX_OK, None).
Proof.
  intros [[->|(st & _ & ->)] _ _] Hd; unfold ngx_http_auth_webauthn_variable.
  - by destruct (Z.eqb_spec data 2).
  - cbn [ctx_user_id ctx_credential_id ctx_has_exp gate_ctx negb].
    destruct (data =? 0); [done|]. destruct (data =? 1); [done|].
    destruct (Z.eqb_spec data 2); [done|]. by destruct (data =? 3).
Qed.

Lemma variable_within payload exp ctx data (h : trace) :
  ctx_within payload exp ctx -> INT64_MIN <= exp <= INT64_MAX -> data <> 2 ->
  wp (ngx_http_auth_webauthn_variable ctx data)
     (fun out h' => h `prefix_of` h' /\
        forall v, out.2 = Some v -> v <> [] /\ session_value payload exp data = Some v) h.
Proof.
  intros (u & c & st & -> & _ & Hu & Hc) He Hd.
  unfold ngx_http_auth_webauthn_variable, session_value.
  cbn [ctx_user_id ctx_credential_id ctx_has_exp ctx_jwt_exp negb].
  destruct (data =? 0).
  { split; [done|]. intros v. destruct u as [[|x u]|]; try done. intros [= <-].
    split; [done|]. by destruct Hu. }
  destruct (data =? 1).
  { split; [done|]. intros v. destruct c as [[|x c]|]; try done. intros [= <-].
    split; [done|]. by destruct Hc. }
  destruct (Z.eqb_spec data 2); [done|]. destruct (data =? 3); [|by split].
  pose proof (dec_length exp ltac:(unfold INT64_MIN, INT64_MAX in *; lia)).
  apply wp_bind, pool_fill_trace; [rewrite size_t_small; lia|split; [by apply prefix_app_r|done]|].
  split; [by apply prefix_app_r|]. cbn [snd]. pose proof (dec_pos exp).
  destruct (dec exp) eqn:E; [done|]. intros v [= <-]. done.
Qed.

(** C27: the variables never speak of anybody but the owner of a live
    session: whatever the gate answered, a value of [$webauthn_user_id],
    [$webauthn_credential_id] or [$webauthn_jwt_exp] is non-empty and is the
    sub, cid or exp of a verified, unexpired token of this location. *)
Theorem gate_variables_correct `{!NginxBase64Laws} r wlcf data :
  gate_sizes r wlcf -> data <> 2 ->
  wp (out <- ngx_http_auth_webauthn_access_handler r wlcf ;;
      ngx_http_auth_webauthn_variable out.2 data)
     (fun found h => forall v, found.2 = Some v -> v <> [] /\
        exists payload exp now, entitled r wlcf payload exp /\ Ev ngx_time now ∈ h /\ now < exp /\
          session_value payload exp data = Some v) ([] : trace).
Proof.
  intros Hs Hd. eapply wp_seq; [by apply access_handler_spec|]. intros [rc ctx] h.
  unfold gate_post. cbn [fst snd]. destruct (auth wlcf).
  - intros [Hr|(payload & exp & now & He & Hin & Hlt & Hc & _)].
    + by rewrite (variable_refused _ _ _ _ _ _ Hr Hd).
    + eapply wp_mono; [|apply (variable_within payload exp); [done|by eapply gs_exp|done]].
      intros out h' [[k ->] Hv] v E. destruct (Hv v E). split; [done|].
      exists payload, exp, now. split_and!; [done| |done|done]. apply elem_of_app. by left.
  - intros [[= -> ->] ->]. cbn. by destruct (Z.eqb_spec data 2).
Qed.
End gate.

Import Samples HttpSamples.

(** A request with the session minted for the sample user. *)
Definition session_claims (exp : Z) : bytes :=
  js "{'iss':'nginx-webauthn','aud':'a.example','sub':'alice','cid':'Y3JlZA','iat':1,'exp':" ++
  dec exp ++ js ",'jti':'x'}".
Definition session_request (exp : Z) : ngx_http_request_t := {|
  r_method_post := false; r_header_only := false; r_addr_text := Some (bs "10.0.0.1");
  r_args := []; r_body := None;
  r_cookie := Some [bs "webauthn_session=" ++ session_claims exp ++ bs "." ++
                    Base64.Shim.ngx_encode_base64url (replicate 32 Byte.x6b)] |}.
Definition live_request : ngx_http_request_t := session_request 1700000100.

Lemma live_payload payload exp :
  entitled live_request HttpSamples.conf payload exp ->
  Samples.parse (session_claims 1700000100) = Some payload /\ exp = 1700000100.
Proof.
  intros [(cookies & cookie & token & jwks & E1 & E2 & E3 & _ & _ & E6) _ _ E].
  injection E1 as <-. vm_compute in E2. injection E2 as <-.
  vm_compute in E3. injection E3 as <-.
  assert (Samples.parse (session_claims 1700000100) = Some payload) as Hp.
  { rewrite <- E6. vm_compute. reflexivity. }
  split; [done|]. vm_compute in Hp. injection Hp as <-. vm_compute in E. by injection E as <-.
Qed.

Lemma live_sizes : gate_sizes live_request HttpSamples.conf.
Proof.
  split; try reflexivity.
  - by repeat constructor.
  - intros payload exp k v [Hp _]%live_payload Hv.
    change (object_get payload k ≫= string_of = Some v) in Hv.
    destruct (object_get payload k) as [j|] eqn:Hj; [|done].
    apply string_of_size in Hv. apply object_get_size in Hj.
    assert (Samples.size payload < 100) by (vm_compute in Hp; injection Hp as <-; reflexivity). lia.
  - intros payload exp [_ ->]%live_payload. unfold INT64_MIN, INT64_MAX. lia.
Qed.

Definition live_ctx : ngx_http_auth_webauthn_ctx_t := {|
  ctx_user_id := Some (bs "alice"); ctx_credential_id := Some (bs "Y3JlZA");
  ctx_auth_status := Some (bs "authenticated"); ctx_jwt_exp := 1700000100; ctx_has_exp := true |}.

(** Let through at 1700000000; an expired token is refused. *)
Lemma access_handler_correct_witness :
  ok_run (ngx_http_auth_webauthn_access_handler live_request HttpSamples.conf)
    = Some (0, Some live_ctx) /\
  ok_run (ngx_http_auth_webauthn_access_handler (session_request 1700000000) HttpSamples.conf)
    = Some (401, Some (gate_ctx (bs "expired"))) /\
  wp (ngx_http_auth_webauthn_access_handler live_request HttpSamples.conf)
     (gate_post live_request HttpSamples.conf) ([] : trace).
Proof.
  split; [vm_compute; reflexivity|]. split; [vm_compute; reflexivity|].
  exact (proj1 (access_handler_correct live_request HttpSamples.conf live_sizes)).
Defined.

Lemma gate_variables_correct_witness :
  ok_run (out <- ngx_http_auth_webauthn_access_handler live_request HttpSamples.conf ;;
          ngx_http_auth_webauthn_variable out.2 0) = Some (NGX_OK, Some (bs "alice")) /\
  wp (out <- ngx_http_auth_webauthn_access_handler live_request HttpSamples.conf ;;
      ngx_http_auth_webauthn_variable out.2 0)
     (fun found h => forall v, found.2 = Some v -> v <> [] /\
        exists payload exp now, entitled live_request HttpSamples.conf payload exp /\
          Ev ngx_time now ∈ h /\ now < exp /\ session_value payload exp 0 = Some v) ([] : trace).
Proof.
  split; [vm_compute; reflexivity|].
  exact (gate_variables_correct live_request HttpSamples.conf 0 live_sizes ltac:(done)).
Defined.
