(* ===== verification/Session.v ===== *)
(** * Sessions end to end: the token of the verify endpoint at the access gate

    What mint_session puts into the Set-Cookie header is what access_handler
    accepts, for as long as the session lasts.  nxe-jwx signs and verifies in
    between, and is a parameter: its documented behaviour, on the flat claims
    objects the module writes, is the class [NxeJwxLaws]. *)

From S2P Require Import Prelude Effects Externals Base64 Samples AuthData Hash ClientData Assertion.
From S2P Require Import Redis RedisCalls RedisSpec RedisOps Challenge Credential Conf Http.
From S2P Require Import ConfMerge ChallengeHandler VerifyHandler VerifySound Gate.
#[global] Open Scope Z_scope.

(** ** Flat JSON objects *)

(** A member's value as a template writes it: the text between the quotes of a
    string, or a number. *)
Inductive member := M_string (text : bytes) | M_int (z : Z).

Definition quote : byte := Byte.x22.
Definition value_text (v : member) (tail : bytes) : bytes :=
  match v with
  | M_string text => quote :: text ++ quote :: tail
  | M_int z => dec z ++ tail
  end.

Fixpoint members_text (ms : list (bytes * member)) : bytes :=
  match ms with
  | [] => bs "}"
  | (k, v) :: rest =>
      quote :: k ++ quote :: Byte.x3a ::
        value_text v (match rest with [] => bs "}" | _ => Byte.x2c :: members_text rest end)
  end.
Definition object_text (ms : list (bytes * member)) : bytes := Byte.x7b :: members_text ms.

(** What a lexer of JSON strings makes of the text between two quotes. *)
Definition spells (text v : bytes) : Prop :=
  forall rest, lex_string (text ++ quote :: rest) = Some (v, rest).

(** A text without quotes, backslashes and control bytes spells itself. *)
Definition unescaped_byte (c : byte) : bool :=
  (32 <=? b2z c) && negb (b2z c =? 34) && negb (b2z c =? 92).
Definition unescaped (s : bytes) : Prop := Forall (fun c => unescaped_byte c = true) s.

Lemma unescaped_spells s : unescaped s -> spells s s.
Proof.
  intros Hs rest. induction Hs as [|c s Hc Hs IH]; [done|]. cbn [app lex_string].
  unfold unescaped_byte in Hc. rewrite !andb_true_iff, !negb_true_iff in Hc.
  destruct Hc as [[Hc ->] ->]. apply Z.leb_le in Hc.
  destruct (Z.ltb_spec (b2z c) 32); [lia|]. by rewrite IH.
Qed.

Lemma escape_spells s : spells (escape s) s.
Proof. intros rest. apply lex_escape. Qed.

Definition member_ok (m : bytes * member) : Prop :=
  unescaped m.1 /\ match m.2 with M_string text => exists v, spells text v | M_int z => 0 <= z end.

(** ** What the module relies on of nxe-jwx *)

Class NxeJwxLaws `{NginxBase64, NxeJwx, OpenSSL, !OpenSSLPem} := {
  (** the key set verifies what the signing key signs under the algorithm *)
  signs_for : bytes -> bytes -> nxe_jwx_jwks_t -> Prop;
  (** a key set of one symmetric key *)
  hmac_jwks : forall key, exists jwks,
    nxe_jwx_jwks_parse (hmac_doc (ngx_encode_base64url key) (bs "HS256")) = Some jwks /\
    signs_for (bs "HS256") key jwks;
  (** a map with the public half of a private key *)
  keyval_jwks : forall alg priv key pem, alg ∈ [bs "RS256"; bs "ES256"] ->
    PEM_read_bio_PrivateKey priv = Some key -> PEM_write_bio_PUBKEY key = Some pem ->
    exists jwks, nxe_jwx_jwks_parse_keyval (keyval_doc (escape pem)) = Some jwks /\
      signs_for alg priv jwks;
  (** a signed token decodes to its claims, and verifies *)
  jwt_roundtrip : forall alg key ms jwt,
    NoDup ms.*1 -> Forall member_ok ms -> nxe_jwx_encode alg (object_text ms) key = Some jwt ->
    exists token payload,
      nxe_jwx_decode jwt = Some token /\ nxe_jwx_token_payload token = Some payload /\
      (forall jwks, signs_for alg key jwks -> nxe_jwx_jws_verify token jwks = true) /\
      (forall k text v, (k, M_string text) ∈ ms -> spells text v ->
         nxe_jwx_claims_get_string payload k = Some v) /\
      (forall k z, (k, M_int z) ∈ ms -> z <= INT64_MAX ->
         nxe_jwx_claims_get_integer payload k = Some z);
  (** the characters of base64url and of tokens *)
  b64_unescaped : forall s, unescaped (ngx_encode_base64url s);
  jwt_no_semicolon : forall alg claims key jwt,
    nxe_jwx_encode alg claims key = Some jwt -> Byte.x3b ∉ jwt;
}.

(** ** From the Set-Cookie header to the Cookie header *)

Fixpoint until_semicolon (s : bytes) : bytes :=
  match s with
  | [] => []
  | c :: t => if bool_decide (c = Byte.x3b) then [] else c :: until_semicolon t
  end.

(** RFC 6265: the value a browser returns for a cookie of that name. *)
Definition cookie_value (name set_cookie : bytes) : option bytes :=
  until_semicolon <$> Samples.strip (name ++ bs "=") set_cookie.

Lemma until_semicolon_app s rest :
  Byte.x3b ∉ s -> until_semicolon (s ++ Byte.x3b :: rest) = s.
Proof.
  induction s as [|c s IH]; intros Hs; cbn [app until_semicolon]; [by rewrite bool_decide_true|].
  rewrite bool_decide_false by set_solver. f_equal. apply IH. set_solver.
Qed.

Lemma cookie_value_of wlcf ss jwt :
  Byte.x3b ∉ jwt ->
  cookie_value (str_bytes (cookie_name wlcf)) (cookie_text wlcf ss jwt) = Some jwt.
Proof.
  intros Hj. unfold cookie_value, cookie_text, Samples.strip.
  rewrite (app_assoc (str_bytes _) (bs "=")).
  set (pre := str_bytes (cookie_name wlcf) ++ bs "=").
  rewrite take_app_length, bool_decide_true, drop_app_length by done. cbn [fmap option_fmap option_map].
  f_equal. change (bs "; HttpOnly; SameSite=") with (Byte.x3b :: bs " HttpOnly; SameSite=").
  by apply until_semicolon_app.
Qed.

Section session.
Context `{JSON : NxeJson, B64 : NginxBase64, SSL : OpenSSL, JWX : NxeJwx, HTTP : NginxHttp}.
Context `{PEM : !OpenSSLPem}.

(** The claims the module mints. *)
Definition session_members (rp sub id jti : bytes) (iat exp : Z) : list (bytes * member) :=
  [(bs "iss", M_string jwt_issuer); (bs "aud", M_string rp); (bs "sub", M_string sub);
   (bs "cid", M_string id); (bs "iat", M_int iat); (bs "exp", M_int exp);
   (bs "jti", M_string jti)].

Lemma claims_object wlcf sub id jti now :
  claims_text wlcf sub id jti now =
  object_text (session_members (str_bytes (rp_id wlcf)) sub id jti now (session_exp wlcf now)).
Proof. reflexivity. Qed.

Lemma session_members_ok rp sub v id jti iat exp :
  unescaped rp -> spells sub v -> unescaped id -> unescaped jti -> 0 <= iat -> 0 <= exp ->
  Forall member_ok (session_members rp sub id jti iat exp) /\
  NoDup (session_members rp sub id jti iat exp).*1.
Proof.
  intros Hrp Hsub Hid Hjti Hi He. split; [|by apply (bool_decide_unpack _); vm_compute].
  assert (forall k (t : bytes), unescaped k -> (exists v, spells t v) -> member_ok (k, M_string t)) as Hs by done.
  assert (forall k z, unescaped k -> 0 <= z -> member_ok (k, M_int z)) as Hz by done.
  unfold session_members. repeat apply list.Forall_cons_2; [..|by apply list.Forall_nil_2];
    first [apply Hs|apply Hz]; try done; try (by repeat constructor); eauto using unescaped_spells.
  exists jwt_issuer. apply unescaped_spells. by repeat constructor.
Qed.

(** Two locations of one relying party, with one key: what is minted at the
    first is checked at the second. *)
Record same_party (mint gate : ngx_http_auth_webauthn_loc_conf_t) : Prop := {
  sp_auth : auth gate = true;
  sp_rp : str_bytes (rp_id gate) = str_bytes (rp_id mint);
  sp_cookie : str_bytes (cookie_name gate) = str_bytes (cookie_name mint);
  sp_secret : jwt_secret gate = jwt_secret mint;
  sp_pem : jwt_pub_pem gate = jwt_pub_pem mint;
  sp_alg : jwt_alg gate = jwt_alg mint;
  sp_family : jwt_alg_family gate = jwt_alg_family mint;
}.

(** The algorithm is one for the kind of key that was loaded. *)
Inductive key_matches (lc : ngx_http_auth_webauthn_loc_conf_t) : Prop :=
  | KM_hmac :
      jwt_alg_family lc = NGX_AUTH_WEBAUTHN_JWT_HMAC -> str_bytes (jwt_alg lc) = bs "HS256" ->
      str_bytes (jwt_secret lc) <> [] -> key_matches lc
  | KM_pem key :
      jwt_alg_family lc = NGX_AUTH_WEBAUTHN_JWT_ASYM ->
      str_bytes (jwt_alg lc) ∈ [bs "RS256"; bs "ES256"] -> str_bytes (jwt_secret lc) <> [] ->
      PEM_read_bio_PrivateKey (str_bytes (jwt_secret lc)) = Some key ->
      PEM_write_bio_PUBKEY key = Some (str_bytes (jwt_pub_pem lc)) -> key_matches lc.

(** What a configuration nginx accepts leaves to ask for in [verify_sizes]: that
    no string is absurdly long, and a session lifetime whose sum with the clock
    is a time. *)
Lemma settled_sizes r lc : conf_ok lc -> jwt_ttl lc < 2 ^ 62 ->
  Forall (fun s => fits (str_bytes s))
    [redis_host lc; redis_key_prefix lc; rp_id lc; cookie_name lc; cookie_path lc; cookie_domain lc] ->
  (forall bufs, r_body r = Some (Some bufs) -> zlen (concat (buf_bytes <$> bufs)) < 2 ^ 63) ->
  (forall claims jwt, zlen claims <= 2 ^ 40 ->
     nxe_jwx_encode (str_bytes (jwt_alg lc)) claims (str_bytes (jwt_secret lc)) = Some jwt ->
     zlen jwt < 2 ^ 62) ->
  verify_sizes r lc.
Proof.
  intros Hc Ht Hs Hb Hj. destruct (co_jwt_ttl _ Hc) as [H0 _].
  repeat match goal with H : Forall _ (_ :: _) |- _ => apply Forall_cons_1 in H as [? H] end.
  by split; try done; apply co_samesite.
Qed.

(** The request returns the cookie of that header. *)
Definition presents (r : ngx_http_request_t) (name set_cookie : bytes) : Prop :=
  exists cookies, r_cookie r = Some cookies /\
    ngx_http_parse_cookie cookies name = cookie_value name set_cookie.

Definition session_ctx (user id : bytes) (exp : Z) : ngx_http_auth_webauthn_ctx_t := {|
  ctx_user_id := Some user; ctx_credential_id := Some id;
  ctx_auth_status := Some (bs "authenticated"); ctx_jwt_exp := exp; ctx_has_exp := true |}.

(** The gate on a session: open until it expires, whoever the clock asks. *)
Definition session_post (r : ngx_http_request_t) (gate : ngx_http_auth_webauthn_loc_conf_t)
    (user id : bytes) (exp : Z) (out : Z * ptr ngx_http_auth_webauthn_ctx_t) (h : trace) : Prop :=
  (out = (ngx_rc_Z NGX_OK, Some (session_ctx user id exp)) /\
     exists now, Ev ngx_time now ∈ h /\ now < exp) \/
  (out.1 = refusal_rc gate /\ exists now, Ev ngx_time now ∈ h /\ exp <= now) \/
  (out.1 = NGX_HTTP_INTERNAL_SERVER_ERROR /\
     (env_failed h \/ exists hdr, hdr ∈ configured_headers gate /\
        ngx_http_complex_value r (session_ctx user id exp) (hdr_value hdr) = None)).

Context `{JWL : !NxeJwxLaws}.

Lemma jwks_match lc : key_matches lc ->
  exists jwks, jwks_of lc = Some jwks /\
    signs_for (str_bytes (jwt_alg lc)) (str_bytes (jwt_secret lc)) jwks.
Proof.
  unfold jwks_of. intros [Hf Ha _|key Hf Ha _ Hr Hw]; rewrite Hf; cbn [Z.eqb].
  - rewrite Ha. apply hmac_jwks.
  - by eapply keyval_jwks.
Qed.

Lemma same_key mint gate : same_party mint gate -> key_matches mint -> key_matches gate.
Proof.
  intros [_ _ _ Hs Hp Ha Hf] [E1 E2 E3|key E1 E2 E3 E4 E5]; [apply KM_hmac|eapply KM_pem];
    try rewrite Hs; try rewrite Hp; try rewrite Ha; try rewrite Hf; done.
Qed.

(** A minted token entitles to the session. *)
Lemma minted_entitled mint gate r sub user id jti now jwt ss :
  same_party mint gate -> key_matches mint -> unescaped (str_bytes (rp_id mint)) ->
  unescaped id -> spells sub user -> 0 <= now < 2 ^ 40 -> 0 <= jwt_ttl mint < 2 ^ 62 ->
  nxe_jwx_encode (str_bytes (jwt_alg mint))
    (claims_text mint sub id (ngx_encode_base64url jti) now) (str_bytes (jwt_secret mint)) = Some jwt ->
  presents r (str_bytes (cookie_name mint)) (cookie_text mint ss jwt) ->
  exists payload, entitled r gate payload (now + jwt_ttl mint) /\
    ctx_of payload (now + jwt_ttl mint) = session_ctx user id (now + jwt_ttl mint).
Proof.
  intros Hsp Hk Hrp Hid Hsub Hnow Httl Henc (cookies & Hck & Hparse).
  rewrite cookie_value_of in Hparse by by eapply jwt_no_semicolon.
  destruct (session_members_ok (str_bytes (rp_id mint)) sub user id (ngx_encode_base64url jti)
              now (now + jwt_ttl mint)) as [Hok Hnd];
    [done|done|done|apply b64_unescaped|lia|lia|].
  rewrite claims_object, exp_exact in Henc by done.
  destruct (jwt_roundtrip _ _ _ _ Hnd Hok Henc) as (token & payload & Hd & Hp & Hv & Hstr & Hint).
  destruct (jwks_match gate) as (jwks & Hj & Hs); [by eapply same_key|].
  exists payload. split; [split|].
  - exists cookies, jwt, token, jwks. rewrite (sp_cookie _ _ Hsp). split_and!; try done.
    apply Hv. by rewrite <- (sp_alg _ _ Hsp), <- (sp_secret _ _ Hsp).
  - eapply Hstr; [right; left; reflexivity|]. rewrite (sp_rp _ _ Hsp). by apply unescaped_spells.
  - eapply Hstr; [left; reflexivity|]. apply unescaped_spells. by repeat constructor.
  - apply Hint; [do 5 right; by left|]. unfold INT64_MAX. lia.
  - unfold ctx_of, session_ctx. f_equal.
    + eapply Hstr; [do 2 right; by left|done].
    + eapply Hstr; [do 3 right; by left|by apply unescaped_spells].
Qed.

(** The gate, on a request that carries it. *)
Lemma gate_on_session `{!NginxBase64Laws} r gate payload user id exp :
  gate_sizes r gate -> auth gate = true -> str_bytes (jwt_secret gate) <> [] ->
  jwks_of gate <> NULL -> entitled r gate payload exp ->
  ctx_of payload exp = session_ctx user id exp ->
  wp (ngx_http_auth_webauthn_access_handler r gate)
     (session_post r gate user id exp) ([] : trace).
Proof.
  intros Hs Ha Hsec Hj He Hctx. eapply wp_mono; [|by apply access_handler_spec].
  unfold gate_post. rewrite Ha. intros [rc ctx] h [[_ _ Hrc]|(p & e & t & He' & Hin & Hlt & _ & Hrc)];
    cbn [fst snd] in *.
  - right. destruct Hrc as [[-> Hno]|[-> [Hf|[Hz|Hn]]]]; [left|right; by auto|..].
    + split; [done|]. by apply (Hno payload).
    + by apply str_len_0 in Hz.
    + done.
  - pose proof (entitled_inj _ _ _ _ _ _ He He') as <-.
    assert (e = exp) as ->.
    { pose proof (en_exp _ _ _ _ He). pose proof (en_exp _ _ _ _ He'). congruence. }
    rewrite Hctx in Hrc. destruct Hrc as [(-> & -> & _)|[-> Hwhy]]; [left|by right; right].
    split; [done|]. by exists t.
Qed.

(** The session cookie of a run is one that [mint_session] wrote. *)
Lemma cookie_minted r wlcf (h : trace) v :
  verify_outcome r wlcf h -> Ev (headers_out_push (bs "Set-Cookie") v) true ∈ h ->
  exists body id cred now ss jti jwt, body_of r = Some body /\ authenticated wlcf body id cred now h /\
    nxe_jwx_encode (str_bytes (jwt_alg wlcf))
      (claims_text wlcf (escape (str_bytes (cr_user_id cred))) id (ngx_encode_base64url jti) now)
      (str_bytes (jwt_secret wlcf)) = Some jwt /\
    v = cookie_text wlcf ss jwt.
Proof.
  intros (k & rc & -> & Hk) [Hin|Hin]%elem_of_app; [|by apply list_elem_of_singleton in Hin].
  assert (forall (P : eff -> Prop) l, Forall (fun ev => P (ev_eff ev)) l ->
    Ev (headers_out_push (bs "Set-Cookie") v) true ∈ l -> P (headers_out_push (bs "Set-Cookie") v)) as HF.
  { intros P l Hl Hi. by rewrite list.Forall_forall in Hl; apply Hl in Hi. }
  destruct Hk as [Hk|[[Hk _]|(k1 & k2 & body & id & cred & now & -> & Hb & Hq & Hau & Hg)]].
  - by destruct (HF _ _ Hk Hin).
  - by destruct (HF _ _ Hk Hin).
  - apply elem_of_app in Hin as [Hin|Hin]; [by destruct (HF _ _ Hq Hin)|].
    destruct (HF _ _ Hg Hin) as (_ & ss & jti & jwt & _ & He & ->).
    exists body, id, cred, now, ss, jti, jwt. split_and!; [done| |done|done].
    by do 2 apply authenticated_app.
Qed.

(** C4: a session, once granted, opens the gate until it expires.  Take any
    run of the verify endpoint that sets a session cookie, and any later
    request, at a gate of the same relying party with the same key settings,
    that returns the cookie's value: unless an allocation or a configured
    header value fails there, the gate answers NGX_OK exactly while the clock
    is below sign-in time plus jwt_ttl, with the user id the record of the
    verified credential holds (whatever bytes it has), the credential id that
    signed in and that expiry in the context, and 401 or the redirection from
    then on. *)
Theorem minted_session_admitted `{!OpenSSLLaws, !NginxBase64Laws, !NxeJsonLaws} r mint gate :
  verify_sizes r mint -> same_party mint gate -> key_matches mint ->
  unescaped (str_bytes (rp_id mint)) ->
  wp (ngx_http_auth_webauthn_verify_done r mint)
     (fun _ h => forall v, Ev (headers_out_push (bs "Set-Cookie") v) true ∈ h ->
        exists body id cred now, body_of r = Some body /\
          authenticated mint body id cred now h /\
          (unescaped id -> forall r', gate_sizes r' gate ->
             presents r' (str_bytes (cookie_name mint)) v ->
             wp (ngx_http_auth_webauthn_access_handler r' gate)
                (session_post r' gate (str_bytes (cr_user_id cred)) id (now + jwt_ttl mint))
                ([] : trace)))
     ([] : trace).
Proof.
  intros Hs Hsp Hk Hrp. eapply wp_mono; [|by apply verify_done_spec].
  intros [] h Hout v Hv.
  destruct (cookie_minted _ _ _ _ Hout Hv)
    as (body & id & cred & now & ss & jti & jwt & Hb & Hau & Henc & ->).
  exists body, id, cred, now. split_and!; [done|done|]. intros Hid r' Hg Hpr.
  destruct (minted_entitled mint gate r' (escape (str_bytes (cr_user_id cred)))
              (str_bytes (cr_user_id cred)) id jti now jwt ss) as (payload & He & Hctx);
    try done; [apply escape_spells|apply Hau|apply Hs|].
  assert (key_matches gate) as Hk' by by eapply same_key.
  destruct (jwks_match gate Hk') as (jwks & Hj & _).
  eapply gate_on_session; [done|apply Hsp|by destruct Hk'|by rewrite Hj|done|done].
Qed.
End session.

(** ** A token library that satisfies the laws

    Claims and key in base64url, around a dot: nothing secret about it, but
    every law holds of it. *)

Module SessionSamples.
Import Samples.

Definition claim := (bytes + Z)%type.

Definition parse_claim (s : bytes) : option (claim * bytes) :=
  match strip [quote] s with
  | Some r => '(t, r) ← lex_string r; Some (inl t, r)
  | None => let '(d, r) := digits_of s in Some (inr (dec_val d), r)
  end.

Fixpoint parse_members (fuel : nat) (s : bytes) : option (list (bytes * claim)) :=
  match fuel with
  | O => None
  | S f =>
      r ← strip [quote] s;
      '(k, r) ← lex_string r;
      r ← strip [Byte.x3a] r;
      '(v, r) ← parse_claim r;
      match strip (bs ",") r with
      | Some r => rest ← parse_members f r; Some ((k, v) :: rest)
      | None => if bool_decide (r = bs "}") then Some [(k, v)] else None
      end
  end.

Definition parse_object (s : bytes) : option (list (bytes * claim)) :=
  r ← strip (bs "{") s; if bool_decide (r = bs "}") then Some [] else parse_members (length r) r.

Fixpoint claim_of (k : bytes) (m : list (bytes * claim)) : option claim :=
  match m with
  | [] => None
  | (k', v) :: t => if bool_decide (k = k') then Some v else claim_of k t
  end.

#[export] Instance session_jwx : NxeJwx := {|
  nxe_jwx_token_t := bytes * bytes;
  nxe_jwx_jwks_t := bytes;
  nxe_jwx_payload_t := list (bytes * claim);
  nxe_jwx_encode _ claims key :=
    Some (Shim.ngx_encode_base64url claims ++ Byte.x2e :: Shim.ngx_encode_base64url key);
  nxe_jwx_decode := split_dot;
  nxe_jwx_jwks_parse doc :=
    r ← strip (js "{'keys':[{'kty':'oct','k':'") doc; fst <$> until_quote r;
  nxe_jwx_jwks_parse_keyval doc :=
    r ← strip (js "{'webauthn':'") doc; '(pem, _) ← lex_string r;
    Some (Shim.ngx_encode_base64url pem);
  nxe_jwx_jws_verify token key := bool_decide (snd token = key);
  nxe_jwx_token_payload token := Shim.ngx_decode_base64url (fst token) ≫= parse_object;
  nxe_jwx_claims_get_string m k := match claim_of k m with Some (inl s) => Some s | _ => None end;
  nxe_jwx_claims_get_integer m k := match claim_of k m with Some (inr z) => Some z | _ => None end;
|}.

#[export] Instance session_pem : OpenSSLPem := {|
  PEM_read_bio_PrivateKey b := Some (EVP_PKEY_EC, b);
  PEM_write_bio_PUBKEY k := Some (snd k);
|}.

(** *** The alphabet of base64url *)

Definition b64_char (c : byte) : bool :=
  unescaped_byte c && negb (b2z c =? 46) && negb (b2z c =? 59).

Lemma basis_char i : 0 <= i < 64 -> b64_char (Shim.basis_at i) = true.
Proof.
  intros Hi. assert (forallb (fun n => b64_char (Shim.basis_at (Z.of_nat n))) (seq 0 64) = true)
    as Hall by reflexivity.
  rewrite forallb_forall in Hall. specialize (Hall (Z.to_nat i)). rewrite Z2Nat.id in Hall by lia.
  apply Hall, in_seq. lia.
Qed.

Lemma b64_chars s : Forall (fun c => b64_char c = true) (Shim.ngx_encode_base64url s).
Proof.
  induction s as [|b0|b0 b1|b0 b1 b2 s IH] using Shim.list_ind3; cbn [Shim.ngx_encode_base64url].
  - constructor.
  - destruct (Shim.sextets b0 b0 b0) as (E1 & _ & _ & _ & E5 & _). rewrite E1, E5.
    pose proof (b2z_range b0). repeat (constructor; [apply basis_char; div_lia|]). constructor.
  - destruct (Shim.sextets b0 b1 b0) as (E1 & E2 & _ & _ & _ & E6). rewrite E1, E2, E6.
    pose proof (b2z_range b0). pose proof (b2z_range b1).
    repeat (constructor; [apply basis_char; div_lia|]). constructor.
  - destruct (Shim.sextets b0 b1 b2) as (E1 & E2 & E3 & E4 & _). rewrite E1, E2, E3, E4.
    pose proof (b2z_range b0). pose proof (b2z_range b1). pose proof (b2z_range b2).
    repeat (constructor; [apply basis_char; div_lia|]). done.
Qed.

Lemma b64_unescaped_shim s : unescaped (Shim.ngx_encode_base64url s).
Proof.
  eapply Forall_impl; [|apply b64_chars]. intros c Hc. unfold b64_char in Hc.
  by rewrite !andb_true_iff in Hc; destruct Hc as [[? _] _].
Qed.

Lemma b64_without (c : byte) s : b64_char c = false -> c ∉ Shim.ngx_encode_base64url s.
Proof.
  intros Hc Hin. pose proof (b64_chars s) as Hs. rewrite list.Forall_forall in Hs.
  apply Hs in Hin. congruence.
Qed.

Lemma split_dot_none s : Byte.x2e ∉ s -> split_dot s = None.
Proof.
  induction s as [|c s IH]; intros Hs; cbn [split_dot]; [done|].
  rewrite IH by set_solver. destruct (Z.eqb_spec (b2z c) 46) as [E|]; [|done].
  assert (c = Byte.x2e) as -> by by apply b2z_inj. set_solver.
Qed.

Lemma split_dot_app a b : Byte.x2e ∉ b -> split_dot (a ++ Byte.x2e :: b) = Some (a, b).
Proof.
  intros Hb. induction a as [|c a IH]; cbn [app split_dot]; [|by rewrite IH].
  by rewrite (split_dot_none b Hb).
Qed.

Lemma until_quote_unescaped s rest : unescaped s -> until_quote (s ++ quote :: rest) = Some (s, rest).
Proof.
  intros Hs. induction Hs as [|c s Hc Hs IH]; [done|]. cbn [app until_quote].
  unfold unescaped_byte in Hc. rewrite !andb_true_iff, !negb_true_iff in Hc.
  destruct Hc as [[_ ->] _]. by rewrite IH.
Qed.

Lemma strip_app p s : strip p (p ++ s) = Some s.
Proof. unfold strip. by rewrite take_app_length, bool_decide_true, drop_app_length. Qed.

Lemma strip_cons c s : strip [c] (c :: s) = Some s.
Proof. apply (strip_app [c]). Qed.

(** *** The parser reads back what the templates write *)

Lemma digits_of_app d rest :
  Forall (fun c => is_digit c = true) d -> (forall c t, rest = c :: t -> is_digit c = false) ->
  digits_of (d ++ rest) = (d, rest).
Proof.
  intros Hd Hr. induction Hd as [|c d Hc Hd IH]; cbn [app digits_of].
  - destruct rest as [|c t]; cbn [digits_of]; [done|]. by rewrite (Hr c t).
  - by rewrite Hc, IH.
Qed.

(** The claim that a member's value denotes. *)
Definition denotes (v : member) (c : claim) : Prop :=
  match v, c with
  | M_string text, inl s => spells text s
  | M_int z, inr z' => z = z'
  | _, _ => False
  end.

Lemma value_denotes v tail :
  (match v with M_string text => exists s, spells text s | M_int z => 0 <= z end) ->
  (forall c t, tail = c :: t -> is_digit c = false) ->
  exists c, denotes v c /\ parse_claim (value_text v tail) = Some (c, tail).
Proof.
  intros Hv Ht. unfold parse_claim. destruct v as [text|z]; cbn [value_text].
  - destruct Hv as [s Hs]. exists (inl s). split; [done|].
    by rewrite strip_cons, Hs.
  - exists (inr z). split; [done|]. destruct (dec_nonneg_spec z Hv) as (Hval & Hd & Hne).
    unfold dec. destruct (Z.ltb_spec z 0); [lia|]. rewrite digits_of_app by done.
    destruct (dec_nonneg z) as [|c d]; [done|]. inversion Hd as [|? ? Hc _]; subst.
    unfold strip. cbn [length app take]. rewrite bool_decide_false.
    + done.
    + intros [= ->]. by vm_compute in Hc.
Qed.

Lemma parse_members_text fuel ms :
  ms <> [] -> Forall member_ok ms -> (length ms <= fuel)%nat ->
  exists cs, parse_members fuel (members_text ms) = Some cs /\
    Forall2 (fun m c => c.1 = m.1 /\ denotes m.2 c.2) ms cs.
Proof.
  revert ms. induction fuel as [|f IH]; intros [|[k v] ms] Hne Hok Hl; simpl in Hl; [done|lia|done|].
  apply Forall_cons_1 in Hok as [[Hk Hv] Hok]. cbn [fst snd] in Hk, Hv. cbn [members_text parse_members].
  set (tail := match ms with [] => bs "}" | _ :: _ => Byte.x2c :: members_text ms end).
  destruct (value_denotes v tail Hv) as (c & Hc & Hval).
  { intros x t. unfold tail. destruct ms; by intros [= <- <-]. }
  rewrite strip_cons. cbn [mbind option_bind].
  rewrite (unescaped_spells k Hk). cbn [mbind option_bind]. rewrite strip_cons. cbn [mbind option_bind].
  rewrite Hval. cbn [mbind option_bind]. unfold tail. destruct ms as [|m ms].
  - exists [(k, c)]. split; [done|]. by repeat constructor.
  - change (bs ",") with [Byte.x2c]. rewrite strip_cons. cbn [mbind option_bind].
    destruct (IH (m :: ms)) as (cs & -> & HF); [done|done|simpl in *; lia|]. exists ((k, c) :: cs). split; [done|].
    by constructor.
Qed.

Lemma members_text_long ms : (length ms <= length (members_text ms))%nat.
Proof.
  induction ms as [|[k v] ms IH]; cbn [members_text length]; [lia|].
  assert (forall tail, (length tail <= length (value_text v tail))%nat) as Hv.
  { intros tail. destruct v; cbn [value_text length]; rewrite ?length_app; cbn [length]; lia. }
  rewrite length_app. cbn [length].
  specialize (Hv (match ms with [] => bs "}" | _ :: _ => Byte.x2c :: members_text ms end)).
  destruct ms; cbn [length] in *; lia.
Qed.

Lemma parse_object_text ms : Forall member_ok ms ->
  exists cs, parse_object (object_text ms) = Some cs /\
    Forall2 (fun m c => c.1 = m.1 /\ denotes m.2 c.2) ms cs.
Proof.
  intros Hok. unfold parse_object, object_text.
  change (bs "{") with [Byte.x7b]. rewrite strip_cons. cbn [mbind option_bind]. destruct ms as [|m ms].
  - by exists [].
  - rewrite bool_decide_false by by destruct m.
    apply parse_members_text; [done|done|apply members_text_long].
Qed.

Lemma claim_of_member ms cs k v :
  Forall2 (fun m c => c.1 = m.1 /\ denotes m.2 c.2) ms cs -> NoDup ms.*1 -> (k, v) ∈ ms ->
  exists c, claim_of k cs = Some c /\ denotes v c.
Proof.
  intros HF. induction HF as [|[k' v'] [k'' c] ms cs [E Hd] HF IH]; cbn [fst snd fmap list_fmap] in *.
  { by intros _ Hin%elem_of_nil. }
  subst k''. intros [Hnot Hnd]%list.NoDup_cons Hin. cbn [claim_of].
  apply elem_of_cons in Hin as [[= -> ->]|Hin].
  - rewrite bool_decide_true by done. by exists c.
  - rewrite bool_decide_false; [by apply IH|]. intros ->. destruct Hnot.
    apply list_elem_of_fmap. by exists (k', v).
Qed.

#[export] Instance session_laws : NxeJwxLaws (H := base64_lib) (H0 := session_jwx).
Proof.
  unshelve econstructor; [exact (fun _ key jwks => jwks = Shim.ngx_encode_base64url key)|..]; cbn.
  - intros key. eexists. split; [|reflexivity]. unfold hmac_doc. rewrite strip_app. cbn [mbind option_bind].
    change (js "','alg':'") with (quote :: drop 1 (js "','alg':'")). cbn [app].
    by rewrite until_quote_unescaped by apply b64_unescaped_shim.
  - intros alg priv key pem _ [= <-] [= <-]. eexists. split; [|reflexivity].
    unfold keyval_doc. rewrite strip_app. cbn [mbind option_bind snd].
    change (js "'}") with (quote :: bs "}"). by rewrite lex_escape.
  - intros alg key ms jwt Hnd Hok [= <-].
    destruct (parse_object_text ms Hok) as (cs & Hp & HF).
    eexists _, cs. split_and!; [apply split_dot_app, b64_without; reflexivity| | | |]; cbn [fst snd].
    + change (Shim.ngx_decode_base64url (Shim.ngx_encode_base64url (object_text ms)) ≫= parse_object
              = Some cs).
      by rewrite Shim.decode_encode.
    + intros jwks ->. by rewrite bool_decide_true.
    + intros k text v Hin Hs. destruct (claim_of_member _ _ _ _ HF Hnd Hin) as ([s|z] & -> & Hd); [|done].
      specialize (Hd []). specialize (Hs []). congruence.
    + intros k z Hin _. by destruct (claim_of_member _ _ _ _ HF Hnd Hin) as ([s|z'] & -> & Hd); [|rewrite Hd].
  - apply b64_unescaped_shim.
  - intros alg claims key jwt [= <-] Hin. apply elem_of_app in Hin as [Hin|Hin].
    + by apply b64_without in Hin.
    + apply elem_of_cons in Hin as [E|Hin]; [by vm_compute in E|by apply b64_without in Hin].
Qed.
End SessionSamples.

Import Samples MiniRedis HttpSamples SessionSamples.

(** The session cookie of the sample sign-in, and a request that returns it. *)
Definition set_cookie (h : trace) : option bytes :=
  head (omap (fun ev => match ev_eff ev with
                        | headers_out_push _ v => Some v
                        | _ => None
                        end) h).
Definition signin_request : ngx_http_request_t := post_request (posted (bs "Y3JlZA")).
Definition signin_cookie : option bytes :=
  '(_, h) ← mini_trace (ngx_http_auth_webauthn_verify_done signin_request HttpSamples.conf) signin_db;
  set_cookie h.
Definition revisit (v : bytes) : ngx_http_request_t := {|
  r_method_post := false; r_header_only := false; r_addr_text := Some (bs "10.0.0.1");
  r_args := []; r_body := None;
  r_cookie := (fun c => [bs "webauthn_session=" ++ c]) <$> cookie_value (bs "webauthn_session") v |}.

Lemma signin_sizes : verify_sizes signin_request HttpSamples.conf.
Proof.
  split; try reflexivity; try (cbn; lia).
  - intros bufs [= <-]. vm_compute. done.
  - intros claims jwt Hc [= <-]. rewrite zlen_app, zlen_cons.
    pose proof (encode_fits claims) as Hcl. change (ngx_encode_base64url claims)
      with (Shim.ngx_encode_base64url claims) in Hcl.
    match goal with |- context [1 + zlen ?l] => change (zlen l) with 43 end.
    pose proof (zlen_nonneg claims). unfold ngx_base64_encoded_length in Hcl. div_lia.
Qed.

Lemma conf_party : same_party HttpSamples.conf HttpSamples.conf.
Proof. by split. Qed.

Lemma conf_key : key_matches HttpSamples.conf.
Proof. by apply KM_hmac. Qed.

(** Signed in at 1700000000 for an hour, and let through with that session. *)
Lemma minted_session_admitted_witness :
  (v ← signin_cookie; ok_run (ngx_http_auth_webauthn_access_handler (revisit v) HttpSamples.conf)) =
    Some (0, Some (session_ctx (bs "alice") (bs "Y3JlZA") 1700003600)) /\
  wp (ngx_http_auth_webauthn_verify_done signin_request HttpSamples.conf)
     (fun _ h => forall v, Ev (headers_out_push (bs "Set-Cookie") v) true ∈ h ->
        exists body id cred now, body_of signin_request = Some body /\
          authenticated HttpSamples.conf body id cred now h /\
          (unescaped id -> forall r', gate_sizes r' HttpSamples.conf ->
             presents r' (str_bytes (cookie_name HttpSamples.conf)) v ->
             wp (ngx_http_auth_webauthn_access_handler r' HttpSamples.conf)
                (session_post r' HttpSamples.conf (str_bytes (cr_user_id cred)) id
                   (now + jwt_ttl HttpSamples.conf)) ([] : trace)))
     ([] : trace).
Proof.
  split; [vm_compute; reflexivity|].
  apply (minted_session_admitted signin_request HttpSamples.conf HttpSamples.conf);
    [apply signin_sizes|apply conf_party|apply conf_key|by repeat constructor].
Defined.
