(* ===== verification/Vocabulary.v ===== *)
(** * The Redis vocabulary of the program

    Every command the module and the command-line tool send, by shape and
    key, and what each can do to a stored challenge: only SET creates one, and
    GETDEL hands one out at most once. *)

From S2P Require Import Prelude Effects Externals Base64 AuthData Hash ClientData Assertion.
From S2P Require Import Redis RedisCalls RedisSpec RedisOps Challenge Credential Conf Http.
From S2P Require Import ChallengeHandler VerifyHandler Gate.
#[global] Open Scope Z_scope.

Inductive store_command (prefix : bytes) : list bytes -> Prop :=
  | sc_auth p : store_command prefix [bs "AUTH"; p]
  | sc_select n : store_command prefix [bs "SELECT"; n]
  | sc_set c t : 0 < t ->
      store_command prefix [bs "SET"; challenge_key_of prefix c; bs "1"; bs "EX"; dec t]
  | sc_getdel c : store_command prefix [bs "GETDEL"; challenge_key_of prefix c]
  | sc_count ip t : 0 < t ->
      store_command prefix
        [bs "EVAL"; incr_expire_script; bs "1"; rate_key_of prefix ip; dec t]
  | sc_smembers k : store_command prefix [bs "SMEMBERS"; k]
  | sc_hgetall k : store_command prefix [bs "HGETALL"; k]
  | sc_hset id args : store_command prefix (bs "HSET" :: record_key_of prefix id :: args)
  | sc_del id : store_command prefix [bs "DEL"; record_key_of prefix id]
  | sc_sadd uid m : store_command prefix [bs "SADD"; index_key_of prefix uid; m]
  | sc_srem uid m : store_command prefix [bs "SREM"; index_key_of prefix uid; m].

(** Calls outside Redis, and commands of the vocabulary. *)
Definition store_call (prefix : bytes) (e : eff) : Prop :=
  match e with redisCommandArgv argv => store_command prefix argv | _ => True end.

#[export] Instance store_background prefix : Background (store_call prefix).
Proof. by intros []. Qed.

(** The vocabulary without SET: everything but the issue of a challenge. *)
Definition no_issue (prefix : bytes) (e : eff) : Prop :=
  store_call prefix e /\
  match e with redisCommandArgv argv => head argv <> Some (bs "SET") | _ => True end.

#[export] Instance no_issue_background prefix : Background (no_issue prefix).
Proof. by intros []. Qed.

#[export] Hint Constructors store_command : calls.

Ltac vocabulary := split; [cbn; auto with calls|done].

(** Calls that are no Redis command. *)
Definition local_call (e : eff) : Prop :=
  match e with redisCommandArgv _ => False | _ => True end.

#[export] Instance local_background : Background local_call.
Proof. by intros []. Qed.

(** A set of calls that has everything a handler needs but SET. *)
Class Allows (prefix : bytes) (P : eff -> Prop) : Prop := {
  allows_local : forall e, local_call e -> P e;
  allows_auth : forall p, P (redisCommandArgv [bs "AUTH"; p]);
  allows_select : forall n, P (redisCommandArgv [bs "SELECT"; n]);
  allows_getdel : forall c, P (redisCommandArgv [bs "GETDEL"; challenge_key_of prefix c]);
  allows_count : forall ip t, 0 < t ->
    P (redisCommandArgv [bs "EVAL"; incr_expire_script; bs "1"; rate_key_of prefix ip; dec t]);
  allows_smembers : forall k, P (redisCommandArgv [bs "SMEMBERS"; k]);
  allows_hgetall : forall k, P (redisCommandArgv [bs "HGETALL"; k]);
  allows_counter : forall id count last, P (redisCommandArgv
    (bs "HSET" :: record_key_of prefix id :: hset_args (counter_pairs count last)));
}.

Lemma allows_background prefix P `{!Allows prefix P} : Background P.
Proof. intros e He. apply (allows_local (prefix := prefix)). by destruct e. Qed.

#[export] Instance store_allows prefix : Allows prefix (store_call prefix).
Proof. split; [by intros []|intros; cbn; auto with calls..]. Qed.

#[export] Instance no_issue_allows prefix : Allows prefix (no_issue prefix).
Proof. split; [by intros []|intros; vocabulary..]. Qed.

(** ** The handlers stay inside it *)

Section handlers.
Context `{JSON : NxeJson, B64 : NginxBase64, SSL : OpenSSL, JWX : NxeJwx, HTTP : NginxHttp}.
Context (wlcf : ngx_http_auth_webauthn_loc_conf_t).
Abbreviation prefix := (str_bytes (redis_key_prefix wlcf)).
Context (P : eff -> Prop) `{ALLOWS : !Allows prefix P}.
#[local] Instance P_background : Background P := allows_background prefix P.

Lemma local_allowed {A} (p : prog A) : all_calls local_call p -> all_calls P p.
Proof. apply all_calls_mono, allows_local. Qed.

Lemma connect_allowed conf out :
  all_calls P (ngx_auth_webauthn_redis_connect (Some tt) conf out).
Proof. apply connect_calls; [apply _|apply allows_auth|apply allows_select]. Qed.

Lemma rate_limit_allowed r redis :
  0 < rate_limit_window wlcf < 2 ^ 64 ->
  all_calls P (ngx_http_auth_webauthn_rate_limit r redis wlcf).
Proof.
  intros Hw. apply rate_limit_calls; [apply _|]. intros ip n Hn.
  assert (uint64 (rate_limit_window wlcf) = rate_limit_window wlcf) as E by (apply Z.mod_small; lia).
  rewrite E, redis_numbuf_dec in Hn by lia. injection Hn as <-.
  apply allows_count. lia.
Qed.

Lemma b64url_local src : all_calls local_call (ngx_http_auth_webauthn_b64url src).
Proof. unfold ngx_http_auth_webauthn_b64url. calls. Qed.

Lemma send_json_local r status body :
  all_calls local_call (ngx_http_auth_webauthn_send_json r status body).
Proof. by apply send_json_calls; [apply _|..]. Qed.

Lemma challenge_creds_allowed r redis :
  all_calls P (challenge_creds r redis wlcf).
Proof.
  assert (all_calls P (ngx_auth_webauthn_redis_close redis ;;
            Ret (inr (list ngx_str_t) NGX_HTTP_INTERNAL_SERVER_ERROR))) as Hf
    by (apply all_calls_bind; [apply close_calls, _|done]).
  unfold challenge_creds. destruct (ngx_http_arg r _) as [[|x uid]|]; try done.
  apply all_calls_fill; [apply _|done|]. apply all_calls_fill; [apply _|done|].
  apply all_calls_bind; [apply smembers_calls; [apply _|]; intros; apply allows_smembers|].
  by intros [[] creds]; cbn [is_ok negb].
Qed.

Lemma challenge_respond_allowed r redis c :
  all_calls P (challenge_respond r redis wlcf c).
Proof.
  unfold challenge_respond. apply all_calls_bind; [apply challenge_creds_allowed|].
  intros [creds|status]; [|done]. apply all_calls_bind; [apply close_calls, _|]. intros _.
  apply local_allowed.
  apply all_calls_bind; [apply b64url_local|]. intros [rc b64]. destruct (negb _); [done|].
  apply all_calls_bind; [apply all_calls_deref|]. intros uv.
  apply all_calls_fill; [apply _|done|apply send_json_local].
Qed.

Lemma reject_local r : all_calls local_call (reject r).
Proof. apply all_calls_bind; [apply send_json_local|done]. Qed.

Lemma reject_redis_local r redis : all_calls local_call (reject_redis r redis).
Proof.
  apply all_calls_bind; [|intros _; apply reject_local].
  destruct (nullp redis); [done|apply close_calls, _].
Qed.

Lemma json_escape_local src : all_calls local_call (ngx_http_auth_webauthn_json_escape src).
Proof. unfold ngx_http_auth_webauthn_json_escape. calls. Qed.

Lemma mint_session_local r cred id now : all_calls local_call (mint_session r wlcf cred id now).
Proof.
  unfold mint_session. apply all_calls_bind; [done|]. intros [jti|]; [|done].
  apply all_calls_bind; [apply b64url_local|]. intros [rc b64]. destruct (negb _); [done|].
  apply all_calls_bind; [apply json_escape_local|]. intros [sub|]; [|done].
  apply all_calls_fill; [apply _|done|]. destruct (nxe_jwx_encode _ _ _); [|done].
  apply all_calls_bind; [apply all_calls_deref|]. intros ss.
  apply all_calls_fill; [apply _|done|]. apply all_calls_bind; [done|]. intros ok.
  destruct (negb _); [done|]. apply all_calls_fill; [apply _|done|].
  apply all_calls_bind; [apply send_json_local|done].
Qed.

Lemma verify_redis_allowed redis os id a c :
  all_calls P (verify_redis redis wlcf os id a c).
Proof.
  unfold verify_redis. apply all_calls_bind; [apply consume_calls; [apply _|]; intros; apply allows_getdel|].
  intros rc. destruct (negb _); [done|].
  apply all_calls_bind; [apply get_calls; [apply _|]; intros; apply allows_hgetall|]. intros [rc' cred].
  destruct (negb _); [done|]. apply all_calls_bind; [apply all_calls_deref|]. intros cr.
  apply all_calls_bind; [by apply assertion_verify_calls, _|]. intros [rc'' res].
  destruct (negb _); [done|]. apply all_calls_bind; [apply all_calls_deref|]. intros x.
  apply all_calls_bind; [calls_step|]. intros now.
  apply all_calls_bind; [apply update_calls; [apply _|]; intros; apply allows_counter|]. intros rc3.
  apply all_calls_bind; [|done]. destruct (negb _); [calls_step|done].
Qed.

Lemma read_body_local r : all_calls local_call (ngx_http_auth_webauthn_read_body r).
Proof. unfold ngx_http_auth_webauthn_read_body. calls. Qed.

Lemma verify_request_local body : all_calls local_call (verify_request body).
Proof.
  assert (forall obj name, all_calls local_call (ngx_http_auth_webauthn_b64url_field obj name)) as Hf
    by (intros; unfold ngx_http_auth_webauthn_b64url_field; calls).
  unfold verify_request. repeat calls_step; apply Hf.
Qed.

Lemma verify_done_allowed r :
  all_calls P (ngx_http_auth_webauthn_verify_done r wlcf).
Proof.
  unfold ngx_http_auth_webauthn_verify_done. destruct (origins wlcf) as [os|]; [|by apply local_allowed].
  destruct (_ || _); [by apply local_allowed|].
  apply all_calls_bind; [apply local_allowed, read_body_local|].
  intros [rc body]. destruct (negb _); [apply local_allowed, reject_local|].
  apply all_calls_bind; [apply local_allowed, verify_request_local|].
  intros [[[id a] c]|]; [|apply local_allowed, reject_local].
  apply all_calls_bind; [apply connect_allowed|]. intros [rc' redis].
  destruct (negb _); [by apply local_allowed|]. apply all_calls_bind; [apply verify_redis_allowed|].
  intros [[cred now]|]; [|apply local_allowed, reject_redis_local].
  apply all_calls_bind; [apply close_calls, _|]. intros _. apply local_allowed, mint_session_local.
Qed.

End handlers.

(** ** What a command does to one challenge *)

Lemma challenge_rate prefix c ip : challenge_key_of prefix c <> rate_key_of prefix ip.
Proof. by intros [=]%app_inv_head. Qed.
Lemma challenge_record prefix c id : challenge_key_of prefix c <> record_key_of prefix id.
Proof. by intros [=]%app_inv_head. Qed.
Lemma challenge_index prefix c uid : challenge_key_of prefix c <> index_key_of prefix uid.
Proof. by intros [=]%app_inv_head. Qed.

Lemma challenge_key_inj prefix c c' :
  challenge_key_of prefix c = challenge_key_of prefix c' -> c = c'.
Proof. by intros ->%app_inv_head%app_inv_head. Qed.

Section credit.
Context {S : Type} `{SRV : RedisServer S, !RedisLaws S}.
Implicit Types (s : S).

(** The challenge is stored. *)
Definition live (k : bytes) (s : S) : nat := if decide (is_Some (kv s !! k)) then 1 else 0.

(** A command that stores it; a command that hands it out. *)
Definition puts (k : bytes) (argv : list bytes) : nat :=
  if bool_decide (take 2 argv = [bs "SET"; k]) then 1 else 0.
Definition gets (k : bytes) (argv : list bytes) (reply : option redisReply) : nat :=
  match reply with
  | Some (RString _) => if bool_decide (argv = [bs "GETDEL"; k]) then 1 else 0
  | _ => 0
  end.

Lemma live_le k s : (live k s <= 1)%nat.
Proof. unfold live. case_decide; lia. Qed.

Lemma live_mono k s s' : (kv s' !! k = kv s !! k \/ kv s' !! k = None) -> (live k s' <= live k s)%nat.
Proof. unfold live. intros [->| ->]; [done|]. repeat case_decide; try lia. by destruct H as []. Qed.

Lemma tick_live k s s' : srv_tick s s' -> (live k s' <= live k s)%nat.
Proof. intros [H _]%tick_law. apply live_mono. destruct (H k) as [|[_ ?]]; auto. Qed.

(** The keyspace at [k] after a command: as before, or gone. *)
Definition spares (k : bytes) (s s' : S) : Prop := kv s' !! k = kv s !! k \/ kv s' !! k = None.

Lemma rejected_spares k s o : rejected s o -> spares k s (snd o).
Proof. intros [_ [E _]]. left. by rewrite E. Qed.

Lemma same_spares k s o r t : replied o r (kv s) t -> spares k s (snd o).
Proof. intros [_ [E _]]. left. by rewrite E. Qed.

Lemma insert_spares k k' v s o r t : k <> k' -> replied o r (<[k' := v]> (kv s)) t -> spares k s (snd o).
Proof. intros Hk [_ [E _]]. left. rewrite E. by apply lookup_insert_ne. Qed.

Lemma delete_spares k k' s o r t : replied o r (delete k' (kv s)) t -> spares k s (snd o).
Proof.
  intros [_ [E _]]. unfold spares. rewrite E. destruct (decide (k' = k)) as [->|].
  - right. apply lookup_delete_eq.
  - left. by apply lookup_delete_ne.
Qed.

Lemma spares_trans k s1 s2 s3 : spares k s1 s2 -> spares k s2 s3 -> spares k s1 s3.
Proof. unfold spares. intros [->| ->] [->| ->]; auto. Qed.

Create HintDb spares discriminated.
#[local] Hint Resolve insert_spares challenge_rate challenge_record challenge_index : spares.
#[local] Hint Resolve rejected_spares same_spares delete_spares : spares.

Lemma count_spares k k' t s : k <> k' -> 0 < t -> spares k s (snd (lua_incr_expire k' (dec t) s)).
Proof.
  intros Hk Ht. unfold lua_incr_expire.
  assert (forall s, spares k s (snd (srv_exec [bs "EXPIRE"; k'; dec t] s))) as HE.
  { intros s1. pose proof (expire_law s1 k' t Ht) as [Hr|He]; [auto with spares|].
    destruct (kv s1 !! k'); eauto with spares. }
  assert (spares k s (snd (srv_exec [bs "INCR"; k'] s))) as HI.
  { pose proof (incr_law s k') as [Hr|(c & _ & Hr)]; [auto with spares|]. by eapply insert_spares. }
  destruct (srv_exec [bs "INCR"; k'] s) as [[] s1]; cbn [snd] in HI; try done.
  assert (forall s1, spares k s1 (snd (match srv_exec [bs "EXPIRE"; k'; dec t] s1 with
     | (RError e, s3) => (RError e, s3) | (_, s3) => (RInteger integer, s3) end))) as HE'.
  { intros s2. specialize (HE s2). by destruct (srv_exec [bs "EXPIRE"; k'; dec t] s2) as [[] s3]. }
  destruct (integer =? 1); [eapply spares_trans; [exact HI|apply HE']|].
  assert (spares k s1 (snd (srv_exec [bs "TTL"; k'] s1))) as HT.
  { pose proof (ttl_cmd_law s1 k') as [Hr|(x & Hr & _)]; eauto with spares. }
  destruct (srv_exec [bs "TTL"; k'] s1) as [[] s2]; cbn [snd] in HT;
    try (by eapply spares_trans; [exact HI|]).
  destruct (_ <? 0); [|by eapply spares_trans; [exact HI|]].
  eapply spares_trans; [exact HI|]. eapply spares_trans; [exact HT|apply HE'].
Qed.

(** A command of the vocabulary spares every key it does not write. *)
Lemma command_spares_key prefix k argv s :
  store_command prefix argv -> puts k argv = 0%nat ->
  (forall ip, k <> rate_key_of prefix ip) -> (forall uid, k <> index_key_of prefix uid) ->
  (forall id args, argv = bs "HSET" :: record_key_of prefix id :: args -> k <> record_key_of prefix id) ->
  spares k s (snd (srv_exec argv s)).
Proof.
  intros Hc Hp Hrate Hindex Hrecord.
  destruct Hc as [p|n|c' t Ht|c'|ip t Ht|k'|k'|id args|id|uid m|uid m].
  - pose proof (auth_law s p) as [E _]. left. by rewrite E.
  - pose proof (select_law s n) as [E _]. left. by rewrite E.
  - assert (k <> challenge_key_of prefix c') as Hne.
    { intros E. unfold puts in Hp. cbn [take] in Hp. by rewrite <- E, bool_decide_true in Hp. }
    pose proof (set_ex_law s (challenge_key_of prefix c') (bs "1") t Ht) as [Hr|Hr];
      [auto with spares|]. by eapply insert_spares; [|exact Hr].
  - pose proof (getdel_law s (challenge_key_of prefix c')) as [Hr|Hr]; [auto with spares|].
    destruct (kv s !! _) as [[]|]; try done; eauto with spares.
  - pose proof (eval_law s (rate_key_of prefix ip) (dec t)) as [Hr|Hr]; [auto with spares|].
    rewrite Hr. by apply count_spares.
  - pose proof (smembers_law s k') as [Hr|(? & ? & _ & _ & Hr)]; eauto with spares.
  - pose proof (hgetall_law s k') as [Hr|(? & ? & _ & _ & Hr)]; eauto with spares.
  - pose proof (hset_law s (record_key_of prefix id) args) as [Hr|(? & ? & _ & Hr)];
      [auto with spares|]. eapply insert_spares; [|exact Hr]. by apply (Hrecord id args).
  - pose proof (del_law s (record_key_of prefix id)) as [Hr|(? & Hr)]; eauto with spares.
  - pose proof (sadd_law s (index_key_of prefix uid) m) as [Hr|(? & ? & _ & Hr)];
      [auto with spares|]. by eapply insert_spares; [|exact Hr].
  - pose proof (srem_law s (index_key_of prefix uid) m) as [Hr|(x & ? & _ & _ & E & _)];
      [auto with spares|]. left. rewrite E. unfold put_set. pose proof (Hindex uid).
    case_decide; [by apply lookup_delete_ne|by apply lookup_insert_ne].
Qed.

(** Every command of the vocabulary, SET of [k] and GETDEL apart, spares it. *)
Lemma command_spares prefix c argv s :
  let k := challenge_key_of prefix c in
  store_command prefix argv -> puts k argv = 0%nat -> spares k s (snd (srv_exec argv s)).
Proof.
  intros k Hc Hp. apply (command_spares_key prefix); [done|done|..]; intros; subst k;
    auto using challenge_rate, challenge_record, challenge_index.
Qed.

Lemma getdel_credit k s r s' :
  srv_exec [bs "GETDEL"; k] s = (r, s') ->
  (live k s' + gets k [bs "GETDEL"; k] (Some r) <= live k s)%nat.
Proof.
  intros E. pose proof (getdel_law s k) as Hl. rewrite E in Hl. cbn zeta in Hl.
  destruct Hl as [[[e He] [Hk _]]|Hl]; cbn [fst snd] in *; [subst r; cbn [gets]|].
  { pose proof (live_mono k s s' (or_introl (f_equal (lookup k) Hk))). lia. }
  destruct (kv s !! k) as [[v| |]|] eqn:Ek; try done; destruct Hl as [Hr [Hk _]];
    cbn [fst snd] in *; subst r; cbn [gets].
  - rewrite bool_decide_true by done. unfold live. rewrite Hk, Ek, lookup_delete_eq.
    rewrite (decide_False (P := is_Some None)) by (by intros []). rewrite decide_True by eauto. lia.
  - pose proof (live_mono k s s' (or_introl (f_equal (lookup k) Hk))). lia.
Qed.

(** The account of one challenge: what is stored and what is handed out is
    paid for by a SET. *)
Lemma command_credit prefix c argv s r s' :
  let k := challenge_key_of prefix c in
  store_command prefix argv -> srv_exec argv s = (r, s') ->
  (live k s' + gets k argv (Some r) <= live k s + puts k argv)%nat.
Proof.
  intros k Hc E. destruct (decide (argv = [bs "GETDEL"; k])) as [->|Hne].
  { apply getdel_credit in E. unfold puts. cbn [take]. rewrite bool_decide_false by done. lia. }
  assert (gets k argv (Some r) = 0%nat) as ->.
  { destruct r; cbn [gets]; try done. by rewrite bool_decide_false. }
  destruct (puts k argv) as [|n] eqn:Hp.
  - pose proof (command_spares prefix c argv s Hc Hp) as Hs. rewrite E in Hs.
    pose proof (live_mono k s s' Hs). lia.
  - pose proof (live_le k s'). lia.
Qed.

(** The same for one call of a client, whether its reply arrives or not. *)
Lemma call_credit prefix c e (a : ans e) s s' :
  let k := challenge_key_of prefix c in
  store_call prefix e -> server_step s e a s' ->
  match e, a with
  | redisCommandArgv argv, a => (live k s' + gets k argv a <= live k s + puts k argv)%nat
  | _, _ => s' = s
  end.
Proof.
  intros k Hc. destruct e; try done. cbn [server_step store_call ans] in *. destruct a as [r|].
  - intros (s1 & Ht & E). pose proof (tick_live k _ _ Ht).
    pose proof (command_credit prefix c argv s1 r s' Hc E) as Hcr. cbn zeta in Hcr; fold k in Hcr. lia.
  - cbn [gets]. intros [Ht|(s1 & Ht & ->)]; pose proof (tick_live k _ _ Ht); [lia|].
    destruct (srv_exec argv s1) as [r s2] eqn:E.
    pose proof (command_credit prefix c argv s1 r s2 Hc E) as Hcr. cbn zeta in Hcr; fold k in Hcr. cbn [snd]. lia.
Qed.
End credit.
