(* ===== verification/System.v ===== *)
(** * Many clients, one server

    Requests and tool runs interleaved call by call over one Redis server
    whose keys may expire at any moment: a transition system whose states are
    the server and the rest of every run.  The invariant keeps an account of
    each challenge, from which no challenge signs in more often than it was
    drawn. *)

From stdpp Require Import relations.
From S2P Require Import Prelude Effects Externals Base64 Samples AuthData Hash ClientData Assertion.
From S2P Require Import Redis RedisCalls RedisSpec RedisOps Challenge Credential Conf Http.
From S2P Require Import ChallengeHandler VerifyHandler VerifySound Gate Vocabulary.
#[global] Open Scope Z_scope.

(** ** Accounts over traces *)

Definition put_of (k : bytes) (ev : event) : nat :=
  match ev with Ev (redisCommandArgv argv) _ => puts k argv | _ => 0 end.
Definition get_of (k : bytes) (ev : event) : nat :=
  match ev with Ev (redisCommandArgv argv) a => gets k argv a | _ => 0 end.
Definition draw_of (c : bytes) (ev : event) : nat :=
  match ev with
  | Ev (RAND_bytes _) (Some b) => if bool_decide (b = c) then 1 else 0
  | _ => 0
  end.

Abbreviation total := (@sum_list_with event).

Lemma total_app f (h k : trace) : total f (h ++ k) = (total f h + total f k)%nat.
Proof. apply sum_list_with_app. Qed.

Lemma total_pos f (h : trace) ev : ev ∈ h -> (f ev <= total f h)%nat.
Proof. induction 1; simpl; lia. Qed.

Lemma total_zero f (h : trace) : Forall (fun ev => f ev = 0%nat) h -> total f h = 0%nat.
Proof. induction 1 as [|ev h Hev Hh IH]; simpl; lia. Qed.

(** Updating one summand; summands at distinct places. *)
Lemma sum_insert {A} (f : A -> nat) l i x y :
  l !! i = Some x -> (sum_list_with f (<[i := y]> l) + f x = sum_list_with f l + f y)%nat.
Proof.
  revert i. induction l as [|z l IH]; intros [|i] Hi; simplify_eq/=; [lia|].
  specialize (IH i Hi). lia.
Qed.

Lemma sum_distinct {A} (f : A -> nat) (l : list A) (idx : list nat) :
  NoDup idx -> (forall i, i ∈ idx -> exists x, l !! i = Some x /\ (1 <= f x)%nat) ->
  (length idx <= sum_list_with f l)%nat.
Proof.
  assert (forall (g : list nat), NoDup idx ->
    (forall i, i ∈ idx -> exists n, g !! i = Some n /\ (1 <= n)%nat) ->
    (length idx <= sum_list_with (fun n : nat => n) g)%nat) as Hg.
  { induction idx as [|i idx IH]; intros g Hnd Hin; [simpl; lia|].
    apply list.NoDup_cons in Hnd as [Hni Hnd]. cbn [length].
    destruct (Hin i ltac:(by left)) as (n & Hn & Hpos).
    pose proof (sum_insert (fun n : nat => n) g i n 0%nat Hn) as Hs. cbn beta in Hs.
    enough (length idx <= sum_list_with (fun n : nat => n) (<[i := 0%nat]> g))%nat by lia.
    apply IH; [done|]. intros j Hj. destruct (Hin j ltac:(by right)) as (m & Hm & ?).
    exists m. split; [|done]. rewrite list_lookup_insert_ne; [done|]. by intros ->. }
  intros Hnd Hin. specialize (Hg (f <$> l) Hnd).
  assert (sum_list_with (fun n : nat => n) (f <$> l) = sum_list_with f l) as E
    by (clear; induction l as [|x l IH]; [done|]; rewrite fmap_cons; cbn; lia).
  rewrite E in Hg. apply Hg. intros i Hi. destruct (Hin i Hi) as (x & Hx & ?).
  exists (f x). by rewrite list_lookup_fmap, Hx.
Qed.

Section system.
Context `{JSON : NxeJson, B64 : NginxBase64, SSL : OpenSSL, JWX : NxeJwx, HTTP : NginxHttp}.
Context {S : Type} `{SRV : RedisServer S}.
Context (wlcf : ngx_http_auth_webauthn_loc_conf_t).
Abbreviation prefix := (str_bytes (redis_key_prefix wlcf)).

(** ** The transition system *)

(** What runs: the three handlers on a request, or another program of the
    repository that shares the keyspace. *)
Inductive handler :=
  | H_challenge (r : ngx_http_request_t)
  | H_verify (r : ngx_http_request_t)
  | H_access (r : ngx_http_request_t)
  | H_tool (p : prog unit).

Definition program (o : handler) : prog unit :=
  match o with
  | H_challenge r => ngx_http_auth_webauthn_challenge_content r wlcf ;; Ret tt
  | H_verify r => ngx_http_auth_webauthn_verify_done r wlcf
  | H_access r => ngx_http_auth_webauthn_access_handler r wlcf ;; Ret tt
  | H_tool p => p
  end.

Record client := Client { origin : handler; todo : prog unit; past : trace }.
Record system := Sys { srv : S; clients : list client }.

(** Sizes the request parser guarantees; a tool issues no challenge. *)
Definition admitted (o : handler) : Prop :=
  match o with
  | H_verify r => verify_sizes r wlcf
  | H_tool p => all_calls (no_issue prefix) p
  | _ => True
  end.

Inductive step : system -> system -> Prop :=
  | step_accept s cl o :
      admitted o -> step (Sys s cl) (Sys s (cl ++ [Client o (program o) []]))
  | step_call s s' cl i o e k h a :
      cl !! i = Some (Client o (Do e k) h) -> ans_ok e a -> server_step s e a s' ->
      step (Sys s cl) (Sys s' (<[i := Client o (k a) (h ++ [Ev e a])]> cl))
  | step_time s s' cl : srv_tick s s' -> step (Sys s cl) (Sys s' cl).

Definition reachable (s : S) : system -> Prop := rtc step (Sys s []).

(** What any set of calls must have for every program to stay inside it. *)
Lemma program_calls P `{ALLOWS : !Allows prefix P} o :
  0 < rate_limit_window wlcf < 2 ^ 64 ->
  (forall ch t, 0 < t ->
     P (redisCommandArgv [bs "SET"; challenge_key_of prefix ch; bs "1"; bs "EX"; dec t])) ->
  (forall p, o = H_tool p -> all_calls P p) -> all_calls P (program o).
Proof.
  intros Hw Hset Htool. pose proof (allows_background prefix P) as HB.
  assert (forall redis (status : Z), all_calls P (ngx_auth_webauthn_redis_close redis ;; Ret status)) as Hclose
    by (intros; apply all_calls_bind; [apply close_calls, _|done]).
  destruct o as [r|r|r|p]; cbn [program]; [| | |by apply Htool].
  - unfold ngx_http_auth_webauthn_challenge_content. apply all_calls_bind; [|done].
    destruct (_ || _); [by apply (local_allowed wlcf P)|].
    apply all_calls_bind; [apply (connect_allowed wlcf), _|]. intros [rc redis].
    destruct (negb _); [done|].
    apply all_calls_bind; [by apply (rate_limit_allowed wlcf P)|]. intros rc'.
    case_bool_decide; [apply Hclose|]. apply all_calls_bind.
    { apply issue_calls; [apply _|]. intros raw Ht. apply Hset. lia. }
    intros [rc'' ch]. destruct (negb _); [apply Hclose|apply (challenge_respond_allowed wlcf P)].
  - apply (verify_done_allowed wlcf P).
  - apply (local_allowed wlcf P), (all_calls_mono neutral); [by intros []|].
    apply all_calls_bind; [apply access_handler_neutral|done].
Qed.

Lemma program_store o :
  0 < rate_limit_window wlcf < 2 ^ 64 -> admitted o -> all_calls (store_call prefix) (program o).
Proof.
  intros Hw Ho. apply (program_calls (store_call prefix)); [done|intros; by constructor|].
  intros p ->. eapply all_calls_mono; [|exact Ho]. by intros e [].
Qed.

(** ** Challenge by challenge *)

Section account.
Context (c : bytes) (live0 : nat).
Abbreviation key := (challenge_key_of prefix c).

(** A client has stored the challenge no more often than it drew it. *)
Definition paid (h : trace) : Prop := (total (put_of key) h <= total (draw_of c) h)%nat.

Lemma no_issue_puts argv : head argv <> Some (bs "SET") -> puts key argv = 0%nat.
Proof.
  intros Hh. unfold puts. rewrite bool_decide_false; [done|].
  destruct argv as [|x [|y l]]; try done. cbn. intros [= -> _]. by apply Hh.
Qed.

Lemma no_issue_zero (k : trace) :
  Forall (fun ev => no_issue prefix (ev_eff ev)) k -> total (put_of key) k = 0%nat.
Proof.
  intros Hk. apply total_zero. eapply Forall_impl; [|exact Hk].
  intros [e a] [_ He]. destruct e; try done. by apply no_issue_puts.
Qed.

Lemma no_issue_paid (h k : trace) :
  paid h -> Forall (fun ev => no_issue prefix (ev_eff ev)) k -> paid (h ++ k).
Proof.
  unfold paid. intros Hh Hk. rewrite !total_app, (no_issue_zero k Hk). lia.
Qed.

Lemma no_issue_always {A} (p : prog A) h :
  paid h -> all_calls (no_issue prefix) p -> always paid p h.
Proof. intros Hh Hp. eapply always_calls; [exact Hp|]. intros k. by apply no_issue_paid. Qed.

Lemma no_issue_bind {A B} (p : prog A) (f : A -> prog B) h :
  paid h -> all_calls (no_issue prefix) p ->
  (forall a k, paid (h ++ k) -> (total (put_of key) (h ++ k) = total (put_of key) h)%nat ->
     always paid (f a) (h ++ k)) ->
  always paid (bind p f) h.
Proof.
  intros Hh Hp Hf. apply (always_bind (no_issue prefix)); [done|intros k; by apply no_issue_paid|].
  intros a k Hk. apply Hf; [by apply no_issue_paid|]. rewrite total_app, (no_issue_zero k Hk). lia.
Qed.

Lemma zero_paid h : total (put_of key) h = 0%nat -> paid h.
Proof. unfold paid. lia. Qed.

(** Drawing the nonce, and then storing it once. *)
Lemma issue_paid redis old h (rest : ngx_rc * ptr bytes -> prog unit) :
  total (put_of key) h = 0%nat -> (forall out, all_calls (no_issue prefix) (rest out)) ->
  always paid (bind (ngx_auth_webauthn_challenge_issue redis (Some tt)
    (Some (redis_key_prefix wlcf)) (challenge_ttl wlcf) (Some old)) rest) h.
Proof.
  intros Hh Hr. unfold ngx_auth_webauthn_challenge_issue.
  destruct (_ || _); [apply no_issue_always; [by apply zero_paid|apply Hr]|].
  cbn [bind call]. split; [by apply zero_paid|]. intros rnd. set (h1 := h ++ _).
  assert (total (put_of key) h1 = 0%nat) as H1 by (unfold h1; rewrite total_app, Hh; done).
  destruct rnd as [ch|]; [|apply no_issue_always; [by apply zero_paid|apply Hr]].
  cbn [deref bind]. unfold ngx_auth_webauthn_challenge_key. do 2 apply always_assoc.
  apply always_fill; [by apply zero_paid|]. intros ok. set (h2 := h1 ++ _).
  assert (total (put_of key) h2 = 0%nat) as H2 by (unfold h2; rewrite total_app, H1; done).
  destruct ok; cbn [bind is_ok negb]; [|apply no_issue_always; [by apply zero_paid|apply Hr]].
  unfold ngx_auth_webauthn_redis_set_ex.
  destruct redis as [[[[]|]]|]; cbn [no_ctx nullp ctx orb];
    [|apply no_issue_always; [by apply zero_paid|apply Hr]..].
  destruct (redis_numbuf _) as [n|]; [|apply no_issue_always; [by apply zero_paid|apply Hr]].
  cbn [deref bind str_bytes]. unfold ngx_auth_webauthn_redis_exec. cbn [deref ctx bind call].
  split; [by apply zero_paid|]. intros reply. apply no_issue_always.
  - unfold paid. rewrite total_app, H2. cbn [sum_list_with put_of]. unfold puts.
    case_bool_decide as E; [|lia]. injection E as E%challenge_key_inj. subst ch.
    rewrite Nat.add_0_r. etrans; [|apply (total_pos _ _ (Ev (RAND_bytes
      (Z.to_nat NGX_AUTH_WEBAUTHN_CHALLENGE_LEN)) (Some c)))].
    + cbn [draw_of]. by rewrite bool_decide_true.
    + unfold h2, h1. set_solver.
  - apply all_calls_bind; [|apply Hr]. apply all_calls_bind; [|by intros []].
    by destruct reply as [[]|]; cbn; repeat split.
Qed.

Lemma challenge_paid r :
  0 < rate_limit_window wlcf < 2 ^ 64 -> always paid (program (H_challenge r)) [].
Proof.
  intros Hw. cbn [program]. unfold ngx_http_auth_webauthn_challenge_content.
  assert (paid []) as H0 by by apply zero_paid.
  destruct (_ || _); [by apply no_issue_always|].
  apply always_assoc, no_issue_bind; [done|apply (connect_allowed wlcf (no_issue prefix))|].
  intros [rc redis] k1 H1 P1. destruct (negb _); [by apply no_issue_always|].
  apply always_assoc, no_issue_bind; [done|apply (rate_limit_allowed wlcf (no_issue prefix)); done|].
  intros rc' k2 H2 P2. case_bool_decide.
  { apply no_issue_always; [done|]. apply all_calls_bind; [|done].
    apply all_calls_bind; [apply close_calls, _|done]. }
  apply always_assoc, issue_paid; [by rewrite P2, P1|]. intros [rc'' ch].
  apply all_calls_bind; [|done]. destruct (negb _).
  - apply all_calls_bind; [apply close_calls, _|done].
  - apply (challenge_respond_allowed wlcf (no_issue prefix)).
Qed.

Lemma program_paid o :
  0 < rate_limit_window wlcf < 2 ^ 64 -> admitted o -> always paid (program o) [].
Proof.
  intros Hw Ho. destruct o as [r|r|r|p]; [by apply challenge_paid|..];
    (apply no_issue_always; [by apply zero_paid|]); cbn [program admitted] in *; [| |done].
  - apply (verify_done_allowed wlcf (no_issue prefix)).
  - apply (all_calls_mono neutral); [by intros []|].
    apply all_calls_bind; [apply access_handler_neutral|done].
Qed.

(** ** The invariant *)

Definition clients_total (f : event -> nat) (cl : list client) : nat :=
  sum_list_with (fun x => total f (past x)) cl.

Context `{!RedisLaws S, !OpenSSLLaws, !NginxBase64Laws, !NxeJsonLaws}.

(** What is left of a client, given its past. *)
Record sound (x : client) : Prop := {
  so_calls : all_calls (store_call prefix) (todo x);
  so_paid : always paid (todo x) (past x);
  so_post : forall r, origin x = H_verify r ->
    wp (todo x) (fun _ => verify_outcome r wlcf) (past x);
}.

Record accounts (y : system) : Prop := {
  ac_sound : Forall sound (clients y);
  ac_balance : (live key (srv y) + clients_total (get_of key) (clients y) <=
                live0 + clients_total (put_of key) (clients y))%nat;
}.

Lemma accepted_sound o :
  0 < rate_limit_window wlcf < 2 ^ 64 -> admitted o -> sound (Client o (program o) []).
Proof.
  intros Hw Ho. split; cbn [todo past origin].
  - by apply program_store.
  - by apply program_paid.
  - intros r ->. by apply verify_done_spec.
Qed.

Lemma called_sound o e k h a :
  ans_ok e a -> sound (Client o (Do e k) h) -> sound (Client o (k a) (h ++ [Ev e a])).
Proof.
  intros Ha [[_ Hc] [_ Hp] Hw]. split; cbn [todo past origin] in *; [apply Hc|apply Hp|].
  intros r Hr. destruct (Hw r Hr) as [_ Hk]. by apply Hk.
Qed.

Lemma call_balance s s' e (a : ans e) :
  store_call prefix e -> server_step s e a s' ->
  (live key s' + get_of key (Ev e a) <= live key s + put_of key (Ev e a))%nat.
Proof.
  intros Hc Hs. pose proof (call_credit prefix c e a s s' Hc Hs) as Hcr.
  destruct e; cbn [get_of put_of] in *; first [done|rewrite Hcr; lia].
Qed.

Lemma step_accounts y y' :
  0 < rate_limit_window wlcf < 2 ^ 64 -> step y y' -> accounts y -> accounts y'.
Proof.
  intros Hw Hs [Hsound Hbal]. destruct Hs as [s cl o Ho|s s' cl i o e k h a Hi Ha He|s s' cl Ht];
    cbn [srv clients] in *; split; cbn [srv clients].
  - apply Forall_app. split; [done|]. constructor; [|done]. by apply accepted_sound.
  - unfold clients_total in *. rewrite !sum_list_with_app. cbn [sum_list_with past]. lia.
  - apply Forall_insert; [done|]. apply called_sound; [done|]. by eapply Forall_lookup_1.
  - assert (sound (Client o (Do e k) h)) as [[Hc _] _ _] by by eapply Forall_lookup_1.
    pose proof (call_balance s s' e a Hc He) as Hcr. unfold clients_total in *.
    set (z := Client o (k a) (h ++ [Ev e a])).
    pose proof (sum_insert (fun x => total (get_of key) (past x)) cl i _ z Hi) as Hg.
    pose proof (sum_insert (fun x => total (put_of key) (past x)) cl i _ z Hi) as Hp.
    cbn [past z] in Hg, Hp. rewrite total_app in Hg, Hp. cbn [sum_list_with] in Hg, Hp. lia.
  - done.
  - pose proof (tick_live key s s' Ht). lia.
Qed.

Lemma reachable_accounts s y :
  0 < rate_limit_window wlcf < 2 ^ 64 -> live key s = live0 -> reachable s y -> accounts y.
Proof.
  intros Hw Hl Hr. assert (accounts (Sys s [])) as Hinit by (split; [done|]; cbn; lia).
  revert Hinit. induction Hr as [|x y z Hs Hr IH]; [done|]. intros Hx. apply IH.
  by eapply step_accounts.
Qed.
End account.

(** ** Sign-ins *)

Context `{!RedisLaws S, !OpenSSLLaws, !NginxBase64Laws, !NxeJsonLaws}.

(** A finished verification of the challenge [c] that handed out a session. *)
Definition signed_in (c : bytes) (x : client) : Prop :=
  todo x = Ret tt /\
  exists r body id a v, origin x = H_verify r /\ body_of r = Some body /\
    request_reads body id a c /\ Ev (headers_out_push (bs "Set-Cookie") v) true ∈ past x.

(** How often the clients drew [c]. *)
Definition draws (c : bytes) (cl : list client) : nat := clients_total (draw_of c) cl.

Lemma answered_total k v (h : trace) :
  answered [bs "GETDEL"; k] (RString v) h -> (1 <= total (get_of k) h)%nat.
Proof.
  unfold answered, cmds. intros (ev & Hin & Hev)%list_elem_of_omap.
  destruct ev as [[] a]; try done. cbn [ev_cmd] in Hev. injection Hev as -> ->.
  etrans; [|by apply total_pos]. cbn [get_of gets]. by rewrite bool_decide_true.
Qed.

Lemma session_consumed r body id a c v (h : trace) :
  verify_outcome r wlcf h -> body_of r = Some body -> request_reads body id a c ->
  Ev (headers_out_push (bs "Set-Cookie") v) true ∈ h ->
  (1 <= total (get_of (challenge_key_of prefix c)) h)%nat.
Proof.
  intros (k & rc & -> & Hout) Hb Hr Hin.
  apply elem_of_app in Hin as [Hin|[=]%list_elem_of_singleton].
  destruct Hout as [Hk|[[Hk _]|(k1 & k2 & body' & id' & cred & now & -> & Hb' & _ & Hau & _)]].
  - rewrite list.Forall_forall in Hk. by apply Hk in Hin.
  - rewrite list.Forall_forall in Hk. by apply Hk in Hin.
  - rewrite Hb in Hb'. injection Hb' as <-.
    destruct Hau as [(a' & c' & os & count & Hr' & _ & Hver) _].
    unfold request_reads in Hr, Hr'. rewrite Hr in Hr'. injection Hr' as <- <- <-.
    destruct (ve_challenge _ _ _ _ _ _ _ _ _ Hver) as (_ & v' & Ha).
    apply answered_total in Ha. rewrite !total_app. lia.
Qed.

Lemma signed_in_consumed c live0 y i x :
  accounts c live0 y -> clients y !! i = Some x -> signed_in c x ->
  (1 <= total (get_of (challenge_key_of prefix c)) (past x))%nat.
Proof.
  intros [Hs _] Hi (Hret & r & body & id & a & v & Ho & Hb & Hr & Hin).
  assert (sound c x) as [_ _ Hw] by by eapply Forall_lookup_1.
  specialize (Hw r Ho). rewrite Hret in Hw. cbn [wp] in Hw. by eapply session_consumed.
Qed.

Lemma paid_total c live0 y :
  accounts c live0 y ->
  (clients_total (put_of (challenge_key_of prefix c)) (clients y) <= draws c (clients y))%nat.
Proof.
  intros [Hs _]. unfold draws, clients_total. induction Hs as [|x l [_ Hp _] Hl IH]; simpl; [done|].
  apply always_now in Hp. unfold paid in Hp. lia.
Qed.

(** C3: replay is impossible, however the requests are interleaved, keys
    expire, commands are refused and replies are lost: the sign-ins that a
    challenge has authorised are at most the times it was drawn from the
    random generator (plus one if it was stored before the start).  A fresh
    nonce signs in at most once. *)
Theorem challenge_signs_in_once (s : S) (y : system) (c : bytes) (idx : list nat) :
  0 < rate_limit_window wlcf < 2 ^ 64 -> reachable s y -> NoDup idx ->
  (forall i, i ∈ idx -> exists x, clients y !! i = Some x /\ signed_in c x) ->
  (length idx <= draws c (clients y) + live (challenge_key_of prefix c) s)%nat.
Proof.
  intros Hw Hr Hnd Hin.
  assert (accounts c (live (challenge_key_of prefix c) s) y) as Hacc
    by by eapply reachable_accounts.
  assert (length idx <= clients_total (get_of (challenge_key_of prefix c)) (clients y))%nat as Hle.
  { apply sum_distinct; [done|]. intros i Hi. destruct (Hin i Hi) as (x & Hx & Hsi).
    exists x. split; [done|]. by eapply signed_in_consumed. }
  pose proof (paid_total c _ y Hacc). destruct Hacc as [_ Hbal]. lia.
Qed.
End system.

Import Samples MiniRedis HttpSamples.

(** ** Schedules over the executable server *)

Definition string_okb (b : bytes) : bool := zlen b <=? 2 ^ 29.
Definition reply_okb (r : redisReply) : bool :=
  match r with
  | RString b | RStatus b | RError b => string_okb b
  | RArray l =>
      (zlen l <? 2 ^ 32) && forallb (fun x => match x with RString b => string_okb b | _ => false end) l
  | _ => true
  end.
Definition answer_okb (e : eff) : ans e -> bool :=
  match e with
  | redisCommandArgv _ => fun a => match a with Some r => reply_okb r | None => true end
  | fread size => fun _ => 0 <=? size
  | ngx_read_file _ => fun _ => false
  | _ => fun _ => true
  end.

(** One turn of client [i]; nothing when it is done. *)
Definition turn (y : system (S := db)) (i : nat) : system (S := db) :=
  match clients y !! i with
  | Some (Client o (Do e k) h) =>
      let '(a, s') := answer (srv y) e in
      if answer_okb e a then Sys s' (<[i := Client o (k a) (h ++ [Ev e a])]> (clients y)) else y
  | _ => y
  end.
Definition accept (y : system (S := db)) (o : handler) : system (S := db) :=
  Sys (srv y) (clients y ++ [Client o (program HttpSamples.conf o) []]).

Lemma reply_okb_sound r : reply_okb r = true -> reply_ok r.
Proof.
  destruct r as [b|l|n| |b|b|t]; cbn [reply_okb]; unfold string_okb; intros Hr; cbn [reply_ok];
    try (by apply Z.leb_le in Hr); try done.
  apply andb_true_iff in Hr as [Hn%Z.ltb_lt Hl]. split; [done|]. clear Hn.
  induction l as [|x l IH]; [done|]. cbn [forallb] in Hl. apply andb_true_iff in Hl as [Hx Hl].
  split; [|by apply IH]. destruct x; try done. by apply Z.leb_le in Hx.
Qed.

Lemma answer_sound (s : db) e a s' :
  answer s e = (a, s') -> answer_okb e a = true -> ans_ok e a /\ server_step s e a s'.
Proof.
  destruct e; cbn [answer Samples.ok_ans answer_okb]; try (intros [= <- <-]; by split).
  - destruct (mini_exec argv s) as [r s1] eqn:E. intros [= <- <-] Hr. split.
    + intros r' [= <-]. by apply reply_okb_sound.
    + exists s. split; [apply tick_none|done].
  - intros [= <- <-]. split; [|done]. intros b [= <-]. apply length_replicate.
  - intros [= <- <-] Hs%Z.leb_le. by split.
  - intros [= <- <-] _. split; [|done]. by intros n [= <-].
Qed.

Lemma turn_steps y i : rtc (step HttpSamples.conf) y (turn y i).
Proof.
  unfold turn. destruct (clients y !! i) as [[o todo0 h]|] eqn:Hi; [|done]. destruct todo0 as [u| |e k]; try done.
  destruct (answer (srv y) e) as [a s'] eqn:Ha. destruct (answer_okb e a) eqn:Hok; [|done].
  apply answer_sound in Ha as [Ha Hs]; [|done]. apply rtc_once. destruct y as [s0 cl]. by eapply step_call.
Qed.

Lemma turns_steps y sched : rtc (step HttpSamples.conf) y (foldl turn y sched).
Proof.
  revert y. induction sched as [|i sched IH]; intros y; [done|]. cbn [foldl].
  etrans; [apply turn_steps|apply IH].
Qed.

Lemma accept_steps y o : admitted HttpSamples.conf o -> rtc (step HttpSamples.conf) y (accept y o).
Proof. intros Ho. apply rtc_once. destruct y. by apply step_accept. Qed.

Lemma accept_origins y o : origin <$> clients (accept y o) = (origin <$> clients y) ++ [o].
Proof. unfold accept. cbn [clients]. by rewrite fmap_app. Qed.

Lemma turn_origins y i : origin <$> clients (turn y i) = origin <$> clients y.
Proof.
  unfold turn. destruct (clients y !! i) as [[o todo0 h]|] eqn:Hi; [|done]. destruct todo0 as [u| |e k]; try done.
  destruct (answer (srv y) e) as [a s']. destruct (answer_okb e a); [|done]. cbn [clients].
  rewrite list_fmap_insert. apply list_insert_id. by rewrite list_lookup_fmap, Hi.
Qed.

Lemma turns_origins y sched : origin <$> clients (foldl turn y sched) = origin <$> clients y.
Proof.
  revert y. induction sched as [|i sched IH]; intros y; [done|]. cbn [foldl]. by rewrite IH, turn_origins.
Qed.

(** The challenge is issued, and the same assertion posted twice at once. *)
Definition replay : system (S := db) :=
  let post := H_verify (post_request (posted (bs "Y3JlZA"))) in
  let issued := foldl turn (accept (Sys credential_db []) (H_challenge HttpSamples.request))
                  (replicate 40 0%nat) in
  foldl turn (accept (accept issued post) post) (mjoin (replicate 80 [1; 2])%nat).

Definition statuses (y : system (S := db)) : list (list (Z + bytes)) :=
  (fun x => spoken (past x)) <$> clients y.

Example replay_statuses : statuses replay =
  [[inl 200]; [inr (bs "Set-Cookie"); inl 200]; [inl 401]].
Proof. vm_compute. reflexivity. Qed.

Lemma replay_reachable : reachable HttpSamples.conf credential_db replay.
Proof.
  unfold replay, reachable. etrans; [|apply turns_steps].
  do 2 (etrans; [|apply accept_steps, post_sizes]).
  etrans; [|apply turns_steps]. by apply accept_steps.
Qed.

(** The one draw pays for the one sign-in. *)
Lemma challenge_signs_in_once_witness :
  draws sample_nonce (clients replay) = 1%nat /\
  live (challenge_key_of (bs "webauthn:") sample_nonce) credential_db = 0%nat /\
  (length [1%nat] <= draws sample_nonce (clients replay)
                     + live (challenge_key_of (bs "webauthn:") sample_nonce) credential_db)%nat.
Proof.
  split_and!; [vm_compute; reflexivity..|].
  apply (challenge_signs_in_once HttpSamples.conf credential_db replay sample_nonce [1%nat]).
  - cbn. lia.
  - exact replay_reachable.
  - apply list.NoDup_singleton.
  - intros i ->%list_elem_of_singleton. eexists. split; [vm_compute; reflexivity|].
    split; [vm_compute; reflexivity|].
    eexists _, _, _, _, _. split_and!; [vm_compute; reflexivity..|].
    vm_compute. repeat (first [left|right]).
Defined.
