(* ===== verification/AdminMain.v ===== *)
(** * The command-line tool: src/tools/admin/auth_webauthn_admin_main.c

    What the subcommands share: exit codes and messages, the option parser,
    reading a file or standard input, connecting, and formatting of times and
    algorithm names.  [main] itself is in AdminCommands.v, after the
    subcommands it dispatches to. *)

From S2P Require Import Prelude Effects Externals Samples Redis RedisCalls Cose.
#[global] Open Scope Z_scope.

Definition AUTH_WEBAUTHN_ADMIN_TIMEOUT_MS : Z := 100.
Definition AUTH_WEBAUTHN_ADMIN_EX_OK : Z := 0.
Definition AUTH_WEBAUTHN_ADMIN_EX_FAIL : Z := 1.
Definition AUTH_WEBAUTHN_ADMIN_EX_USAGE : Z := 2.
Definition AUTH_WEBAUTHN_ADMIN_FILE_MAX : Z := 16 * 1024 * 1024.
Definition AUTH_WEBAUTHN_ADMIN_READ_CHUNK : Z := 65536.

Definition AUTH_WEBAUTHN_ADMIN_OPT_REDIS : Z := 256.
Definition AUTH_WEBAUTHN_ADMIN_OPT_REDIS_PASSWORD : Z := 257.
Definition AUTH_WEBAUTHN_ADMIN_OPT_REDIS_DB : Z := 258.
Definition AUTH_WEBAUTHN_ADMIN_OPT_REDIS_TIMEOUT : Z := 259.
Definition AUTH_WEBAUTHN_ADMIN_OPT_KEY_PREFIX : Z := 260.
Definition AUTH_WEBAUTHN_ADMIN_OPT_SUBCOMMAND_BASE : Z := 261.

Definition ngx_auth_webauthn_admin_default_prefix : bytes := bs "webauthn:".

(** The shared settings; [pool] and [log] are those of the whole run. *)
Record auth_webauthn_admin_ctx_t := {
  adm_redis_host : ngx_str_t;
  adm_redis_port : Z;
  adm_redis_password : ngx_str_t;
  adm_redis_db : Z;
  adm_redis_timeout_ms : Z;
  adm_key_prefix : ngx_str_t;
}.

(** ** The C library, as far as it is used *)

(** [out] is [stderr] or [stdout]. *)
Definition fputs (stderr : bool) (text : bytes) : prog unit := call (fprint stderr text).
Definition print_error (msg : bytes) : prog unit := fputs true (bs "error: " ++ msg ++ newline).

(** A text of several lines. *)
Definition lines (l : list bytes) : bytes := concat ((fun s => s ++ newline) <$> l).

(** [%.*s] with [(int) s.len] and [s.data]. *)
Definition fmt_str (s : ngx_str_t) : bytes := c_string (str_bytes s).

Fixpoint span {A} (f : A -> bool) (l : list A) : list A * list A :=
  match l with
  | x :: t => if f x then let '(a, b) := span f t in (x :: a, b) else ([], l)
  | [] => ([], [])
  end.

Definition isspace (c : byte) : bool := (b2z c =? 32) || ((9 <=? b2z c) && (b2z c <=? 13)).

(** [strtol(s, &end, 10)]: the value, clamped to [long], and the string at
    [end], which is [s] itself when there are no digits. *)
Definition strtol (s : bytes) : Z * bytes :=
  let '(_, t) := span isspace s in
  let '(neg, t) := match t with
                   | c :: t' => if b2z c =? 45 then (true, t') else
                                if b2z c =? 43 then (false, t') else (false, t)
                   | [] => (false, t)
                   end in
  match span is_digit t with
  | ([], _) => (0, s)
  | (d, rest) =>
      let v := if neg : bool then - dec_val d else dec_val d in
      (Z.max INT64_MIN (Z.min INT64_MAX v), rest)
  end.

(** The offset of the last occurrence, as [strrchr] finds it. *)
Fixpoint strrchr (s : bytes) (c : byte) : option nat :=
  match s with
  | [] => None
  | x :: t =>
      match strrchr t c with
      | Some i => Some (S i)
      | None => if bool_decide (x = c) then Some O else None
      end
  end.

(** [struct tm], as far as it is printed. *)
Record tm := { tm_year : Z; tm_mon : Z; tm_mday : Z; tm_hour : Z; tm_min : Z; tm_sec : Z }.

(** Days since 1970-01-01 to year, month and day of the Gregorian calendar. *)
Definition civil (days : Z) : Z * Z * Z :=
  let z := days + 719468 in
  let era := z / 146097 in
  let doe := z mod 146097 in
  let yoe := (doe - doe / 1460 + doe / 36524 - doe / 146096) / 365 in
  let doy := doe - (365 * yoe + yoe / 4 - yoe / 100) in
  let mp := (5 * doy + 2) / 153 in
  let d := doy - (153 * mp + 2) / 5 + 1 in
  let m := if mp <? 10 then mp + 3 else mp - 9 in
  (yoe + era * 400 + (if m <=? 2 then 1 else 0), m, d).

(** [gmtime_r]: NULL when the year does not fit an [int]. *)
Definition gmtime_r (t : Z) : option tm :=
  let '(y, m, d) := civil (t / 86400) in
  let s := t mod 86400 in
  if (INT32_MIN <=? y - 1900) && (y - 1900 <=? INT32_MAX) then
    Some {| tm_year := y - 1900; tm_mon := m - 1; tm_mday := d;
            tm_hour := s / 3600; tm_min := s / 60 mod 60; tm_sec := s mod 60 |}
  else None.

(** [%m], [%d], [%H], [%M], [%S]. *)
Definition two_digits (z : Z) : bytes := [digit_char (z / 10); digit_char (z mod 10)].

(** [strftime(buf, size, "%Y-%m-%dT%H:%M:%SZ", &tm)]: [None] when it returns 0
    because text and NUL do not fit. *)
Definition strftime (size : Z) (t : tm) : option bytes :=
  let text := dec (tm_year t + 1900) ++ bs "-" ++ two_digits (tm_mon t + 1) ++ bs "-" ++
              two_digits (tm_mday t) ++ bs "T" ++ two_digits (tm_hour t) ++ bs ":" ++
              two_digits (tm_min t) ++ bs ":" ++ two_digits (tm_sec t) ++ bs "Z" in
  if zlen text <? size then Some text else None.

(** ** Texts *)

Definition usage_text : bytes := lines [
  bs "usage: auth-webauthn-admin <command> [options]";
  [];
  bs "commands:";
  bs "  register   register a credential from an AttestationResponse JSON";
  bs "  revoke     delete a credential by id";
  bs "  list       list a user's credentials";
  bs "  show       show one credential in detail";
  [];
  bs "common options (all commands):";
  bs "  --redis=<host:port>          Redis server (required)";
  bs "  --redis-password=<s|file:p>  Redis AUTH (literal or file:<path>)";
  bs "  --redis-db=<int>             Redis DB number (default 0)";
  bs "  --redis-timeout=<ms>         connect/command timeout (default " ++
    dec AUTH_WEBAUTHN_ADMIN_TIMEOUT_MS ++ bs ")";
  bs "  --key-prefix=<string>        Redis key prefix (default " ++ [Byte.x22] ++
    ngx_auth_webauthn_admin_default_prefix ++ [Byte.x22] ++ bs ")";
  [];
  bs "  -h, --help                   show help; --version prints version";
  [];
  bs "run 'auth-webauthn-admin <command> --help' for per-command options"].

Definition ngx_auth_webauthn_admin_usage (stderr : bool) : prog unit := fputs stderr usage_text.

Definition auth_webauthn_admin_alg_name (alg : Z) : bytes :=
  if alg =? NGX_AUTH_WEBAUTHN_COSE_ALG_ES256 then bs "ES256"
  else if alg =? NGX_AUTH_WEBAUTHN_COSE_ALG_EDDSA then bs "EdDSA"
  else if alg =? NGX_AUTH_WEBAUTHN_COSE_ALG_RS256 then bs "RS256"
  else bs "unknown".

(** The contents of [buf]. *)
Definition auth_webauthn_admin_fmt_time (t size : Z) : bytes :=
  if t <=? 0 then fst (snprintf size (bs "-")) else
  match gmtime_r t with
  | None => fst (snprintf size (bs "-"))
  | Some tm =>
      match strftime size tm with
      | None => fst (snprintf size (bs "-"))
      | Some text => text
      end
  end.

Example fmt_time_known : auth_webauthn_admin_fmt_time 1776420000 24 = bs "2026-04-17T10:00:00Z".
Proof. vm_compute. reflexivity. Qed.

(** ** Reading a file *)

(** The buffer: its capacity and the bytes read so far. *)
Record reading := { rd_cap : Z; rd_data : bytes }.

(** One turn of the read loop: go on, or leave it with end of file or, at the
    label [failed], an error. *)
Inductive read_end := read_eof (st : reading) | read_failed.

(** Make room when the buffer is full. *)
Definition read_room (st : reading) : prog (option reading) :=
  if zlen (rd_data st) =? rd_cap st then
    if AUTH_WEBAUTHN_ADMIN_FILE_MAX <=? rd_cap st then
      print_error (bs "input exceeds " ++ dec AUTH_WEBAUTHN_ADMIN_FILE_MAX ++ bs " bytes") ;;
      Ret None
    else
      let cap := rd_cap st * 2 in
      nbuf <- call (ngx_pnalloc (size_t cap)) ;;
      Ret (if nbuf then Some {| rd_cap := cap; rd_data := rd_data st |} else None)
  else Ret (Some st).

Definition read_turn (path : bytes) (st : reading) : prog (reading + read_end) :=
  room <- read_room st ;;
  match room with
  | None => Ret (inr read_failed)
  | Some st =>
      n <- call (fread (rd_cap st - zlen (rd_data st))) ;;
      let st := {| rd_cap := rd_cap st; rd_data := rd_data st ++ n |} in
      if zlen n =? 0 then
        err <- call ferror ;;
        if err then
          print_error (bs "read failed on '" ++ path ++ bs "'") ;; Ret (inr read_failed)
        else Ret (inr (read_eof st))
      else Ret (inl st)
  end.

(** [for ( ;; )]: at most [2^k] turns, until one leaves the loop. *)
Fixpoint turns {S R} (k : nat) (turn : S -> prog (S + R)) (s : S) : prog (S + R) :=
  match k with
  | O => turn s
  | Datatypes.S k =>
      out <- turns k turn s ;;
      match out with
      | inl s => turns k turn s
      | inr r => Ret (inr r)
      end
  end.

(** Every turn that goes on has read a byte and no more than 2^24 are, so
    2^25 turns are enough. *)
Definition READ_FUEL : nat := 25.

(** [fp != stdin]. *)
Definition close_input (from_stdin : bool) : prog unit :=
  if from_stdin then Ret tt else call (res_free R_FILE).

(** The terminating NUL, which may need a byte more; storing it outside the
    buffer is undefined. *)
Definition terminate (st : reading) : prog (ngx_rc * ngx_str_t) :=
  let len := zlen (rd_data st) in
  if len =? rd_cap st then
    nbuf <- call (ngx_pnalloc (size_t (rd_cap st + 1))) ;;
    if negb nbuf then Ret (NGX_ERROR, NULL)
    else if rd_cap st + 1 <=? len then UB else Ret (NGX_OK, Some (rd_data st))
  else if rd_cap st <=? len then UB else Ret (NGX_OK, Some (rd_data st)).

(** Return code and, on NGX_OK, [*out]. *)
Definition auth_webauthn_admin_read_file (path : ptr bytes) : prog (ngx_rc * ngx_str_t) :=
  match path with
  | None => Ret (NGX_ERROR, NULL)
  | Some path =>
      let from_stdin := bytes_eqb path (bs "-") in
      fp <- (if from_stdin then Ret true else call (fopen path)) ;;
      if negb fp then
        print_error (bs "cannot open '" ++ path ++ bs "'") ;; Ret (NGX_ERROR, NULL)
      else
      buf <- call (ngx_pnalloc (size_t AUTH_WEBAUTHN_ADMIN_READ_CHUNK)) ;;
      if negb buf then close_input from_stdin ;; Ret (NGX_ERROR, NULL) else
      out <- turns READ_FUEL (read_turn path)
               {| rd_cap := AUTH_WEBAUTHN_ADMIN_READ_CHUNK; rd_data := [] |} ;;
      match out with
      | inl _ => UB
      | inr read_failed => close_input from_stdin ;; Ret (NGX_ERROR, NULL)
      | inr (read_eof st) => close_input from_stdin ;; terminate st
      end
  end.

(** ** Options *)

(** The loop on [s->len]. *)
Fixpoint admin_chomp_loop (data : bytes) (len : nat) : nat :=
  match len with
  | O => O
  | S n =>
      let c := nth n data Byte.x00 in
      if bool_decide (c = Byte.x0a) || bool_decide (c = Byte.x0d)
      then admin_chomp_loop data n else S n
  end.

Definition ngx_auth_webauthn_admin_chomp (s : ngx_str_t) : ngx_str_t :=
  (fun data => take (admin_chomp_loop data (length data)) data) <$> s.

Definition with_redis (host : ngx_str_t) (port : Z) (ctx : auth_webauthn_admin_ctx_t) :=
  {| adm_redis_host := host; adm_redis_port := port; adm_redis_password := adm_redis_password ctx;
     adm_redis_db := adm_redis_db ctx; adm_redis_timeout_ms := adm_redis_timeout_ms ctx;
     adm_key_prefix := adm_key_prefix ctx |}.
Definition with_password (p : ngx_str_t) (ctx : auth_webauthn_admin_ctx_t) :=
  {| adm_redis_host := adm_redis_host ctx; adm_redis_port := adm_redis_port ctx;
     adm_redis_password := p; adm_redis_db := adm_redis_db ctx;
     adm_redis_timeout_ms := adm_redis_timeout_ms ctx; adm_key_prefix := adm_key_prefix ctx |}.
Definition with_db (db : Z) (ctx : auth_webauthn_admin_ctx_t) :=
  {| adm_redis_host := adm_redis_host ctx; adm_redis_port := adm_redis_port ctx;
     adm_redis_password := adm_redis_password ctx; adm_redis_db := db;
     adm_redis_timeout_ms := adm_redis_timeout_ms ctx; adm_key_prefix := adm_key_prefix ctx |}.
Definition with_timeout (ms : Z) (ctx : auth_webauthn_admin_ctx_t) :=
  {| adm_redis_host := adm_redis_host ctx; adm_redis_port := adm_redis_port ctx;
     adm_redis_password := adm_redis_password ctx; adm_redis_db := adm_redis_db ctx;
     adm_redis_timeout_ms := ms; adm_key_prefix := adm_key_prefix ctx |}.
Definition with_prefix (p : ngx_str_t) (ctx : auth_webauthn_admin_ctx_t) :=
  {| adm_redis_host := adm_redis_host ctx; adm_redis_port := adm_redis_port ctx;
     adm_redis_password := adm_redis_password ctx; adm_redis_db := adm_redis_db ctx;
     adm_redis_timeout_ms := adm_redis_timeout_ms ctx; adm_key_prefix := p |}.

(** [*end != '\0' || v < lo || v > hi] *)
Definition out_of_range (out : Z * bytes) (lo hi : Z) : bool :=
  negb (zlen out.2 =? 0) || (out.1 <? lo) || (hi <? out.1).

(** Return code and the updated settings. *)
Definition auth_webauthn_admin_parse_common_opt (ctx : auth_webauthn_admin_ctx_t) (opt : Z)
    (optarg : ptr bytes) : prog (ngx_rc * auth_webauthn_admin_ctx_t) :=
  if opt =? AUTH_WEBAUTHN_ADMIN_OPT_REDIS then
    arg <- deref optarg ;;
    match strrchr arg Byte.x3a with
    | None => print_error (bs "--redis expects <host>:<port>") ;; Ret (NGX_ERROR, ctx)
    | Some colon =>
        if (colon =? 0)%nat || nullp (head (drop (S colon) arg)) then
          print_error (bs "--redis expects <host>:<port>") ;; Ret (NGX_ERROR, ctx)
        else
        let ctx := with_redis (Some (take colon arg)) (adm_redis_port ctx) ctx in
        let v := strtol (drop (S colon) arg) in
        if out_of_range v 1 65535 then
          print_error (bs "--redis port out of range") ;; Ret (NGX_ERROR, ctx)
        else Ret (NGX_OK, with_redis (adm_redis_host ctx) v.1 ctx)
    end
  else if opt =? AUTH_WEBAUTHN_ADMIN_OPT_REDIS_PASSWORD then
    arg <- deref optarg ;;
    if memeq arg (bs "file:") 5 then
      out <- auth_webauthn_admin_read_file (Some (drop 5 arg)) ;;
      if negb (is_ok out.1) then Ret (NGX_ERROR, ctx)
      else Ret (NGX_OK, with_password (ngx_auth_webauthn_admin_chomp out.2) ctx)
    else Ret (NGX_OK, with_password (Some arg) ctx)
  else if opt =? AUTH_WEBAUTHN_ADMIN_OPT_REDIS_DB then
    arg <- deref optarg ;;
    let v := strtol arg in
    if out_of_range v 0 65535 then
      print_error (bs "--redis-db out of range") ;; Ret (NGX_ERROR, ctx)
    else Ret (NGX_OK, with_db v.1 ctx)
  else if opt =? AUTH_WEBAUTHN_ADMIN_OPT_REDIS_TIMEOUT then
    arg <- deref optarg ;;
    let v := strtol arg in
    if out_of_range v 0 600000 then
      print_error (bs "--redis-timeout out of range (ms)") ;; Ret (NGX_ERROR, ctx)
    else Ret (NGX_OK, with_timeout v.1 ctx)
  else if opt =? AUTH_WEBAUTHN_ADMIN_OPT_KEY_PREFIX then
    arg <- deref optarg ;;
    Ret (NGX_OK, with_prefix (Some arg) ctx)
  else Ret (NGX_DECLINED, ctx).

(** Return code and the connection. *)
Definition auth_webauthn_admin_connect (ctx : auth_webauthn_admin_ctx_t)
    : prog (ngx_rc * ptr ngx_auth_webauthn_redis_t) :=
  if (str_len (adm_redis_host ctx) =? 0) || (adm_redis_port ctx =? 0) then
    print_error (bs "--redis=<host:port> is required") ;; Ret (NGX_ERROR, NULL)
  else
  let conf := {| rconf_host := adm_redis_host ctx; rconf_port := adm_redis_port ctx;
                 rconf_password := adm_redis_password ctx; rconf_db := adm_redis_db ctx;
                 rconf_timeout_ms := adm_redis_timeout_ms ctx |} in
  out <- ngx_auth_webauthn_redis_connect (Some tt) (Some conf) (Some NULL) ;;
  if negb (is_ok out.1) then
    print_error (bs "cannot connect to Redis " ++ fmt_str (adm_redis_host ctx) ++ bs ":" ++
                 dec (adm_redis_port ctx)) ;;
    Ret (NGX_ERROR, NULL)
  else Ret (NGX_OK, out.2).

(** ** getopt_long of the C library *)

Record longopt := { opt_name : bytes; has_arg : bool; opt_val : Z }.

Definition OPT_h : Z := 104.
Definition OPT_unknown : Z := 63.

Class Getopt := {
  (** the results and [optarg]s until -1, of a table and the short option
      string "h", on the arguments after argv[0] *)
  getopt_long : list longopt -> list bytes -> list (Z * ptr bytes);
}.

(** An option of the table that takes an argument comes with one, which
    points into the arguments. *)
Class GetoptLaws `{Getopt} := {
  getopt_value : forall t argv c a, (c, a) ∈ getopt_long t argv ->
    c = OPT_h \/ c = OPT_unknown \/
    exists o, o ∈ t /\ opt_val o = c /\ (has_arg o = true -> a <> NULL);
  getopt_arg : forall t argv c a, (c, Some a) ∈ getopt_long t argv ->
    exists s, s ∈ argv /\ a `suffix_of` s;
}.

(** The options every subcommand has, in its table. *)
Definition common_longopts : list longopt :=
  [ {| opt_name := bs "redis"; has_arg := true; opt_val := AUTH_WEBAUTHN_ADMIN_OPT_REDIS |};
    {| opt_name := bs "redis-password"; has_arg := true;
       opt_val := AUTH_WEBAUTHN_ADMIN_OPT_REDIS_PASSWORD |};
    {| opt_name := bs "redis-db"; has_arg := true; opt_val := AUTH_WEBAUTHN_ADMIN_OPT_REDIS_DB |};
    {| opt_name := bs "redis-timeout"; has_arg := true;
       opt_val := AUTH_WEBAUTHN_ADMIN_OPT_REDIS_TIMEOUT |};
    {| opt_name := bs "key-prefix"; has_arg := true;
       opt_val := AUTH_WEBAUTHN_ADMIN_OPT_KEY_PREFIX |};
    {| opt_name := bs "help"; has_arg := false; opt_val := OPT_h |} ].

(** [while ((c = getopt_long(...)) != -1)]: the locals after the loop, or the
    exit code of an early return. *)
Fixpoint parse_opts {A} (step : A -> Z -> ptr bytes -> prog (Z + A)) (opts : list (Z * ptr bytes))
    (locals : A) : prog (Z + A) :=
  match opts with
  | [] => Ret (inr locals)
  | (c, optarg) :: opts =>
      out <- step locals c optarg ;;
      match out with
      | inl code => Ret (inl code)
      | inr locals => parse_opts step opts locals
      end
  end.

(** The [default] label of every subcommand's switch. *)
Definition common_opt {A} (ctx : auth_webauthn_admin_ctx_t)
    (locals : auth_webauthn_admin_ctx_t -> A) (c : Z) (optarg : ptr bytes) : prog (Z + A) :=
  out <- auth_webauthn_admin_parse_common_opt ctx c optarg ;;
  match out.1 with
  | NGX_ERROR => Ret (inl AUTH_WEBAUTHN_ADMIN_EX_USAGE)
  | _ => Ret (inr (locals out.2))
  end.

(** ** Loops that end *)

Section turns.
Context {S R : Type} (turn : S -> prog (S + R)).

(** A measure that every turn lowers bounds the number of turns; what holds
    before each of them holds until the loop is left. *)
Lemma turns_measure {W} `{Env W} (I : S -> W -> Prop) (Q : R -> W -> Prop) (m : S -> Z) :
  (forall s w, I s w -> wp (turn s) (fun out w' =>
     match out with inl s' => I s' w' /\ 0 <= m s' < m s | inr r => Q r w' end) w) ->
  forall k s w, I s w -> wp (turns k turn s) (fun out w' =>
     match out with inl s' => I s' w' /\ 0 <= m s' /\ m s' + 2 ^ Z.of_nat k <= m s
     | inr r => Q r w' end) w.
Proof.
  intros Hturn k. induction k as [|k IH]; intros s w Hs; cbn [turns].
  - eapply wp_mono; [|by apply Hturn]. intros [s'|r] w'; [|done].
    intros [HI Hm]. split; [done|]. change (2 ^ Z.of_nat 0) with 1. lia.
  - eapply wp_seq; [by apply IH|]. intros [s1|r] w1; [|done]. intros (H1 & Hm1 & Hle).
    eapply wp_mono; [|by apply IH]. intros [s2|r] w2; [|done]. intros (H2 & Hm2 & Hle2).
    rewrite Nat2Z.inj_succ, Z.pow_succ_r by lia. split; [done|]. lia.
Qed.

Lemma turns_end {W} `{Env W} (I : S -> W -> Prop) (Q : R -> W -> Prop) (m : S -> Z) k s w :
  (forall s w, I s w -> wp (turn s) (fun out w' =>
     match out with inl s' => I s' w' /\ 0 <= m s' < m s | inr r => Q r w' end) w) ->
  I s w -> m s < 2 ^ Z.of_nat k ->
  wp (turns k turn s) (fun out w' => exists r, out = inr r /\ Q r w') w.
Proof.
  intros Hturn Hs Hm. eapply wp_mono; [|by eapply turns_measure].
  intros [s'|r] w' Hout; [lia|]. by exists r.
Qed.

Lemma turns_wlp (I : S -> trace -> Prop) (Q : R -> trace -> Prop) :
  (forall s h, I s h -> wlp (turn s) (fun out h' =>
     match out with inl s' => I s' h' | inr r => Q r h' end) h) ->
  forall k s h, I s h -> wlp (turns k turn s) (fun out h' =>
     match out with inl s' => I s' h' | inr r => Q r h' end) h.
Proof.
  intros Hturn k. induction k as [|k IH]; intros s h Hs; cbn [turns]; [by apply Hturn|].
  eapply wlp_seq; [by apply IH|]. intros [s1|r] h1 H1; [by apply IH|done].
Qed.

Lemma turns_calls P k s : (forall s, all_calls P (turn s)) -> all_calls P (turns k turn s).
Proof.
  intros Hturn. revert s. induction k as [|k IH]; intros s; cbn [turns]; [done|].
  apply all_calls_bind; [done|]. by intros [].
Qed.
End turns.

(** ** Reading a file, on every path *)

(** A buffer of the loop: 2^16 to 2^24 bytes, by doubling, not overrun. *)
Definition reading_ok (st : reading) : Prop :=
  zlen (rd_data st) <= rd_cap st /\ exists j, 16 <= j <= 24 /\ rd_cap st = 2 ^ j.

Lemma doubled st : reading_ok st -> rd_cap st < AUTH_WEBAUTHN_ADMIN_FILE_MAX ->
  reading_ok {| rd_cap := rd_cap st * 2; rd_data := rd_data st |}.
Proof.
  intros [Hl (j & Hj & E)] Hm. cbn. pose proof (zlen_nonneg (rd_data st)). split; [cbn; lia|].
  exists (j + 1). assert (j <> 24) by (intros ->; rewrite E in Hm; by vm_compute in Hm).
  split; [lia|]. cbn. rewrite E, Z.pow_add_r by lia. lia.
Qed.

Lemma reading_max st : reading_ok st ->
  zlen (rd_data st) <= rd_cap st <= AUTH_WEBAUTHN_ADMIN_FILE_MAX.
Proof.
  intros [Hl (j & Hj & E)]. split; [done|]. rewrite E. change AUTH_WEBAUTHN_ADMIN_FILE_MAX with (2 ^ 24).
  apply Z.pow_le_mono_r; lia.
Qed.

Lemma read_room_held st (w : held) : reading_ok st ->
  wp (read_room st) (fun out (w' : held) => w' = w /\
        forall st', out = Some st' -> reading_ok st' /\ rd_data st' = rd_data st /\
          zlen (rd_data st') < rd_cap st') w.
Proof.
  intros Hst. pose proof (reading_max st Hst). unfold read_room, print_error, fputs.
  destruct (Z.eqb_spec (zlen (rd_data st)) (rd_cap st)) as [E|E].
  - destruct (Z.leb_spec AUTH_WEBAUTHN_ADMIN_FILE_MAX (rd_cap st)); [held_steps|].
    apply wp_bind, wp_held_call; [done|]. intros [] _; [|done]. split; [done|].
    intros st' [= <-]. split; [by apply doubled|]. split; [done|]. cbn.
    pose proof (zlen_nonneg (rd_data st)). destruct Hst as [_ (j & Hj & Ej)].
    pose proof (Z.pow_pos_nonneg 2 j ltac:(lia) ltac:(lia)). lia.
  - split; [done|]. intros st' [= <-]. split_and!; [done|done|]. destruct Hst. lia.
Qed.

Lemma read_turn_held path st (w : held) : reading_ok st ->
  wp (read_turn path st) (fun out (w' : held) =>
        match out with
        | inl st' => (w' = w /\ reading_ok st') /\
            0 <= AUTH_WEBAUTHN_ADMIN_FILE_MAX - zlen (rd_data st')
              < AUTH_WEBAUTHN_ADMIN_FILE_MAX - zlen (rd_data st)
        | inr (read_eof st') => w' = w /\ reading_ok st' /\ zlen (rd_data st') < rd_cap st'
        | inr read_failed => w' = w
        end) w.
Proof.
  intros Hst. unfold read_turn. eapply wp_seq; [by apply read_room_held|].
  intros [st1|] w1 [-> Hroom]; [|done]. destruct (Hroom st1 eq_refl) as (H1 & E1 & Hlt).
  apply wp_bind, wp_held_call; [done|]. intros n Hn. cbn [held_next ans_ok ans] in *.
  set (st2 := {| rd_cap := rd_cap st1; rd_data := rd_data st1 ++ n |}).
  assert (zlen (rd_data st2) = zlen (rd_data st1) + zlen n) as E2 by apply zlen_app.
  assert (reading_ok st2) as H2.
  { destruct H1 as [H1 Hj]. split; [|exact Hj]. rewrite E2. cbn. lia. }
  pose proof (reading_max st2 H2). pose proof (zlen_nonneg n).
  destruct (Z.eqb_spec (zlen n) 0) as [E|E].
  - apply wp_bind, wp_held_call; [done|]. intros [] _.
    + unfold print_error, fputs. by held_steps.
    + split; [done|]. split; [done|]. rewrite E2, E. cbn. lia.
  - split; [by split|]. rewrite E2, E1. rewrite E2, E1 in H. lia.
Qed.

Lemma terminate_held st Q (w : held) : zlen (rd_data st) < rd_cap st ->
  Q (NGX_OK, Some (rd_data st)) w -> wp (terminate st) Q w.
Proof.
  intros Hl HQ. unfold terminate. destruct (Z.eqb_spec (zlen (rd_data st)) (rd_cap st)); [lia|].
  destruct (Z.leb_spec (rd_cap st) (zlen (rd_data st))); [lia|done].
Qed.

Lemma close_input_held {A} (b : bool) (w0 w : held) (k : prog A) Q :
  w0 = (if b then w else w ⊎ {[+ R_FILE +]}) -> wp k Q w -> wp (close_input b ;; k) Q w0.
Proof.
  intros -> Hk. destruct b; [done|]. apply wp_bind, wp_held_call; [apply held_in|].
  intros [] _. cbn [held_next]. by rewrite held_release.
Qed.

Lemma input_file_held path Q (w : held) :
  Q (NGX_ERROR, NULL) w ->
  (forall data, zlen data < AUTH_WEBAUTHN_ADMIN_FILE_MAX -> Q (NGX_OK, Some data) w) ->
  wp (auth_webauthn_admin_read_file path) Q w.
Proof.
  intros H0 H1. unfold auth_webauthn_admin_read_file. destruct path as [path|]; [|done].
  set (b := bytes_eqb path (bs "-")).
  set (w1 := if b then w else w ⊎ {[+ R_FILE +]}).
  apply wp_seq with (fun (fp : bool) (w' : held) => w' = if fp then w1 else w).
  { unfold w1. destruct b; [done|]. apply wp_held_call; [done|]. by intros []. }
  intros fp ? ->. destruct fp; cbn [negb].
  2: { unfold print_error, fputs. by held_steps. }
  apply wp_bind, wp_held_call; [done|]. intros [] _; cbn [negb held_next].
  2: { by eapply close_input_held. }
  eapply wp_seq.
  { apply (turns_end (read_turn path) (fun st (w' : held) => w' = w1 /\ reading_ok st)
      (fun out (w' : held) => match out with
         | read_eof st => w' = w1 /\ reading_ok st /\ zlen (rd_data st) < rd_cap st
         | read_failed => w' = w1 end)
      (fun st => AUTH_WEBAUTHN_ADMIN_FILE_MAX - zlen (rd_data st))).
    - intros st w2 [-> Hst]. by apply read_turn_held.
    - split; [done|]. split; [done|]. exists 16. by split.
    - done. }
  intros out w2 (r & -> & Hr). destruct r as [st|].
  - destruct Hr as (-> & Hst & Hl). eapply close_input_held; [done|].
    apply terminate_held; [done|]. apply H1. pose proof (reading_max st Hst). lia.
  - subst w2. by eapply close_input_held.
Qed.

(** The bytes handed over by the reads of a trace. *)
Definition ev_read (ev : event) : bytes :=
  match ev with Ev (fread _) b => b | _ => [] end.
Definition bytes_read (h : trace) : bytes := concat (ev_read <$> h).

Lemma bytes_read_app h k : bytes_read (h ++ k) = bytes_read h ++ bytes_read k.
Proof. unfold bytes_read. by rewrite fmap_app, concat_app. Qed.

(** Why a file was not read: it could not be opened, there was no memory, a
    read failed, or it holds 2^24 bytes or more. *)
Definition read_excuse (h : trace) : Prop :=
  env_failed h \/ (exists path, Ev (fopen path) false ∈ h) \/ Ev ferror true ∈ h \/
  AUTH_WEBAUTHN_ADMIN_FILE_MAX <= zlen (bytes_read h).

Lemma read_excuse_app h k : read_excuse h -> read_excuse (h ++ k).
Proof.
  intros [He|[[path Hp]|[Hf|Hm]]].
  - left. apply env_failed_app. by left.
  - right; left. exists path. set_solver.
  - right; right; left. set_solver.
  - do 3 right. rewrite bytes_read_app, zlen_app. pose proof (zlen_nonneg (bytes_read k)). lia.
Qed.

Lemma excused_log h msg : read_excuse h -> wlp (print_error msg) (fun _ h' => read_excuse h') h.
Proof. intros Hx. unfold print_error, fputs. intros [] _. by apply read_excuse_app. Qed.

Lemma read_room_wlp st h : bytes_read h = rd_data st ->
  wlp (read_room st) (fun out h' =>
    match out with
    | Some st' => bytes_read h' = rd_data st' /\ rd_data st' = rd_data st
    | None => read_excuse h'
    end) h.
Proof.
  intros Hd. unfold read_room.
  destruct (Z.eqb_spec (zlen (rd_data st)) (rd_cap st)) as [E|]; [|done].
  destruct (Z.leb_spec AUTH_WEBAUTHN_ADMIN_FILE_MAX (rd_cap st)).
  - eapply wlp_seq; [apply excused_log; do 3 right; rewrite Hd; lia|]. by intros [] h' Hx.
  - intros [] _.
    + split; [|done]. by rewrite bytes_read_app, app_nil_r.
    + left. by apply env_failed_last.
Qed.

Lemma read_turn_wlp path st h : bytes_read h = rd_data st ->
  wlp (read_turn path st) (fun out h' =>
    match out with
    | inl st' => bytes_read h' = rd_data st'
    | inr (read_eof st') => bytes_read h' = rd_data st'
    | inr read_failed => read_excuse h'
    end) h.
Proof.
  intros Hd. unfold read_turn. eapply wlp_seq; [by apply read_room_wlp|].
  intros [st1|] h1; [|done]. intros [H1 E1] n _. cbn [bind].
  assert (bytes_read (h1 ++ [Ev (fread (rd_cap st1 - zlen (rd_data st1))) n]) = rd_data st1 ++ n) as H2.
  { rewrite bytes_read_app, H1. cbn. by rewrite app_nil_r. }
  destruct (Z.eqb_spec (zlen n) 0) as [En|En]; [|done].
  intros [] _; cbn [bind].
  - eapply wlp_seq; [apply excused_log; right; right; left; set_solver|]. by intros [] h' Hx.
  - cbn. by rewrite bytes_read_app, H2, app_nil_r.
Qed.

(** On success the data is what the reads handed over; on failure there was a
    reason. *)
Definition read_post (out : ngx_rc * ngx_str_t) (h : trace) : Prop :=
  match out with
  | (NGX_OK, Some data) => bytes_read h = data
  | (NGX_OK, None) => False
  | (rc, _) => rc = NGX_ERROR /\ read_excuse h
  end.

Lemma close_input_wlp {A} (b : bool) (k : prog A) Q (h : trace) :
  (forall l, bytes_read l = [] -> wlp k Q (h ++ l)) -> wlp (close_input b ;; k) Q h.
Proof.
  intros Hk. destruct b; cbn [close_input bind].
  - specialize (Hk []). rewrite app_nil_r in Hk. by apply Hk.
  - intros [] _. by apply Hk.
Qed.

Lemma read_file_wlp path : wlp (auth_webauthn_admin_read_file (Some path)) read_post [].
Proof.
  unfold auth_webauthn_admin_read_file. set (b := bytes_eqb path (bs "-")).
  apply wlp_seq with (fun (fp : bool) h => bytes_read h = [] /\ (fp = false -> read_excuse h)).
  { destruct b; [done|]. intros [] _; split; try done. intros _. right; left. exists path. set_solver. }
  intros [] h [Hh Hf]; cbn [negb].
  2: { eapply wlp_seq; [by apply excused_log, Hf|]. intros [] h' Hx. by split. }
  intros [] _; cbn [bind negb].
  2: { apply close_input_wlp. intros l _. split; [done|]. apply read_excuse_app. left.
       by apply env_failed_last. }
  eapply wlp_seq.
  { apply (turns_wlp (read_turn path) (fun st h => bytes_read h = rd_data st)
      (fun out h => match out with read_eof st => bytes_read h = rd_data st
                    | read_failed => read_excuse h end)).
    - intros st h1 Hd. by apply read_turn_wlp.
    - by rewrite bytes_read_app, Hh. }
  intros [st|[st|]] h1 Hd; [done|..]; apply close_input_wlp; intros l Hl.
  - assert (bytes_read (h1 ++ l) = rd_data st) as H1 by by rewrite bytes_read_app, Hl, app_nil_r.
    unfold terminate. destruct (_ =? _).
    + intros [] _; cbn [bind negb].
      * destruct (_ <=? _); [done|]. cbn. by rewrite bytes_read_app, H1, app_nil_r.
      * split; [done|]. left. by apply env_failed_last.
    + by destruct (_ <=? _).
  - split; [done|]. by apply read_excuse_app.
Qed.
