(* ===== verification/AdminCommands.v ===== *)
(** * The subcommands: src/tools/admin/auth_webauthn_admin_*.c

    [register], [revoke], [list] and [show], and the [main] that dispatches to
    them.  A command is its option loop followed by what it does with the
    options; the pool it allocates from belongs to [main]. *)

From S2P Require Import Prelude Effects Externals Samples AuthData Hash Cose Attestation.
From S2P Require Import Redis RedisCalls Credential AdminMain.
#[global] Open Scope Z_scope.

(** ** Formatting *)

Definition printf (text : bytes) : prog unit := fputs false text.

(** [%-Ns]. *)
Definition pad (n : nat) (s : bytes) : bytes := s ++ replicate (n - length s) Byte.x20.

(** ** revoke *)

Definition OPT_CREDENTIAL_ID : Z := AUTH_WEBAUTHN_ADMIN_OPT_SUBCOMMAND_BASE.
Definition OPT_USER_ID : Z := AUTH_WEBAUTHN_ADMIN_OPT_SUBCOMMAND_BASE.

Definition option_table (own : list (bytes * Z)) : list longopt :=
  ((fun o => {| opt_name := o.1; has_arg := true; opt_val := o.2 |}) <$> own) ++ common_longopts.

Definition ngx_auth_webauthn_admin_revoke_usage (stderr : bool) : prog unit :=
  fputs stderr (lines [
    bs "usage: auth-webauthn-admin revoke --credential-id=<id> [options]";
    [];
    bs "options:";
    bs "  --credential-id=<b64url>   credential to delete (required)";
    bs "  --redis=<host:port> ...    see 'auth-webauthn-admin --help'"]).

(** The settings, and the one option of revoke, list and show. *)
Abbreviation one_option := (auth_webauthn_admin_ctx_t * ptr bytes)%type.

(** The switch of the three commands that have one option of their own. *)
Definition one_option_step (own : Z) (usage : bool -> prog unit) (l : one_option) (c : Z)
    (optarg : ptr bytes) : prog (Z + one_option) :=
  if c =? own then Ret (inr (l.1, optarg))
  else if c =? OPT_h then usage false ;; Ret (inl AUTH_WEBAUTHN_ADMIN_EX_OK)
  else if c =? OPT_unknown then Ret (inl AUTH_WEBAUTHN_ADMIN_EX_USAGE)
  else common_opt l.1 (fun ctx => (ctx, l.2)) c optarg.

(** After the loop. *)
Definition revoke_run (ctx : auth_webauthn_admin_ctx_t) (credential_id : ptr bytes) : prog Z :=
  match credential_id with
  | None =>
      print_error (bs "--credential-id is required") ;; Ret AUTH_WEBAUTHN_ADMIN_EX_USAGE
  | Some _ =>
      let cid := credential_id in
      out <- auth_webauthn_admin_connect ctx ;;
      if negb (is_ok out.1) then Ret AUTH_WEBAUTHN_ADMIN_EX_FAIL else
      let redis := out.2 in
      rc <- ngx_auth_webauthn_credential_delete redis (Some tt) (Some (adm_key_prefix ctx))
              (Some cid) ;;
      ngx_auth_webauthn_redis_close redis ;;
      match rc with
      | NGX_DECLINED =>
          print_error (bs "no such credential") ;; Ret AUTH_WEBAUTHN_ADMIN_EX_FAIL
      | NGX_ERROR =>
          print_error (bs "failed to revoke credential") ;; Ret AUTH_WEBAUTHN_ADMIN_EX_FAIL
      | NGX_OK =>
          printf (bs "revoked: cid=" ++ fmt_str cid ++ newline) ;; Ret AUTH_WEBAUTHN_ADMIN_EX_OK
      end
  end.

(** ** list *)

Definition ngx_auth_webauthn_admin_list_usage (stderr : bool) : prog unit :=
  fputs stderr (lines [
    bs "usage: auth-webauthn-admin list --user-id=<id> [options]";
    [];
    bs "options:";
    bs "  --user-id=<id>            user whose credentials to list (required)";
    bs "  --redis=<host:port> ...   see 'auth-webauthn-admin --help'"]).

Definition ngx_auth_webauthn_admin_index_key (prefix uid : ngx_str_t) : prog (ngx_rc * ngx_str_t) :=
  let mid := bs "user:" in
  let suffix := bs ":creds" in
  p <- pool_fill (str_len prefix + zlen mid + str_len uid + zlen suffix)
         (str_bytes prefix ++ mid ++ str_bytes uid ++ suffix) ;;
  match p with
  | None => Ret (NGX_ERROR, NULL)
  | Some d => Ret (NGX_OK, Some d)
  end.

(** One row of the table; the record of an index entry may be gone. *)
Definition list_row (member : ngx_str_t) (rc : ngx_rc) (cred : ngx_auth_webauthn_credential_t)
    : bytes :=
  match rc with
  | NGX_OK =>
      pad 43 (fmt_str member) ++ bs " " ++ pad 6 (auth_webauthn_admin_alg_name (cr_alg cred)) ++
      bs " " ++ pad 11 (dec (cr_sign_count cred)) ++ bs " " ++
      auth_webauthn_admin_fmt_time (cr_created_at cred) 24 ++ newline
  | _ => pad 43 (fmt_str member) ++ bs " " ++ pad 6 (bs "?") ++ bs " " ++ pad 11 (bs "?") ++
         bs " " ++ bs "(missing)" ++ newline
  end.

Fixpoint list_rows (redis : ptr ngx_auth_webauthn_redis_t) (prefix : ngx_str_t)
    (members : list ngx_str_t) : prog unit :=
  match members with
  | [] => Ret tt
  | m :: members =>
      '(rc, cred) <- ngx_auth_webauthn_credential_get redis (Some tt) (Some prefix) (Some m)
                       (Some (cred_zero NULL)) ;;
      cred <- deref cred ;;
      printf (list_row m rc cred) ;;
      list_rows redis prefix members
  end.

Definition list_run (ctx : auth_webauthn_admin_ctx_t) (user_id : ptr bytes) : prog Z :=
  match user_id with
  | None => print_error (bs "--user-id is required") ;; Ret AUTH_WEBAUTHN_ADMIN_EX_USAGE
  | Some _ =>
      '(rc, index_key) <- ngx_auth_webauthn_admin_index_key (adm_key_prefix ctx) user_id ;;
      if negb (is_ok rc) then Ret AUTH_WEBAUTHN_ADMIN_EX_FAIL else
      out <- auth_webauthn_admin_connect ctx ;;
      if negb (is_ok out.1) then Ret AUTH_WEBAUTHN_ADMIN_EX_FAIL else
      let redis := out.2 in
      '(rc, members) <- ngx_auth_webauthn_redis_smembers redis (Some tt) (Some index_key)
                          (Some tt) (Some tt) ;;
      if negb (is_ok rc) then
        print_error (bs "failed to read credential index") ;;
        ngx_auth_webauthn_redis_close redis ;;
        Ret AUTH_WEBAUTHN_ADMIN_EX_FAIL
      else
      printf (pad 43 (bs "CREDENTIAL_ID") ++ bs " " ++ pad 6 (bs "ALG") ++ bs " " ++
              pad 11 (bs "SIGN_COUNT") ++ bs " " ++ bs "CREATED_AT" ++ newline) ;;
      list_rows redis (adm_key_prefix ctx) members ;;
      ngx_auth_webauthn_redis_close redis ;;
      Ret AUTH_WEBAUTHN_ADMIN_EX_OK
  end.

(** ** show *)

Definition ngx_auth_webauthn_admin_show_usage (stderr : bool) : prog unit :=
  fputs stderr (lines [
    bs "usage: auth-webauthn-admin show --credential-id=<id> [options]";
    [];
    bs "options:";
    bs "  --credential-id=<b64url>   credential to display (required)";
    bs "  --redis=<host:port> ...    see 'auth-webauthn-admin --help'"]).

Definition admin_hex : bytes := bs "0123456789abcdef".
Definition hex_digit (i : Z) : byte := nth (Z.to_nat i) admin_hex Byte.x00.

(** Bytes of the buffer holding the text. *)
Definition AAGUID_BUF : Z := 40.

(** Index and next dash. *)
Fixpoint aaguid_loop (g : bytes) (i : Z) (dashes : list Z) : bytes :=
  match g with
  | [] => []
  | c :: g =>
      let at_dash := match dashes with d :: _ => i =? d | [] => false end in
      (if at_dash then [Byte.x2d] else []) ++
      [hex_digit (Z.shiftr (b2z c) 4); hex_digit (Z.land (b2z c) 15)] ++
      aaguid_loop g (i + 1) (if at_dash then tail dashes else dashes)
  end.

(** The text in [buf]; undefined when the AAGUID is short or the text and its
    NUL overrun the buffer. *)
Definition ngx_auth_webauthn_admin_aaguid_fmt (g : bytes) : prog bytes :=
  let text := aaguid_loop (take 16 g) 0 [4; 6; 8; 10] in
  if (zlen g <? NGX_AUTH_WEBAUTHN_AAGUID_LEN) || (AAGUID_BUF <=? zlen text) then UB
  else Ret text.

Definition show_print (cid : ngx_str_t) (cred : ngx_auth_webauthn_credential_t) : prog unit :=
  printf (bs "credential_id: " ++ fmt_str cid ++ newline) ;;
  printf (bs "user_id:       " ++ fmt_str (cr_user_id cred) ++ newline) ;;
  printf (bs "alg:           " ++ auth_webauthn_admin_alg_name (cr_alg cred) ++ bs " (" ++
          dec (cr_alg cred) ++ bs ")" ++ newline) ;;
  printf (bs "sign_count:    " ++ dec (cr_sign_count cred) ++ newline) ;;
  printf (bs "created_at:    " ++ auth_webauthn_admin_fmt_time (cr_created_at cred) 24 ++ newline) ;;
  printf (bs "last_used_at:  " ++ auth_webauthn_admin_fmt_time (cr_last_used_at cred) 24 ++ newline) ;;
  (if negb (cr_has_aaguid cred =? 0) then
     text <- ngx_auth_webauthn_admin_aaguid_fmt (cr_aaguid cred) ;;
     printf (bs "aaguid:        " ++ text ++ newline)
   else printf (bs "aaguid:        -" ++ newline)) ;;
  (if 0 <? str_len (cr_transports cred) then
     printf (bs "transports:    " ++ fmt_str (cr_transports cred) ++ newline)
   else printf (bs "transports:    -" ++ newline)) ;;
  printf (bs "public_key:    " ++ dec (str_len (cr_public_key cred)) ++
          bs " bytes (DER SubjectPublicKeyInfo)" ++ newline).

Definition show_run (ctx : auth_webauthn_admin_ctx_t) (credential_id : ptr bytes) : prog Z :=
  match credential_id with
  | None =>
      print_error (bs "--credential-id is required") ;; Ret AUTH_WEBAUTHN_ADMIN_EX_USAGE
  | Some _ =>
      let cid := credential_id in
      out <- auth_webauthn_admin_connect ctx ;;
      if negb (is_ok out.1) then Ret AUTH_WEBAUTHN_ADMIN_EX_FAIL else
      let redis := out.2 in
      '(rc, cred) <- ngx_auth_webauthn_credential_get redis (Some tt) (Some (adm_key_prefix ctx))
                       (Some cid) (Some (cred_zero NULL)) ;;
      ngx_auth_webauthn_redis_close redis ;;
      match rc with
      | NGX_DECLINED =>
          print_error (bs "no such credential") ;; Ret AUTH_WEBAUTHN_ADMIN_EX_FAIL
      | NGX_ERROR =>
          print_error (bs "failed to read credential") ;; Ret AUTH_WEBAUTHN_ADMIN_EX_FAIL
      | NGX_OK =>
          cred <- deref cred ;;
          show_print cid cred ;;
          Ret AUTH_WEBAUTHN_ADMIN_EX_OK
      end
  end.

(** ** register *)

Definition AUTH_WEBAUTHN_ADMIN_CID_ECHO : Z := 12.
Definition OPT_RESPONSE_FILE : Z := AUTH_WEBAUTHN_ADMIN_OPT_SUBCOMMAND_BASE + 1.
Definition OPT_RP_ID : Z := AUTH_WEBAUTHN_ADMIN_OPT_SUBCOMMAND_BASE + 2.
Definition OPT_REQUIRE_ATTESTATION : Z := AUTH_WEBAUTHN_ADMIN_OPT_SUBCOMMAND_BASE + 3.
Definition OPT_ORIGIN : Z := AUTH_WEBAUTHN_ADMIN_OPT_SUBCOMMAND_BASE + 4.
Definition OPT_TRANSPORTS : Z := AUTH_WEBAUTHN_ADMIN_OPT_SUBCOMMAND_BASE + 5.

Definition ngx_auth_webauthn_admin_register_usage (stderr : bool) : prog unit :=
  fputs stderr (lines [
    bs "usage: auth-webauthn-admin register [options]";
    [];
    bs "options:";
    bs "  --user-id=<id>                 application user id (required)";
    bs "  --response-file=<path>         AttestationResponse JSON; '-' reads";
    bs "                                 stdin (required)";
    bs "  --rp-id=<domain>               expected RP ID (required)";
    bs "  --require-attestation=none|packed";
    bs "                                 attestation level (default none)";
    bs "  --origin=<url>                 accepted but not verified here";
    bs "  --transports=<csv>             override transports (usb,nfc,...)";
    bs "  --redis=<host:port> ...        see 'auth-webauthn-admin --help'"]).

(** The locals of the option loop. *)
Record register_opts := {
  ro_ctx : auth_webauthn_admin_ctx_t;
  ro_user_id : ptr bytes;
  ro_response_file : ptr bytes;
  ro_rp_id : ptr bytes;
  ro_require : ptr bytes;
  ro_transports : ptr bytes;
}.

Definition register_step (l : register_opts) (c : Z) (optarg : ptr bytes) : prog (Z + register_opts) :=
  let 'Build_register_opts ctx user file rp req tr := l in
  if c =? OPT_USER_ID then Ret (inr (Build_register_opts ctx optarg file rp req tr))
  else if c =? OPT_RESPONSE_FILE then Ret (inr (Build_register_opts ctx user optarg rp req tr))
  else if c =? OPT_RP_ID then Ret (inr (Build_register_opts ctx user file optarg req tr))
  else if c =? OPT_REQUIRE_ATTESTATION then
    Ret (inr (Build_register_opts ctx user file rp optarg tr))
  else if c =? OPT_ORIGIN then Ret (inr l)
  else if c =? OPT_TRANSPORTS then Ret (inr (Build_register_opts ctx user file rp req optarg))
  else if c =? OPT_h then
    ngx_auth_webauthn_admin_register_usage false ;; Ret (inl AUTH_WEBAUTHN_ADMIN_EX_OK)
  else if c =? OPT_unknown then Ret (inl AUTH_WEBAUTHN_ADMIN_EX_USAGE)
  else common_opt ctx (fun ctx => Build_register_opts ctx user file rp req tr) c optarg.

(** [--require-attestation]: [None] when it is neither. *)
Definition require_of (require_arg : ptr bytes) : option Z :=
  match require_arg with
  | None => Some NGX_AUTH_WEBAUTHN_ATT_NONE
  | Some s =>
      if bytes_eqb s (bs "packed") then Some NGX_AUTH_WEBAUTHN_ATT_PACKED
      else if bytes_eqb s (bs "none") then Some NGX_AUTH_WEBAUTHN_ATT_NONE
      else None
  end.

(** The credential that is stored. *)
Definition registered_credential (cid der : ngx_str_t) (user_id : bytes) (alg now : Z)
    (ad : ngx_auth_webauthn_authdata_t) (transports : ptr bytes) : ngx_auth_webauthn_credential_t :=
  {| cr_credential_id := cid; cr_user_id := Some user_id; cr_public_key := der; cr_alg := alg;
     cr_sign_count := sign_count ad; cr_created_at := now; cr_last_used_at := 0;
     cr_aaguid := aaguid ad; cr_has_aaguid := 1; cr_transports := transports |}.

Section register.
Context `{JSON : NxeJson, B64 : NginxBase64, CBOR : Cbor, SSL : OpenSSL, KEYS : !OpenSSLKeys}.

(** Return code and [*out]. *)
Definition ngx_auth_webauthn_admin_decode_member (obj : nxe_json_t) (key : bytes)
    : prog (ngx_rc * ngx_str_t) :=
  match (nxe_json_object_get obj key ≫= nxe_json_string) with
  | None =>
      print_error (bs "response." ++ key ++ bs " missing or not a string") ;;
      Ret (NGX_ERROR, NULL)
  | Some enc =>
      ok <- call (ngx_pnalloc (size_t (ngx_base64_decoded_length (zlen enc)))) ;;
      if negb ok then Ret (NGX_ERROR, NULL) else
      match ngx_decode_base64url enc with
      | None =>
          print_error (bs "response." ++ key ++ bs " is not valid base64url") ;;
          Ret (NGX_ERROR, NULL)
      | Some out =>
          if size_t (ngx_base64_decoded_length (zlen enc)) <? zlen out then UB
          else Ret (NGX_OK, Some out)
      end
  end.

(** Print a message, if any, and leave with failure: every error between the
    parsing and the freeing of the JSON document. *)
Definition register_fail (msg : ptr bytes) : prog (option (ngx_auth_webauthn_credential_t * Z)) :=
  match msg with None => Ret tt | Some msg => print_error msg end ;;
  call (res_free R_JSON) ;;
  Ret None.

(** From the attestation object and the client data to the credential; [None]
    after an error. *)
Definition register_attested (user_id rp_id_arg : bytes) (transports : ptr bytes) (require : Z)
    (client_data att_obj : ngx_str_t) : prog (option (ngx_auth_webauthn_credential_t * Z)) :=
  '(rc, att) <- ngx_auth_webauthn_attestation_parse (Some tt) att_obj (str_len att_obj)
                  (Some attestation_zero) ;;
  if negb (is_ok rc) then register_fail (Some (bs "cannot parse attestationObject")) else
  att <- deref att ;;
  '(rc, ad) <- defined (ngx_auth_webauthn_authdata_parse (att_auth_data att)
                          (str_len (att_auth_data att)) (Some authdata_zero)) ;;
  if negb (is_ok rc) then register_fail (Some (bs "cannot parse authenticatorData")) else
  ad <- deref ad ;;
  if (Z.land (flags ad) NGX_AUTH_WEBAUTHN_AUTHDATA_FLAG_AT =? 0)
     || (str_len (credential_id ad) =? 0) || (str_len (cose_public_key ad) =? 0)
  then register_fail (Some (bs "authenticatorData carries no attested credential")) else
  let '(rc, cdh) := ngx_auth_webauthn_hash_sha256 client_data (str_len client_data) (Some tt) in
  if negb (is_ok rc) then register_fail (Some (bs "clientDataJSON hashing failed")) else
  rc <- ngx_auth_webauthn_attestation_verify (Some tt) (Some att) (Some (Some rp_id_arg))
          (Some (Some cdh)) require ;;
  if negb (is_ok rc) then
    register_fail (Some (bs "attestation verification failed (fmt=" ++ fmt_str (att_fmt att) ++
      bs ", require=" ++
      (if require =? NGX_AUTH_WEBAUTHN_ATT_PACKED then bs "packed" else bs "none") ++ bs ")"))
  else
  '(rc, der, alg) <- ngx_auth_webauthn_cose_to_der (Some tt) (cose_public_key ad)
                       (str_len (cose_public_key ad)) (Some NULL) (Some 0) ;;
  if negb (is_ok rc) then
    register_fail (Some (bs "unsupported or malformed COSE public key")) else
  der <- deref der ;;
  alg <- deref alg ;;
  cid <- pool_fill (ngx_base64_encoded_length (str_len (credential_id ad)))
           (ngx_encode_base64url (str_bytes (credential_id ad))) ;;
  match cid with
  | None => register_fail None
  | Some cid =>
      now <- call ngx_time ;;
      Ret (Some (registered_credential (Some cid) der user_id alg now ad transports, alg))
  end.

(** From the response file's text to the credential. *)
Definition register_response (user_id rp_id_arg : bytes) (transports : ptr bytes) (require : Z)
    (body : bytes) : prog (option (ngx_auth_webauthn_credential_t * Z)) :=
  match nxe_json_parse_untrusted body with
  | None => print_error (bs "response file is not valid JSON") ;; Ret None
  | Some json =>
      call (res_hold R_JSON) ;;
      match nxe_json_object_get json (bs "response") with
      | None => register_fail (Some (bs "missing 'response' object"))
      | Some response =>
          if negb (nxe_json_is_object response) then
            register_fail (Some (bs "missing 'response' object")) else
          '(rc, client_data) <-
             ngx_auth_webauthn_admin_decode_member response (bs "clientDataJSON") ;;
          if negb (is_ok rc) then register_fail None else
          '(rc, att_obj) <-
             ngx_auth_webauthn_admin_decode_member response (bs "attestationObject") ;;
          if negb (is_ok rc) then register_fail None else
          register_attested user_id rp_id_arg transports require client_data att_obj
      end
  end.

(** Storing it; the JSON document is still held. *)
Definition register_store (ctx : auth_webauthn_admin_ctx_t)
    (cred : ngx_auth_webauthn_credential_t) (alg : Z) : prog Z :=
  out <- auth_webauthn_admin_connect ctx ;;
  if negb (is_ok out.1) then
    call (res_free R_JSON) ;; Ret AUTH_WEBAUTHN_ADMIN_EX_FAIL
  else
  let redis := out.2 in
  rc <- ngx_auth_webauthn_credential_put redis (Some tt) (Some (adm_key_prefix ctx)) (Some cred) ;;
  ngx_auth_webauthn_redis_close redis ;;
  call (res_free R_JSON) ;;
  if negb (is_ok rc) then
    print_error (bs "failed to store credential in Redis") ;; Ret AUTH_WEBAUTHN_ADMIN_EX_FAIL
  else
  let cid := cr_credential_id cred in
  let echo := Z.min (str_len cid) AUTH_WEBAUTHN_ADMIN_CID_ECHO in
  printf (bs "registered: cid=" ++ take (Z.to_nat echo) (str_bytes cid) ++
          (if AUTH_WEBAUTHN_ADMIN_CID_ECHO <? str_len cid then bs "..." else []) ++
          bs " alg=" ++ auth_webauthn_admin_alg_name alg ++ newline) ;;
  Ret AUTH_WEBAUTHN_ADMIN_EX_OK.

(** After the option loop. *)
Definition register_run (l : register_opts) : prog Z :=
  match ro_user_id l, ro_response_file l, ro_rp_id l with
  | Some user_id, Some _, Some rp_id_arg =>
      match require_of (ro_require l) with
      | None =>
          print_error (bs "--require-attestation expects none|packed") ;;
          Ret AUTH_WEBAUTHN_ADMIN_EX_USAGE
      | Some require =>
          '(rc, body) <- auth_webauthn_admin_read_file (ro_response_file l) ;;
          if negb (is_ok rc) then Ret AUTH_WEBAUTHN_ADMIN_EX_FAIL else
          cred <- register_response user_id rp_id_arg (ro_transports l) require (str_bytes body) ;;
          match cred with
          | None => Ret AUTH_WEBAUTHN_ADMIN_EX_FAIL
          | Some (cred, alg) => register_store (ro_ctx l) cred alg
          end
      end
  | _, _, _ =>
      print_error (bs "--user-id, --response-file and --rp-id are required") ;;
      Ret AUTH_WEBAUTHN_ADMIN_EX_USAGE
  end.

(** ** The commands and main *)

Context `{OPT : Getopt}.

Definition register_longopts : list longopt := option_table
  [(bs "user-id", OPT_USER_ID); (bs "response-file", OPT_RESPONSE_FILE); (bs "rp-id", OPT_RP_ID);
   (bs "require-attestation", OPT_REQUIRE_ATTESTATION); (bs "origin", OPT_ORIGIN);
   (bs "transports", OPT_TRANSPORTS)].

Definition auth_webauthn_admin_cmd_register (ctx : auth_webauthn_admin_ctx_t) (argv : list bytes)
    : prog Z :=
  out <- parse_opts register_step (getopt_long register_longopts argv)
           (Build_register_opts ctx NULL NULL NULL NULL NULL) ;;
  match out with
  | inl code => Ret code
  | inr l => register_run l
  end.

(** The commands with one option of their own. *)
Definition one_option_cmd (name : bytes) (own : Z) (usage : bool -> prog unit)
    (run : auth_webauthn_admin_ctx_t -> ptr bytes -> prog Z)
    (ctx : auth_webauthn_admin_ctx_t) (argv : list bytes) : prog Z :=
  out <- parse_opts (one_option_step own usage) (getopt_long (option_table [(name, own)]) argv)
           (ctx, NULL) ;;
  match out with
  | inl code => Ret code
  | inr (ctx, arg) => run ctx arg
  end.

Definition auth_webauthn_admin_cmd_revoke :=
  one_option_cmd (bs "credential-id") OPT_CREDENTIAL_ID ngx_auth_webauthn_admin_revoke_usage
    revoke_run.
Definition auth_webauthn_admin_cmd_list :=
  one_option_cmd (bs "user-id") OPT_USER_ID ngx_auth_webauthn_admin_list_usage list_run.
Definition auth_webauthn_admin_cmd_show :=
  one_option_cmd (bs "credential-id") OPT_CREDENTIAL_ID ngx_auth_webauthn_admin_show_usage show_run.

Definition AUTH_WEBAUTHN_ADMIN_VERSION : bytes := bs "0.1.0".

Definition main (argv : list bytes) : prog Z :=
  match argv with
  | _ :: cmd :: args =>
      if bytes_eqb cmd (bs "-h") || bytes_eqb cmd (bs "--help") then
        ngx_auth_webauthn_admin_usage false ;; Ret AUTH_WEBAUTHN_ADMIN_EX_OK
      else if bytes_eqb cmd (bs "-V") || bytes_eqb cmd (bs "--version") then
        printf (bs "auth-webauthn-admin " ++ AUTH_WEBAUTHN_ADMIN_VERSION ++ newline) ;;
        Ret AUTH_WEBAUTHN_ADMIN_EX_OK
      else
      pool <- call (res_new R_POOL) ;;
      if negb pool then print_error (bs "out of memory") ;; Ret AUTH_WEBAUTHN_ADMIN_EX_FAIL else
      let ctx := {| adm_redis_host := NULL; adm_redis_port := 0; adm_redis_password := NULL;
                    adm_redis_db := 0; adm_redis_timeout_ms := AUTH_WEBAUTHN_ADMIN_TIMEOUT_MS;
                    adm_key_prefix := Some ngx_auth_webauthn_admin_default_prefix |} in
      rc <- (if bytes_eqb cmd (bs "register") then auth_webauthn_admin_cmd_register ctx args
             else if bytes_eqb cmd (bs "revoke") then auth_webauthn_admin_cmd_revoke ctx args
             else if bytes_eqb cmd (bs "list") then auth_webauthn_admin_cmd_list ctx args
             else if bytes_eqb cmd (bs "show") then auth_webauthn_admin_cmd_show ctx args
             else
               fputs true (bs "error: unknown command '" ++ cmd ++ bs "'" ++ newline ++ newline) ;;
               ngx_auth_webauthn_admin_usage true ;;
               Ret AUTH_WEBAUTHN_ADMIN_EX_USAGE) ;;
      call (res_free R_POOL) ;;
      Ret rc
  | _ => ngx_auth_webauthn_admin_usage true ;; Ret AUTH_WEBAUTHN_ADMIN_EX_USAGE
  end.
End register.
