(* ===== verification/AdminSound.v ===== *)
(** * What the command-line tool guarantees

    On every path of [main], whatever the files, the response, the server and
    the allocator do: memory safety, everything released, and an exit code
    of the three.  The claim itself is stated in AdminRegister.v, where its
    samples are. *)

From S2P Require Import Prelude Effects Externals Base64 Samples AuthData Hash ClientData Assertion.
From S2P Require Import SamplesCbor Cose Attestation Redis RedisCalls RedisSpec RedisOps Challenge.
From S2P Require Import Credential Conf Http Vocabulary AdminMain AdminCommands.
#[global] Open Scope Z_scope.

(** ** From traces to resources *)

(** What holds of the returned value on every trace also holds when counting
    resources. *)
Lemma wlp_held {A} (p : prog A) (R : A -> held -> Prop) (P : A -> Prop) (w : held) (h : trace) :
  wp p R w -> wlp p (fun a _ => P a) h -> wp p (fun a w' => R a w' /\ P a) w.
Proof.
  revert w h. induction p as [a| |e k IH]; intros w h; simpl; [done|done|].
  intros [Hpre Hk] Hl. split; [done|]. intros a w' [Ha ->]. eapply IH; [by apply Hk|by apply Hl].
Qed.

(** ** Options *)

Definition common_code (c : Z) : bool :=
  (AUTH_WEBAUTHN_ADMIN_OPT_REDIS <=? c) && (c <=? AUTH_WEBAUTHN_ADMIN_OPT_KEY_PREFIX).

(** The strings of the settings are arguments or the default. *)
Definition ctx_fits (ctx : auth_webauthn_admin_ctx_t) : Prop :=
  fits (str_bytes (adm_redis_host ctx)) /\ fits (str_bytes (adm_key_prefix ctx)).

Lemma fits_take n b : fits b -> fits (take n b).
Proof. unfold fits, zlen. rewrite length_take. lia. Qed.

Lemma fputs_held {A} err text (k : unit -> prog A) Q (w : held) :
  wp (k tt) Q w -> wp (bind (fputs err text) k) Q w.
Proof. intros Hk. apply wp_bind, wp_held_call; [done|]. by intros [] _. Qed.

(** Past the messages a program prints next. *)
Ltac print_step :=
  lazymatch goal with
  | |- wp (bind (print_error _) _) _ _ => apply fputs_held
  | |- wp (bind (fputs _ _) _) _ _ => apply fputs_held
  | |- wp (bind (printf _) _) _ _ => apply fputs_held
  end.

Lemma parse_common_held ctx c optarg (w : held) :
  (common_code c = true -> exists a, optarg = Some a /\ fits a) -> ctx_fits ctx ->
  wp (auth_webauthn_admin_parse_common_opt ctx c optarg)
     (fun out (w' : held) => w' = w /\ ctx_fits out.2) w.
Proof.
  intros Harg [Hh Hp]. unfold auth_webauthn_admin_parse_common_opt.
  destruct (Z.eqb_spec c AUTH_WEBAUTHN_ADMIN_OPT_REDIS) as [->|_].
  { destruct (Harg eq_refl) as (a & -> & Ha). cbn [deref bind].
    destruct (strrchr a Byte.x3a) as [colon|]; [|print_step; by split].
    destruct (_ || _); [print_step; by split|]. destruct (out_of_range _ _ _); [print_step|];
      (split; [done|]); (split; [by apply fits_take|done]). }
  destruct (Z.eqb_spec c AUTH_WEBAUTHN_ADMIN_OPT_REDIS_PASSWORD) as [->|_].
  { destruct (Harg eq_refl) as (a & -> & Ha). cbn [deref bind]. destruct (memeq _ _ _); [|by split].
    apply wp_bind, input_file_held; by split. }
  destruct (Z.eqb_spec c AUTH_WEBAUTHN_ADMIN_OPT_REDIS_DB) as [->|_].
  { destruct (Harg eq_refl) as (a & -> & Ha). cbn [deref bind].
    destruct (out_of_range _ _ _); [print_step|]; by split. }
  destruct (Z.eqb_spec c AUTH_WEBAUTHN_ADMIN_OPT_REDIS_TIMEOUT) as [->|_].
  { destruct (Harg eq_refl) as (a & -> & Ha). cbn [deref bind].
    destruct (out_of_range _ _ _); [print_step|]; by split. }
  destruct (Z.eqb_spec c AUTH_WEBAUTHN_ADMIN_OPT_KEY_PREFIX) as [->|_]; [|by split].
  destruct (Harg eq_refl) as (a & -> & Ha). cbn [deref bind]. by split.
Qed.

Lemma common_opt_held {A} ctx (locals : auth_webauthn_admin_ctx_t -> A) c optarg
    (I : A -> Prop) (w : held) :
  (common_code c = true -> exists a, optarg = Some a /\ fits a) -> ctx_fits ctx ->
  (forall ctx', ctx_fits ctx' -> I (locals ctx')) ->
  wp (common_opt ctx locals c optarg) (fun out (w' : held) => w' = w /\
        match out with inl code => 0 <= code <= 2 | inr l => I l end) w.
Proof.
  intros Harg Hc HI. eapply wp_seq; [by apply parse_common_held|].
  intros [rc ctx'] w' [-> Hc']. destruct rc; (split; [done|]); by auto.
Qed.

Lemma parse_opts_held {A} (step : A -> Z -> ptr bytes -> prog (Z + A)) (I : A -> Prop) opts l
    (w : held) :
  (forall l c a, (c, a) ∈ opts -> I l -> wp (step l c a) (fun out (w' : held) => w' = w /\
        match out with inl code => 0 <= code <= 2 | inr l => I l end) w) ->
  I l -> wp (parse_opts step opts l) (fun out (w' : held) => w' = w /\
        match out with inl code => 0 <= code <= 2 | inr l => I l end) w.
Proof.
  revert l. induction opts as [|[c a] opts IH]; intros l Hstep Hl; cbn [parse_opts]; [done|].
  eapply wp_seq; [apply Hstep; [set_solver|done]|]. intros [code|l'] w' [-> Hl']; [done|].
  apply IH; [|done]. intros l1 c1 a1 Hin. apply Hstep. set_solver.
Qed.

(** What getopt_long delivers for a table of the program. *)
Definition delivered (own : list (bytes * Z)) (c : Z) (a : ptr bytes) : Prop :=
  (c ∈ own.*2 \/ common_code c = true -> exists s, a = Some s) /\
  (forall s, a = Some s -> fits s).

Lemma common_has_arg o : o ∈ common_longopts -> has_arg o = true \/ opt_val o = OPT_h.
Proof.
  revert o. apply list.Forall_forall. repeat (constructor; [by (left + right)|]). constructor.
Qed.

Lemma getopt_delivered `{GetoptLaws} own argv c a :
  Forall fits argv -> Forall (fun o => o.2 <> OPT_h /\ o.2 <> OPT_unknown) own ->
  (c, a) ∈ getopt_long (option_table own) argv -> delivered own c a.
Proof.
  intros Hargv Hown Hin. split.
  - intros Hc. destruct (getopt_value _ _ _ _ Hin) as [->|[->|(o & Ho & <- & Ha)]].
    1-2: destruct Hc as [Hc|Hc]; [|done]; apply list_elem_of_fmap in Hc as (o & E & Ho);
      by destruct (proj1 (list.Forall_forall _ _) Hown o Ho).
    destruct a as [s|]; [by exists s|]. exfalso. apply Ha; [|done].
    apply elem_of_app in Ho as [Ho|Ho].
    + by apply list_elem_of_fmap in Ho as (x & -> & _).
    + destruct (common_has_arg _ Ho) as [|E]; [done|]. rewrite E in Hc.
      destruct Hc as [Hc|Hc]; [|done]. apply list_elem_of_fmap in Hc as (x & Ex & Hx).
      by destruct (proj1 (list.Forall_forall _ _) Hown x Hx).
  - intros s ->. destruct (getopt_arg _ _ _ _ Hin) as (arg & Harg & [pre ->]).
    apply (proj1 (list.Forall_forall _ _) Hargv) in Harg. unfold fits in *.
    rewrite zlen_app in Harg. pose proof (zlen_nonneg pre). lia.
Qed.

(** ** The commands release everything *)

(** The result of a command: nothing kept, one of the three exit codes. *)
Abbreviation exits w := (fun code (w' : held) => w' = w /\ 0 <= code <= 2).

Lemma admin_connect_held ctx Q (w : held) : ctx_fits ctx ->
  Q (NGX_OK, open_redis) (w ⊎ {[+ REDIS_CTX +]}) -> Q (NGX_ERROR, NULL) w ->
  wp (auth_webauthn_admin_connect ctx) Q w.
Proof.
  intros [Hh _] H1 H0. unfold auth_webauthn_admin_connect. destruct (_ || _); [by print_step|].
  apply wp_bind, connect_held; cbn [fst snd is_ok negb].
  - by intros c [= <-].
  - done.
  - by print_step.
Qed.

Lemma close_bind {A} (k : prog A) Q (w : held) :
  wp k Q w -> wp (ngx_auth_webauthn_redis_close open_redis ;; k) Q (w ⊎ {[+ REDIS_CTX +]}).
Proof. intros Hk. apply wp_bind, close_held. by intros h _. Qed.

Lemma fits_prefix s : fits (str_bytes s) -> prefix_fits (Some s).
Proof. by intros Hs ? [= <-]. Qed.

Lemma revoke_held ctx id (w : held) : ctx_fits ctx -> (forall s, id = Some s -> fits s) ->
  wp (revoke_run ctx id) (exits w) w.
Proof.
  intros Hc Hid. unfold revoke_run. destruct id as [s|]; [|by print_step].
  apply wp_bind, admin_connect_held; [done| |done]. cbn [fst snd is_ok negb].
  apply wp_bind. eapply wp_balanced; [apply delete_balanced; apply fits_prefix; [apply Hc|by apply Hid]
                                     |apply needs_open|].
  intros rc. apply close_bind. destruct rc; by print_step.
Qed.

(** A record handed out by [get] has an AAGUID of 16 bytes. *)
Lemma get_field_aaguid p out out' : zlen (cr_aaguid out) = 16 ->
  get_field p out = Some out' -> zlen (cr_aaguid out') = 16.
Proof.
  intros Ho. unfold get_field. destruct out.
  destruct (ngx_auth_webauthn_credential_atoi64 (pair_value p)) as [rc v].
  repeat case_match; intros; simplify_eq; cbn in *; try done.
  match goal with H : (str_len _ =? AAGUID_LEN) = true |- _ => by apply Z.eqb_eq in H end.
Qed.

Lemma get_loop_aaguid pairs : forall out, zlen (cr_aaguid out) = 16 ->
  match get_loop pairs out with inl c => zlen (cr_aaguid c) = 16 | inr c => zlen (cr_aaguid c) = 16 end.
Proof.
  induction pairs as [|p rest IH]; intros out Ho; [done|]. cbn [get_loop].
  destruct (get_field p out) as [out'|] eqn:E; [|done]. apply IH. by eapply get_field_aaguid.
Qed.

Lemma get_record_held pre cid out Q (w : held) : fits (str_bytes pre) -> fits (str_bytes cid) ->
  REDIS_CTX ∈ w -> (forall rc c, zlen (cr_aaguid c) = 16 -> Q (rc, Some c) w) ->
  wp (ngx_auth_webauthn_credential_get open_redis (Some tt) (Some pre) (Some cid) (Some out)) Q w.
Proof.
  intros Hp Hc Hw HQ. unfold ngx_auth_webauthn_credential_get. cbn [nullp orb deref bind].
  assert (forall rc, Q (rc, Some (cred_zero cid)) w) as H0 by by intros; apply HQ.
  apply wp_bind, record_key_held; [done|done|apply H0|]. cbn [is_ok negb].
  apply wp_bind, hgetall_held; [unfold needs; cbn; multiset_solver|].
  intros [] pairs _; cbn [is_ok negb]; [|apply H0..].
  destruct (zlen pairs =? 0); [apply H0|].
  pose proof (get_loop_aaguid pairs (cred_zero cid) eq_refl) as Hg.
  destruct (get_loop pairs _); [by apply HQ|]. destruct (_ || _); by apply HQ.
Qed.

Lemma list_rows_held pre members (w : held) : fits (str_bytes pre) ->
  Forall (fun m => bulk (str_bytes m)) members ->
  wp (list_rows open_redis pre members) (fun _ (w' : held) => w' = w ⊎ {[+ REDIS_CTX +]})
     (w ⊎ {[+ REDIS_CTX +]}).
Proof.
  intros Hp. induction 1 as [|m ms Hm Hms IH]; [done|]. cbn [list_rows].
  apply wp_bind, get_record_held; [done|by apply bulk_fits|apply held_in|].
  intros rc c _. cbn [deref bind]. by print_step.
Qed.

Lemma admin_index_key_held pre uid Q (w : held) : fits (str_bytes pre) -> fits (str_bytes uid) ->
  Q (NGX_ERROR, NULL) w -> Q (NGX_OK, Some (ikey pre uid)) w ->
  wp (ngx_auth_webauthn_admin_index_key pre uid) Q w.
Proof. apply index_key_held. Qed.

Lemma list_held ctx uid (w : held) : ctx_fits ctx -> (forall s, uid = Some s -> fits s) ->
  wp (list_run ctx uid) (exits w) w.
Proof.
  intros Hc Hid. unfold list_run. destruct uid as [s|]; [|by print_step].
  apply wp_bind, admin_index_key_held; [apply Hc|by apply Hid|done|]. cbn [is_ok negb].
  apply wp_bind, admin_connect_held; [done| |done]. cbn [fst snd is_ok negb].
  apply wp_bind, smembers_held; [apply needs_open|]. intros rc members _ Hms.
  destruct rc; cbn [is_ok negb]; [|print_step; by apply close_bind..].
  print_step. eapply wp_seq; [by apply list_rows_held; [apply Hc|]|]. intros [] w' ->.
  by apply close_bind.
Qed.


(** *** The AAGUID text *)

Lemma aaguid_loop_len g : forall i ds, zlen (aaguid_loop g i ds) <= 2 * zlen g + zlen ds.
Proof.
  induction g as [|c g IH]; intros i ds; cbn [aaguid_loop].
  { pose proof (zlen_nonneg ds). rewrite zlen_nil. lia. }
  pose proof (IH (i + 1) ds) as H1. pose proof (IH (i + 1) (tail ds)) as H2.
  cbv zeta. destruct ds as [|d ds]; cbn [tail] in *; [|destruct (i =? d); cbn iota];
    rewrite ?zlen_app, ?zlen_cons, ?(@zlen_nil byte), ?(@zlen_nil Z) in *; lia.
Qed.

Lemma aaguid_fmt_held g Q (w : held) : zlen g = 16 ->
  (forall text, Q text w) -> wp (ngx_auth_webauthn_admin_aaguid_fmt g) Q w.
Proof.
  intros Hg HQ. unfold ngx_auth_webauthn_admin_aaguid_fmt. rewrite Hg.
  pose proof (aaguid_loop_len (take 16 g) 0 [4; 6; 8; 10]) as Hl.
  rewrite take_ge in * by (unfold zlen in Hg; lia). rewrite Hg in Hl.
  change (2 * 16 + zlen [4; 6; 8; 10]) with 36 in Hl. unfold AAGUID_BUF.
  destruct (Z.leb_spec 40 (zlen (aaguid_loop g 0 [4; 6; 8; 10]))); [lia|]. apply HQ.
Qed.

Lemma show_print_held cid c (w : held) : zlen (cr_aaguid c) = 16 ->
  wp (show_print cid c) (fun _ (w' : held) => w' = w) w.
Proof.
  intros Hg. unfold show_print. do 6 print_step.
  apply wp_seq with (fun _ (w' : held) => w' = w).
  { destruct (negb _); [|unfold printf, fputs; by held_steps].
    apply wp_bind, aaguid_fmt_held; [done|]. intros text. unfold printf, fputs. by held_steps. }
  intros [] ? ->. apply wp_seq with (fun _ (w' : held) => w' = w).
  { destruct (0 <? _); unfold printf, fputs; by held_steps. }
  intros [] ? ->. unfold printf, fputs. by held_steps.
Qed.

Lemma show_held ctx id (w : held) : ctx_fits ctx -> (forall s, id = Some s -> fits s) ->
  wp (show_run ctx id) (exits w) w.
Proof.
  intros Hc Hid. unfold show_run. destruct id as [s|]; [|by print_step].
  apply wp_bind, admin_connect_held; [done| |done]. cbn [fst snd is_ok negb].
  apply wp_bind, get_record_held; [apply Hc|by apply Hid|apply held_in|]. intros rc c Hg.
  apply close_bind. destruct rc; [|by print_step..]. cbn [deref bind].
  eapply wp_seq; [by apply show_print_held|]. by intros [] w' ->.
Qed.

(** *** register *)

Section register.
Context `{JSON : NxeJson, B64 : NginxBase64, CBOR : Cbor, SSL : OpenSSL, KEYS : !OpenSSLKeys}.

(** A neutral program, with what its traces show of its value. *)
Lemma balanced_value {A} (p : prog A) (P : A -> Prop) (Q : A -> trace -> Prop) (w : held) :
  balanced ∅ p -> wp p Q ([] : trace) -> (forall a h, Q a h -> P a) ->
  wp p (fun a (w' : held) => w' = w /\ P a) w.
Proof.
  intros Hb Hq HP. eapply wlp_held; [by apply Hb, gmultiset_empty_subseteq|].
  eapply wlp_mono; [exact HP|]. by apply wp_wlp.
Qed.

Lemma decode_member_held `{!NxeJsonLaws, !NginxBase64Laws} obj key Q (w : held) :
  json_size obj < 2 ^ 32 -> Q (NGX_ERROR, NULL) w ->
  (forall b, zlen b < 2 ^ 33 -> Q (NGX_OK, Some b) w) ->
  wp (ngx_auth_webauthn_admin_decode_member obj key) Q w.
Proof.
  intros Hs HE HV. unfold ngx_auth_webauthn_admin_decode_member.
  destruct (nxe_json_object_get obj key) as [node|] eqn:Hn; cbn [mbind option_bind]; [|by print_step].
  destruct (nxe_json_string node) as [enc|] eqn:He; [|by print_step].
  apply get_size in Hn. apply string_size in He. pose proof (zlen_nonneg enc).
  assert (0 <= ngx_base64_decoded_length (zlen enc) < 2 ^ 33) as Hd
    by (unfold ngx_base64_decoded_length; div_lia).
  apply wp_bind, wp_held_call; [done|]. intros [] _; cbn [negb held_next]; [|done].
  destruct (ngx_decode_base64url enc) as [out|] eqn:Ho; [|by print_step].
  apply decode_fits in Ho. rewrite size_t_small by lia.
  destruct (Z.ltb_spec (ngx_base64_decoded_length (zlen enc)) (zlen out)); [lia|].
  apply HV. lia.
Qed.

Lemma register_fail_held msg (w : held) :
  wp (register_fail msg) (fun out (w' : held) => w' = w /\ out = None) (w ⊎ {[+ R_JSON +]}).
Proof.
  unfold register_fail. apply wp_seq with (fun _ (w' : held) => w' = w ⊎ {[+ R_JSON +]}).
  { destruct msg; [|done]. unfold print_error, fputs. by held_steps. }
  intros [] ? ->. apply wp_bind, wp_held_call; [apply held_in|]. intros [] _. cbn [held_next].
  by rewrite held_release.
Qed.

(** What leaves the parsing: an error and nothing held, or a credential
    whose strings fit, with the JSON document. *)
Definition attested (user_id : bytes) (w : held)
    (out : option (ngx_auth_webauthn_credential_t * Z)) (w' : held) : Prop :=
  match out with
  | None => w' = w
  | Some (c, _) => w' = w ⊎ {[+ R_JSON +]} /\ fits (str_bytes (cr_credential_id c)) /\
      cr_user_id c = Some user_id
  end.

Lemma fail_attested user_id msg (w : held) :
  wp (register_fail msg) (attested user_id w) (w ⊎ {[+ R_JSON +]}).
Proof.
  eapply wp_mono; [|apply register_fail_held]. by intros out w' [-> ->].
Qed.

Lemma decodes_size `{!CborLaws} data a :
  decodes data a -> exists ad, att_auth_data a = Some ad /\ zlen ad <= zlen data.
Proof.
  intros (root & Hl & Hm & Ha). apply load_size in Hl. unfold attestation_of in Ha.
  apply bind_Some in Ha as (fmt & _ & Ha). apply bind_Some in Ha as (ad & Had & Ha).
  apply bind_Some in Ha as (st & _ & [= <-]). exists ad. split; [done|].
  apply bind_Some in Had as (v & Hv & Hb). apply bytes_of_size in Hb.
  apply text_value_in in Hv as [k Hk]. apply (map_size root) in Hk as [_ Hk]; [|done]. lia.
Qed.

Lemma attestation_parse_value `{!CborLaws} data out (w : held) : zlen data < 2 ^ 63 ->
  wp (ngx_auth_webauthn_attestation_parse (Some tt) (Some data) (zlen data) (Some out))
     (fun out (w' : held) => w' = w /\
        (out.1 = NGX_OK -> exists a, out.2 = Some a /\ decodes data a)) w.
Proof.
  intros Hl. eapply balanced_value; [by apply attestation_parse_balanced|by apply attestation_parse_trace|].
  intros [rc a] h Hp. cbn. intros ->. exact Hp.
Qed.

Lemma to_der_value `{!OpenSSLKeysLaws} cose (w : held) :
  wp (ngx_auth_webauthn_cose_to_der (Some tt) (Some cose) (zlen cose) (Some NULL) (Some 0))
     (fun out (w' : held) => w' = w /\
        (out.1.1 = NGX_OK -> exists d al, out.1.2 = Some (Some d) /\ out.2 = Some al)) w.
Proof.
  eapply balanced_value; [apply (to_der_balanced _ (Some cose))|apply to_der_trace|].
  intros [[rc d] al] h Hp. cbn. intros ->.
  destruct Hp as (root & n & a & m & k & dd & _ & _ & _ & _ & _ & -> & -> & _). by exists dd, a.
Qed.

Lemma register_attested_held
    `{!NginxBase64Laws, !CborLaws, !OpenSSLLaws, !OpenSSLKeysLaws}
    user_id rp transports require cd ao (w : held) :
  zlen ao < 2 ^ 63 ->
  wp (register_attested user_id rp transports require cd (Some ao)) (attested user_id w)
     (w ⊎ {[+ R_JSON +]}).
Proof.
  intros Hao. unfold register_attested. rewrite str_len_zlen. cbn [str_bytes].
  eapply wp_seq; [by apply attestation_parse_value|]. intros [rc att] ? [-> Hatt]. cbn [fst snd] in Hatt.
  destruct rc; cbn [is_ok negb]; [|apply fail_attested..].
  destruct (Hatt eq_refl) as (a & -> & Hdec). cbn [deref bind].
  destruct (decodes_size _ _ Hdec) as (adb & Hadb & Hsize). rewrite Hadb, str_len_zlen. cbn [str_bytes].
  destruct (authdata_parse_answers adb authdata_zero ltac:(lia)) as (rc & ad & Hne & Ead).
  rewrite Ead. cbn [defined deref bind]. destruct rc; cbn [is_ok negb]; [|apply fail_attested..].
  cbn [deref bind]. destruct (_ || _) eqn:Hcred; [apply fail_attested|].
  apply orb_false_iff in Hcred as [[Hflag _]%orb_false_iff Hkey].
  apply authdata_ok_reads in Ead as [(_ & _ & _ & _ & Hwf) _]; [|lia].
  rewrite has_at_eq in Hwf. unfold NGX_AUTH_WEBAUTHN_AUTHDATA_FLAG_AT in Hflag.
  rewrite Hflag in Hwf. cbn [negb] in Hwf. destruct Hwf as (cid & key & Hcid & Hck & Hcl & _).
  destruct (ngx_auth_webauthn_hash_sha256 _ _ _) as [rc cdh] eqn:Hh.
  destruct rc; cbn [is_ok negb]; [|apply fail_attested..]. apply hash_ok in Hh.
  eapply wp_seq.
  { apply (attestation_verify_balanced (Some tt) a (Some rp) (Some cdh) require); [|apply gmultiset_empty_subseteq].
    split; [rewrite Hadb, str_len_zlen; cbn [str_bytes]; lia|rewrite str_len_zlen; cbn [str_bytes]; lia]. }
  intros rc ? ->. destruct rc; cbn [is_ok negb]; [|apply fail_attested..].
  rewrite Hck, str_len_zlen. cbn [str_bytes].
  eapply wp_seq; [apply to_der_value|]. intros [[rc der] alg] ? [-> Hder]. cbn [fst snd] in Hder.
  destruct rc; cbn [is_ok negb]; [|apply fail_attested..].
  destruct (Hder eq_refl) as (d & al & -> & ->). cbn [deref bind].
  rewrite Hcid, str_len_zlen. cbn [str_bytes]. pose proof (zlen_nonneg cid).
  pose proof (encode_fits cid) as Henc.
  assert (0 <= ngx_base64_encoded_length (zlen cid) < 2 ^ 18) as Hel
    by (unfold ngx_base64_encoded_length; div_lia).
  apply wp_bind, pool_fill_held; [rewrite size_t_small; lia|apply fail_attested|].
  apply wp_bind, wp_held_call; [done|]. intros now _. split; [done|]. split; [|done].
  unfold fits. cbn. lia.
Qed.

Lemma register_response_held
    `{!NxeJsonLaws, !NginxBase64Laws, !CborLaws, !OpenSSLLaws, !OpenSSLKeysLaws}
    user_id rp transports require body (w : held) :
  zlen body < 2 ^ 32 ->
  wp (register_response user_id rp transports require body) (attested user_id w) w.
Proof.
  intros Hb. unfold register_response.
  destruct (nxe_json_parse_untrusted body) as [json|] eqn:Hj; [|by print_step].
  apply parse_size in Hj. apply wp_bind, wp_held_call; [done|]. intros [] _. cbn [held_next].
  destruct (nxe_json_object_get json (bs "response")) as [r|] eqn:Hr; [|apply fail_attested].
  apply get_size in Hr. destruct (negb _); [apply fail_attested|].
  apply wp_bind, decode_member_held; [lia|apply fail_attested|]. intros cd Hcd. cbn [is_ok negb].
  apply wp_bind, decode_member_held; [lia|apply fail_attested|]. intros ao Hao. cbn [is_ok negb].
  apply register_attested_held. lia.
Qed.

Lemma register_store_held ctx c alg (w : held) : ctx_fits ctx ->
  fits (str_bytes (cr_credential_id c)) -> fits (str_bytes (cr_user_id c)) ->
  wp (register_store ctx c alg) (exits w) (w ⊎ {[+ R_JSON +]}).
Proof.
  intros Hctx Hid Hu. unfold register_store.
  assert (forall (k : prog Z), wp k (exits w) w ->
    wp (call (res_free R_JSON) ;; k) (exits w) (w ⊎ {[+ R_JSON +]})) as Hfree.
  { intros k Hk. apply wp_bind, wp_held_call; [apply held_in|]. intros [] _. cbn [held_next].
    by rewrite held_release. }
  apply wp_bind, admin_connect_held; [done| |by apply Hfree]. cbn [fst snd is_ok negb].
  apply wp_bind. eapply wp_balanced; [apply put_balanced; [apply fits_prefix, Hctx|by intros ? [= <-]]
                                     |apply needs_open|].
  intros rc. apply close_bind, Hfree. destruct rc; cbn [is_ok negb]; by print_step.
Qed.

Lemma register_held
    `{!NxeJsonLaws, !NginxBase64Laws, !CborLaws, !OpenSSLLaws, !OpenSSLKeysLaws} l (w : held) :
  ctx_fits (ro_ctx l) -> (forall s, ro_user_id l = Some s -> fits s) ->
  wp (register_run l) (exits w) w.
Proof.
  intros Hc Hu. unfold register_run.
  destruct (ro_user_id l) as [user|]; [|by print_step].
  destruct (ro_response_file l) as [file|]; [|by print_step].
  destruct (ro_rp_id l) as [rp|]; [|by print_step].
  destruct (require_of _) as [require|]; [|by print_step].
  apply wp_bind, input_file_held; [done|]. intros body Hb. cbn [is_ok negb str_bytes].
  change AUTH_WEBAUTHN_ADMIN_FILE_MAX with (2 ^ 24) in Hb.
  eapply wp_seq; [apply register_response_held; lia|]. intros [[c al]|] w' Hout; [|by subst].
  destruct Hout as (-> & Hid & Huid). apply register_store_held; [done|done|].
  rewrite Huid. by apply Hu.
Qed.
End register.

(** *** main *)

Section main.
Context `{JSON : NxeJson, B64 : NginxBase64, CBOR : Cbor, SSL : OpenSSL, KEYS : !OpenSSLKeys}.
Context `{OPT : Getopt, !GetoptLaws}.

Lemma delivered_common own c a : delivered own c a ->
  common_code c = true -> exists s, a = Some s /\ fits s.
Proof. intros [Hs Hf] Hc. destruct (Hs (or_intror Hc)) as [s ->]. exists s. auto. Qed.

Lemma one_option_cmd_held name own text run ctx argv (w : held) :
  own <> OPT_h /\ own <> OPT_unknown -> ctx_fits ctx -> Forall fits argv ->
  (forall ctx id, ctx_fits ctx -> (forall s, id = Some s -> fits s) -> wp (run ctx id) (exits w) w) ->
  wp (one_option_cmd name own (fun b => fputs b text) run ctx argv) (exits w) w.
Proof.
  intros Hown Hc Hargv Hrun. unfold one_option_cmd.
  eapply wp_seq.
  { apply (parse_opts_held _ (fun l => ctx_fits l.1 /\ forall s, l.2 = Some s -> fits s)); [|done].
    intros [c1 id] c a Hin [H1 H2]. cbn [fst snd] in *.
    apply getopt_delivered in Hin as Hd; [|done|by apply list.Forall_singleton].
    unfold one_option_step. destruct (c =? own); [split; [done|]; split; [done|]; apply Hd|].
    destruct (c =? OPT_h); [by apply fputs_held|]. destruct (c =? OPT_unknown); [done|].
    apply (common_opt_held _ _ _ _ (fun l : one_option => ctx_fits l.1 /\ forall s, l.2 = Some s -> fits s));
      [by eapply delivered_common|done|done]. }
  intros [code|[c1 id]] w' [-> Hout]; [done|].
  destruct Hout. by apply Hrun.
Qed.

Lemma register_cmd_held
    `{!NxeJsonLaws, !NginxBase64Laws, !CborLaws, !OpenSSLLaws, !OpenSSLKeysLaws}
    ctx argv (w : held) : ctx_fits ctx -> Forall fits argv ->
  wp (auth_webauthn_admin_cmd_register ctx argv) (exits w) w.
Proof.
  intros Hc Hargv. unfold auth_webauthn_admin_cmd_register. eapply wp_seq.
  { apply (parse_opts_held _ (fun l => ctx_fits (ro_ctx l) /\ forall s, ro_user_id l = Some s -> fits s));
      [|done].
    intros [c1 u f rp rq tr] c a Hin [Hc1 Hu1]. cbn [ro_ctx ro_user_id] in *.
    apply getopt_delivered in Hin as Hd; [|done|repeat (apply list.Forall_cons_2; [by split|]); by constructor].
    unfold register_step. destruct (c =? OPT_USER_ID); [split; [done|]; split; [done|]; apply Hd|].
    repeat (destruct (_ =? _); [first [by apply fputs_held | by split]|]).
    apply (common_opt_held _ _ _ _ (fun l => ctx_fits (ro_ctx l) /\ forall s, ro_user_id l = Some s -> fits s));
      [by eapply delivered_common|done|done]. }
  intros [code|l] w' [-> Hout]; [done|].
  destruct Hout. by apply register_held.
Qed.

Lemma main_held
    `{!NxeJsonLaws, !NginxBase64Laws, !CborLaws, !OpenSSLLaws, !OpenSSLKeysLaws} argv (w : held) :
  Forall fits argv -> wp (main argv) (exits w) w.
Proof.
  intros Hargv. unfold main. destruct argv as [|a0 [|cmd args]]; [by apply fputs_held..|].
  apply Forall_cons_1 in Hargv as [_ [_ Hargs]%Forall_cons_1].
  destruct (_ || _); [by apply fputs_held|]. destruct (_ || _); [by apply fputs_held|].
  apply wp_bind, wp_held_call; [done|]. intros [] _; cbn [negb held_next]; [|by apply fputs_held].
  apply wp_seq with (exits (w ⊎ {[+ R_POOL +]})).
  2: { intros code ? [-> Hcode]. apply wp_bind, wp_held_call; [apply held_in|]. intros [] _.
       cbn [held_next wp]. by rewrite held_release. }
  set (ctx := {| adm_redis_host := NULL |}).
  assert (ctx_fits ctx) as Hctx by by split.
  destruct (bytes_eqb cmd (bs "register")); [by apply register_cmd_held|].
  destruct (bytes_eqb cmd (bs "revoke")).
  { apply one_option_cmd_held; [done|done|done|]. intros. by apply revoke_held. }
  destruct (bytes_eqb cmd (bs "list")).
  { apply one_option_cmd_held; [done|done|done|]. intros. by apply list_held. }
  destruct (bytes_eqb cmd (bs "show")).
  { apply one_option_cmd_held; [done|done|done|]. intros. by apply show_held. }
  by do 2 apply fputs_held.
Qed.
End main.
