(* ===== verification/AdminCalls.v ===== *)
(** * Which Redis commands the command-line tool sends

    [main] only authenticates, selects, reads records and the index, and, in
    [register] and [revoke], writes them; [list] and [show] write nothing.
    All of it stays inside the vocabulary of Vocabulary.v without SET, so a
    run of the tool is one of the programs of System.v. *)

From S2P Require Import Prelude Effects Externals AuthData Hash Cose Attestation.
From S2P Require Import Redis RedisCalls Challenge Credential Conf Http Vocabulary.
From S2P Require Import AdminMain AdminCommands.
#[global] Open Scope Z_scope.

(** ** Returned values *)

Fixpoint returns {A} (R : A -> Prop) (p : prog A) : Prop :=
  match p with
  | Ret a => R a
  | UB => True
  | Do e k => forall a, returns R (k a)
  end.

Lemma returns_bind {A B} (R : A -> Prop) (R' : B -> Prop) (p : prog A) (f : A -> prog B) :
  returns R p -> (forall a, R a -> returns R' (f a)) -> returns R' (bind p f).
Proof. intros Hp Hf. induction p as [a| |e k IH]; simpl in *; auto. Qed.

Lemma returns_any {A} (p : prog A) : returns (fun _ => True) p.
Proof. induction p; simpl; auto. Qed.

Lemma calls_returns P {A B} (R : A -> Prop) (p : prog A) (f : A -> prog B) :
  all_calls P p -> returns R p -> (forall a, R a -> all_calls P (f a)) -> all_calls P (bind p f).
Proof. induction p as [a| |e k IH]; simpl; [auto|done|]. intros [He Hk] Hr Hf. split; [done|auto]. Qed.

(** ** The vocabulary of the tool *)

Inductive read_command (prefix : bytes) : list bytes -> Prop :=
  | rc_auth p : read_command prefix [bs "AUTH"; p]
  | rc_select n : read_command prefix [bs "SELECT"; n]
  | rc_smembers uid : read_command prefix [bs "SMEMBERS"; index_key_of prefix uid]
  | rc_hgetall id : read_command prefix [bs "HGETALL"; record_key_of prefix id].

Inductive tool_command (prefix : bytes) : list bytes -> Prop :=
  | tc_read argv : read_command prefix argv -> tool_command prefix argv
  | tc_hset id args : tool_command prefix (bs "HSET" :: record_key_of prefix id :: args)
  | tc_sadd uid m : tool_command prefix [bs "SADD"; index_key_of prefix uid; m]
  | tc_del id : tool_command prefix [bs "DEL"; record_key_of prefix id]
  | tc_srem uid m : tool_command prefix [bs "SREM"; index_key_of prefix uid; m].

Definition read_call (prefix : bytes) (e : eff) : Prop :=
  match e with redisCommandArgv argv => read_command prefix argv | _ => True end.
Definition tool_call (prefix : bytes) (e : eff) : Prop :=
  match e with redisCommandArgv argv => tool_command prefix argv | _ => True end.

#[export] Hint Constructors read_command tool_command : calls.

#[export] Instance read_background prefix : Background (read_call prefix).
Proof. by intros []. Qed.
#[export] Instance tool_background prefix : Background (tool_call prefix).
Proof. by intros []. Qed.

Lemma local_read prefix e : local_call e -> read_call prefix e.
Proof. by destruct e. Qed.
Lemma read_tool prefix e : read_call prefix e -> tool_call prefix e.
Proof. destruct e; try done. apply tc_read. Qed.
Lemma tool_no_issue prefix e : tool_call prefix e -> no_issue prefix e.
Proof.
  destruct e; try done. intros Ht. split; cbn.
  - destruct Ht as [? []| | | |]; constructor.
  - by destruct Ht as [? []| | | |].
Qed.

(** ** Parts that send nothing *)

#[local] Hint Extern 1 (local_call _) => exact I : calls.

Ltac local := repeat (calls; try exact I).

Lemma turn_local path st : all_calls local_call (read_turn path st).
Proof. unfold read_turn, read_room, print_error, fputs. local. Qed.

Lemma read_file_local path : all_calls local_call (auth_webauthn_admin_read_file path).
Proof.
  unfold auth_webauthn_admin_read_file, print_error, fputs, close_input, terminate.
  destruct path as [path|]; [|done].
  apply all_calls_bind; [local|]. intros [|]; cbn [negb]; [|local].
  apply all_calls_bind; [local|]. intros [|]; cbn [negb]; [|local].
  apply all_calls_bind; [apply turns_calls; intros; apply turn_local|].
  intros [?|[?|]]; cbn [bind]; local.
Qed.

Lemma parse_common_local ctx c a : all_calls local_call (auth_webauthn_admin_parse_common_opt ctx c a).
Proof.
  pose proof read_file_local. unfold auth_webauthn_admin_parse_common_opt, print_error, fputs.
  repeat (destruct (_ =? _); [destruct a as [a|]; [|exact I]; cbn [deref bind]; local; auto|]). local.
Qed.

(** ** The key prefix *)

(** The prefix after an option, and after all of them: the last --key-prefix,
    or the default. *)
Definition next_prefix (prefix : bytes) (opt : Z * ptr bytes) : bytes :=
  if opt.1 =? AUTH_WEBAUTHN_ADMIN_OPT_KEY_PREFIX then default prefix opt.2 else prefix.
Definition effective_prefix (opts : list (Z * ptr bytes)) : bytes :=
  foldl next_prefix ngx_auth_webauthn_admin_default_prefix opts.

Abbreviation prefix_of ctx := (str_bytes (adm_key_prefix ctx)).

Lemma parse_common_prefix ctx c a :
  returns (fun out => prefix_of out.2 = next_prefix (prefix_of ctx) (c, a))
    (auth_webauthn_admin_parse_common_opt ctx c a).
Proof.
  unfold auth_webauthn_admin_parse_common_opt, next_prefix. cbn [fst snd].
  destruct (Z.eqb_spec c AUTH_WEBAUTHN_ADMIN_OPT_REDIS) as [->|_].
  { destruct a as [a|]; [|exact I]. cbn [deref bind]. destruct (strrchr _ _); [|done].
    destruct (_ || _); [done|]. by destruct (out_of_range _ _ _). }
  destruct (Z.eqb_spec c AUTH_WEBAUTHN_ADMIN_OPT_REDIS_PASSWORD) as [->|_].
  { destruct a as [a|]; [|exact I]. cbn [deref bind]. destruct (memeq _ _ _); [|done].
    eapply returns_bind; [apply returns_any|]. intros out _. by destruct (negb _). }
  destruct (Z.eqb_spec c AUTH_WEBAUTHN_ADMIN_OPT_REDIS_DB) as [->|_].
  { destruct a as [a|]; [|exact I]. cbn [deref bind]. by destruct (out_of_range _ _ _). }
  destruct (Z.eqb_spec c AUTH_WEBAUTHN_ADMIN_OPT_REDIS_TIMEOUT) as [->|_].
  { destruct a as [a|]; [|exact I]. cbn [deref bind]. by destruct (out_of_range _ _ _). }
  destruct (Z.eqb_spec c AUTH_WEBAUTHN_ADMIN_OPT_KEY_PREFIX) as [->|_]; [by destruct a|done].
Qed.

(** What a step of an option loop does to the prefix. *)
Definition tracks {A} (ctx_of : A -> auth_webauthn_admin_ctx_t) (l : A) (c : Z) (a : ptr bytes)
    (p : prog (Z + A)) : Prop :=
  all_calls local_call p /\
  returns (fun out => match out with
                      | inl _ => True
                      | inr l' => prefix_of (ctx_of l') = next_prefix (prefix_of (ctx_of l)) (c, a)
                      end) p.

Lemma common_opt_tracks {A} ctx_of (l : A) (locals : auth_webauthn_admin_ctx_t -> A) c a :
  (forall ctx, ctx_of (locals ctx) = ctx) -> tracks ctx_of l c a (common_opt (ctx_of l) locals c a).
Proof.
  intros Hl. split.
  - apply all_calls_bind; [apply parse_common_local|]. by intros [[] ?].
  - eapply returns_bind; [apply parse_common_prefix|]. intros [rc ctx] Hp. cbn [fst snd] in *.
    destruct rc; cbn [returns]; by rewrite ?Hl.
Qed.

Lemma parse_opts_tracks {A} ctx_of (step : A -> Z -> ptr bytes -> prog (Z + A)) :
  (forall l c a, tracks ctx_of l c a (step l c a)) -> forall opts l,
  all_calls local_call (parse_opts step opts l) /\
  returns (fun out => match out with
                      | inl _ => True
                      | inr l' => prefix_of (ctx_of l') = foldl next_prefix (prefix_of (ctx_of l)) opts
                      end) (parse_opts step opts l).
Proof.
  intros Hstep opts. induction opts as [|[c a] opts IH]; intros l; cbn [parse_opts foldl]; [done|].
  destruct (Hstep l c a) as [Hc Hr]. split.
  - apply all_calls_bind; [done|]. intros [code|l']; [done|apply IH].
  - eapply returns_bind; [done|]. intros [code|l'] H1; [done|]. rewrite <- H1. apply IH.
Qed.

Lemma tracks_usage {A} ctx_of (l : A) c a err text code :
  tracks ctx_of l c a (fputs err text ;; Ret (inl code)).
Proof. done. Qed.

Lemma one_option_tracks own text l c a : own <> AUTH_WEBAUTHN_ADMIN_OPT_KEY_PREFIX ->
  tracks fst l c a (one_option_step own (fun b => fputs b text) l c a).
Proof.
  intros Hown. unfold one_option_step. destruct (Z.eqb_spec c own) as [->|_].
  { split; [done|]. cbn. unfold next_prefix. cbn [fst].
    by destruct (Z.eqb_spec own AUTH_WEBAUTHN_ADMIN_OPT_KEY_PREFIX). }
  destruct (c =? OPT_h); [apply tracks_usage|]. destruct (c =? OPT_unknown); [done|].
  by apply common_opt_tracks.
Qed.

Lemma register_tracks l c a : tracks ro_ctx l c a (register_step l c a).
Proof.
  destruct l as [ctx u f rp rq tr]. unfold register_step.
  repeat (match goal with |- tracks _ _ _ _ (if ?x =? ?y then _ else _) =>
            destruct (Z.eqb_spec x y) as [->|_]; [by first [apply tracks_usage|split]|] end).
  by apply (common_opt_tracks ro_ctx (Build_register_opts ctx u f rp rq tr)).
Qed.

(** ** The commands *)

#[local] Hint Extern 1 (tool_call _ _) => cbn [tool_call]; auto with calls : calls.
#[local] Hint Extern 1 (read_call _ _) => cbn [read_call]; auto with calls : calls.

Lemma admin_connect_read prefix ctx :
  all_calls (read_call prefix) (auth_webauthn_admin_connect ctx).
Proof.
  unfold auth_webauthn_admin_connect, print_error, fputs. destruct (_ || _); [by local|].
  apply all_calls_bind; [apply connect_calls; [apply _|intros; cbn; auto with calls..]|].
  intros [rc redis]. by destruct (negb _).
Qed.

Lemma get_read prefix redis pool pre cid out : str_bytes pre = prefix ->
  all_calls (read_call prefix) (ngx_auth_webauthn_credential_get redis pool (Some pre) cid out).
Proof. intros <-. apply get_calls; [apply _|]. intros. cbn. auto with calls. Qed.

Lemma list_rows_read prefix redis pre members : str_bytes pre = prefix ->
  all_calls (read_call prefix) (list_rows redis pre members).
Proof.
  intros Hp. induction members as [|m ms IH]; [done|]. cbn [list_rows].
  apply all_calls_bind; [by apply get_read|]. intros [rc c].
  apply all_calls_bind; [apply all_calls_deref|]. by intros c'.
Qed.

Lemma list_read prefix ctx uid : prefix_of ctx = prefix ->
  all_calls (read_call prefix) (list_run ctx uid).
Proof.
  intros Hp. unfold list_run, print_error, printf, fputs. destruct uid as [uid|]; [|done].
  apply index_key_calls; [apply _|done|]. cbn [is_ok negb].
  apply all_calls_bind; [apply admin_connect_read|]. intros [rc redis].
  destruct (negb _); [done|]. apply all_calls_bind.
  { apply smembers_calls; [apply _|]. intros k [= <-]. cbn. rewrite Hp. apply rc_smembers. }
  intros [rc' members]. destruct (negb _).
  { apply all_calls_bind; [done|]. intros _. apply all_calls_bind; [apply close_calls, _|done]. }
  apply all_calls_bind; [done|]. intros _. apply all_calls_bind; [by apply list_rows_read|]. intros _.
  apply all_calls_bind; [apply close_calls, _|done].
Qed.

Lemma show_print_local cid c : all_calls local_call (show_print cid c).
Proof. unfold show_print, printf, fputs, ngx_auth_webauthn_admin_aaguid_fmt. local. Qed.

Lemma show_read prefix ctx id : prefix_of ctx = prefix ->
  all_calls (read_call prefix) (show_run ctx id).
Proof.
  intros Hp. unfold show_run, print_error, fputs. destruct id as [id|]; [|done].
  apply all_calls_bind; [apply admin_connect_read|]. intros [rc redis].
  destruct (negb _); [done|]. apply all_calls_bind; [by apply get_read|]. intros [rc' c].
  apply all_calls_bind; [apply close_calls, _|]. intros _. destruct rc'; [|done|done].
  apply all_calls_bind; [apply all_calls_deref|]. intros c'.
  apply all_calls_bind; [|done]. apply (all_calls_mono local_call); [apply local_read|].
  apply show_print_local.
Qed.

Lemma revoke_tool prefix ctx id : prefix_of ctx = prefix ->
  all_calls (tool_call prefix) (revoke_run ctx id).
Proof.
  intros <-. unfold revoke_run, print_error, printf, fputs. destruct id as [id|]; [|done].
  apply all_calls_bind; [eapply all_calls_mono; [apply read_tool|apply admin_connect_read]|].
  intros [rc redis]. destruct (negb _); [done|].
  apply all_calls_bind; [apply delete_calls; [apply _|intros; cbn; auto with calls..]|].
  intros rc'. apply all_calls_bind; [apply close_calls, _|]. by intros _; destruct rc'.
Qed.

Section register.
Context `{JSON : NxeJson, B64 : NginxBase64, CBOR : Cbor, SSL : OpenSSL, KEYS : !OpenSSLKeys}.

Lemma register_fail_local msg : all_calls local_call (register_fail msg).
Proof. unfold register_fail, print_error, fputs. local. Qed.

Lemma decode_member_local obj key : all_calls local_call (ngx_auth_webauthn_admin_decode_member obj key).
Proof. unfold ngx_auth_webauthn_admin_decode_member, print_error, fputs. local. Qed.

Lemma free_opt_local r b : all_calls local_call (free_opt r b).
Proof. unfold free_opt. by destruct b. Qed.

Lemma build_key_local kind params : all_calls local_call (build_key kind params).
Proof. pose proof free_opt_local. unfold build_key. local. Qed.

Lemma to_pkey_local cose n out alg : all_calls local_call (ngx_auth_webauthn_cose_to_pkey cose n out alg).
Proof.
  pose proof build_key_local. pose proof free_opt_local.
  assert (forall c kty a, all_calls local_call (key_of_items c kty a)) as Hk.
  { intros c kty a. unfold key_of_items, ngx_auth_webauthn_cose_ec2_pkey,
      ngx_auth_webauthn_cose_okp_pkey, ngx_auth_webauthn_cose_rsa_pkey. local. }
  unfold ngx_auth_webauthn_cose_to_pkey. local.
Qed.

Lemma to_der_local pool cose n der alg :
  all_calls local_call (ngx_auth_webauthn_cose_to_der pool cose n der alg).
Proof. pose proof to_pkey_local. unfold ngx_auth_webauthn_cose_to_der. local. Qed.

Lemma attestation_parse_local pool data n out :
  all_calls local_call (ngx_auth_webauthn_attestation_parse pool data n out).
Proof.
  assert (forall root, all_calls local_call (parse_root root)) as Hr
    by (intros root; eapply all_calls_mono; [|apply attestation_parse_neutral]; by intros []).
  unfold ngx_auth_webauthn_attestation_parse. local.
Qed.

Lemma attestation_verify_local pool att rp cdh require :
  all_calls local_call (ngx_auth_webauthn_attestation_verify pool att rp cdh require).
Proof.
  pose proof to_pkey_local.
  assert (forall a ad c, all_calls local_call (ngx_auth_webauthn_attestation_verify_packed a ad c)) as Hp
    by (intros; unfold ngx_auth_webauthn_attestation_verify_packed; local).
  unfold ngx_auth_webauthn_attestation_verify. local.
Qed.

Lemma register_response_local user rp tr require body :
  all_calls local_call (register_response user rp tr require body).
Proof.
  pose proof register_fail_local. pose proof decode_member_local.
  assert (forall user rp tr require cd ao,
    all_calls local_call (register_attested user rp tr require cd ao)) as Ha.
  { intros. unfold register_attested. pose proof attestation_parse_local.
    pose proof attestation_verify_local. pose proof to_der_local. local. }
  unfold register_response, print_error, fputs. local.
Qed.

Lemma register_tool prefix l : prefix_of (ro_ctx l) = prefix ->
  all_calls (tool_call prefix) (register_run l).
Proof.
  intros <-. unfold register_run. destruct (ro_user_id l), (ro_response_file l), (ro_rp_id l); try done.
  destruct (require_of _); [|done].
  assert (forall A (p : prog A), all_calls local_call p -> all_calls (tool_call (prefix_of (ro_ctx l))) p)
    as Hl by (intros A p; apply all_calls_mono; intros e He; by apply read_tool, local_read).
  apply all_calls_bind; [apply Hl, read_file_local|]. intros [rc body]. destruct (negb _); [done|].
  apply all_calls_bind; [apply Hl, register_response_local|]. intros [[c al]|]; [|done].
  unfold register_store, print_error, printf, fputs.
  apply all_calls_bind; [eapply all_calls_mono; [apply read_tool|apply admin_connect_read]|].
  intros [rc' redis]. destruct (negb _); [done|].
  apply all_calls_bind; [apply put_calls; [apply _|intros; cbn; auto with calls..]|].
  intros rc''. apply all_calls_bind; [apply close_calls, _|]. intros _. by local.
Qed.

(** ** main *)

Context `{OPT : Getopt}.

(** The option table of a command, the prefix its options leave, and whether
    it writes. *)
Definition command_table (cmd : bytes) : list longopt :=
  if bytes_eqb cmd (bs "register") then register_longopts
  else option_table [(if bytes_eqb cmd (bs "list") then bs "user-id" else bs "credential-id",
                      AUTH_WEBAUTHN_ADMIN_OPT_SUBCOMMAND_BASE)].
Definition command_prefix (argv : list bytes) : bytes :=
  match argv with
  | _ :: cmd :: args => effective_prefix (getopt_long (command_table cmd) args)
  | _ => []
  end.
Definition writes (argv : list bytes) : bool :=
  match argv with
  | _ :: cmd :: _ => bytes_eqb cmd (bs "register") || bytes_eqb cmd (bs "revoke")
  | _ => false
  end.
Definition permitted (argv : list bytes) : eff -> Prop :=
  if writes argv then tool_call (command_prefix argv) else read_call (command_prefix argv).

Lemma one_option_calls P name own text run ctx args :
  own <> AUTH_WEBAUTHN_ADMIN_OPT_KEY_PREFIX -> (forall e, local_call e -> P e) ->
  prefix_of ctx = ngx_auth_webauthn_admin_default_prefix ->
  (forall ctx id, prefix_of ctx = effective_prefix (getopt_long (option_table [(name, own)]) args) ->
    all_calls P (run ctx id)) ->
  all_calls P (one_option_cmd name own (fun b => fputs b text) run ctx args).
Proof.
  intros Hown Hl Hc Hrun. unfold one_option_cmd.
  destruct (parse_opts_tracks fst (one_option_step own (fun b => fputs b text))
    ltac:(intros; by apply one_option_tracks)
    (getopt_long (option_table [(name, own)]) args) (ctx, NULL)) as [Hp Hr].
  eapply calls_returns; [by eapply all_calls_mono|exact Hr|].
  intros [code|[c id]]; [done|]. cbn [fst]. intros E. apply Hrun. by rewrite E, Hc.
Qed.

Lemma register_cmd_calls ctx args :
  prefix_of ctx = ngx_auth_webauthn_admin_default_prefix ->
  all_calls (tool_call (effective_prefix (getopt_long register_longopts args)))
    (auth_webauthn_admin_cmd_register ctx args).
Proof.
  intros Hc. unfold auth_webauthn_admin_cmd_register.
  destruct (parse_opts_tracks ro_ctx register_step register_tracks
    (getopt_long register_longopts args) (Build_register_opts ctx NULL NULL NULL NULL NULL)) as [Hp Hr].
  eapply calls_returns; [|exact Hr|].
  - eapply all_calls_mono; [|exact Hp]. intros e He. by apply read_tool, local_read.
  - intros [code|l]; [done|]. cbn [ro_ctx]. rewrite Hc. apply register_tool.
Qed.

(** C37: whatever its arguments, the tool sends only AUTH, SELECT, SMEMBERS,
    HGETALL and, in register and revoke alone, HSET, SADD, DEL and SREM, all
    on record and index keys under the last --key-prefix given (or the
    default); it never issues a challenge. *)
Theorem admin_vocabulary (argv : list bytes) :
  all_calls (permitted argv) (main argv) /\
  all_calls (no_issue (command_prefix argv)) (main argv ;; Ret tt).
Proof.
  assert (forall e, local_call e -> permitted argv e) as Hl.
  { intros e He. unfold permitted. destruct (writes argv); [apply read_tool|]; by apply local_read. }
  assert (all_calls (permitted argv) (main argv)) as Hm.
  { unfold main. destruct argv as [|a0 [|cmd args]]; [by split; [apply Hl|]..|].
    destruct (_ || _); [by split; [apply Hl|]|]. destruct (_ || _); [by split; [apply Hl|]|].
    apply all_calls_bind; [by apply all_calls_call, Hl|]. intros []; [|by split; [apply Hl|]].
    cbn [negb]. apply all_calls_bind; [|intros rc; by split; [apply Hl|]].
    unfold permitted, command_prefix, writes, command_table in *.
    destruct (bytes_eqb cmd (bs "register")); [by apply register_cmd_calls|].
    destruct (bytes_eqb cmd (bs "revoke")) eqn:Hr.
    { apply bytes_eqb_eq in Hr as ->. apply one_option_calls; [done|exact Hl|done|]. intros. by apply revoke_tool. }
    destruct (bytes_eqb cmd (bs "list")).
    { apply one_option_calls; [done|exact Hl|done|]. intros. by apply list_read. }
    destruct (bytes_eqb cmd (bs "show")).
    { apply one_option_calls; [done|exact Hl|done|]. intros. by apply show_read. }
    apply all_calls_bind; [by apply all_calls_call, Hl|]. intros _. by split; [apply Hl|]. }
  split; [done|]. apply all_calls_bind; [|done]. eapply all_calls_mono; [|exact Hm].
  unfold permitted. destruct (writes argv); intros e He; [by apply tool_no_issue|].
  by apply tool_no_issue, read_tool.
Qed.
End register.
