(* ===== verification/AdminRegister.v ===== *)
(** * What a registration stores

    [register] in traces: nothing reaches Redis unless the response was read,
    decoded and verified, what is stored is what the response attests, in a
    form the assertion verifier accepts, and exit code 0 means that the server
    acknowledged both writes.  The claims about the tool as a whole close the
    file, with sample runs. *)

From S2P Require Import Prelude Effects Externals Base64 Samples AuthData Hash ClientData Assertion.
From S2P Require Import SamplesCbor Cose Attestation Redis RedisCalls RedisSpec RedisOps Challenge.
From S2P Require Import Credential Conf Http Vocabulary AdminMain AdminCommands AdminSound AdminCalls.
#[global] Open Scope Z_scope.

(** ** Storing *)

(** Both writes of a credential are acknowledged. *)
Definition stored (pre : ngx_str_t) (c : ngx_auth_webauthn_credential_t) (h : trace) : Prop :=
  acked (bs "HSET" :: rkey pre (cr_credential_id c) :: hset_args (put_pairs c)) h /\
  acked [bs "SADD"; ikey pre (cr_user_id c); str_bytes (cr_credential_id c)] h.

Lemma stored_app pre c (h k : trace) : stored pre c h -> stored pre c (h ++ k).
Proof. intros [H1 H2]. split; by apply acked_app. Qed.

Lemma put_pairs_nonempty c : put_pairs c <> [].
Proof. by unfold put_pairs. Qed.

Lemma record_key_wlp {B} pre cid (f : ngx_rc * ngx_str_t -> prog B) Q (h : trace) :
  (forall k, wlp (f (NGX_ERROR, NULL)) Q (h ++ k)) ->
  (forall k, wlp (f (NGX_OK, Some (rkey pre cid))) Q (h ++ k)) ->
  wlp (bind (ngx_auth_webauthn_credential_record_key pre cid) f) Q h.
Proof. intros H0 H1 []; [|done]. cbn [bind]. by destruct (_ <=? _). Qed.

Lemma index_key_wlp {B} pre uid (f : ngx_rc * ngx_str_t -> prog B) Q (h : trace) :
  (forall k, wlp (f (NGX_ERROR, NULL)) Q (h ++ k)) ->
  (forall k, wlp (f (NGX_OK, Some (ikey pre uid))) Q (h ++ k)) ->
  wlp (bind (ngx_auth_webauthn_credential_index_key pre uid) f) Q h.
Proof. intros H0 H1 []; [|done]. cbn [bind]. by destruct (_ <=? _). Qed.

Lemma put_trace pre c (h : trace) :
  wlp (ngx_auth_webauthn_credential_put open_redis (Some tt) (Some pre) (Some c))
      (fun rc h' => rc = NGX_OK -> stored pre c h') h.
Proof.
  unfold ngx_auth_webauthn_credential_put. cbn [nullp orb].
  destruct (_ || _) eqn:Hid; [done|]. cbn [deref bind].
  apply record_key_wlp; [done|]. intros k1. cbn [is_ok negb].
  eapply wlp_step; [apply wp_wlp, hset_trace|]. intros rc k Hh.
  destruct rc; cbn [is_ok negb]; [|done|done].
  specialize (Hh eq_refl (put_pairs_nonempty c)).
  apply index_key_wlp; [done|]. intros k2. cbn [is_ok negb].
  destruct (cr_credential_id c) as [cid|] eqn:Ec; [|done].
  unfold ngx_auth_webauthn_redis_sadd, ngx_auth_webauthn_redis_set_op.
  cbn [no_ctx nullp ctx orb deref bind].
  eapply wlp_step; [apply wp_wlp, status_trace|]. intros rc k3 Hs.
  destruct rc; cbn [is_ok negb wlp]; [|done|done]. intros _. unfold stored. rewrite Ec. split.
  - by do 2 apply acked_app.
  - by apply Hs.
Qed.

(** ** What a response attests *)

Section register.
Context `{JSON : NxeJson, B64 : NginxBase64, CBOR : Cbor, SSL : OpenSSL, KEYS : !OpenSSLKeys}.

(** A base64url member of the response object. *)
Definition member (obj : nxe_json_t) (key : bytes) : option bytes :=
  node ← nxe_json_object_get obj key; enc ← nxe_json_string node; ngx_decode_base64url enc.

(** Field by field what the authenticator data [ad], with the credential id
    [cid], and the key, its DER [der] under the algorithm [alg], say of a
    credential, registered for [user] at the time [now]. *)
Record describes (c : ngx_auth_webauthn_credential_t) (user : bytes) (transports : ptr bytes)
    (cid der : bytes) (alg now : Z) (ad : ngx_auth_webauthn_authdata_t) : Prop := {
  de_id : cr_credential_id c = Some (ngx_encode_base64url cid);
  de_user : cr_user_id c = Some user;
  de_key : cr_public_key c = Some der;
  de_alg : cr_alg c = alg;
  de_count : cr_sign_count c = sign_count ad;
  de_created : cr_created_at c = now;
  de_unused : cr_last_used_at c = 0;
  de_aaguid : cr_has_aaguid c = 1 /\ cr_aaguid c = aaguid ad;
  de_transports : cr_transports c = transports;
}.

(** [c] is the credential that the attestation object [ao] registers for
    [user], verified for the relying party [rp] under the policy [require]. *)
Record attests (user rp : bytes) (transports : ptr bytes) (require : Z) (cd ao : bytes)
    (c : ngx_auth_webauthn_credential_t) (alg : Z) : Prop := {
  at_verified : exists a cdh, decodes ao a /\ EVP_Digest cd = Some cdh /\
    attestation_valid a (Some rp) (Some cdh) require /\
    exists adb ad cid cose root n m k der now,
      att_auth_data a = Some adb /\ authdata_reads adb ad /\
      credential_id ad = Some cid /\ cid <> [] /\ cose_public_key ad = Some cose /\
      cbor_load cose = (Some root, true, n) /\ cbor_isa_map root = true /\
      cose_key (cbor_map root) = Some (alg, m) /\ make_key m = Some k /\ i2d_PUBKEY k = Some der /\
      0 <= now < 2 ^ 40 /\ describes c user transports cid der alg now ad;
  at_usable : exists der, cr_public_key c = Some der /\ verifier_accepts der (cr_alg c);
}.

(** The same from the text of the response file. *)
Definition enrols (user rp : bytes) (transports : ptr bytes) (require : Z) (body : bytes)
    (c : ngx_auth_webauthn_credential_t) (alg : Z) : Prop :=
  exists json response cd ao, nxe_json_parse_untrusted body = Some json /\
    nxe_json_object_get json (bs "response") = Some response /\
    member response (bs "clientDataJSON") = Some cd /\
    member response (bs "attestationObject") = Some ao /\
    attests user rp transports require cd ao c alg.

Lemma describes_eq c user transports cid der alg now ad :
  describes c user transports cid der alg now ad ->
  c = registered_credential (Some (ngx_encode_base64url cid)) (Some der) user alg now ad transports.
Proof. destruct c. by intros [? ? ? ? ? ? ? [? ?] ?]; cbn in *; subst. Qed.

Lemma fail_wlp msg (R : ngx_auth_webauthn_credential_t -> Z -> Prop) (h : trace) :
  wlp (register_fail msg) (fun out _ => forall c al, out = Some (c, al) -> R c al) h.
Proof. by destruct msg. Qed.

Lemma hash_value data d :
  ngx_auth_webauthn_hash_sha256 (Some data) (zlen data) (Some tt) = (NGX_OK, d) ->
  EVP_Digest data = Some d.
Proof.
  pose proof (hash_of_str (Some data)) as E. rewrite str_len_zlen in E. cbn [str_bytes] in E.
  rewrite E. destruct (EVP_Digest data) as [d'|]; [|done]. by destruct (_ =? _); intros [= <-].
Qed.

Lemma register_attested_wlp `{!NginxBase64Laws, !CborLaws, !OpenSSLLaws, !OpenSSLKeysLaws}
    user rp transports require cd ao (h : trace) : zlen ao < 2 ^ 63 ->
  wlp (register_attested user rp transports require (Some cd) (Some ao))
    (fun out _ => forall c al, out = Some (c, al) ->
       attests user rp transports require cd ao c al) h.
Proof.
  intros Hao. unfold register_attested. rewrite !str_len_zlen. cbn [str_bytes].
  eapply wlp_seq; [by apply wp_wlp, attestation_parse_trace|]. intros [rc att] h1 Hatt.
  unfold parse_post in Hatt. cbn [fst snd] in Hatt.
  destruct rc; cbn [is_ok negb]; [|apply fail_wlp..].
  destruct Hatt as (a & -> & Hdec). cbn [deref bind].
  destruct (decodes_size _ _ Hdec) as (adb & Hadb & Hsize). rewrite Hadb, str_len_zlen. cbn [str_bytes].
  destruct (authdata_parse_answers adb authdata_zero ltac:(lia)) as (rc & ad & _ & Ead).
  rewrite Ead. cbn [defined deref bind]. destruct rc; cbn [is_ok negb]; [|apply fail_wlp..].
  apply authdata_ok_reads in Ead; [|lia]. cbn [deref bind].
  destruct (_ || _) eqn:Hcred; [apply fail_wlp|].
  apply orb_false_iff in Hcred as [[_ Hid]%orb_false_iff Hkey].
  destruct (credential_id ad) as [cid|] eqn:Ecid; [|done].
  destruct (cose_public_key ad) as [cose|] eqn:Ecose; [|done].
  rewrite str_len_zlen in Hid |- *. cbn [str_bytes] in Hid |- *. apply Z.eqb_neq in Hid.
  destruct (ngx_auth_webauthn_hash_sha256 _ _ _) as [rc cdh] eqn:Hh.
  destruct rc; cbn [is_ok negb]; [|apply fail_wlp..].
  pose proof (hash_ok _ _ _ _ Hh) as H32. apply hash_value in Hh.
  eapply wlp_seq.
  { apply wp_wlp, (attestation_verify_trace a (Some rp) (Some cdh) require).
    split; rewrite ?Hadb, !str_len_zlen; cbn [str_bytes]; lia. }
  intros rc h2 Hv. destruct rc; cbn [is_ok negb]; [|apply fail_wlp..]. cbn [judged] in Hv.
  eapply wlp_seq; [apply wp_wlp, to_der_trace|]. intros [[rc der] alg] h3 Hder.
  destruct rc; cbn [is_ok negb]; [|apply fail_wlp..].
  destruct Hder as (root & n & al & m & k & d & Hl & Hm & Hc & Hk & Hd & -> & -> & Hacc).
  cbn [deref bind]. apply wlp_fill; [apply fail_wlp|].
  intros now Hnow c al' [= <- <-]. split; [|by exists d].
  exists a, cdh. split_and!; [done..|]. exists adb, ad, cid, cose, root, n, m, k, d, now.
  split_and!; try done; [by intros ->|apply Hnow..].
Qed.

Lemma member_fits `{!NxeJsonLaws, !NginxBase64Laws} obj key b :
  member obj key = Some b -> json_size obj < 2 ^ 32 -> zlen b < 2 ^ 63.
Proof.
  unfold member. intros (node & Hn & (enc & He & Hd)%bind_Some)%bind_Some Hs.
  apply get_size in Hn. apply string_size in He. apply decode_fits in Hd.
  pose proof (zlen_nonneg enc). revert Hd. unfold ngx_base64_decoded_length. div_lia.
Qed.

Lemma decode_member_wlp obj key (h : trace) :
  wlp (ngx_auth_webauthn_admin_decode_member obj key)
    (fun out _ => out.1 = NGX_OK -> exists b, out.2 = Some b /\ member obj key = Some b) h.
Proof.
  unfold ngx_auth_webauthn_admin_decode_member, member.
  destruct (nxe_json_object_get obj key) as [node|]; cbn [mbind option_bind]; [|done].
  destruct (nxe_json_string node) as [enc|]; cbn [mbind option_bind]; [|done].
  intros [] _; [|done]. cbn [negb bind].
  destruct (ngx_decode_base64url enc) as [b|]; [|done]. destruct (_ <? _); [done|].
  intros _. by exists b.
Qed.

Lemma register_response_wlp
    `{!NxeJsonLaws, !NginxBase64Laws, !CborLaws, !OpenSSLLaws, !OpenSSLKeysLaws}
    user rp transports require body (h : trace) : zlen body < 2 ^ 32 ->
  wlp (register_response user rp transports require body)
    (fun out _ => forall c al, out = Some (c, al) -> enrols user rp transports require body c al) h.
Proof.
  intros Hb. unfold register_response.
  destruct (nxe_json_parse_untrusted body) as [json|] eqn:Hj; [|by intros [] _].
  apply parse_size in Hj as Hjs. intros [] _. cbn [bind].
  destruct (nxe_json_object_get json (bs "response")) as [r|] eqn:Hr; [|apply fail_wlp].
  apply get_size in Hr as Hrs. destruct (negb _); [apply fail_wlp|].
  eapply wlp_seq; [apply decode_member_wlp|]. intros [rc cd] h1 Hcd.
  destruct rc; cbn [is_ok negb]; [|apply fail_wlp..].
  destruct (Hcd eq_refl) as (cdb & E & Hcdb). cbn [snd] in E. subst cd.
  eapply wlp_seq; [apply decode_member_wlp|]. intros [rc ao] h2 Hao.
  destruct rc; cbn [is_ok negb]; [|apply fail_wlp..].
  destruct (Hao eq_refl) as (aob & E & Haob). cbn [snd] in E. subst ao.
  eapply wlp_mono; [|apply register_attested_wlp].
  - intros out h3 Hatt c al Hout. exists json, r, cdb, aob. split_and!; try done. by apply Hatt.
  - apply (member_fits _ _ _ Haob). lia.
Qed.

(** ** The whole command *)

(** Nothing was sent, or the response of the file was verified, and [Post] holds
    of the rest of the run. *)
Definition registers_with (Post : ngx_auth_webauthn_credential_t -> Z -> trace -> Prop)
    (l : register_opts) (code : Z) (h : trace) : Prop :=
  (code <> AUTH_WEBAUTHN_ADMIN_EX_OK /\ Forall (fun ev => local_call (ev_eff ev)) h) \/
  (exists user rp require c alg input k k',
     ro_user_id l = Some user /\ ro_rp_id l = Some rp /\ require_of (ro_require l) = Some require /\
     h = input ++ k ++ k' /\ Forall (fun ev => local_call (ev_eff ev)) (input ++ k) /\
     enrols user rp (ro_transports l) require (bytes_read input) c alg /\ Post c code k').

(** Exit code 0 comes only with both writes acknowledged. *)
Definition registers (l : register_opts) : Z -> trace -> Prop :=
  registers_with (fun c code k => code = AUTH_WEBAUTHN_ADMIN_EX_OK ->
    stored (adm_key_prefix (ro_ctx l)) c k) l.

Lemma admin_connect_wlp ctx (h : trace) : ctx_fits ctx ->
  wlp (auth_webauthn_admin_connect ctx)
    (fun out _ => out = (NGX_OK, open_redis) \/ out = (NGX_ERROR, NULL)) h.
Proof.
  intros Hc. apply wp_wlp. eapply wp_mono; [|apply (held_to_trace _
    (fun out => out = (NGX_OK, open_redis) \/ out = (NGX_ERROR, NULL)) ∅)].
  - by intros out h' [? _].
  - apply admin_connect_held; [done|by left|by right].
Qed.

Lemma store_wlp ctx c al (h : trace) : ctx_fits ctx ->
  wlp (register_store ctx c al)
    (fun code h' => code = AUTH_WEBAUTHN_ADMIN_EX_OK -> stored (adm_key_prefix ctx) c h') h.
Proof.
  intros Hc. unfold register_store. eapply wlp_seq; [by apply admin_connect_wlp|].
  intros out h1 [-> | ->]; cbn [fst snd is_ok negb]; [|by intros [] _].
  eapply wlp_seq; [apply put_trace|]. intros rc h2 Hput. intros [] _ [] _. cbn [bind].
  destruct rc; cbn [is_ok negb]; [|by intros [] _..].
  intros [] _ _. by do 3 apply stored_app; apply Hput.
Qed.

Lemma register_wlp
    `{!NxeJsonLaws, !NginxBase64Laws, !CborLaws, !OpenSSLLaws, !OpenSSLKeysLaws} Post l :
  (forall user rp require body c al,
     ro_user_id l = Some user -> enrols user rp (ro_transports l) require body c al ->
     wlp (register_store (ro_ctx l) c al) (Post c) []) ->
  wlp (register_run l) (registers_with Post l) [].
Proof.
  intros Hstore. unfold register_run.
  assert (forall msg code, code <> AUTH_WEBAUTHN_ADMIN_EX_OK ->
    wlp (print_error msg ;; Ret code) (registers_with Post l) []) as Husage
    by (intros msg code Hne [] _; left; split; [done|by apply list.Forall_singleton]).
  destruct (ro_user_id l) as [user|] eqn:Hu; [|by apply Husage].
  destruct (ro_response_file l) as [file|] eqn:Hf; [|by apply Husage].
  destruct (ro_rp_id l) as [rp|] eqn:Hr; [|by apply Husage].
  destruct (require_of _) as [require|] eqn:Hq; [|by apply Husage].
  eapply wlp_seq.
  { apply (wlp_calls local_call); [apply read_file_local| |by constructor].
    apply wlp_and; [apply read_file_wlp|]. apply wp_wlp, (held_to_trace _ (fun out =>
      out.1 = NGX_OK -> zlen (str_bytes out.2) < 2 ^ 24) ∅).
    apply input_file_held; [done|]. by intros data Hd _. }
  intros [rc body] h1 [[Hpost [Hlen _]] Hlocal]. cbn [fst snd] in *.
  destruct rc; cbn [is_ok negb]; [|by left..]. destruct body as [data|]; [|done].
  cbn [read_post] in Hpost. cbn [str_bytes] in *. specialize (Hlen eq_refl). subst data.
  eapply wlp_step.
  { apply (wlp_calls local_call); [apply register_response_local| |done].
    apply register_response_wlp. lia. }
  intros [[c al]|] k [Hen Hk]; [|by left].
  specialize (Hen c al eq_refl).
  eapply wlp_mono; [|by eapply wlp_frame, Hstore]. intros code h' (k' & -> & Hst).
  right. exists user, rp, require, c, al, h1, k, k'. repeat (split; [done|]).
  split; [by rewrite app_assoc|]. done.
Qed.

(** C9: a registration reads the response file, and sends nothing to Redis
    unless the file parses, its members decode, and the attestation object
    verifies for the relying party under the policy asked for, which accepts
    the format "none" even when "packed" is asked for; what it then stores is
    the attested credential, field by field, under the user id, with a key the
    assertion verifier accepts.  Exit code 0 means that the server has
    acknowledged the record and the index entry. *)
Theorem register_correct
    `{!NxeJsonLaws, !NginxBase64Laws, !CborLaws, !OpenSSLLaws, !OpenSSLKeysLaws} l :
  ctx_fits (ro_ctx l) -> (forall s, ro_user_id l = Some s -> fits s) ->
  wp (register_run l) (registers l) ([] : trace).
Proof.
  intros Hc Hu. eapply (wlp_wp _ _ _ ∅), register_wlp; [by apply register_held|].
  intros. by apply store_wlp.
Qed.
End register.

(** C36: reading a file or standard input always comes to an end, with the
    file closed: on NGX_OK the buffer holds exactly what was read; NGX_ERROR
    comes only when the file could not be opened, memory ran out, a read
    failed, or the input holds 16 MiB or more. *)
Theorem admin_read_file_correct (path : bytes) :
  wp (auth_webauthn_admin_read_file (Some path)) read_post ([] : trace) /\
  balanced ∅ (auth_webauthn_admin_read_file (Some path)).
Proof.
  assert (balanced ∅ (auth_webauthn_admin_read_file (Some path))) as Hb
    by (intros w _; by apply input_file_held).
  split; [|done]. eapply (wlp_wp _ _ _ ∅), read_file_wlp. by apply Hb.
Qed.

(** C35: whatever its arguments, the files, the server and the allocator do,
    a run of the tool is memory-safe (it reads and writes through no NULL
    pointer, outside no buffer, and uses or releases nothing that is not held),
    ends, has released what it acquired and exits with 0, 1 or 2.  Signed
    overflow is not excluded: the accumulator of the base64url decoder
    ([int_shl6]) and the negation of INT64_MIN ([int64_neg]) overflow, which
    ISO C leaves undefined; the claim holds for arithmetic that wraps around,
    as with -fwrapv. *)
Theorem admin_main_safe
    `{JSON : NxeJson, B64 : NginxBase64, CBOR : Cbor, SSL : OpenSSL, KEYS : !OpenSSLKeys,
      OPT : Getopt, !GetoptLaws, !NxeJsonLaws, !NginxBase64Laws, !CborLaws, !OpenSSLLaws,
      !OpenSSLKeysLaws} (argv : list bytes) :
  Forall fits argv -> wp (main argv) (fun code w => w = ∅ /\ 0 <= code <= 2) (∅ : held).
Proof. apply main_held. Qed.

(** ** The AAGUID, printed *)

Definition unhex (c : byte) : option Z :=
  if (48 <=? b2z c) && (b2z c <=? 57) then Some (b2z c - 48)
  else if (97 <=? b2z c) && (b2z c <=? 102) then Some (b2z c - 87) else None.

Fixpoint unhex_pairs (s : bytes) : option bytes :=
  match s with
  | [] => Some []
  | a :: b :: t => x ← unhex a; y ← unhex b; r ← unhex_pairs t; Some (z2b (16 * x + y) :: r)
  | _ => None
  end.

(** The textual form of RFC 4122: 8-4-4-4-12 digits, read back. *)
Definition uuid_of_text (t : bytes) : option bytes :=
  let part i n := take n (drop i t) in
  if forallb (fun i => bytes_eqb (part i 1%nat) (bs "-")) [8; 13; 18; 23]%nat
     && (length t =? 36)%nat
  then unhex_pairs (part 0 8 ++ part 9 4 ++ part 14 4 ++ part 19 4 ++ part 24 12)%nat
  else None.

Lemma unhex_digit z : 0 <= z < 16 -> unhex (hex_digit z) = Some z.
Proof.
  intros Hz. assert (exists n, z = Z.of_nat n /\ (n < 16)%nat) as (n & -> & Hn)
    by (exists (Z.to_nat z); lia).
  do 16 (destruct n as [|n]; [reflexivity|]). lia.
Qed.

Lemma unhex_byte c t :
  unhex_pairs (hex_digit (Z.shiftr (b2z c) 4) :: hex_digit (Z.land (b2z c) 15) :: t) =
  (cons c) <$> unhex_pairs t.
Proof.
  pose proof (b2z_range c). cbn [unhex_pairs].
  rewrite Z.shiftr_div_pow2, (Z.land_ones _ 4) by lia. change (2 ^ 4) with 16.
  rewrite !unhex_digit by div_lia. cbn [mbind option_bind].
  rewrite <- Z.div_mod, z2b_b2z by done. by destruct (unhex_pairs t).
Qed.

Lemma uuid_digits
    (x0 x1 x2 x3 x4 x5 x6 x7 x8 x9 x10 x11 x12 x13 x14 x15 x16 x17 x18 x19 x20 x21 x22 x23 x24
    x25 x26 x27 x28 x29 x30 x31 : byte) :
  uuid_of_text
    [x0; x1; x2; x3; x4; x5; x6; x7; Byte.x2d; x8; x9; x10; x11; Byte.x2d; x12; x13; x14; x15;
    Byte.x2d; x16; x17; x18; x19; Byte.x2d; x20; x21; x22; x23; x24; x25; x26; x27; x28; x29;
    x30; x31] =
  unhex_pairs
    [x0; x1; x2; x3; x4; x5; x6; x7; x8; x9; x10; x11; x12; x13; x14; x15; x16; x17; x18; x19;
    x20; x21; x22; x23; x24; x25; x26; x27; x28; x29; x30; x31].
Proof. reflexivity. Qed.

Abbreviation hi c := (hex_digit (Z.shiftr (b2z c) 4)).
Abbreviation lo c := (hex_digit (Z.land (b2z c) 15)).

Lemma aaguid_text
    (b0 b1 b2 b3 b4 b5 b6 b7 b8 b9 b10 b11 b12 b13 b14 b15 : byte) :
  ngx_auth_webauthn_admin_aaguid_fmt
    [b0; b1; b2; b3; b4; b5; b6; b7; b8; b9; b10; b11; b12; b13; b14; b15] =
  Ret
    [hi b0; lo b0; hi b1; lo b1; hi b2; lo b2; hi b3; lo b3; Byte.x2d; hi b4; lo b4; hi b5; lo
    b5; Byte.x2d; hi b6; lo b6; hi b7; lo b7; Byte.x2d; hi b8; lo b8; hi b9; lo b9; Byte.x2d; hi
    b10; lo b10; hi b11; lo b11; hi b12; lo b12; hi b13; lo b13; hi b14; lo b14; hi b15; lo
    b15].
Proof. reflexivity. Qed.

(** C31: the text of an AAGUID, 36 characters in its 40-byte buffer, denotes
    its 16 bytes. *)
Theorem aaguid_text_roundtrip (g : bytes) : zlen g = 16 ->
  exists text, ngx_auth_webauthn_admin_aaguid_fmt g = Ret text /\ uuid_of_text text = Some g.
Proof.
  intros Hg. assert (length g = 16)%nat as Hn by (unfold zlen in Hg; lia). clear Hg.
  do 16 (destruct g as [|? g]; [discriminate|]). destruct g; [|discriminate].
  rewrite aaguid_text. eexists. split; [reflexivity|]. rewrite uuid_digits.
  rewrite !unhex_byte. reflexivity.
Qed.

(** ** Sample runs *)

Import Samples CborSamples.

(** getopt_long without abbreviations of long names. *)
Module GetoptSamples.

Fixpoint split_eq (s : bytes) : bytes * ptr bytes :=
  match s with
  | [] => ([], NULL)
  | c :: t =>
      if bool_decide (c = Byte.x3d) then ([], Some t)
      else let '(a, v) := split_eq t in (c :: a, v)
  end.

Definition one_arg (t : list longopt) (arg : bytes) : option (Z * ptr bytes) :=
  if bytes_eqb arg (bs "-h") then Some (OPT_h, NULL) else
  body ← strip (bs "--") arg;
  let '(name, value) := split_eq body in
  Some match find (fun o => bytes_eqb (opt_name o) name) t with
       | None => (OPT_unknown, NULL)
       | Some o =>
           match has_arg o, value with
           | true, None | false, Some _ => (OPT_unknown, NULL)
           | _, _ => (opt_val o, value)
           end
       end.

#[export] Instance getopt_lib : Getopt := {| getopt_long t argv := omap (one_arg t) argv |}.

Lemma split_eq_suffix s a v : split_eq s = (a, Some v) -> v `suffix_of` s.
Proof.
  revert a. induction s as [|c s IH]; intros a; cbn [split_eq]; [done|].
  case_bool_decide; [intros [= <- <-]; by exists [c]|].
  destruct (split_eq s) as [a' [v'|]]; intros [= <- <-]. by apply suffix_cons_r, (IH a').
Qed.

#[export] Instance getopt_laws : GetoptLaws.
Proof.
  split.
  - intros t argv c a (arg & _ & Hone)%list_elem_of_omap. unfold one_arg in Hone.
    destruct (bytes_eqb _ _); [injection Hone as <- <-; by left|].
    apply bind_Some in Hone as (body & _ & Hone). destruct (split_eq body) as [name value].
    destruct (find _ t) as [o|] eqn:Hf; [|injection Hone as <- <-; by right; left].
    apply find_some in Hf as [Hf%list_elem_of_In _].
    destruct (has_arg o) eqn:Ho, value; injection Hone as <- <-;
      [right; right|by right; left..|right; right]; exists o; split_and!; congruence.
  - intros t argv c a (arg & Harg & Hone)%list_elem_of_omap. exists arg. split; [done|].
    unfold one_arg in Hone. destruct (bytes_eqb _ _); [done|].
    apply bind_Some in Hone as (body & Hbody & Hone).
    destruct (split_eq body) as [name value] eqn:Hs.
    assert (value = Some a) as ->
      by (destruct (find _ t) as [o|]; [destruct (has_arg o), value|]; congruence).
    apply split_eq_suffix in Hs. etrans; [exact Hs|]. unfold strip in Hbody.
    case_bool_decide; [|done]. injection Hbody as <-. apply suffix_drop.
Qed.
End GetoptSamples.

Import GetoptSamples.

(** Everything succeeds, and the input, on standard input or in any file, is
    a given text. *)
Definition input_run {A} (text : bytes) (p : prog A) : option A :=
  fst <$> run (fun (rest : bytes) e =>
    match e as e return (ans e * bytes)%type with
    | fread n => (take (Z.to_nat n) rest, drop (Z.to_nat n) rest)
    | e => (ok_ans e, rest)
    end) p text.

(** A response with a packed self-attestation over the sample client data. *)
Definition sample_response : bytes :=
  bs "{" ++ q (bs "response") ++ bs ":{" ++
  q (bs "clientDataJSON") ++ bs ":" ++ q (ngx_encode_base64url (bs "client data")) ++ bs "," ++
  q (bs "attestationObject") ++ bs ":" ++
  q (ngx_encode_base64url (attestation_object (bs "packed") self_signature)) ++ bs "}}".

Definition register_args (require : bytes) : list bytes :=
  [bs "auth-webauthn-admin"; bs "register"; bs "--redis=localhost:6379"; bs "--user-id=alice";
   bs "--response-file=-"; bs "--rp-id=a.example"; bs "--require-attestation=" ++ require].

(** A registration; the same under a policy that excludes its format, for a
    text that is no response, without its options, and an unknown command. *)
Lemma admin_main_safe_witness :
  input_run sample_response (main (register_args (bs "packed"))) = Some 0 /\
  input_run sample_response (main (register_args (bs "none"))) = Some 1 /\
  input_run (bs "nonsense") (main (register_args (bs "packed"))) = Some 1 /\
  input_run sample_response (main [bs "auth-webauthn-admin"; bs "register"]) = Some 2 /\
  input_run [] (main [bs "auth-webauthn-admin"; bs "remove"]) = Some 2 /\
  wp (main (register_args (bs "packed"))) (fun code w => w = ∅ /\ 0 <= code <= 2) (∅ : held).
Proof.
  split_and!; [vm_compute; reflexivity..|]. apply admin_main_safe.
  repeat (constructor; [vm_compute; reflexivity|]). constructor.
Defined.

Definition sample_opts : register_opts :=
  {| ro_ctx := {| adm_redis_host := Some (bs "localhost"); adm_redis_port := 6379;
                  adm_redis_password := NULL; adm_redis_db := 0; adm_redis_timeout_ms := 100;
                  adm_key_prefix := Some (bs "webauthn:") |};
     ro_user_id := Some (bs "alice"); ro_response_file := Some (bs "response.json");
     ro_rp_id := Some (bs "a.example"); ro_require := Some (bs "packed");
     ro_transports := Some (bs "usb") |}.

Lemma register_correct_witness :
  input_run sample_response (register_run sample_opts) = Some AUTH_WEBAUTHN_ADMIN_EX_OK /\
  wp (register_run sample_opts) (registers sample_opts) ([] : trace).
Proof.
  split; [vm_compute; reflexivity|]. apply register_correct; [by split|]. by intros s [= <-].
Defined.

Lemma aaguid_text_roundtrip_witness :
  let g := z2b <$> seqZ 0 16 in
  ngx_auth_webauthn_admin_aaguid_fmt g = Ret (bs "00010203-0405-0607-0809-0a0b0c0d0e0f") /\
  exists text, ngx_auth_webauthn_admin_aaguid_fmt g = Ret text /\ uuid_of_text text = Some g.
Proof.
  split; [vm_compute; reflexivity|]. apply aaguid_text_roundtrip. vm_compute. reflexivity.
Defined.
