(* ===== verification/Enrolment.v ===== *)
(** * From registration to sign-in

    What the command-line tool registers, the verify endpoint lets sign in.
    The two programs meet at the Redis server only, so the traces of both are
    read against one server: [serves s h s'] says that the server, starting in
    [s], can have answered the commands of [h] the way it did. *)

From S2P Require Import Prelude Effects Externals Base64 Samples AuthData Hash ClientData Assertion.
From S2P Require Import SamplesCbor Cose Attestation Redis RedisCalls RedisSpec RedisOps Challenge.
From S2P Require Import Credential Conf Http ChallengeHandler VerifyHandler VerifySound VerifyComplete.
From S2P Require Import Vocabulary AdminMain AdminCommands AdminSound AdminCalls AdminRegister.
#[global] Open Scope Z_scope.

Section serves.
Context {S : Type} `{SRV : RedisServer S, LAWS : !RedisLaws S}.
Implicit Types (s : S) (pre : ngx_str_t) (c : ngx_auth_webauthn_credential_t).

Inductive serves : S -> trace -> S -> Prop :=
  | serves_nil s : serves s [] s
  | serves_cons s s1 s' ev h :
      server_step s (ev_eff ev) (ev_ans ev) s1 -> serves s1 h s' -> serves s (ev :: h) s'.

Lemma serves_app s h k s' : serves s (h ++ k) s' -> exists s1, serves s h s1 /\ serves s1 k s'.
Proof.
  revert s. induction h as [|ev h IH]; intros s Hs; cbn [app] in Hs.
  - exists s. split; [constructor|done].
  - inversion Hs as [|? s1 ? ? ? Hstep Hr]; subst. destruct (IH _ Hr) as (s2 & H1 & H2).
    exists s2. split; [by econstructor|done].
Qed.

(** What a program does to the server, it does along every trace the server
    can have served. *)
Lemma wlp_serves_from {A} (p : prog A) Q (P : S -> Prop) (h : trace) :
  (forall s, P s -> wp (H := server_env) p Q s) ->
  wlp p (fun a h' => forall k, h' = h ++ k -> forall s s', P s -> serves s k s' -> Q a s') h.
Proof.
  revert P h. induction p as [a| |e k IH]; intros P h Hp; simpl in *; [|done|].
  - intros l E s s' Hs Hl. rewrite <- (app_nil_r h) in E at 1. apply app_inv_head in E as <-.
    inversion Hl; subst. by apply Hp.
  - intros a Ha. eapply wlp_mono; [|apply wlp_extends, (IH a
      (fun s1 => exists s, P s /\ server_step s e a s1))].
    + intros b h' [HQ [l ->]] l' E s s' Hs Hl. rewrite <- app_assoc in E. apply app_inv_head in E as <-.
      inversion Hl as [|? s1 ? ? ? Hstep Hr]; subst.
      apply (HQ l eq_refl s1 s'); [by exists s|done].
    + intros s1 (s & Hs & Hstep). destruct (Hp s Hs) as [_ Hk]. by apply Hk.
Qed.

Lemma wlp_serves {A} (p : prog A) (Q : S -> A -> S -> Prop) :
  (forall s, wp (H := server_env) p (Q s) s) ->
  wlp p (fun a h => forall s s', serves s h s' -> Q s a s') [].
Proof.
  intros Hp. apply wlp_forall. intros s.
  eapply wlp_mono; [|apply (wlp_serves_from p (Q s) (fun x => x = s))].
  - intros a h HQ s' Hs. by apply (HQ h eq_refl s).
  - by intros x ->.
Qed.

(** ** Commands that leave every record alone *)

Inductive reading (prefix : bytes) : list bytes -> Prop :=
  | rd_auth p : reading prefix [bs "AUTH"; p]
  | rd_select n : reading prefix [bs "SELECT"; n]
  | rd_getdel ch : reading prefix [bs "GETDEL"; challenge_key_of prefix ch]
  | rd_hgetall k : reading prefix [bs "HGETALL"; k].

Definition reading_call (prefix : bytes) (e : eff) : Prop :=
  match e with redisCommandArgv argv => reading prefix argv | _ => True end.

#[export] Instance reading_background prefix : Background (reading_call prefix).
Proof. by intros []. Qed.

Definition keeps (k : bytes) s s' : Prop :=
  ttl s !! k = None -> kv s' !! k = kv s !! k /\ ttl s' !! k = None.

Lemma keeps_trans k s1 s2 s3 : keeps k s1 s2 -> keeps k s2 s3 -> keeps k s1 s3.
Proof. intros H1 H2 Ht. destruct (H1 Ht) as [E1 T1], (H2 T1) as [E2 T2]. split; [congruence|done]. Qed.

Lemma reading_exec prefix id argv s :
  reading prefix argv -> keeps (record_key_of prefix id) s (snd (srv_exec argv s)).
Proof.
  intros Hr Ht.
  assert (forall s', holds s' (kv s) (ttl s) -> kv s' !! record_key_of prefix id = kv s !! record_key_of prefix id /\
            ttl s' !! record_key_of prefix id = None) as Hsame by by intros s' [-> ->].
  destruct Hr as [p|n|ch|k].
  - apply Hsame, auth_law.
  - apply Hsame, select_law.
  - assert (challenge_key_of prefix ch <> record_key_of prefix id) as Hne by by intros E%app_inv_head.
    destruct (getdel_law s (challenge_key_of prefix ch)) as [[_ Hh]|Hd]; [by apply Hsame|].
    destruct (kv s !! challenge_key_of prefix ch) as [[v| |]|]; [|done|done|by apply Hsame, Hd].
    destruct Hd as [_ [-> ->]]. by rewrite !lookup_delete_ne.
  - destruct (hgetall_law s k) as [[_ Hh]|(h & l & _ & _ & _ & Hh)]; by apply Hsame.
Qed.

Lemma tick_keeps_record k s s' : srv_tick s s' -> keeps k s s'.
Proof. intros Ht E. by apply tick_keeps_key. Qed.

Lemma reading_step prefix id s e a s' :
  reading_call prefix e -> server_step s e a s' -> keeps (record_key_of prefix id) s s'.
Proof.
  intros He Hs. destruct e; try (cbn in Hs; by subst).
  cbn in He, Hs. pose proof (fun s1 => reading_exec prefix id argv s1 He) as Hx. destruct a as [r|].
  - destruct Hs as (s1 & Ht & E). eapply keeps_trans; [by apply tick_keeps_record|].
    specialize (Hx s1). by rewrite E in Hx.
  - destruct Hs as [Ht|(s1 & Ht & ->)]; [by apply tick_keeps_record|].
    eapply keeps_trans; [by apply tick_keeps_record|apply Hx].
Qed.

Lemma serves_keeps prefix id s h s' :
  Forall (fun ev => reading_call prefix (ev_eff ev)) h -> serves s h s' ->
  keeps (record_key_of prefix id) s s'.
Proof.
  intros Hr Hs. revert Hr. induction Hs as [s|s s1 s' ev h Hstep Hs IH]; intros Hr; [done|].
  apply Forall_cons_1 in Hr as [He Hr].
  eapply keeps_trans; [by eapply reading_step|by apply IH].
Qed.

(** ** What HGETALL answers for a stored record *)

Lemma holds_keeps pre c s s' :
  holds_record pre c s -> keeps (rkey pre (cr_credential_id c)) s s' -> holds_record pre c s'.
Proof. intros [Hk Ht] Hkeep. destruct (Hkeep Ht) as [E T]. split; [congruence|done]. Qed.

(** The fields of the record, in some order. *)
Definition record_reply (c : ngx_auth_webauthn_credential_t) (reply : redisReply) : Prop :=
  is_error reply \/
  exists l, l ≡ₚ map_to_list (put_hash c ∅) /\ reply = RArray (flat_pairs l).

Lemma record_read pre c s s' reply :
  holds_record pre c s ->
  server_step s (redisCommandArgv [bs "HGETALL"; rkey pre (cr_credential_id c)]) (Some reply) s' ->
  record_reply c reply.
Proof.
  intros Hc (s1 & Ht & E). eapply holds_keeps in Hc as [Ek _]; [|by apply tick_keeps_record].
  pose proof (hgetall_law s1 (rkey pre (cr_credential_id c))) as Hl. rewrite E in Hl.
  destruct Hl as [[He _]|(h & l & Hh & Hl & Hr & _)]; [by left|]. cbn [fst] in Hr. right.
  unfold hash_at in Hh. rewrite Ek in Hh. injection Hh as <-. by exists l.
Qed.

Lemma serves_record pre c s h s' reply :
  holds_record pre c s -> Forall (fun ev => reading_call (str_bytes pre) (ev_eff ev)) h ->
  serves s h s' -> answered [bs "HGETALL"; rkey pre (cr_credential_id c)] reply h ->
  record_reply c reply.
Proof.
  intros Hc Hr Hs. revert Hc Hr. induction Hs as [s|s s1 s' [e x] h Hstep Hs IH]; intros Hc Hr Ha.
  { by apply elem_of_nil in Ha. }
  apply Forall_cons_1 in Hr as [He Hr]. cbn [ev_eff ev_ans] in *.
  assert (answered [bs "HGETALL"; rkey pre (cr_credential_id c)] reply h -> record_reply c reply) as Hrest.
  { apply IH; [|done]. eapply holds_keeps; [done|]. by eapply reading_step. }
  unfold answered, cmds in Ha. destruct e; try (by apply Hrest).
  cbn [omap list_omap ev_cmd] in Ha. apply elem_of_cons in Ha as [[= <- <-]|Ha]; [|by apply Hrest].
  by eapply record_read.
Qed.
End serves.

Lemma record_reads c l : cred_wf c -> l ≡ₚ map_to_list (put_hash c ∅) ->
  read_record (cr_credential_id c) (flat_pairs l) c.
Proof.
  intros Hwf Hl. destruct (put_hash_cred c Hwf) as [Ec (Hh & Hk & Ha)].
  pose proof (get_loop_spec (cr_credential_id c) l _ Hl) as Hg. unfold read_record.
  rewrite reply_pairs_flat. destruct (get_loop _ _) as [?|out]; [done|]. destruct Hg as [-> _].
  rewrite Ec. split; [done|]. rewrite <- Ec. done.
Qed.

Lemma read_record_inj id el c1 c2 : read_record id el c1 -> read_record id el c2 -> c1 = c2.
Proof. intros [H1 _] [H2 _]. congruence. Qed.

Lemma answered_error argv reply h : answered argv reply h -> is_error reply -> env_failed h.
Proof.
  intros Ha [e ->]. apply list_elem_of_omap in Ha as ([e' x] & Hin & Hc).
  exists (Ev e' x). split; [done|]. destruct e'; try done. by injection Hc as -> ->.
Qed.

Lemma flat_strings l : Forall (fun r => is_string r = true) (flat_pairs l).
Proof. induction l as [|[f v] l IH]; [constructor|]. by repeat constructor. Qed.

(** ** The verify endpoint reads, then writes *)

Definition no_read (e : eff) : Prop :=
  match e with redisCommandArgv argv => head argv <> Some (bs "HGETALL") | _ => True end.

#[export] Instance no_read_background : Background no_read.
Proof. by intros []. Qed.

Lemma local_no_read e : local_call e -> no_read e.
Proof. by destruct e. Qed.

(** A reply to HGETALL falls in the part of the run that reads. *)
Lemma answered_read k reply h1 h2 :
  Forall (fun ev => no_read (ev_eff ev)) h2 ->
  answered [bs "HGETALL"; k] reply (h1 ++ h2) -> answered [bs "HGETALL"; k] reply h1.
Proof.
  intros Hn. unfold answered. rewrite cmds_app, elem_of_app. intros [?|Hin]; [done|exfalso].
  apply list_elem_of_omap in Hin as ([e x] & Hin & Hc).
  rewrite list.Forall_forall in Hn. specialize (Hn _ Hin). destruct e; try done.
  injection Hc as -> _. by apply Hn.
Qed.

Section signin.
Context `{JSON : NxeJson, B64 : NginxBase64, SSL : OpenSSL, JWX : NxeJwx, HTTP : NginxHttp}.

Lemma verify_redis_phased wlcf redis os id a ch :
  phased (reading_call (str_bytes (redis_key_prefix wlcf))) no_read
    (verify_redis redis wlcf os id a ch).
Proof.
  unfold verify_redis. apply phased_first; [apply consume_calls; [apply _|]; intros; constructor|].
  intros rc. destruct (negb _); [by apply phased_late|].
  apply phased_first; [apply get_calls; [apply _|]; intros; constructor|]. intros [rc' cred].
  destruct (negb _); [by apply phased_late|]. apply phased_late.
  apply all_calls_bind; [apply all_calls_deref|]. intros cr.
  apply all_calls_bind; [by apply assertion_verify_calls, _|]. intros [rc'' res].
  destruct (negb _); [done|]. apply all_calls_bind; [apply all_calls_deref|]. intros x.
  apply all_calls_bind; [done|]. intros now.
  apply all_calls_bind; [by apply update_calls; [apply _|]|]. intros rc3.
  apply all_calls_bind; [by destruct (negb _)|done].
Qed.

Lemma local_late {A} (p : prog A) : all_calls local_call p -> all_calls no_read p.
Proof. apply all_calls_mono, local_no_read. Qed.

Lemma verify_done_phased r wlcf :
  phased (reading_call (str_bytes (redis_key_prefix wlcf))) no_read
    (ngx_http_auth_webauthn_verify_done r wlcf).
Proof.
  unfold ngx_http_auth_webauthn_verify_done. destruct (origins wlcf) as [os|]; [|by apply phased_late].
  destruct (_ || _); [by apply phased_late|].
  apply phased_first; [apply read_body_calls, _|]. intros [rc body].
  destruct (negb _); [apply phased_late, local_late, reject_local|].
  apply phased_first; [apply verify_request_calls, _|].
  intros [[[id a] ch]|]; [|apply phased_late, local_late, reject_local].
  apply phased_first; [apply connect_calls; [apply _|intros; constructor..]|]. intros [rc' redis].
  destruct (negb _); [by apply phased_late|].
  apply phased_last; [apply verify_redis_phased|].
  intros [[cred now]|]; [|apply local_late, reject_redis_local].
  apply all_calls_bind; [apply close_calls, _|]. intros _. apply local_late, mint_session_local.
Qed.

(** A sign-in request: everything the endpoint needs is configured, and the
    body asserts credential [c] over challenge [ch]. *)
Record asserts (r : ngx_http_request_t) (wlcf : ngx_http_auth_webauthn_loc_conf_t)
    (c : ngx_auth_webauthn_credential_t) (ch : bytes) : Prop := {
  as_config : str_bytes (rp_id wlcf) <> [] /\ str_bytes (redis_host wlcf) <> [] /\
    str_bytes (jwt_secret wlcf) <> [];
  as_request : exists body id a os count, posted_body r = Some body /\
    request_of body = Some (id, a, ch) /\ cr_credential_id c = Some id /\
    origins wlcf = Some os /\
    assertion_valid a (acred_of c) (policy_of wlcf os ch) os count;
}.

(** Everything a run can still be refused for: the challenge, the
    environment and the token library. *)
Definition lets_in (wlcf : ngx_http_auth_webauthn_loc_conf_t) (c : ngx_auth_webauthn_credential_t)
    (ch : bytes) (h : trace) : Prop :=
  granted h \/ env_failed h \/ no_challenge (str_bytes (redis_key_prefix wlcf)) ch h \/
  exists now, no_token wlcf (str_bytes (cr_credential_id c)) c now.
End signin.

Section served.
Context `{JSON : NxeJson, B64 : NginxBase64, SSL : OpenSSL, JWX : NxeJwx, HTTP : NginxHttp}.
Context `{!NginxBase64Laws, !NxeJsonLaws, !OpenSSLLaws}.
Context {S : Type} `{SRV : RedisServer S, LAWS : !RedisLaws S}.

(** The answer to HGETALL, from a server that holds the record. *)
Lemma served_read wlcf pre c id s h1 h2 s' reply :
  str_bytes pre = str_bytes (redis_key_prefix wlcf) -> cr_credential_id c = Some id ->
  holds_record pre c s ->
  Forall (fun ev => reading_call (str_bytes (redis_key_prefix wlcf)) (ev_eff ev)) h1 ->
  Forall (fun ev => no_read (ev_eff ev)) h2 -> serves s (h1 ++ h2) s' ->
  answered [bs "HGETALL"; record_key_of (str_bytes (redis_key_prefix wlcf)) id] reply (h1 ++ h2) ->
  record_reply c reply.
Proof.
  intros Hp Hid Hc Hr Hn Hs Ha. rewrite <- Hp in Hr, Ha. apply answered_read in Ha; [|done].
  apply serves_app in Hs as (s1 & Hs & _). eapply serves_record; [done..|]. by rewrite Hid.
Qed.

Lemma served_lets_in r wlcf pre c ch s h1 h2 s' :
  str_bytes pre = str_bytes (redis_key_prefix wlcf) -> cred_wf c -> holds_record pre c s ->
  asserts r wlcf c ch ->
  Forall (fun ev => reading_call (str_bytes (redis_key_prefix wlcf)) (ev_eff ev)) h1 ->
  Forall (fun ev => no_read (ev_eff ev)) h2 -> serves s (h1 ++ h2) s' ->
  decided r wlcf (h1 ++ h2) -> lets_in wlcf c ch (h1 ++ h2).
Proof.
  intros Hp Hwf Hc [Hcf (body & id & a & os & count & Hb & Hreq & Hid & Ho & Hav)] Hr1 Hr2 Hs Hd.
  pose proof (fun reply => served_read wlcf pre c id s h1 h2 s' reply Hp Hid Hc Hr1 Hr2 Hs) as Hread.
  assert (forall b id' a' ch', posted_body r = Some b -> request_of b = Some (id', a', ch') ->
    id' = id /\ a' = a /\ ch' = ch) as Hfun by (intros; simplify_eq; done).
  assert (forall element cred,
    answered [bs "HGETALL"; record_key_of (str_bytes (redis_key_prefix wlcf)) id] (RArray element) (h1 ++ h2) ->
    read_record (Some id) element cred -> cred = c) as Hsame.
  { intros el cred Ha Hr. destruct (Hread _ Ha) as [[e ?]|(l & Hl & [= ->])]; [done|].
    eapply read_record_inj; [exact Hr|]. rewrite <- Hid. by apply record_reads. }
  destruct Hd as [?|[?|Hr]]; [by left|by right; left|].
  destruct Hr as [Hx|Hx|b Hx Hy|b id' a' ch' Hx Hy Hn|b id' a' ch' Hx Hy (reply & Ha & Hn)
    |b id' a' ch' el cred os' Hx Hy Hz Ha Hr Hn|b id' a' ch' el cred now Hx Hy Ha Hr Hn].
  - destruct Hx as [?|[?|[?|?]]]; [congruence|tauto..].
  - congruence.
  - congruence.
  - destruct (Hfun _ _ _ _ Hx Hy) as (-> & -> & ->). right; right; by left.
  - destruct (Hfun _ _ _ _ Hx Hy) as (-> & -> & ->). right; left.
    destruct (Hread _ Ha) as [He|(l & Hl & ->)]; [by eapply answered_error|exfalso].
    eapply Hn; [done|apply flat_strings|]. rewrite <- Hid. by apply record_reads.
  - destruct (Hfun _ _ _ _ Hx Hy) as (-> & -> & ->). exfalso. simplify_eq.
    rewrite (Hsame _ _ Ha Hr) in Hn. by eapply Hn.
  - destruct (Hfun _ _ _ _ Hx Hy) as (-> & -> & ->). right; right; right. exists now.
    rewrite Hid. rewrite (Hsame _ _ Ha Hr) in Hn. done.
Qed.

Lemma verify_served r wlcf :
  verify_sizes r wlcf ->
  wp (ngx_http_auth_webauthn_verify_done r wlcf)
    (fun _ h => forall pre c ch s s', str_bytes pre = str_bytes (redis_key_prefix wlcf) ->
       cred_wf c -> holds_record pre c s -> asserts r wlcf c ch -> serves s h s' ->
       lets_in wlcf c ch h) ([] : trace).
Proof.
  intros Hs. eapply (wlp_wp _ _ _ ∅); [by apply (verify_done_balanced r wlcf Hs ∅)|].
  eapply wlp_mono; [|apply wlp_phased; [apply verify_done_phased|by apply verify_done_wlp]].
  intros _ h (Hd & h1 & h2 & -> & Hr1 & Hr2) pre c ch s s' Hp Hwf Hc Has Hsv.
  eapply (served_lets_in r wlcf pre c ch s h1 h2 s'); eassumption.
Qed.
End served.

Section stores.
Context `{JSON : NxeJson, B64 : NginxBase64, CBOR : Cbor, SSL : OpenSSL, KEYS : !OpenSSLKeys}.
Context `{!NginxBase64Laws, !OpenSSLKeysLaws}.

Lemma enrols_fits user rp transports require body c alg :
  enrols user rp transports require body c alg ->
  cr_user_id c = Some user /\ fits (str_bytes (cr_credential_id c)).
Proof.
  intros (json & resp & cd & ao & _ & _ & _ & _ & Hat).
  destruct Hat as [(a & cdh & _ & _ & _ & adb & ad & cid & cose & root & n & m & k & der & now & Hx) _].
  destruct Hx as (_ & [(_ & _ & _ & _ & Hid) _] & Ecid & _ & _ & _ & _ & _ & _ & _ & _ & ->%describes_eq).
  assert (zlen cid < 2 ^ 16) as Hlen.
  { destruct (has_flag _ _); [|by destruct Hid as (_ & ? & _); congruence].
    destruct Hid as (cid' & ? & E & _ & ? & _). congruence. }
  pose proof (encode_fits cid) as He. pose proof (zlen_nonneg cid).
  split; [done|]. cbn. unfold fits. revert He. unfold ngx_base64_encoded_length. div_lia.
Qed.

(** What a verified response stands for is a storable record. *)
Lemma enrols_wf user rp transports require body c alg :
  enrols user rp transports require body c alg -> fits user -> transports <> Some [] ->
  str_bytes (cr_credential_id c) <> [] -> str_bytes (cr_user_id c) <> [] -> cred_wf c.
Proof.
  intros Hen Hu Ht Hid0 Hu0. apply enrols_fits in Hen as Hf. destruct Hf as [_ Hf].
  destruct Hen as (json & resp & cd & ao & _ & _ & _ & _ & Hat).
  destruct Hat as [(a & cdh & _ & _ & _ & adb & ad & cid & cose & root & n & m & k & der & now & Hx) _].
  destruct Hx as (_ & [(_ & _ & Hcnt & Hg & _) _] & _ & _ & _ & _ & _ & Hk & Hm & Hd & Hnow & ->%describes_eq).
  apply cose_key_typed in Hk. apply der_len in Hd.
  constructor; cbn.
  - by exists (ngx_encode_base64url cid).
  - by exists user.
  - exists der. split; [done|]. intros ->. by destruct Hd.
  - destruct m; cbn in Hk; unfold INT32_MIN, INT32_MAX; lia.
  - unfold UINT32_MAX. lia.
  - unfold INT64_MIN, INT64_MAX. lia.
  - unfold INT64_MIN, INT64_MAX. lia.
  - by left.
  - destruct transports as [t|]; [right|by left]. exists t. split; [done|]. by intros ->.
Qed.

Context {S : Type} `{SRV : RedisServer S, LAWS : !RedisLaws S}.

Lemma serves_local s h s' :
  Forall (fun ev => local_call (ev_eff ev)) h -> serves s h s' -> s' = s.
Proof.
  intros Hl Hs. revert Hl. induction Hs as [s|s s1 s' [e a] h Hstep Hs IH]; [done|].
  intros [He Hh]%Forall_cons_1. rewrite IH by done. destruct e; cbn in He, Hstep; done.
Qed.

Lemma admin_connect_reading prefix ctx :
  all_calls (reading_call prefix) (auth_webauthn_admin_connect ctx).
Proof.
  unfold auth_webauthn_admin_connect, print_error, fputs. destruct (_ || _); [by local|].
  apply all_calls_bind; [apply connect_calls; [apply _|intros; constructor..]|].
  intros [rc redis]. by destruct (negb _).
Qed.

(** NGX_OK from [put]: neither id is empty, and the server holds the record. *)
Lemma put_served pre c :
  fits (str_bytes pre) -> fits (str_bytes (cr_credential_id c)) -> fits (str_bytes (cr_user_id c)) ->
  wlp (ngx_auth_webauthn_credential_put open_redis (Some tt) (Some pre) (Some c))
    (fun rc h => rc = NGX_OK ->
       str_bytes (cr_credential_id c) <> [] /\ str_bytes (cr_user_id c) <> [] /\
       forall s s', serves s h s' -> hash_at s (rkey pre (cr_credential_id c)) = Some ∅ ->
         ttl s !! rkey pre (cr_credential_id c) = None -> holds_record pre c s') [].
Proof.
  intros Hp Hc Hu.
  destruct ((str_len (cr_credential_id c) =? 0) || (str_len (cr_user_id c) =? 0)) eqn:E.
  { unfold ngx_auth_webauthn_credential_put. cbn [nullp orb]. by rewrite E. }
  apply orb_false_iff in E as [Ec Eu]. rewrite Z.eqb_neq, str_len_0 in Ec, Eu.
  eapply wlp_mono; [|apply (wlp_serves _ (fun s rc s' => rc = NGX_OK ->
    hash_at s (rkey pre (cr_credential_id c)) = Some ∅ ->
    ttl s !! rkey pre (cr_credential_id c) = None -> holds_record pre c s'))].
  - intros rc h Hs Hrc. split_and!; [done|done|]. intros. by eapply Hs.
  - intros s. eapply wp_mono; [|by apply put_server]. intros rc s' Hput Hrc Hnew Httl.
    destruct (Hput Hrc) as (s1 & H1' & H2'). by eapply put_holds.
Qed.

Lemma store_served ctx c al :
  ctx_fits ctx -> fits (str_bytes (cr_credential_id c)) -> fits (str_bytes (cr_user_id c)) ->
  wlp (register_store ctx c al)
    (fun code h => code = AUTH_WEBAUTHN_ADMIN_EX_OK ->
       str_bytes (cr_credential_id c) <> [] /\ str_bytes (cr_user_id c) <> [] /\
       forall s s', serves s h s' ->
         hash_at s (rkey (adm_key_prefix ctx) (cr_credential_id c)) = Some ∅ ->
         ttl s !! rkey (adm_key_prefix ctx) (cr_credential_id c) = None ->
         holds_record (adm_key_prefix ctx) c s') [].
Proof.
  intros Hctx Hc Hu. unfold register_store.
  eapply wlp_seq.
  { apply wlp_and; [by apply admin_connect_wlp|].
    apply (wlp_segment (reading_call (str_bytes (adm_key_prefix ctx))) _ (fun _ _ => True));
      [apply admin_connect_reading|apply wlp_true]. }
  intros out h1 [Hout (_ & k1 & -> & Hk1)]. cbn [app] in *.
  destruct Hout as [-> | ->]; cbn [fst snd is_ok negb]; [|by intros [] _].
  eapply wlp_seq; [eapply wlp_frame, put_served; [apply Hctx|done|done]|].
  intros rc h2 (k2 & -> & Hput). cbn [app] in Hput.
  intros [] _ [] _. cbn [bind]. destruct rc; cbn [is_ok negb]; [|by intros [] _..].
  intros [] _ _. destruct (Hput eq_refl) as (Hc0 & Hu0 & Hsv). split_and!; [done|done|].
  intros s s' Hs Hnew Httl. rewrite <- !app_assoc in Hs.
  apply serves_app in Hs as (s1 & Hs1 & (s2 & Hs2 & Hs3)%serves_app).
  apply serves_local in Hs3 as ->; [|by repeat constructor].
  apply (serves_keeps _ (str_bytes (cr_credential_id c)) _ _ _ Hk1) in Hs1 as Hkeep.
  destruct (Hkeep Httl) as [Ek Et]. apply (Hsv s1 s2 Hs2); [|done].
  unfold hash_at. by rewrite Ek.
Qed.

(** What an exit code 0 of a registration promises to the sign-ins to come. *)
Definition signs_in `{JWX : NxeJwx, HTTP : NginxHttp} (l : register_opts) (code : Z) (h : trace) : Prop :=
  code = AUTH_WEBAUTHN_ADMIN_EX_OK -> exists user rp require body c alg,
    ro_user_id l = Some user /\ enrols user rp (ro_transports l) require body c alg /\
    let pre := adm_key_prefix (ro_ctx l) in
    (forall s s', serves s h s' -> hash_at s (rkey pre (cr_credential_id c)) = Some ∅ ->
       ttl s !! rkey pre (cr_credential_id c) = None -> holds_record pre c s') /\
    forall r wlcf, verify_sizes r wlcf -> str_bytes (redis_key_prefix wlcf) = str_bytes pre ->
      wp (ngx_http_auth_webauthn_verify_done r wlcf)
        (fun _ h' => forall ch s s', holds_record pre c s -> asserts r wlcf c ch ->
           serves s h' s' -> lets_in wlcf c ch h') ([] : trace).

(** C5: what the tool registers, the verify endpoint lets sign in.  A
    registration that exits with 0 has verified a response and leaves its
    credential, under a fresh id, in the server's keyspace; and as long as
    the record is there, a request whose assertion is valid for it, over any
    challenge, is refused by the verify endpoint only when the server does
    not hand out that challenge, something outside fails, or the token
    library refuses. *)
Theorem registered_signs_in `{JWX : NxeJwx, HTTP : NginxHttp}
    `{!NxeJsonLaws, !CborLaws, !OpenSSLLaws} l :
  ctx_fits (ro_ctx l) -> (forall u, ro_user_id l = Some u -> fits u) -> ro_transports l <> Some [] ->
  wp (register_run l) (signs_in l) ([] : trace).
Proof.
  intros Hctx Hu Ht. eapply (wlp_wp _ _ _ ∅); [by apply register_held|].
  eapply wlp_mono; [|apply register_wlp; intros user rp require body c al Hus Hen;
    destruct (enrols_fits _ _ _ _ _ _ _ Hen) as [Euser Hcid];
    apply store_served; [done|exact Hcid|rewrite Euser; by apply Hu]].
  intros code h [[Hne _]|(user & rp & require & c & alg & input & k & k' & Hus & _ & _ & -> & Hk & Hen & Hst)]
    Hok; [done|].
  exists user, rp, require, (bytes_read input), c, alg. split; [done|]. split; [done|].
  destruct (Hst Hok) as (Hc0 & Hu0 & Hsv). split.
  - intros s s' Hs. rewrite app_assoc in Hs. apply serves_app in Hs as (s1 & Hs1 & Hs).
    apply serves_local in Hs1 as ->; [|done]. by apply Hsv.
  - intros r wlcf Hvs Hp. eapply wp_mono; [|by apply (verify_served (S:=S))].
    intros u h' Hv ch s s' Hc Has Hs. eapply Hv; [done| |done..].
    by eapply enrols_wf; [exact Hen|apply Hu|..].
Qed.
End stores.

Import Samples CborSamples GetoptSamples MiniRedis HttpSamples.

(** The tool registers the sample response at a server that has issued a
    challenge; then an assertion by that key is posted. *)
Definition signin_body (key cid : bytes) : bytes :=
  let b64 := Base64.Shim.ngx_encode_base64url in
  let field k v := q k ++ bs ":" ++ q (b64 v) in
  bs "{" ++ q (bs "id") ++ bs ":" ++ q (b64 cid) ++ bs "," ++ q (bs "response") ++ bs ":{" ++
  field (bs "clientDataJSON") posted_client_data ++ bs "," ++
  field (bs "authenticatorData") sample_assertion_authdata ++ bs "," ++
  field (bs "signature") (key ++ sample_assertion_authdata ++ digest posted_client_data) ++ bs "}}".

Definition issued_db : db :=
  Db {[ challenge_key_of (bs "webauthn:") sample_nonce := VString (bs "1") ]}
     {[ challenge_key_of (bs "webauthn:") sample_nonce := 60 ]}.

Definition tool_run {A} (text : bytes) (p : prog A) (s : db) : option (A * db) :=
  '(a, w) ← run (fun (w : bytes * db) e =>
    match e as e return (ans e * (bytes * db))%type with
    | fread n => (take (Z.to_nat n) w.1, (drop (Z.to_nat n) w.1, w.2))
    | e => let '(a, s) := answer w.2 e in (a, (w.1, s))
    end) p (text, s);
  Some (a, w.2).

Definition enrol_and_sign_in (opts : register_opts) (key : bytes) : option (Z * list (Z + bytes)) :=
  '(code, s) ← tool_run sample_response (register_run opts) issued_db;
  '(_, h) ← mini_trace (ngx_http_auth_webauthn_verify_done
     (post_request (signin_body key (str_bytes (credential_id registered)))) HttpSamples.conf) s;
  Some (code, spoken h).

(** Registered with code 0, and signed in by the registered key only. *)
Lemma registered_signs_in_witness :
  enrol_and_sign_in sample_opts (Byte.x04 :: sample_x ++ sample_y)
    = Some (0, [inr (bs "Set-Cookie"); inl 200]) /\
  enrol_and_sign_in sample_opts (bs "forged") = Some (0, [inl 401]) /\
  wp (register_run sample_opts) (signs_in (S := db) sample_opts) ([] : trace).
Proof.
  split_and!; [vm_compute; reflexivity..|].
  apply (registered_signs_in (S := db) sample_opts); [by split| |done]. by intros u [= <-].
Defined.
