(* ===== verification/Revocation.v ===== *)
(** * From revocation to lock-out

    A credential that the command-line tool has revoked signs nobody in, as
    long as it is not registered again: not even when sign-ins that were under
    way during the revocation write their counters afterwards.  The statement
    is about the transition system of System.v: any number of requests and
    tool runs, interleaved call by call. *)

From S2P Require Import Prelude Effects Externals Base64 Samples AuthData Hash ClientData Assertion.
From S2P Require Import Redis RedisCalls RedisSpec RedisOps Challenge Credential Conf Http.
From S2P Require Import ChallengeHandler VerifyHandler VerifySound VerifyComplete Gate Vocabulary System.
From S2P Require Import SamplesCbor AdminMain AdminCommands AdminSound AdminCalls AdminRegister.
#[global] Open Scope Z_scope.

Lemma counter_keeps_key h count last :
  hset_fields h (hset_args (counter_pairs count last)) !! NGX_AUTH_WEBAUTHN_CRED_F_PUBLIC_KEY =
  h !! NGX_AUTH_WEBAUTHN_CRED_F_PUBLIC_KEY.
Proof.
  unfold counter_pairs, ngx_auth_webauthn_credential_num_pair.
  destruct (snprintf _ _) as [b1 n1], (snprintf _ _) as [b2 n2].
  cbn -[lookup]. by rewrite !lookup_insert_ne.
Qed.

Section lockout.
Context `{JSON : NxeJson, B64 : NginxBase64, SSL : OpenSSL, JWX : NxeJwx, HTTP : NginxHttp}.
Context {S : Type} `{SRV : RedisServer S, LAWS : !RedisLaws S}.
Context `{!OpenSSLLaws, !NginxBase64Laws, !NxeJsonLaws}.
Context (wlcf : ngx_http_auth_webauthn_loc_conf_t) (id : bytes).
Implicit Types (s : S) (y : system (S := S)).
Abbreviation prefix := (str_bytes (redis_key_prefix wlcf)).
Abbreviation key := (record_key_of prefix id).

(** There is no record, or none with a public key: what a counter update
    leaves behind when it comes after the revocation. *)
Definition dead s : Prop := forall h, kv s !! key = Some (VHash h) ->
  h !! NGX_AUTH_WEBAUTHN_CRED_F_PUBLIC_KEY = None.

(** Calls that register nothing under [id]. *)
Definition no_enrol (e : eff) : Prop :=
  store_call prefix e /\
  match e with
  | redisCommandArgv argv => forall args, argv = bs "HSET" :: key :: args ->
      exists count last, args = hset_args (counter_pairs count last)
  | _ => True
  end.

#[export] Instance no_enrol_allows : Allows prefix no_enrol.
Proof.
  split; [by intros []|intros; (split; [cbn; auto with calls|]); try done..].
  intros args [= _ <-]. by exists count, last.
Qed.

(** ** What such calls do to a dead record *)

Lemma spares_dead s s' : spares key s s' -> dead s -> dead s'.
Proof. intros [E|E] Hd h; rewrite E; [apply Hd|done]. Qed.

Lemma record_unput argv : store_command prefix argv -> puts key argv = 0%nat.
Proof.
  intros Hc. unfold puts. rewrite bool_decide_false; [done|]. destruct Hc; try done.
  cbn [take]. intros [= E]. by apply app_inv_head in E.
Qed.

Lemma exec_dead argv s :
  no_enrol (redisCommandArgv argv) -> dead s -> dead (snd (srv_exec argv s)).
Proof.
  intros [Hc Hn] Hd. destruct (decide (take 2 argv = [bs "HSET"; key])) as [E|E].
  - assert (argv = bs "HSET" :: key :: drop 2 argv) as Ea.
    { rewrite <- (take_drop 2 argv) at 1. by rewrite E. }
    rewrite Ea. destruct (Hn _ Ea) as (count & last & ->).
    pose proof (hset_law s key (hset_args (counter_pairs count last))) as [Hr|(h & n & Hh & Hr)].
    { eapply spares_dead; [by apply rejected_spares|done]. }
    destruct Hr as [_ [Ek _]]. intros h'. rewrite Ek, lookup_insert_eq. intros E'.
    assert (h' = hset_fields h (hset_args (counter_pairs count last))) as -> by congruence.
    rewrite counter_keeps_key. unfold hash_at in Hh.
    destruct (kv s !! key) as [[]|] eqn:Es; simplify_eq; [by apply Hd|by apply lookup_empty].
  - eapply spares_dead; [|done]. apply (command_spares_key prefix); [done|by apply record_unput|..].
    + by intros ip E'%app_inv_head.
    + by intros uid E'%app_inv_head.
    + intros id' args -> E'. apply E. by rewrite E'.
Qed.

Lemma tick_dead s s' : srv_tick s s' -> dead s -> dead s'.
Proof. intros [Hk _]%tick_law. apply spares_dead. destruct (Hk key) as [?|[_ ?]]; [by left|by right]. Qed.

Lemma step_dead e (a : ans e) s s' : no_enrol e -> server_step s e a s' -> dead s -> dead s'.
Proof.
  intros He Hs Hd. destruct e; try (cbn in Hs; by subst). cbn in Hs. destruct a as [r|].
  - destruct Hs as (s1 & Ht & E). apply (tick_dead _ _ Ht) in Hd.
    apply (exec_dead argv) in Hd; [|done]. by rewrite E in Hd.
  - destruct Hs as [Ht|(s1 & Ht & ->)]; apply (tick_dead _ _ Ht) in Hd; [done|by apply exec_dead].
Qed.

(** DEL makes it dead. *)
Lemma del_dead s s' r :
  server_step s (redisCommandArgv [bs "DEL"; key]) (Some r) s' -> (forall e, r <> RError e) -> dead s'.
Proof.
  intros (s1 & Ht & E) Hr. pose proof (del_law s1 key) as Hl. rewrite E in Hl.
  destruct Hl as [[[e He] _]|(n & _ & Hk & _)]; [by apply Hr in He|].
  cbn [snd] in Hk. intros h. by rewrite Hk, lookup_delete_eq.
Qed.

(** ** What reading a dead record answers *)

Definition dead_reply (reply : redisReply) : Prop :=
  is_error reply \/ exists h l, l ≡ₚ map_to_list h /\
    h !! NGX_AUTH_WEBAUTHN_CRED_F_PUBLIC_KEY = None /\ reply = RArray (flat_pairs l).

Lemma dead_read s s' reply :
  dead s -> server_step s (redisCommandArgv [bs "HGETALL"; key]) (Some reply) s' -> dead_reply reply.
Proof.
  intros Hd (s1 & Ht & E). apply (tick_dead _ _ Ht) in Hd.
  pose proof (hgetall_law s1 key) as Hl. rewrite E in Hl.
  destruct Hl as [[He _]|(h & l & Hh & Hl & Hr & _)]; [by left|]. right. exists h, l.
  split; [done|]. split; [|exact Hr]. unfold hash_at in Hh.
  destruct (kv s1 !! key) as [[]|] eqn:Es; simplify_eq; [by apply Hd|by apply lookup_empty].
Qed.

Lemma dead_unread element cred : dead_reply (RArray element) -> ~ read_record (Some id) element cred.
Proof.
  intros [[e ?]|(h & l & Hl & Hk & [= ->])]; [done|]. intros (Hg & Hlen & _).
  pose proof (get_loop_spec (Some id) l h Hl) as Hs. rewrite reply_pairs_flat in Hg.
  rewrite Hg in Hs. destruct Hs as [-> _]. apply Hlen. cbn [cred_of cr_public_key]. by rewrite Hk.
Qed.

(** All the readings of the record in a trace were of a dead one. *)
Definition blind (h : trace) : Prop :=
  forall reply, answered [bs "HGETALL"; key] reply h -> dead_reply reply.

Lemma blind_call s s' e a (h : trace) :
  blind h -> dead s -> server_step s e a s' -> blind (h ++ [Ev e a]).
Proof.
  intros Hb Hd Hs reply. unfold answered. rewrite cmds_app, elem_of_app. intros [?|Hin]; [by apply Hb|].
  apply list_elem_of_omap in Hin as (ev & ->%list_elem_of_singleton & Hc).
  destruct e; try done. injection Hc as -> ->. by eapply dead_read.
Qed.

Lemma blind_no_session r body a c v (h : trace) :
  verify_outcome r wlcf h -> blind h -> body_of r = Some body -> request_reads body id a c ->
  Ev (headers_out_push (bs "Set-Cookie") v) true ∉ h.
Proof.
  intros (k & rc & -> & Hout) Hb Hbody Hr Hin.
  apply elem_of_app in Hin as [Hin|[=]%list_elem_of_singleton].
  destruct Hout as [Hk|[[Hk _]|(k1 & k2 & body' & id' & cred & now & -> & Hb' & _ & Hau & _)]].
  - rewrite list.Forall_forall in Hk. by apply Hk in Hin.
  - rewrite list.Forall_forall in Hk. by apply Hk in Hin.
  - rewrite Hbody in Hb'. injection Hb' as <-.
    destruct Hau as [(a' & c' & os & count & Hr' & _ & Hver) _].
    unfold request_reads in Hr, Hr'. rewrite Hr in Hr'. injection Hr' as <- <- <-.
    destruct (ve_record _ _ _ _ _ _ _ _ _ Hver) as (el & Ha & Hrec).
    eapply dead_unread; [|exact Hrec]. apply Hb. by do 2 apply answered_app.
Qed.

(** ** In the system *)

(** No tool of the system registers anything under [id]. *)
Definition unregistered y : Prop :=
  forall x p, x ∈ clients y -> origin x = H_tool p -> all_calls no_enrol p.

Lemma unregistered_before y y' : step wlcf y y' -> unregistered y' -> unregistered y.
Proof.
  intros Hs Hu x p Hx Ho. destruct Hs as [s cl o _|s s' cl i o e k h a Hi _ _|s s' cl _];
    cbn [clients] in *; [|apply list_elem_of_lookup_1 in Hx as [j Hj]|by eapply Hu].
  - apply (Hu x p); [|done]. apply elem_of_app. by left.
  - destruct (decide (i = j)) as [<-|Hne].
    + rewrite Hi in Hj. injection Hj as <-. cbn [origin] in Ho.
      apply (Hu (Client o (k a) (h ++ [Ev e a])) p); [|done].
      apply (list_elem_of_lookup_2 _ i), list_lookup_insert_eq. by eapply lookup_lt_Some.
    + apply (Hu x p); [|done]. apply (list_elem_of_lookup_2 _ j). cbn [clients].
      by rewrite list_lookup_insert_ne.
Qed.

Lemma unregistered_start y y' : rtc (step wlcf) y y' -> unregistered y' -> unregistered y.
Proof. induction 1 as [|? ? ? Hs _ IH]; [done|]. intros Hu. by eapply unregistered_before, IH. Qed.

(** Every call to come is harmless, and the record is dead once [over]
    holds of the clients. *)
Record keeping (over : list client -> Prop) y : Prop := {
  ke_calls : Forall (fun x => all_calls no_enrol (todo x)) (clients y);
  ke_dead : over (clients y) -> dead (srv y);
}.

Lemma keeping_step over y y' :
  0 < rate_limit_window wlcf < 2 ^ 64 ->
  (forall cl o, over (cl ++ [Client o (program wlcf o) []]) -> over cl) ->
  (forall cl i o e k h a, cl !! i = Some (Client o (Do e k) h) ->
     over (<[i := Client o (k a) (h ++ [Ev e a])]> cl) ->
     over cl \/ exists r, ev_cmd (Ev e a) = Some ([bs "DEL"; key], Some r) /\ forall x, r <> RError x) ->
  step wlcf y y' -> unregistered y' -> keeping over y -> keeping over y'.
Proof.
  intros Hw Hacc Hcall Hs Hu [Hc Hd]. destruct Hs as [s cl o _|s s' cl i o e k h a Hi Ha He|s s' cl Ht];
    cbn [srv clients] in *; split; cbn [srv clients].
  - apply Forall_app. split; [done|]. apply list.Forall_singleton. cbn [todo].
    apply (program_calls wlcf no_enrol); [done| |].
    + intros ch t Ht. split; [by constructor|]. by intros args [=].
    + intros p ->. apply (Hu (Client (H_tool p) p []) p); [|done]. apply elem_of_app. right. by left.
  - intros Ho. by eapply Hd, Hacc.
  - apply Forall_insert; [done|]. cbn [todo].
    assert (all_calls no_enrol (Do e k)) as [_ Hk] by (by apply (Forall_lookup_1 _ _ _ _ Hc Hi)).
    apply Hk.
  - assert (all_calls no_enrol (Do e k)) as [Hne _] by (by apply (Forall_lookup_1 _ _ _ _ Hc Hi)).
    intros Ho. destruct (Hcall _ _ _ _ _ _ _ Hi Ho) as [Hcl|(r & Hev & Hr)].
    + by eapply step_dead, Hd.
    + destruct e; try done. injection Hev as -> ->. by eapply del_dead.
  - done.
  - intros Ho. by eapply tick_dead, Hd.
Qed.

Lemma keeping_run over y y' :
  0 < rate_limit_window wlcf < 2 ^ 64 ->
  (forall cl o, over (cl ++ [Client o (program wlcf o) []]) -> over cl) ->
  (forall cl i o e k h a, cl !! i = Some (Client o (Do e k) h) ->
     over (<[i := Client o (k a) (h ++ [Ev e a])]> cl) ->
     over cl \/ exists r, ev_cmd (Ev e a) = Some ([bs "DEL"; key], Some r) /\ forall x, r <> RError x) ->
  rtc (step wlcf) y y' -> unregistered y' -> keeping over y -> keeping over y'.
Proof.
  intros Hw Hacc Hcall. induction 1 as [|y1 y2 y3 Hs Hr IH]; [done|]. intros Hu Hk.
  apply IH; [done|]. eapply keeping_step; [done..|by eapply unregistered_start|done].
Qed.

(** Some client's deletion of the record has been acknowledged. *)
Definition revoked (cl : list client) : Prop :=
  exists x, x ∈ cl /\ acked [bs "DEL"; key] (past x).

Lemma revoked_accept cl o : revoked (cl ++ [Client o (program wlcf o) []]) -> revoked cl.
Proof.
  intros (x & Hx & Hack). apply elem_of_app in Hx as [Hx|Hx%list_elem_of_singleton]; [by exists x|subst x].
  destruct Hack as (r & Hr & _). by apply elem_of_nil in Hr.
Qed.

Lemma revoked_call cl i o e k h (a : ans e) :
  cl !! i = Some (Client o (Do e k) h) -> revoked (<[i := Client o (k a) (h ++ [Ev e a])]> cl) ->
  revoked cl \/ exists r, ev_cmd (Ev e a) = Some ([bs "DEL"; key], Some r) /\ forall x, r <> RError x.
Proof.
  intros Hi (x & Hx & r & Hr & Hne). apply list_elem_of_lookup_1 in Hx as [j Hj].
  destruct (decide (i = j)) as [<-|Hij].
  - rewrite list_lookup_insert_eq in Hj by (by eapply lookup_lt_Some). injection Hj as <-.
    cbn [past] in Hr. rewrite cmds_app in Hr. apply elem_of_app in Hr as [Hr|Hr].
    + left. eexists. split; [by eapply list_elem_of_lookup_2|]. by exists r.
    + right. exists r. split; [|done].
      by apply list_elem_of_omap in Hr as (ev & ->%list_elem_of_singleton & Hc).
  - rewrite list_lookup_insert_ne in Hj by done. left. exists x. split; [by eapply list_elem_of_lookup_2|].
    by exists r.
Qed.

Lemma revoked_dead s y :
  0 < rate_limit_window wlcf < 2 ^ 64 -> reachable wlcf s y -> unregistered y -> revoked (clients y) ->
  keeping (fun _ => True) y.
Proof.
  intros Hw Hr Hu Hrev. assert (keeping revoked y) as [Hc Hd].
  { apply (keeping_run revoked (Sys s []) y); [done|apply revoked_accept|apply revoked_call|done..|].
    split; [done|]. intros (x & Hx & _). by apply elem_of_nil in Hx. }
  split; [done|]. intros _. by apply Hd.
Qed.

(** The requests accepted from the [n]th client on, in a system whose record
    is dead. *)
Record shut_out (n : nat) y : Prop := {
  sh_keeping : keeping (fun _ => True) y;
  sh_blind : forall i x, (n <= i)%nat -> clients y !! i = Some x -> blind (past x);
  sh_post : forall i x r, (n <= i)%nat -> clients y !! i = Some x -> origin x = H_verify r ->
    wp (todo x) (fun _ => verify_outcome r wlcf) (past x);
}.

Lemma shut_out_accept n s cl o :
  admitted wlcf o -> keeping (fun _ => True) (Sys s (cl ++ [Client o (program wlcf o) []])) ->
  shut_out n (Sys s cl) -> shut_out n (Sys s (cl ++ [Client o (program wlcf o) []])).
Proof.
  intros Ho Hk [_ Hb Hp]. split; [done|intros i x Hi Hx|intros i x r Hi Hx Hor];
    cbn [clients] in *; apply lookup_app_Some in Hx as [Hx|[_ Hx]].
  - by eapply Hb.
  - apply list_lookup_singleton_Some in Hx as [_ <-]. by intros reply ?%elem_of_nil.
  - by eapply Hp.
  - apply list_lookup_singleton_Some in Hx as [_ <-]. cbn [origin todo past] in *. subst o.
    by apply verify_done_spec.
Qed.

Lemma shut_out_call n s s' cl i o e k h a :
  cl !! i = Some (Client o (Do e k) h) -> ans_ok e a -> server_step s e a s' ->
  keeping (fun _ => True) (Sys s' (<[i := Client o (k a) (h ++ [Ev e a])]> cl)) ->
  shut_out n (Sys s cl) -> shut_out n (Sys s' (<[i := Client o (k a) (h ++ [Ev e a])]> cl)).
Proof.
  intros Hi Ha He Hk [[_ Hd] Hb Hp].
  assert (forall j x, (<[i := Client o (k a) (h ++ [Ev e a])]> cl) !! j = Some x ->
    cl !! j = Some x \/ (i = j /\ x = Client o (k a) (h ++ [Ev e a]))) as Hj.
  { intros j x Hx. destruct (decide (i = j)) as [<-|Hne]; [right|left].
    - rewrite list_lookup_insert_eq in Hx by (by eapply lookup_lt_Some). by injection Hx.
    - by rewrite list_lookup_insert_ne in Hx. }
  split; [done|intros j x Hn Hx|intros j x r Hn Hx Hor]; cbn [clients] in *;
    destruct (Hj j x Hx) as [Hx'|[<- ->]].
  - by eapply Hb.
  - cbn [past]. eapply blind_call; [by apply (Hb i _ Hn Hi)|by apply Hd|done].
  - by eapply Hp.
  - cbn [origin todo past] in *. destruct (Hp i _ r Hn Hi Hor) as [_ Hw]. by apply Hw.
Qed.

Lemma shut_out_run n y y' :
  0 < rate_limit_window wlcf < 2 ^ 64 -> rtc (step wlcf) y y' -> unregistered y' ->
  shut_out n y -> shut_out n y'.
Proof.
  intros Hw. induction 1 as [|y1 y2 y3 Hs Hr IH]; [done|]. intros Hu Hy1. apply IH; [done|].
  assert (keeping (fun _ => True) y2) as Hk.
  { eapply (keeping_step _ y1); [done|done|by left|done|by eapply unregistered_start|apply Hy1]. }
  destruct Hs as [s cl o Ho|s s' cl i o e k h a Hi Ha He|s s' cl Ht].
  - by apply shut_out_accept.
  - by eapply shut_out_call.
  - destruct Hy1 as [_ Hb Hp]. by split.
Qed.

(** The tool's own commands, register apart, register nothing. *)
Lemma read_no_enrol e : read_call prefix e -> no_enrol e.
Proof.
  destruct e; try done. intros Hr. cbn in Hr. split; [destruct Hr; cbn; auto with calls|].
  intros args Ha. rewrite Ha in Hr. by inversion Hr.
Qed.

Lemma revoke_no_enrol ctx cid : prefix_of ctx = prefix -> all_calls no_enrol (revoke_run ctx cid).
Proof.
  intros Hp. pose proof (allows_background prefix no_enrol) as HB.
  unfold revoke_run, print_error, printf, fputs. destruct cid as [cid|]; [|done].
  apply all_calls_bind; [eapply all_calls_mono; [apply read_no_enrol|apply admin_connect_read]|].
  intros [rc redis]. destruct (negb _); [done|].
  apply all_calls_bind; [|intros rc'; apply all_calls_bind; [apply close_calls, _|by intros _; destruct rc']].
  apply delete_calls; [done|intros; rewrite Hp; (split; [cbn; auto with calls|by intros args [=]])..].
Qed.

(** Exit code 0 of a revocation: the deletion was acknowledged. *)
Lemma delete_acked pre (h : trace) :
  wlp (ngx_auth_webauthn_credential_delete open_redis (Some tt) (Some pre) (Some (Some id)))
    (fun rc h' => rc = NGX_OK -> acked [bs "DEL"; rkey pre (Some id)] h') h.
Proof.
  unfold ngx_auth_webauthn_credential_delete. cbn [nullp orb].
  eapply (wlp_step _ _ (fun _ _ => True)); [apply wlp_true|]. intros [rc cred] k1 _.
  destruct rc; cbn [is_ok negb]; [|done|done]. cbn [deref bind].
  apply record_key_wlp; [done|]. intros k2. cbn [is_ok negb].
  unfold ngx_auth_webauthn_redis_del. cbn [no_ctx nullp ctx orb deref bind].
  eapply wlp_step; [apply wp_wlp, status_trace|]. intros rc k3 Hd.
  destruct rc; cbn [is_ok negb]; [|done|done]. specialize (Hd eq_refl).
  apply (wlp_mono _ (fun _ h' => acked [bs "DEL"; rkey pre (Some id)] h')); [done|].
  apply wlp_keep; [intros; by apply acked_app|done].
Qed.

Lemma revoke_acked ctx : ctx_fits ctx -> fits id -> str_bytes (adm_key_prefix ctx) = prefix ->
  wp (revoke_run ctx (Some id))
    (fun code h => code = AUTH_WEBAUTHN_ADMIN_EX_OK -> acked [bs "DEL"; key] h) ([] : trace).
Proof.
  intros Hc Hid Hp. eapply (wlp_wp _ _ _ ∅); [by apply revoke_held; [|intros ? [= <-]]|].
  unfold revoke_run. eapply wlp_seq; [by apply admin_connect_wlp|].
  intros out h1 [-> | ->]; cbn [fst snd is_ok negb]; [|done].
  eapply wlp_seq; [apply delete_acked|]. intros rc h2 Hd. intros [] _. cbn [bind].
  destruct rc; [|by intros [] _..]. intros [] _ _. rewrite <- Hp. by do 2 apply acked_app; apply Hd.
Qed.

(** C6: a revoked credential signs nobody in.  Exit code 0 of the revocation
    means that the server acknowledged the deletion of the record.  Once it
    has, whatever requests and tool runs are interleaved, and whatever
    sign-ins were under way, the record stays unusable as long as nothing
    registers the credential again; and no request accepted after the
    acknowledgement that posts its id ever gets a session cookie. *)
Theorem revoked_locked_out s y y' ctx :
  0 < rate_limit_window wlcf < 2 ^ 64 ->
  ctx_fits ctx -> fits id -> str_bytes (adm_key_prefix ctx) = prefix ->
  wp (revoke_run ctx (Some id))
    (fun code h => code = AUTH_WEBAUTHN_ADMIN_EX_OK -> acked [bs "DEL"; key] h) ([] : trace) /\
  (reachable wlcf s y -> revoked (clients y) -> rtc (step wlcf) y y' -> unregistered y' ->
   dead (srv y') /\
   forall i x r body a c v, (length (clients y) <= i)%nat -> clients y' !! i = Some x ->
     origin x = H_verify r -> todo x = Ret tt -> body_of r = Some body -> request_reads body id a c ->
     Ev (headers_out_push (bs "Set-Cookie") v) true ∉ past x).
Proof.
  intros Hw Hc Hid Hp. split; [by apply revoke_acked|]. intros Hr Hrev Hrun Hu.
  assert (keeping (fun _ => True) y) as Hk
    by (eapply revoked_dead; [done|exact Hr|by eapply unregistered_start|done]).
  assert (shut_out (length (clients y)) y') as [Hk' Hb Hpost].
  { eapply shut_out_run; [done|exact Hrun|done|]. split; [done|..]; intros i x;
      intros; assert (i < length (clients y))%nat by (by eapply lookup_lt_Some); lia. }
  split; [by apply Hk'|]. intros i x r body a c v Hi Hx Ho Ht Hbody Hreq.
  specialize (Hpost i x r Hi Hx Ho). rewrite Ht in Hpost. cbn [wp] in Hpost.
  by eapply blind_no_session; [|eapply Hb|..].
Qed.
End lockout.

Import Samples CborSamples GetoptSamples MiniRedis HttpSamples.

(** The tool revokes the sample credential; then its owner posts an assertion
    that was good before ([speaks] of VerifySound.v grants it). *)
Definition revoke_tool_run : prog unit :=
  revoke_run (ro_ctx sample_opts) (Some (bs "Y3JlZA")) ;; Ret tt.
Definition after_revocation : system (S := db) :=
  foldl turn (accept (Sys signin_db []) (H_tool revoke_tool_run)) (replicate 60 0%nat).
Definition after_post : system (S := db) :=
  foldl turn (accept after_revocation (H_verify (post_request (posted (bs "Y3JlZA")))))
    (replicate 90 1%nat).

Example after_post_statuses :
  speaks (posted (bs "Y3JlZA")) signin_db = Some [inr (bs "Set-Cookie"); inl 200] /\
  statuses after_post = [[]; [inl 401]].
Proof. split; vm_compute; reflexivity. Qed.

Lemma sample_no_enrol : all_calls (no_enrol HttpSamples.conf (bs "Y3JlZA")) revoke_tool_run.
Proof. apply all_calls_bind; [by apply revoke_no_enrol|done]. Qed.

Lemma after_revocation_reachable : reachable HttpSamples.conf signin_db after_revocation.
Proof.
  unfold after_revocation, reachable. etrans; [|apply turns_steps]. apply accept_steps. cbn [admitted].
  apply (all_calls_mono (tool_call (bs "webauthn:"))); [apply tool_no_issue|].
  apply all_calls_bind; [by apply revoke_tool|done].
Qed.

(** The deletion is the second command of the tool run. *)
Definition second_command (x : client) : option (list bytes * option redisReply) :=
  cmds (past x) !! 1%nat.

Lemma revoked_by_second (cl : list client) x r :
  cl !! 0%nat = Some x ->
  second_command x = Some ([bs "DEL"; record_key_of (str_bytes (redis_key_prefix HttpSamples.conf)) (bs "Y3JlZA")], Some r) ->
  (forall e, r <> RError e) -> revoked HttpSamples.conf (bs "Y3JlZA") cl.
Proof.
  intros Hx Hc Hr. exists x. split; [by eapply list_elem_of_lookup_2|]. exists r.
  split; [exact (list_elem_of_lookup_2 _ _ _ Hc)|done].
Qed.

Lemma after_revocation_commands :
  second_command <$> clients after_revocation !! 0%nat =
  Some (Some ([bs "DEL"; record_key_of (str_bytes (redis_key_prefix HttpSamples.conf)) (bs "Y3JlZA")],
              Some (RInteger 1))).
Proof. vm_compute. reflexivity. Qed.

Lemma after_revocation_revoked : revoked HttpSamples.conf (bs "Y3JlZA") (clients after_revocation).
Proof.
  pose proof after_revocation_commands as Hc. apply fmap_Some in Hc as (x & Hx & Hc).
  symmetry in Hc. by refine (revoked_by_second _ x (RInteger 1) Hx Hc _).
Qed.

Lemma after_post_origins : origin <$> clients after_post =
  [H_tool revoke_tool_run; H_verify (post_request (posted (bs "Y3JlZA")))].
Proof.
  unfold after_post, after_revocation. by rewrite turns_origins, accept_origins, turns_origins, accept_origins.
Qed.

Lemma after_post_unregistered : unregistered HttpSamples.conf (bs "Y3JlZA") after_post.
Proof.
  intros x p Hx Ho. apply (list_elem_of_fmap_2 origin) in Hx. rewrite after_post_origins, Ho in Hx.
  apply elem_of_cons in Hx as [Hx|Hx%list_elem_of_singleton]; [|discriminate].
  injection Hx as ->. apply sample_no_enrol.
Qed.

Lemma revoked_locked_out_witness :
  statuses after_post = [[]; [inl 401]] /\
  dead HttpSamples.conf (bs "Y3JlZA") (srv after_post).
Proof.
  split; [vm_compute; reflexivity|].
  refine (proj1 (proj2 (revoked_locked_out HttpSamples.conf (bs "Y3JlZA") signin_db after_revocation
    after_post (ro_ctx sample_opts) _ _ _ _) after_revocation_reachable after_revocation_revoked _
    after_post_unregistered)); try done.
  unfold after_post. etrans; [|apply turns_steps]. apply accept_steps, post_sizes.
Defined.
