(* ===== verification/Pool.v ===== *)
(** * The memory pool of the shim: src/tools/admin/ngx_compat/ngx_compat.c

    ngx_create_pool, ngx_palloc and its relatives, ngx_pfree,
    ngx_pool_cleanup_add and ngx_destroy_pool, on a store of malloc'd blocks.
    A pool is two linked lists in the store; [is_pool] says which blocks they
    are, and the lemmas what each operation does to them.  PoolLife.v follows
    a pool to its destruction. *)

From stdpp Require Import fin_maps fin_map_dom.
From S2P Require Import Prelude.
#[global] Open Scope Z_scope.

(** ** The store *)

Abbreviation loc := positive.
Abbreviation handler := positive.

(** What a malloc'd block holds: the structs of the pool, or bytes, which are
    indeterminate until written. *)
Inductive block :=
  | B_pool (large cleanup : ptr loc) (log : ptr unit)
  | B_large (next alloc : ptr loc)
  | B_cleanup (h : ptr handler) (data next : ptr loc)
  | B_bytes (content : list (option byte)).

(** The store, the handlers called so far, and what malloc will answer: an
    address that must be free, or NULL. *)
Record state := State {
  mem : gmap loc block;
  calls : list (handler * ptr loc);
  oracle : list (ptr loc);
}.

(** State passing; [None] is undefined behaviour. *)
Definition M (A : Type) : Type := state -> option (A * state).
#[global] Typeclasses Opaque M.

#[export] Instance M_ret : MRet M := fun A a s => Some (a, s).
#[export] Instance M_bind : MBind M := fun A B f m s =>
  match m s with Some (a, s') => f a s' | None => None end.

Definition malloc (size : Z) : M (ptr loc) := fun s =>
  match oracle s with
  | [] => Some (NULL, s)
  | NULL :: o => Some (NULL, State (mem s) (calls s) o)
  | Some a :: o =>
      match mem s !! a with
      | None => Some (Some a, State (<[a := B_bytes (replicate (Z.to_nat size) None)]> (mem s))
                                (calls s) o)
      | Some _ => Some (NULL, State (mem s) (calls s) o)
      end
  end.

(** Undefined for an address that is not allocated. *)
Definition free (p : ptr loc) : M unit := fun s =>
  match p with
  | None => Some (tt, s)
  | Some a =>
      match mem s !! a with
      | Some _ => Some (tt, State (delete a (mem s)) (calls s) (oracle s))
      | None => None
      end
  end.

Definition load (p : ptr loc) : M block := fun s =>
  match p ≫= fun a => mem s !! a with Some b => Some (b, s) | None => None end.

Definition store (p : ptr loc) (b : block) : M unit := fun s =>
  match p with
  | Some a =>
      match mem s !! a with
      | Some _ => Some (tt, State (<[a := b]> (mem s)) (calls s) (oracle s))
      | None => None
      end
  | None => None
  end.

Definition undefined {A} : M A := fun _ => None.

Definition load_pool (p : ptr loc) : M (ptr loc * ptr loc * ptr unit) :=
  b ← load p; match b with B_pool l c g => mret (l, c, g) | _ => undefined end.
Definition load_large (p : ptr loc) : M (ptr loc * ptr loc) :=
  b ← load p; match b with B_large n a => mret (n, a) | _ => undefined end.
Definition load_cleanup (p : ptr loc) : M (ptr handler * ptr loc * ptr loc) :=
  b ← load p; match b with B_cleanup h d n => mret (h, d, n) | _ => undefined end.

(** A call of a cleanup handler: what it does to the data is its own. *)
Definition call_handler (h : handler) (data : ptr loc) : M unit := fun s =>
  Some (tt, State (mem s) (calls s ++ [(h, data)]) (oracle s)).

(** Turns a list walk may take: one per block. *)
Definition walk_fuel : M nat := fun s => Some (size (mem s), s).

(** ** The operations *)

Definition SIZEOF_POOL : Z := 24.
Definition SIZEOF_LARGE : Z := 16.
Definition SIZEOF_CLEANUP : Z := 24.

Definition ngx_create_pool (size : Z) (log : ptr unit) : M (ptr loc) :=
  pool ← malloc SIZEOF_POOL;
  match pool with
  | None => mret NULL
  | Some _ =>
      _ ← store pool (B_pool NULL NULL log);
      mret pool
  end.

(** The cleanup list, then the list of allocations. *)
Fixpoint destroy_cleanups (fuel : nat) (c : ptr loc) : M unit :=
  match c, fuel with
  | None, _ => mret tt
  | Some _, O => undefined
  | Some _, S fuel =>
      '(h, data, cnext) ← load_cleanup c;
      _ ← match h with Some h => call_handler h data | None => mret tt end;
      _ ← free c;
      destroy_cleanups fuel cnext
  end.

Fixpoint destroy_larges (fuel : nat) (l : ptr loc) : M unit :=
  match l, fuel with
  | None, _ => mret tt
  | Some _, O => undefined
  | Some _, S fuel =>
      '(next, alloc) ← load_large l;
      _ ← free alloc;
      _ ← free l;
      destroy_larges fuel next
  end.

Definition ngx_destroy_pool (pool : ptr loc) : M unit :=
  match pool with
  | None => mret tt
  | Some _ =>
      fuel ← walk_fuel;
      '(_, cleanup, _) ← load_pool pool;
      _ ← destroy_cleanups fuel cleanup;
      '(large, _, _) ← load_pool pool;
      _ ← destroy_larges fuel large;
      free pool
  end.

Definition ngx_pool_cleanup_add (pool : ptr loc) (size : Z) : M (ptr loc) :=
  match pool with
  | None => mret NULL
  | Some _ =>
      c ← malloc SIZEOF_CLEANUP;
      match c with
      | None => mret NULL
      | Some _ =>
          data ← (if 0 <? size then malloc size else mret NULL);
          if (0 <? size) && nullp data then _ ← free c; mret NULL else
          '(large, cleanup, log) ← load_pool pool;
          _ ← store c (B_cleanup NULL data cleanup);
          _ ← store pool (B_pool large c log);
          mret c
      end
  end.

(** [c->handler = h], what a caller does next. *)
Definition set_handler (c : ptr loc) (h : handler) : M unit :=
  '(_, data, next) ← load_cleanup c;
  store c (B_cleanup (Some h) data next).

Definition ngx_palloc (pool : ptr loc) (size : Z) : M (ptr loc) :=
  p ← malloc size;
  match p with
  | None => mret NULL
  | Some _ =>
      large ← malloc SIZEOF_LARGE;
      match large with
      | None => _ ← free p; mret NULL
      | Some _ =>
          '(next, cleanup, log) ← load_pool pool;
          _ ← store large (B_large next p);
          _ ← store pool (B_pool large cleanup log);
          mret p
      end
  end.

Definition ngx_pnalloc := ngx_palloc.

Definition ngx_memzero (p : ptr loc) (size : Z) : M unit :=
  store p (B_bytes (replicate (Z.to_nat size) (Some Byte.x00))).

Definition ngx_pcalloc (pool : ptr loc) (size : Z) : M (ptr loc) :=
  p ← ngx_palloc pool size;
  match p with
  | Some _ => _ ← ngx_memzero p size; mret p
  | None => mret NULL
  end.

(** [prev]: the [large] field of the pool or the [next] field of a node. *)
Inductive place := pool_large (pool : ptr loc) | large_next (l : ptr loc).

Definition store_at (prev : place) (v : ptr loc) : M unit :=
  match prev with
  | pool_large pool => '(_, cleanup, log) ← load_pool pool; store pool (B_pool v cleanup log)
  | large_next l => '(_, alloc) ← load_large l; store l (B_large v alloc)
  end.

Fixpoint pfree_loop (fuel : nat) (prev : place) (l p : ptr loc) : M ngx_rc :=
  match l, fuel with
  | None, _ => mret NGX_ERROR
  | Some _, O => undefined
  | Some _, S fuel =>
      '(next, alloc) ← load_large l;
      if bool_decide (alloc = p) then
        _ ← store_at prev next;
        _ ← free alloc;
        _ ← free l;
        mret NGX_OK
      else pfree_loop fuel (large_next l) next p
  end.

Definition ngx_pfree (pool p : ptr loc) : M ngx_rc :=
  match pool with
  | None => mret NGX_ERROR
  | Some _ =>
      fuel ← walk_fuel;
      '(large, _, _) ← load_pool pool;
      pfree_loop fuel (pool_large pool) large p
  end.

(** ** Reasoning about a run *)

(** [m] is defined from [s] and ends as [Q] says. *)
Definition runs {A} (m : M A) (s : state) (Q : A -> state -> Prop) : Prop :=
  match m s with Some (a, s') => Q a s' | None => False end.

Lemma runs_bind {A B} (m : M A) (f : A -> M B) s Q :
  runs m s (fun a s' => runs (f a) s' Q) -> runs (m ≫= f) s Q.
Proof. unfold runs, mbind, M_bind. by destruct (m s) as [[a s']|]. Qed.

Lemma runs_mono {A} (m : M A) s (Q1 Q2 : A -> state -> Prop) :
  (forall a s', Q1 a s' -> Q2 a s') -> runs m s Q1 -> runs m s Q2.
Proof. unfold runs. destruct (m s) as [[a s']|]; auto. Qed.

Lemma runs_and {A} (m : M A) s (Q1 Q2 : A -> state -> Prop) :
  runs m s Q1 -> (forall a s', m s = Some (a, s') -> Q2 a s') ->
  runs m s (fun a s' => Q1 a s' /\ Q2 a s').
Proof. unfold runs. destruct (m s) as [[a s']|]; auto. Qed.

Lemma runs_ret {A} (a : A) s (Q : A -> state -> Prop) : Q a s -> runs (mret a) s Q.
Proof. done. Qed.

(** malloc hands out a block that was free, or nothing. *)
Lemma runs_malloc size s (Q : ptr loc -> state -> Prop) :
  (forall o, Q NULL (State (mem s) (calls s) o)) ->
  (forall a o, mem s !! a = None ->
     Q (Some a) (State (<[a := B_bytes (replicate (Z.to_nat size) None)]> (mem s)) (calls s) o)) ->
  runs (malloc size) s Q.
Proof.
  intros H0 H1. unfold runs, malloc. destruct s as [m c [|[a|] o]]; cbn in *; [apply H0| |apply H0].
  destruct (m !! a) eqn:E; [apply H0|by apply H1].
Qed.

Lemma runs_free a b s (Q : unit -> state -> Prop) :
  mem s !! a = Some b -> Q tt (State (delete a (mem s)) (calls s) (oracle s)) ->
  runs (free (Some a)) s Q.
Proof. intros Ha HQ. unfold runs, free. by rewrite Ha. Qed.

Lemma runs_store a b b' s (Q : unit -> state -> Prop) :
  mem s !! a = Some b' -> Q tt (State (<[a := b]> (mem s)) (calls s) (oracle s)) ->
  runs (store (Some a) b) s Q.
Proof. intros Ha HQ. unfold runs, store. by rewrite Ha. Qed.

Lemma runs_load {B} a b (k : block -> M B) s Q :
  mem s !! a = Some b -> runs (k b) s Q -> runs (load (Some a) ≫= k) s Q.
Proof. intros Ha HQ. apply runs_bind. unfold runs, load. cbn. by rewrite Ha. Qed.

Lemma runs_load_pool a l c g s Q :
  mem s !! a = Some (B_pool l c g) -> Q (l, c, g) s -> runs (load_pool (Some a)) s Q.
Proof. intros Ha HQ. by eapply runs_load. Qed.
Lemma runs_load_large a n p s Q :
  mem s !! a = Some (B_large n p) -> Q (n, p) s -> runs (load_large (Some a)) s Q.
Proof. intros Ha HQ. by eapply runs_load. Qed.
Lemma runs_load_cleanup a h d n s Q :
  mem s !! a = Some (B_cleanup h d n) -> Q (h, d, n) s -> runs (load_cleanup (Some a)) s Q.
Proof. intros Ha HQ. by eapply runs_load. Qed.

(** Looking up what the last stores and frees left. *)
Ltac look := repeat first
  [ rewrite lookup_insert_eq | rewrite lookup_insert_ne by set_solver
  | rewrite lookup_delete_eq | rewrite lookup_delete_ne by set_solver ].

(** ** The blocks of a pool *)

(** An allocation: list node, address and contents; a cleanup: node, handler
    and data. *)
Abbreviation allocation := (loc * loc * list (option byte))%type.
Abbreviation cleanup := (loc * ptr handler * ptr loc)%type.

Definition alloc_blocks (x : allocation) : list loc := [x.1.1; x.1.2].
Definition cleanup_blocks (y : cleanup) : list loc := y.1.1 :: option_list y.2.

Fixpoint large_list (m : gmap loc block) (l : ptr loc) (xs : list allocation) : Prop :=
  match xs with
  | [] => l = NULL
  | (n, a, bytes) :: xs =>
      l = Some n /\ exists next, m !! n = Some (B_large next (Some a)) /\
        m !! a = Some (B_bytes bytes) /\ large_list m next xs
  end.

Fixpoint cleanup_list (m : gmap loc block) (c : ptr loc) (ys : list cleanup) : Prop :=
  match ys with
  | [] => c = NULL
  | (n, h, d) :: ys =>
      c = Some n /\ exists next, m !! n = Some (B_cleanup h d next) /\
        (forall a, d = Some a -> exists bytes, m !! a = Some (B_bytes bytes)) /\
        cleanup_list m next ys
  end.

(** What a pool holds, newest first. *)
Record pool_view := { allocs : list allocation; cleans : list cleanup }.

Definition pool_blocks (p : loc) (v : pool_view) : list loc :=
  p :: (allocs v ≫= alloc_blocks) ++ (cleans v ≫= cleanup_blocks).

Record is_pool (m : gmap loc block) (p : loc) (g : ptr unit) (v : pool_view) : Prop := {
  ip_head : exists l c, m !! p = Some (B_pool l c g) /\
    large_list m l (allocs v) /\ cleanup_list m c (cleans v);
  ip_distinct : NoDup (pool_blocks p v);
}.

(** Blocks elsewhere do not matter. *)
Lemma large_frame m m' l xs :
  (forall a, a ∈ (xs ≫= alloc_blocks) -> m' !! a = m !! a) ->
  large_list m l xs -> large_list m' l xs.
Proof.
  revert l. induction xs as [|[[n a] b] xs IH]; intros l Hm; cbn [large_list]; [done|].
  intros [-> (next & Hn & Ha & Hxs)]. split; [done|]. exists next.
  rewrite !Hm by (cbn; set_solver). split_and!; [done..|]. apply IH; [|done].
  intros c Hc. apply Hm. cbn. set_solver.
Qed.

Lemma cleanup_frame m m' c ys :
  (forall a, a ∈ (ys ≫= cleanup_blocks) -> m' !! a = m !! a) ->
  cleanup_list m c ys -> cleanup_list m' c ys.
Proof.
  revert c. induction ys as [|[[n h] d] ys IH]; intros c Hm; cbn [cleanup_list]; [done|].
  intros [-> (next & Hn & Hd & Hys)]. split; [done|]. exists next.
  rewrite Hm by (cbn; set_solver). split_and!; [done| |].
  - intros a ->. destruct (Hd a eq_refl) as [b Hb]. exists b. rewrite Hm; [done|]. cbn. set_solver.
  - apply IH; [|done]. intros a Ha. apply Hm. cbn. set_solver.
Qed.

Lemma large_live m l xs a : large_list m l xs -> a ∈ (xs ≫= alloc_blocks) -> is_Some (m !! a).
Proof.
  revert l. induction xs as [|[[n b] bytes] xs IH]; intros l; cbn [large_list]; [set_solver|].
  intros [_ (next & Hn & Ha & Hxs)] Hin. cbn in Hin.
  apply elem_of_cons in Hin as [->|[->|Hin]%elem_of_cons]; [by eexists..|by eapply IH].
Qed.

Lemma cleanup_live m c ys a :
  cleanup_list m c ys -> a ∈ (ys ≫= cleanup_blocks) -> is_Some (m !! a).
Proof.
  revert c. induction ys as [|[[n h] d] ys IH]; intros c; cbn [cleanup_list]; [set_solver|].
  intros [_ (next & Hn & Hd & Hys)] Hin. cbn in Hin.
  apply elem_of_cons in Hin as [->|[Hin|Hin]%elem_of_app]; [by eexists| |by eapply IH].
  destruct d as [d|]; [|set_solver]. apply list_elem_of_singleton in Hin as ->.
  by destruct (Hd d eq_refl) as [b ->].
Qed.

Lemma pool_live m p g v a : is_pool m p g v -> a ∈ pool_blocks p v -> is_Some (m !! a).
Proof.
  intros [(l & c & Hp & Hl & Hc) _] Hin. apply elem_of_cons in Hin as [->|[Hin|Hin]%elem_of_app].
  - by eexists.
  - by eapply large_live.
  - by eapply cleanup_live.
Qed.

(** ** Allocation *)

(** New blocks were free, the rest of the store is as before. *)
Definition extends (m m' : gmap loc block) (new : list loc) (p : loc) : Prop :=
  (forall a, a ∈ new -> m !! a = None) /\ (forall a, a ∉ p :: new -> m' !! a = m !! a).

Definition with_alloc (x : allocation) (v : pool_view) : pool_view :=
  {| allocs := x :: allocs v; cleans := cleans v |}.
Definition with_cleanup (y : cleanup) (v : pool_view) : pool_view :=
  {| allocs := allocs v; cleans := y :: cleans v |}.

Lemma fresh_block m p g v a : is_pool m p g v -> m !! a = None -> a ∉ pool_blocks p v.
Proof. intros Hp Ha Hin. destruct (pool_live _ _ _ _ _ Hp Hin). congruence. Qed.

(** A pool with blocks added and its head rewritten. *)
Lemma pool_extend m m' p g v v' new l c :
  is_pool m p g v -> extends m m' new p -> NoDup new ->
  pool_blocks p v' ≡ₚ new ++ pool_blocks p v ->
  m' !! p = Some (B_pool l c g) -> large_list m' l (allocs v') -> cleanup_list m' c (cleans v') ->
  is_pool m' p g v'.
Proof.
  intros Hp [Hfree _] Hnew Hperm Hh Hl Hc. split; [by exists l, c|].
  rewrite Hperm. apply NoDup_app. split_and!; [done| |apply Hp].
  intros a Ha. by eapply fresh_block, Hfree.
Qed.

(** The old lists are still there. *)
Lemma extends_lists m m' p g v new l c :
  is_pool m p g v -> extends m m' new p ->
  large_list m l (allocs v) -> cleanup_list m c (cleans v) ->
  large_list m' l (allocs v) /\ cleanup_list m' c (cleans v).
Proof.
  intros Hp [Hfree Hsame] Hl Hc. pose proof Hp as [_ [Hnp _]%list.NoDup_cons].
  assert (forall a, a ∈ (allocs v ≫= alloc_blocks) ++ (cleans v ≫= cleanup_blocks) -> m' !! a = m !! a) as Hm.
  { intros a Ha. apply Hsame. intros [->|Hin]%elem_of_cons; [done|].
    destruct (fresh_block _ _ _ _ _ Hp (Hfree _ Hin)). by right. }
  split; [eapply large_frame|eapply cleanup_frame]; [|exact Hl| |exact Hc];
    intros a Ha; apply Hm; set_solver.
Qed.

(** NULL and nothing changed, or a new allocation with these contents. *)
Definition allocated (p : loc) (g : ptr unit) (v : pool_view) (content : list (option byte))
    (s : state) (r : ptr loc) (s' : state) : Prop :=
  calls s' = calls s /\
  match r with
  | NULL => mem s' = mem s
  | Some a => exists n, extends (mem s) (mem s') [n; a] p /\
      is_pool (mem s') p g (with_alloc (n, a, content) v)
  end.

Lemma palloc_spec p g v size s : is_pool (mem s) p g v ->
  runs (ngx_palloc (Some p) size) s (allocated p g v (replicate (Z.to_nat size) None) s).
Proof.
  intros Hp. pose proof Hp as [(l & c & Hh & Hl & Hc) Hnd]. unfold ngx_palloc.
  apply runs_bind, runs_malloc; [done|]. intros a o1 Ha.
  apply runs_bind, runs_malloc; cbn [mem calls].
  - intros o2. apply runs_bind. eapply runs_free; [cbn [mem]; apply lookup_insert_eq|].
    apply runs_ret. split; [done|]. cbn [mem]. by rewrite delete_insert_id.
  - intros n o2 Hn. assert (n <> a) as Hna by (intros ->; by rewrite lookup_insert_eq in Hn).
    rewrite lookup_insert_ne in Hn by done.
    pose proof (fresh_block _ _ _ _ _ Hp Ha) as Ha'. pose proof (fresh_block _ _ _ _ _ Hp Hn) as Hn'.
    apply runs_bind. eapply runs_load_pool; [cbn [mem]; look; exact Hh|].
    apply runs_bind. eapply runs_store; [cbn [mem]; look; reflexivity|]. cbn [mem calls oracle].
    apply runs_bind. eapply runs_store; [cbn [mem]; look; exact Hh|]. cbn [mem calls oracle].
    apply runs_ret. split; [done|]. exists n. cbn [mem].
    assert (p <> n /\ p <> a) as [? ?] by (split; intros ->; congruence).
    match goal with |- extends ?m ?m' _ _ /\ _ => assert (extends m m' [n; a] p) as Hext end.
    { split; [intros b Hb; set_solver|]. intros b Hb. by look. }
    destruct (extends_lists _ _ _ _ _ _ _ _ Hp Hext Hl Hc) as [Hl' Hc'].
    split; [done|]. eapply pool_extend; [exact Hp|exact Hext| | |by look| |exact Hc'].
    + repeat constructor; set_solver.
    + apply (Permutation_middle [n; a]).
    + cbn [with_alloc allocs large_list]. split; [done|]. exists l. split_and!; [by look..|done].
Qed.

Lemma pcalloc_spec p g v size s : is_pool (mem s) p g v ->
  runs (ngx_pcalloc (Some p) size) s
    (allocated p g v (replicate (Z.to_nat size) (Some Byte.x00)) s).
Proof.
  intros Hp. apply runs_bind. eapply runs_mono; [|by apply palloc_spec].
  intros [a|] s1 [Hcalls Hpost]; [|done]. destruct Hpost as (n & [Hfree Hsame] & Hp1).
  pose proof Hp1 as [(l & c & Hh & Hl & Hc) Hnd].
  cbn [with_alloc allocs cleans large_list] in Hl, Hc. destruct Hl as [-> (next & Hn & Ha & Hl)].
  apply runs_bind. eapply runs_store; [exact Ha|]. cbn [mem calls oracle].
  apply runs_ret. split; [done|]. exists n. cbn [mem].
  unfold pool_blocks in Hnd. cbn in Hnd.
  repeat match goal with H : NoDup (_ :: _) |- _ => apply list.NoDup_cons in H as [? ?] end.
  split; [split; [done|]; intros b Hb; look; by apply Hsame|].
  split; [|exact (ip_distinct _ _ _ _ Hp1)]. exists (Some n), c. split_and!.
  - by look.
  - cbn [with_alloc allocs large_list]. split; [done|]. exists next. split_and!; [by look..|].
    eapply large_frame; [|exact Hl]. intros b Hb. look. done.
  - eapply cleanup_frame; [|exact Hc]. intros b Hb. look. done.
Qed.

(** ** Cleanups *)

(** The last three statements of ngx_pool_cleanup_add. *)
Lemma link_spec p g v n d m s : is_pool m p g v ->
  extends m (mem s) (n :: option_list d) p -> NoDup (n :: option_list d) ->
  mem s !! p = m !! p -> is_Some (mem s !! n) ->
  (forall a, d = Some a -> exists bytes, mem s !! a = Some (B_bytes bytes)) ->
  runs ('(large, cleanup, log) ← load_pool (Some p);
        _ ← store (Some n) (B_cleanup NULL d cleanup);
        _ ← store (Some p) (B_pool large (Some n) log);
        mret (Some n)) s
    (fun r s' => r = Some n /\ calls s' = calls s /\
       extends m (mem s') (n :: option_list d) p /\
       is_pool (mem s') p g (with_cleanup (n, NULL, d) v)).
Proof.
  intros Hp Hext Hnew Hsp [b Hsn] Hdata. pose proof Hp as [(l & c & Hh & Hl & Hc) Hnd].
  pose proof Hext as [Hfree Hsame]. rewrite Hh in Hsp.
  assert (p <> n) as Hpn by (intros ->; rewrite Hfree in Hh by set_solver; done).
  apply runs_bind. eapply runs_load_pool; [exact Hsp|].
  apply runs_bind. eapply runs_store; [exact Hsn|]. cbn [mem calls oracle].
  apply runs_bind. eapply runs_store; [cbn [mem]; by look|]. cbn [mem calls oracle].
  apply runs_ret. cbn [mem calls]. split; [done|]. split; [done|].
  match goal with |- extends _ ?m' _ _ /\ _ => set (m2 := m') end.
  assert (forall a, a <> p -> a <> n -> m2 !! a = mem s !! a) as Hm2 by (intros; unfold m2; by look).
  assert (extends m m2 (n :: option_list d) p) as Hext2.
  { split; [done|]. intros a Ha. rewrite Hm2; [apply Hsame; set_solver|set_solver..]. }
  split; [done|]. destruct (extends_lists _ _ _ _ _ _ _ _ Hp Hext2 Hl Hc) as [Hl' Hc'].
  eapply pool_extend; [exact Hp|exact Hext2|done| |by unfold m2; look|exact Hl'|].
  - etrans; [|apply (Permutation_middle (n :: option_list d))].
    apply perm_skip. exact (Permutation_app_swap_app _ (n :: option_list d) _).
  - cbn [with_cleanup cleans cleanup_list]. split; [done|]. exists c.
    split_and!; [by unfold m2; look| |done].
    intros a ->. destruct (Hdata a eq_refl) as [bytes Hb]. exists bytes.
    assert (a <> p) by (intros ->; rewrite Hfree in Hh by set_solver; done).
    assert (a <> n) by (apply list.NoDup_cons in Hnew as [Hni _]; set_solver). by rewrite Hm2.
Qed.

Lemma set_handler_spec p g v n h0 d h s :
  is_pool (mem s) p g (with_cleanup (n, h0, d) v) ->
  runs (set_handler (Some n) h) s (fun _ s' => calls s' = calls s /\
    (forall a, a <> n -> mem s' !! a = mem s !! a) /\
    is_pool (mem s') p g (with_cleanup (n, Some h, d) v)).
Proof.
  intros [(l & c & Hh & Hl & Hc) Hnd]. pose proof Hnd as Hnd'. unfold pool_blocks in Hnd'.
  cbn in Hnd'. apply list.NoDup_cons in Hnd' as [Hpn Hnd'].
  apply NoDup_app in Hnd' as (_ & Hdis & [Hn Hnd']%list.NoDup_cons).
  cbn [with_cleanup cleans allocs cleanup_list] in Hl, Hc.
  destruct Hc as [-> (next & En & Hd & Hc)].
  apply runs_bind. eapply runs_load_cleanup; [exact En|].
  eapply runs_store; [exact En|]. cbn [mem calls oracle]. split; [done|].
  assert (forall a, a <> n -> <[n := B_cleanup (Some h) d next]> (mem s) !! a = mem s !! a) as Hm
    by (intros; by look).
  split; [exact Hm|]. split; [|exact Hnd]. exists l, (Some n).
  split; [rewrite Hm; [done|set_solver]|]. split.
  - eapply large_frame; [|exact Hl]. intros a Ha. apply Hm. intros ->.
    apply (Hdis n Ha). by left.
  - cbn [with_cleanup cleans cleanup_list]. split; [done|]. exists next.
    split_and!; [by look| |].
    + intros a ->. rewrite Hm by set_solver. by apply Hd.
    + eapply cleanup_frame; [|exact Hc]. intros a Ha. apply Hm. set_solver.
Qed.

(** NULL and nothing changed, or a new cleanup without handler, with a data
    block when one was asked for. *)
Definition cleanup_added (p : loc) (g : ptr unit) (v : pool_view) (size : Z)
    (s : state) (r : ptr loc) (s' : state) : Prop :=
  calls s' = calls s /\
  match r with
  | NULL => mem s' = mem s
  | Some c => exists d, (size <= 0 <-> d = NULL) /\
      extends (mem s) (mem s') (c :: option_list d) p /\
      is_pool (mem s') p g (with_cleanup (c, NULL, d) v)
  end.

Lemma cleanup_add_spec p g v size s : is_pool (mem s) p g v ->
  runs (ngx_pool_cleanup_add (Some p) size) s (cleanup_added p g v size s).
Proof.
  intros Hp. pose proof Hp as [(l & c & Hh & _) _]. unfold ngx_pool_cleanup_add.
  apply runs_bind, runs_malloc; [done|]. intros n o1 Hn.
  assert (p <> n) as Hpn by (intros ->; congruence).
  destruct (Z.ltb_spec 0 size) as [Hs|Hs]; cbn [andb].
  - apply runs_bind, runs_malloc; cbn [mem calls nullp].
    + intros o2. apply runs_bind. eapply runs_free; [cbn [mem]; apply lookup_insert_eq|].
      apply runs_ret. split; [done|]. cbn [mem]. by rewrite delete_insert_id.
    + intros d o2 Hd. assert (d <> n) as Hdn by (intros ->; by rewrite lookup_insert_eq in Hd).
      rewrite lookup_insert_ne in Hd by done. assert (p <> d) by (intros ->; congruence).
      eapply runs_mono; [|apply (link_spec p g v n (Some d) (mem s)); cbn [mem calls]; [done|..]].
      * intros r s' (-> & Hc & Hext & Hp'). split; [done|]. exists (Some d). split; [|done].
        split; [intros ?; exfalso; lia|done].
      * split; [intros a Ha; set_solver|]. intros a Ha. by look.
      * repeat constructor; set_solver.
      * by look.
      * look. by eexists.
      * intros a [= <-]. eexists. by look.
  - apply runs_bind, runs_ret. 
    eapply runs_mono; [|apply (link_spec p g v n NULL (mem s)); cbn [mem calls]; [done|..]].
    + intros r s' (-> & Hc & Hext & Hp'). split; [done|]. exists NULL. by split_and!.
    + split; [intros a Ha; set_solver|]. intros a Ha. by look.
    + repeat constructor; set_solver.
    + by look.
    + look. by eexists.
    + done.
Qed.

(** ** Freeing one allocation *)

(** [prev] is the field of block [o] that holds [l]; [K] is the block with
    another value in it. *)
Inductive place_at (m : gmap loc block) : place -> (ptr loc -> block) -> loc -> ptr loc -> Prop :=
  | at_pool p l c g : m !! p = Some (B_pool l c g) ->
      place_at m (pool_large (Some p)) (fun l => B_pool l c g) p l
  | at_large q l a : m !! q = Some (B_large l a) ->
      place_at m (large_next (Some q)) (fun l => B_large l a) q l.

Lemma place_value m prev K o l : place_at m prev K o l -> m !! o = Some (K l).
Proof. by intros []. Qed.

Lemma store_at_spec prev K o l v s (Q : unit -> state -> Prop) :
  place_at (mem s) prev K o l ->
  Q tt (State (<[o := K v]> (mem s)) (calls s) (oracle s)) -> runs (store_at prev v) s Q.
Proof.
  intros [p' l' c g Hp|q l' a Hq] HQ; apply runs_bind.
  - eapply runs_load_pool; [done|]. by eapply runs_store.
  - eapply runs_load_large; [done|]. by eapply runs_store.
Qed.

(** The node of the newest allocation at [p], and the others. *)
Fixpoint take_alloc (p : ptr loc) (xs : list allocation) : option (loc * list allocation) :=
  match xs with
  | [] => None
  | (n, a, b) :: xs =>
      if bool_decide (Some a = p) then Some (n, xs)
      else '(n', xs') ← take_alloc p xs; Some (n', (n, a, b) :: xs')
  end.

(** What freeing leaves of the list. *)
Definition freed (m m' : gmap loc block) (p : ptr loc) (xs : list allocation)
    (K : ptr loc -> block) (o : loc) (rc : ngx_rc) : Prop :=
  match take_alloc p xs with
  | None => rc = NGX_ERROR /\ m' = m
  | Some (n, xs') => rc = NGX_OK /\ m' !! n = None /\ p ≫= (fun a => m' !! a) = None /\
      (exists l', m' !! o = Some (K l') /\ large_list m' l' xs') /\
      (forall b, b ∉ o :: (xs ≫= alloc_blocks) -> m' !! b = m !! b)
  end.

Lemma pfree_loop_spec p xs : forall fuel prev K o l s,
  place_at (mem s) prev K o l -> large_list (mem s) l xs ->
  NoDup (o :: (xs ≫= alloc_blocks)) -> (length xs <= fuel)%nat ->
  runs (pfree_loop fuel prev l p) s (fun rc s' =>
    calls s' = calls s /\ freed (mem s) (mem s') p xs K o rc).
Proof.
  induction xs as [|[[n a] bytes] xs IH]; intros fuel prev K o l s Hat Hl Hnd Hfuel.
  { cbn [large_list] in Hl. subst l. by destruct fuel. }
  cbn [large_list] in Hl. destruct Hl as [-> (next & Hn & Ha & Hl)].
  destruct fuel as [|fuel]; [simpl in Hfuel; lia|]. cbn [length] in Hfuel.
  cbn in Hnd. apply list.NoDup_cons in Hnd as [Ho Hnd]. pose proof Hnd as Hnd'.
  apply list.NoDup_cons in Hnd as [Hna [Hax Hnd]%list.NoDup_cons].
  cbn [pfree_loop]. apply runs_bind. eapply runs_load_large; [exact Hn|].
  unfold freed. cbn [take_alloc]. case_bool_decide as E; [subst p|].
  - apply runs_bind. eapply store_at_spec; [exact Hat|].
    apply runs_bind. eapply runs_free; [cbn [mem]; look; exact Ha|]. cbn [mem calls oracle].
    apply runs_bind. eapply runs_free; [cbn [mem]; look; exact Hn|]. cbn [mem calls oracle].
    apply runs_ret. cbn [mem calls]. split_and!; [done|done|by look|by cbn; look| |].
    + exists next. split; [by look|]. eapply large_frame; [|exact Hl]. intros b Hb. by look.
    + intros b Hb. cbn in Hb. by look.
  - eapply runs_mono; [|eapply (IH fuel _ (fun l => B_large l (Some a)) n);
      [by constructor|exact Hl|constructor; set_solver|lia]].
    intros rc s' [Hc Hf]. split; [done|]. unfold freed in Hf.
    destruct (take_alloc p xs) as [[n' xs']|]; cbn [mbind option_bind]; [|done].
    destruct Hf as (-> & Hn' & Hp' & (l' & Hl' & Hxs') & Hsame). split_and!; [done..| |].
    + exists (Some n). rewrite Hsame by set_solver. split; [by eapply place_value|].
      cbn [large_list]. split; [done|]. exists l'. rewrite (Hsame a) by set_solver. done.
    + intros b Hb. apply Hsame. cbn in Hb. set_solver.
Qed.

(** A list walk never takes more turns than there are blocks. *)
Lemma enough_fuel (m : gmap loc block) (l : list loc) :
  NoDup l -> (forall a, a ∈ l -> is_Some (m !! a)) -> (length l <= size m)%nat.
Proof.
  intros Hnd Hl. rewrite <- (size_list_to_set (C := gset loc) l) by done.
  rewrite <- (size_dom (D := gset loc) m). apply subseteq_size. intros a Ha%elem_of_list_to_set.
  by apply elem_of_dom, Hl.
Qed.

Lemma blocks_length p v :
  (length (allocs v) <= length (pool_blocks p v) /\ length (cleans v) <= length (pool_blocks p v))%nat.
Proof.
  unfold pool_blocks. cbn [length]. rewrite length_app.
  assert (length (allocs v) <= length (allocs v ≫= alloc_blocks))%nat
    by (induction (allocs v) as [|x l IH]; [done|]; rewrite bind_cons, length_app; cbn; lia).
  assert (length (cleans v) <= length (cleans v ≫= cleanup_blocks))%nat
    by (induction (cleans v) as [|y l IH]; [done|]; rewrite bind_cons, length_app; cbn; lia).
  lia.
Qed.

Lemma pool_fuel m p g v : is_pool m p g v ->
  (length (allocs v) <= size m /\ length (cleans v) <= size m)%nat.
Proof.
  intros Hp. pose proof (blocks_length p v).
  pose proof (enough_fuel m (pool_blocks p v) (ip_distinct _ _ _ _ Hp)
    (fun a => pool_live m p g v a Hp)). lia.
Qed.

Lemma take_alloc_perm p xs n xs' : take_alloc p xs = Some (n, xs') ->
  exists a b, p = Some a /\ xs ≡ₚ (n, a, b) :: xs'.
Proof.
  revert n xs'. induction xs as [|[[m a] b] xs IH]; intros n xs'; cbn [take_alloc]; [done|].
  case_bool_decide as E; [intros [= <- <-]; by exists a, b|].
  intros ([n' ys] & Ht & [= <- <-])%bind_Some. destruct (IH _ _ Ht) as (a' & b' & -> & Hperm).
  exists a', b'. split; [done|]. rewrite Hperm. apply perm_swap.
Qed.

(** The view after freeing. *)
Definition without_alloc (xs : list allocation) (v : pool_view) : pool_view :=
  {| allocs := xs; cleans := cleans v |}.

(** NGX_OK exactly for an allocation of the pool, which is gone with its
    node; otherwise nothing changed. *)
Definition pfreed (p : loc) (g : ptr unit) (v : pool_view) (a : loc) (s : state) (rc : ngx_rc)
    (s' : state) : Prop :=
  calls s' = calls s /\
  match take_alloc (Some a) (allocs v) with
  | None => rc = NGX_ERROR /\ mem s' = mem s
  | Some (n, xs) => rc = NGX_OK /\ mem s' !! n = None /\ mem s' !! a = None /\
      (forall b, b ∉ pool_blocks p v -> mem s' !! b = mem s !! b) /\
      is_pool (mem s') p g (without_alloc xs v)
  end.

Lemma pfree_spec p g v a s : is_pool (mem s) p g v ->
  runs (ngx_pfree (Some p) (Some a)) s (pfreed p g v a s).
Proof.
  intros Hp. pose proof Hp as [(l & c & Hh & Hl & Hc) Hnd]. unfold ngx_pfree.
  apply runs_bind. unfold walk_fuel, runs at 1. apply runs_bind. eapply runs_load_pool; [exact Hh|].
  pose proof Hnd as Hnd'. unfold pool_blocks in Hnd'. rewrite app_comm_cons in Hnd'.
  apply NoDup_app in Hnd' as (Hndl & Hdis & Hndc).
  eapply runs_mono; [|eapply (pfree_loop_spec (Some a) (allocs v)); [by constructor|exact Hl|done|];
    by destruct (pool_fuel _ _ _ _ Hp)].
  intros rc s' [Hcalls Hf]. split; [done|]. unfold freed in Hf.
  destruct (take_alloc (Some a) (allocs v)) as [[n xs]|] eqn:Ht; [|done].
  destruct Hf as (-> & Hn & Ha & (l' & Hl' & Hxs) & Hsame). cbn in Ha.
  split_and!; [done..| |].
  - intros b Hb. apply Hsame. unfold pool_blocks in Hb. set_solver.
  - split.
    + exists l', c. split_and!; [done..|]. eapply cleanup_frame; [|exact Hc].
      intros b Hb. apply Hsame. intros Hin. by apply (Hdis b Hin).
    + apply take_alloc_perm in Ht as (a' & b & _ & Hperm). unfold pool_blocks in *.
      cbn [without_alloc allocs cleans]. rewrite Hperm in Hnd. cbn in Hnd.
      apply list.NoDup_cons in Hnd as [Hp1 Hnd]. apply list.NoDup_cons in Hnd as [_ Hnd].
      apply list.NoDup_cons in Hnd as [_ Hnd]. constructor; [set_solver|done].
Qed.
