(* ===== verification/PoolLife.v ===== *)
(** * A pool from its creation to its destruction

    ngx_destroy_pool frees every block of the pool and runs the cleanup
    handlers; over a whole life nothing else is touched, every cleanup that was
    granted runs, and nothing leaks but the data of the cleanups. *)

From stdpp Require Import fin_maps fin_map_dom.
From S2P Require Import Prelude Pool.
#[global] Open Scope Z_scope.

(** ** Destroying a pool *)

(** The handlers to call, with their data. *)
Definition handlers (ys : list cleanup) : list (handler * ptr loc) :=
  omap (fun y => (fun h => (h, y.2)) <$> y.1.2) ys.

Definition cleanup_nodes (ys : list cleanup) : list loc := (fun y => y.1.1) <$> ys.

(** [l] is freed, the rest kept. *)
Definition gone (m m' : gmap loc block) (l : list loc) : Prop :=
  forall a, m' !! a = if decide (a ∈ l) then None else m !! a.

Lemma gone_in m m' l a : gone m m' l -> a ∈ l -> m' !! a = None.
Proof. intros Hg Ha. rewrite (Hg a). by rewrite decide_True. Qed.
Lemma gone_out m m' l a : gone m m' l -> a ∉ l -> m' !! a = m !! a.
Proof. intros Hg Ha. rewrite (Hg a). by rewrite decide_False. Qed.

Lemma gone_iff m m' l :
  (forall a, a ∈ l -> m' !! a = None) -> (forall a, a ∉ l -> m' !! a = m !! a) -> gone m m' l.
Proof. intros H1 H2 a. destruct (decide (a ∈ l)); auto. Qed.

Lemma gone_nil m : gone m m [].
Proof. apply gone_iff; set_solver. Qed.

Lemma gone_app m m1 m2 l1 l2 : gone m m1 l1 -> gone m1 m2 l2 -> gone m m2 (l1 ++ l2).
Proof.
  intros H1 H2. apply gone_iff.
  - intros a Ha. destruct (decide (a ∈ l2)) as [|Hn]; [by eapply gone_in|].
    rewrite (gone_out _ _ _ _ H2 Hn). eapply gone_in; [exact H1|]. set_solver.
  - intros a Ha. rewrite (gone_out _ _ _ _ H2), (gone_out _ _ _ _ H1); set_solver.
Qed.

Lemma gone_delete m a : gone m (delete a m) [a].
Proof. apply gone_iff; intros b Hb; [apply list_elem_of_singleton in Hb as ->|]; by look. Qed.

Lemma destroy_cleanups_spec ys : forall fuel c s,
  cleanup_list (mem s) c ys -> NoDup (ys ≫= cleanup_blocks) -> (length ys <= fuel)%nat ->
  runs (destroy_cleanups fuel c) s (fun _ s' =>
    calls s' = calls s ++ handlers ys /\ gone (mem s) (mem s') (cleanup_nodes ys)).
Proof.
  induction ys as [|[[n h] d] ys IH]; intros fuel c s Hc Hnd Hfuel.
  { cbn [cleanup_list] in Hc. subst c. destruct fuel; (split; [by rewrite app_nil_r|apply gone_nil]). }
  cbn [cleanup_list] in Hc. destruct Hc as [-> (next & Hn & Hd & Hc)].
  destruct fuel as [|fuel]; [simpl in Hfuel; lia|]. cbn [length] in Hfuel.
  rewrite bind_cons in Hnd. apply NoDup_app in Hnd as ([Hni _]%list.NoDup_cons & Hdis & Hnd).
  cbn [destroy_cleanups]. apply runs_bind. eapply runs_load_cleanup; [exact Hn|].
  set (call := match h with Some h => [(h, d)] | None => [] end).
  apply runs_bind, (runs_mono _ _ (fun _ s' => calls s' = calls s ++ call /\ mem s' = mem s)).
  2:{ destruct h; (split; [|done]); [done|]. cbn. by rewrite app_nil_r. }
  intros _ s1 [Hcalls Hmem]. apply runs_bind. eapply runs_free; [rewrite Hmem; exact Hn|].
  rewrite Hmem. eapply runs_mono; [|apply IH; [|done|lia]].
  - intros _ s' [Hc' Hg]. cbn [mem calls] in *. split.
    + rewrite Hc', Hcalls, <- app_assoc. f_equal. by destruct h.
    + apply (gone_app _ _ _ [n] (cleanup_nodes ys) (gone_delete _ _) Hg).
  - cbn [mem]. eapply cleanup_frame; [|exact Hc]. intros a Ha.
    rewrite lookup_delete_ne; [done|]. intros ->. apply (Hdis a); [by left|done].
Qed.

Lemma destroy_larges_spec xs : forall fuel l s,
  large_list (mem s) l xs -> NoDup (xs ≫= alloc_blocks) -> (length xs <= fuel)%nat ->
  runs (destroy_larges fuel l) s (fun _ s' =>
    calls s' = calls s /\ gone (mem s) (mem s') (xs ≫= alloc_blocks)).
Proof.
  induction xs as [|[[n a] b] xs IH]; intros fuel l s Hl Hnd Hfuel.
  { cbn [large_list] in Hl. subst l. destruct fuel; (split; [done|apply gone_nil]). }
  cbn [large_list] in Hl. destruct Hl as [-> (next & Hn & Ha & Hl)].
  destruct fuel as [|fuel]; [simpl in Hfuel; lia|]. cbn [length] in Hfuel.
  cbn in Hnd. apply list.NoDup_cons in Hnd as [Hni [Hai Hnd]%list.NoDup_cons].
  cbn [destroy_larges]. apply runs_bind. eapply runs_load_large; [exact Hn|].
  apply runs_bind. eapply runs_free; [exact Ha|].
  apply runs_bind. eapply runs_free; [cbn [mem]; look; exact Hn|]. cbn [mem calls oracle].
  eapply runs_mono; [|apply IH; [|done|lia]].
  - intros _ s' [Hc Hg]. cbn [mem calls] in *. split; [done|].
    assert (gone (mem s) (mem s') ([a; n] ++ (xs ≫= alloc_blocks))) as H2
      by exact (gone_app _ _ _ _ _ (gone_app _ _ _ [a] [n] (gone_delete _ _) (gone_delete _ _)) Hg).
    intros c. rewrite (H2 c). apply decide_ext. cbn. set_solver.
  - cbn [mem]. eapply large_frame; [|exact Hl]. intros c Hc'. by look.
Qed.

(** Everything but the data of the cleanups. *)
Definition owned (p : loc) (v : pool_view) : list loc :=
  cleanup_nodes (cleans v) ++ (allocs v ≫= alloc_blocks) ++ [p].

Lemma cleanup_nodes_in ys a : a ∈ cleanup_nodes ys -> a ∈ (ys ≫= cleanup_blocks).
Proof.
  intros ([[n h] d] & -> & Hy)%list_elem_of_fmap. apply list_elem_of_bind.
  eexists; split; [|exact Hy]. by left.
Qed.

Lemma destroy_pool_spec p g v s : is_pool (mem s) p g v ->
  runs (ngx_destroy_pool (Some p)) s (fun _ s' =>
    calls s' = calls s ++ handlers (cleans v) /\ gone (mem s) (mem s') (owned p v)).
Proof.
  intros Hp. pose proof Hp as [(l & c & Hh & Hl & Hc) Hnd]. unfold ngx_destroy_pool.
  destruct (pool_fuel _ _ _ _ Hp) as [Hf1 Hf2].
  apply list.NoDup_cons in Hnd as [Hpn (Hndl & Hdis & Hndc)%NoDup_app].
  apply runs_bind. unfold walk_fuel, runs at 1.
  apply runs_bind. eapply runs_load_pool; [exact Hh|].
  apply runs_bind. eapply runs_mono; [|by apply destroy_cleanups_spec].
  intros _ s1 [Hc1 Hg1].
  assert (forall a, a ∉ (cleans v ≫= cleanup_blocks) -> mem s1 !! a = mem s !! a) as Hm1.
  { intros a Ha. eapply gone_out; [exact Hg1|]. intros Hin%cleanup_nodes_in. done. }
  assert (mem s1 !! p = Some (B_pool l c g)) as Hh1 by (rewrite Hm1; [done|set_solver]).
  apply runs_bind. eapply runs_load_pool; [exact Hh1|].
  apply runs_bind. eapply runs_mono; [|apply (destroy_larges_spec (allocs v)); [|done|done]].
  2:{ eapply large_frame; [|exact Hl]. intros a Ha. apply Hm1. intros Hin. by apply (Hdis a). }
  intros _ s2 [Hc2 Hg2]. eapply runs_free.
  { rewrite (gone_out _ _ _ _ Hg2); [exact Hh1|]. set_solver. }
  cbn [calls mem]. split; [by rewrite Hc2, Hc1|].
  exact (gone_app _ _ _ _ _ Hg1 (gone_app _ _ _ _ _ Hg2 (gone_delete _ _))).
Qed.

(** ** The life of a pool *)

(** What the code between creating and destroying a pool asks of it. *)
Inductive pool_op :=
  | O_palloc (size : Z)
  | O_pcalloc (size : Z)
  | O_pfree (a : loc)
  | O_cleanup (size : Z) (h : handler).

(** What a caller of ngx_pool_cleanup_add holds afterwards: nothing when the
    call returned NULL, else the handler it has set and the data it reads in
    the node. *)
Abbreviation reply := (option (handler * ptr loc)).

Definition add_cleanup (pool : ptr loc) (size : Z) (h : handler) : M reply :=
  c ← ngx_pool_cleanup_add pool size;
  match c with
  | None => mret None
  | Some _ =>
      _ ← set_handler c h;
      '(_, data, _) ← load_cleanup c;
      mret (Some (h, data))
  end.

Definition run_op (pool : ptr loc) (o : pool_op) : M (list reply) :=
  match o with
  | O_palloc size => _ ← ngx_palloc pool size; mret []
  | O_pcalloc size => _ ← ngx_pcalloc pool size; mret []
  | O_pfree a => _ ← ngx_pfree pool (Some a); mret []
  | O_cleanup size h => r ← add_cleanup pool size h; mret [r]
  end.

Fixpoint run_ops (pool : ptr loc) (ops : list pool_op) : M (list reply) :=
  match ops with
  | [] => mret []
  | o :: ops => rs ← run_op pool o; rs' ← run_ops pool ops; mret (rs ++ rs')
  end.

(** The replies to the cleanup requests, none when there is no pool. *)
Definition pool_life (log : ptr unit) (ops : list pool_op) : M (option (list reply)) :=
  pool ← ngx_create_pool 4096 log;
  match pool with
  | None => mret None
  | Some _ => rs ← run_ops pool ops; _ ← ngx_destroy_pool pool; mret (Some rs)
  end.

(** The cleanups asked for. *)
Definition asked (ops : list pool_op) : list (Z * handler) :=
  omap (fun o => match o with O_cleanup size h => Some (size, h) | _ => None end) ops.

(** A request is refused, or its handler is set, with data exactly when some
    was asked for. *)
Definition answers (request : Z * handler) (r : reply) : Prop :=
  match r with
  | None => True
  | Some (h, data) => h = request.2 /\ (request.1 <= 0 <-> data = NULL)
  end.

(** The requests that were not refused, and the data blocks handed out. *)
Definition granted (rs : list reply) : list (handler * ptr loc) := omap id rs.
Definition data_of (ys : list (handler * ptr loc)) : list loc := omap snd ys.

(** A pool over a store that was [m0]: it holds new blocks only. *)
Record living (m0 : gmap loc block) (p : loc) (g : ptr unit) (v : pool_view) (m : gmap loc block)
    : Prop := {
  li_pool : is_pool m p g v;
  li_new : forall a, a ∈ pool_blocks p v -> m0 !! a = None;
  li_rest : forall a, a ∉ pool_blocks p v -> m !! a = m0 !! a;
}.

Lemma living_extends m0 p g v v' m m' new :
  living m0 p g v m -> extends m m' new p -> is_pool m' p g v' ->
  pool_blocks p v' ≡ₚ new ++ pool_blocks p v -> living m0 p g v' m'.
Proof.
  intros [Hp Hnew Hrest] [Hfree Hsame] Hp' Hperm.
  assert (forall a, a ∈ new -> m0 !! a = None) as Hn.
  { intros a Ha. rewrite <- Hrest; [by apply Hfree|]. by eapply fresh_block, Hfree. }
  split; [done| |].
  - intros a. rewrite Hperm, elem_of_app. intros [Ha|Ha]; [by apply Hn|by apply Hnew].
  - intros a. rewrite Hperm, not_elem_of_app. intros [Ha Hb].
    rewrite Hsame, Hrest; [done..|]. apply not_elem_of_cons. split; [|done].
    intros ->. apply Hb. by left.
Qed.

Lemma alloc_perm p x v : pool_blocks p (with_alloc x v) ≡ₚ alloc_blocks x ++ pool_blocks p v.
Proof. apply (Permutation_middle (alloc_blocks x)). Qed.

Lemma cleanup_perm p y v : pool_blocks p (with_cleanup y v) ≡ₚ cleanup_blocks y ++ pool_blocks p v.
Proof.
  etrans; [|apply (Permutation_middle (cleanup_blocks y))].
  apply perm_skip. exact (Permutation_app_swap_app _ (cleanup_blocks y) _).
Qed.

Definition data_blocks (ys : list cleanup) : list loc := ys ≫= fun y => option_list y.2.

(** The pool's cleanups, once [ys] more have been granted. *)
Definition holds (v v' : pool_view) (ys : list (handler * ptr loc)) : Prop :=
  handlers (cleans v') = reverse ys ++ handlers (cleans v) /\
  data_blocks (cleans v') = data_of (reverse ys) ++ data_blocks (cleans v).

Lemma holds_same v v' : cleans v' = cleans v -> holds v v' [].
Proof. intros E. unfold holds. by rewrite E. Qed.

Lemma holds_one v n h d : holds v (with_cleanup (n, Some h, d) v) [(h, d)].
Proof. unfold holds, data_blocks, data_of. cbn. by destruct d. Qed.

Lemma holds_app v v1 v2 ys1 ys2 : holds v v1 ys1 -> holds v1 v2 ys2 -> holds v v2 (ys1 ++ ys2).
Proof.
  intros [Hh1 Hd1] [Hh2 Hd2]. unfold holds, data_of in *.
  by rewrite Hh2, Hh1, Hd2, Hd1, reverse_app, omap_app, <- !app_assoc.
Qed.

Lemma data_reverse ys a : a ∈ data_of (reverse ys) <-> a ∈ data_of ys.
Proof. unfold data_of. by rewrite (reverse_Permutation ys). Qed.

(** Without a positive size there is no data. *)
Lemma no_data requests rs :
  Forall2 answers requests rs -> Forall (fun r => r.1 <= 0) requests -> data_of (granted rs) = [].
Proof.
  induction 1 as [|r [[h d]|] requests rs Hr _ IH]; [done|..]; intros [Hz Hrs]%Forall_cons_1;
    [|by apply IH].
  apply Hr in Hz as ->. by apply IH.
Qed.

(** What an operation leaves: the same handlers called, a pool that holds
    what was granted. *)
Definition op_done m0 p g v s (requests : list (Z * handler)) (rs : list reply) (s' : state) : Prop :=
  calls s' = calls s /\ Forall2 answers requests rs /\ exists v',
    living m0 p g v' (mem s') /\ holds v v' (granted rs).

Lemma add_cleanup_living m0 p g v size h s : living m0 p g v (mem s) ->
  runs (add_cleanup (Some p) size h) s (fun r s' => op_done m0 p g v s [(size, h)] [r] s').
Proof.
  intros Hv. pose proof (li_pool _ _ _ _ _ Hv) as Hp. unfold op_done, add_cleanup.
  apply runs_bind. eapply runs_mono; [|by apply cleanup_add_spec]. intros [c|] s1 [Hc Hpost].
  2:{ split; [done|]. split; [by repeat constructor|]. exists v. rewrite Hpost.
      split; [done|by apply holds_same]. }
  destruct Hpost as (d & Hd & Hext & Hp').
  apply runs_bind. eapply runs_mono; [|by eapply set_handler_spec]. intros _ s2 (Hc2 & Hm2 & Hp2).
  pose proof Hp2 as [(l & c' & Hh & Hl & Hcl) _]. cbn [with_cleanup cleans cleanup_list] in Hcl.
  destruct Hcl as [-> (next & En & _)].
  apply runs_bind. eapply runs_load_cleanup; [exact En|]. apply runs_ret.
  split; [congruence|]. split; [constructor; [done|constructor]|].
  exists (with_cleanup (c, Some h, d) v). split; [|apply holds_one].
  eapply living_extends; [exact Hv| |exact Hp2|apply cleanup_perm].
  destruct Hext as [Hfree Hsame]. split; [done|]. intros a Ha. rewrite Hm2; [by apply Hsame|set_solver].
Qed.

Lemma pfree_living m0 p g v a s : living m0 p g v (mem s) ->
  runs (ngx_pfree (Some p) (Some a)) s (fun _ s' => op_done m0 p g v s [] [] s').
Proof.
  intros Hv. pose proof (li_pool _ _ _ _ _ Hv) as Hp.
  eapply runs_mono; [|by apply pfree_spec]. intros rc s1 [Hc Hpost]. split; [done|]. split; [done|].
  destruct (take_alloc (Some a) (allocs v)) as [[n xs]|] eqn:Ht.
  2:{ destruct Hpost as [_ ->]. exists v. split; [done|by apply holds_same]. }
  destruct Hpost as (_ & Hn & Ha & Hsame & Hp'). exists (without_alloc xs v).
  split; [|by apply holds_same].
  apply take_alloc_perm in Ht as (a' & b & [= <-] & Hperm).
  assert (forall c, c ∈ pool_blocks p v <-> c ∈ [n; a] \/ c ∈ pool_blocks p (without_alloc xs v)) as Hin.
  { intros c. unfold pool_blocks. cbn [without_alloc allocs cleans]. rewrite Hperm. cbn. set_solver. }
  split; [done|intros c Hc'; apply (li_new _ _ _ _ _ Hv), Hin; by right|].
  intros c Hc'. destruct (decide (c ∈ pool_blocks p v)) as [Hold|Hold].
  - rewrite (li_new _ _ _ _ _ Hv c Hold). apply Hin in Hold as [Hold|]; [|done].
    apply elem_of_cons in Hold as [->| ->%list_elem_of_singleton]; done.
  - rewrite Hsame by done. by apply Hv.
Qed.

Lemma allocated_living m0 p g v content s r s' :
  living m0 p g v (mem s) -> allocated p g v content s r s' -> op_done m0 p g v s [] [] s'.
Proof.
  intros Hv [Hc Hpost]. split; [done|]. split; [done|]. destruct r as [a|].
  - destruct Hpost as (n & Hext & Hp'). eexists (with_alloc _ v). split; [|by apply holds_same].
    by eapply living_extends; [exact Hv|exact Hext|exact Hp'|apply alloc_perm].
  - exists v. rewrite Hpost. split; [done|by apply holds_same].
Qed.

Lemma run_op_living m0 p g v o s : living m0 p g v (mem s) ->
  runs (run_op (Some p) o) s (op_done m0 p g v s (asked [o])).
Proof.
  intros Hv. pose proof (li_pool _ _ _ _ _ Hv) as Hp.
  destruct o as [size|size|a|size h]; cbn [run_op]; apply runs_bind.
  - eapply runs_mono; [|by apply palloc_spec]. intros r s1 Hr. by eapply allocated_living.
  - eapply runs_mono; [|by apply pcalloc_spec]. intros r s1 Hr. by eapply allocated_living.
  - eapply runs_mono; [|by apply pfree_living]. done.
  - eapply runs_mono; [|by apply add_cleanup_living]. done.
Qed.

Lemma run_ops_living m0 p g ops : forall v s, living m0 p g v (mem s) ->
  runs (run_ops (Some p) ops) s (op_done m0 p g v s (asked ops)).
Proof.
  induction ops as [|o ops IH]; intros v s Hv.
  { split; [done|]. split; [constructor|]. exists v. split; [done|by apply holds_same]. }
  cbn [run_ops]. apply runs_bind. eapply runs_mono; [|by eapply run_op_living].
  intros rs s1 (Hc1 & Ha1 & v1 & Hv1 & Hr1).
  apply runs_bind. eapply runs_mono; [|by eapply IH].
  intros rs' s2 (Hc2 & Ha2 & v2 & Hv2 & Hr2). apply runs_ret. split; [congruence|].
  assert (asked (o :: ops) = asked [o] ++ asked ops) as -> by (unfold asked; cbn; by destruct o).
  split; [by apply Forall2_app|]. exists v2. split; [done|].
  unfold granted. rewrite omap_app. by eapply holds_app.
Qed.

Lemma create_living log s :
  runs (ngx_create_pool 4096 log) s (fun r s' => calls s' = calls s /\
    match r with
    | NULL => mem s' = mem s
    | Some p => living (mem s) p log {| allocs := []; cleans := [] |} (mem s')
    end).
Proof.
  apply runs_bind, runs_malloc; [done|]. intros a o Ha.
  apply runs_bind. eapply runs_store; [cbn [mem]; by look|]. cbn [mem calls oracle].
  apply runs_ret. split; [done|]. cbn [mem]. split.
  - split; [|apply list.NoDup_singleton]. exists NULL, NULL. split; [by look|done].
  - intros b ->%list_elem_of_singleton. done.
  - intros b Hb. cbn in Hb. by look.
Qed.

Lemma cleanup_split ys : (ys ≫= cleanup_blocks) ≡ₚ cleanup_nodes ys ++ data_blocks ys.
Proof.
  induction ys as [|[[n h] d] ys IH]; [done|]. unfold data_blocks, cleanup_nodes in *.
  rewrite !bind_cons, fmap_cons, IH. cbn [fst snd]. apply perm_skip.
  exact (Permutation_app_swap_app (option_list d) _ _).
Qed.

Lemma pool_split p v : pool_blocks p v ≡ₚ owned p v ++ data_blocks (cleans v).
Proof.
  unfold pool_blocks, owned. rewrite cleanup_split, <- !app_assoc.
  rewrite (Permutation_app_swap_app (allocs v ≫= alloc_blocks) (cleanup_nodes (cleans v))).
  rewrite (Permutation_app_swap_app (allocs v ≫= alloc_blocks) [p]). apply (Permutation_middle _ _ p).
Qed.

(** Which blocks a destroyed pool leaves. *)
Lemma destroyed m0 p g v m m' :
  living m0 p g v m -> gone m m' (owned p v) ->
  (forall a, a ∈ data_blocks (cleans v) -> m0 !! a = None /\ is_Some (m' !! a)) /\
  (forall a, a ∉ data_blocks (cleans v) -> m' !! a = m0 !! a).
Proof.
  intros [Hp Hnew Hrest] Hg. pose proof (ip_distinct _ _ _ _ Hp) as Hnd.
  rewrite pool_split in Hnd. apply NoDup_app in Hnd as (_ & Hdis & _).
  assert (forall a, a ∈ pool_blocks p v <-> a ∈ owned p v \/ a ∈ data_blocks (cleans v)) as Hin
    by (intros a; by rewrite pool_split, elem_of_app).
  split; intros a Ha.
  - assert (a ∈ pool_blocks p v) as Hb by (apply Hin; by right).
    split; [by apply Hnew|]. rewrite (gone_out _ _ _ _ Hg); [by eapply pool_live|].
    intros Ho. by apply (Hdis a).
  - destruct (decide (a ∈ owned p v)) as [Ho|Ho].
    + rewrite (gone_in _ _ _ _ Hg Ho), Hnew; [done|]. apply Hin. by left.
    + rewrite (gone_out _ _ _ _ Hg Ho). apply Hrest. rewrite Hin. tauto.
Qed.

(** ** Enough memory *)

(** The next [k] answers of malloc are distinct free addresses. *)
Definition supply (k : nat) (s : state) : Prop :=
  exists l o, oracle s = (Some <$> l) ++ o /\ length l = k /\ NoDup l /\
    forall a, a ∈ l -> mem s !! a = None.

Lemma supply_le k k' s : (k' <= k)%nat -> supply k s -> supply k' s.
Proof.
  intros Hk (l & o & Ho & Hl & Hnd & Hfree). exists (take k' l), ((Some <$> drop k' l) ++ o).
  split; [by rewrite app_assoc, <- fmap_app, take_drop|]. split; [rewrite length_take; lia|].
  rewrite <- (take_drop k' l) in Hnd, Hfree. apply NoDup_app in Hnd as [Hnd _].
  split; [done|]. intros a Ha. apply Hfree, elem_of_app. by left.
Qed.

(** [m] takes at most [n] answers of malloc and no other address. *)
Definition thrifty {A} (n : nat) (m : M A) : Prop :=
  forall s a s' k, m s = Some (a, s') -> supply (n + k) s -> supply k s'.

Lemma thrifty_bind {A B} n n' (m : M A) (f : A -> M B) :
  thrifty n m -> (forall a, thrifty n' (f a)) -> thrifty (n + n') (m ≫= f).
Proof.
  intros Hm Hf s b s' k. unfold mbind, M_bind. destruct (m s) as [[a s1]|] eqn:E; [|done].
  intros Hb Hs. eapply Hf; [exact Hb|]. eapply Hm; [exact E|]. by rewrite Nat.add_assoc.
Qed.

(** The same when only one of the two allocates. *)
Lemma thrifty_bind_r {A B} n (m : M A) (f : A -> M B) :
  thrifty 0 m -> (forall a, thrifty n (f a)) -> thrifty n (m ≫= f).
Proof. apply thrifty_bind. Qed.

Lemma thrifty_le {A} n n' (m : M A) : (n' <= n)%nat -> thrifty n' m -> thrifty n m.
Proof. intros Hn Hm s a s' k E Hs. eapply Hm; [exact E|]. eapply supply_le; [|exact Hs]. lia. Qed.

(** A step that leaves the oracle alone and allocates nothing. *)
Lemma thrifty_quiet {A} n (m : M A) :
  (forall s a s', m s = Some (a, s') ->
     oracle s' = oracle s /\ forall b, mem s !! b = None -> mem s' !! b = None) ->
  thrifty n m.
Proof.
  intros Hm. apply (thrifty_le _ 0); [lia|]. intros s a s' k E (l & o & Ho & Hl & Hnd & Hfree).
  destruct (Hm _ _ _ E) as [Eo Hmem]. exists l, o. rewrite Eo. split_and!; auto.
Qed.

Lemma thrifty_ret {A} n (a : A) : thrifty n (mret a : M A).
Proof. apply thrifty_quiet. by intros s b s' [= <- <-]. Qed.
Lemma thrifty_undefined {A} n : thrifty n (undefined : M A).
Proof. by intros s a s' k. Qed.

Lemma thrifty_walk n : thrifty n walk_fuel.
Proof. apply thrifty_quiet. by intros s f s' [= _ <-]. Qed.

Lemma thrifty_load n p : thrifty n (load p).
Proof.
  apply thrifty_quiet. intros s b s'. unfold load. destruct (p ≫= _); [|done]. by intros [= _ <-].
Qed.

Lemma thrifty_store n p b : thrifty n (store p b).
Proof.
  apply thrifty_quiet. intros s u s'. unfold store. destruct p as [a|]; [|done].
  destruct (mem s !! a) eqn:E; [|done]. intros [= _ <-]. split; [done|]. intros c Hc. cbn.
  rewrite lookup_insert_ne; [done|]. congruence.
Qed.

Lemma thrifty_free n p : thrifty n (free p).
Proof.
  apply thrifty_quiet. intros s u s'. unfold free. destruct p as [a|]; [|by intros [= _ <-]].
  destruct (mem s !! a) eqn:E; [|done]. intros [= _ <-]. split; [done|]. intros c Hc. cbn.
  by rewrite lookup_delete_None; auto.
Qed.

Lemma malloc_supply size s r s' k : malloc size s = Some (r, s') -> supply (S k) s ->
  is_Some r /\ supply k s'.
Proof.
  intros E ([|a l] & o & Ho & Hl & Hnd & Hfree); [done|]. unfold malloc in E.
  rewrite Ho in E. cbn in E. rewrite Hfree in E by by left. injection E as <- <-.
  split; [done|]. apply list.NoDup_cons in Hnd as [Ha Hnd]. exists l, o. cbn.
  split_and!; [done|by injection Hl|done|]. intros b Hb.
  rewrite lookup_insert_ne; [apply Hfree; by right|]. by intros ->.
Qed.

Lemma thrifty_malloc size : thrifty 1 (malloc size).
Proof. intros s r s' k E Hs. by eapply malloc_supply in E as [_ ?]. Qed.

(** What the operations take, read off their text. *)
Ltac thrift := repeat first
  [ apply thrifty_ret | apply thrifty_undefined | apply thrifty_load | apply thrifty_store
  | apply thrifty_free | apply thrifty_malloc
  | apply (thrifty_bind 1 1); [apply thrifty_malloc|intros ?]
  | apply (thrifty_bind 1 0); [apply thrifty_malloc|intros ?]
  | apply thrifty_bind_r; [|intros ?]
  | match goal with |- thrifty _ (match ?x with _ => _ end) => destruct x end
  | match goal with |- thrifty _ (let '(_, _) := ?x in _) => destruct x end ].

Lemma thrifty_load_pool n p : thrifty n (load_pool p).
Proof. unfold load_pool. thrift. Qed.
Lemma thrifty_load_large n p : thrifty n (load_large p).
Proof. unfold load_large. thrift. Qed.
Lemma thrifty_load_cleanup n p : thrifty n (load_cleanup p).
Proof. unfold load_cleanup. thrift. Qed.

Lemma thrifty_palloc p size : thrifty 2 (ngx_palloc p size).
Proof. unfold ngx_palloc. thrift; apply thrifty_load_pool. Qed.

Lemma thrifty_pcalloc p size : thrifty 2 (ngx_pcalloc p size).
Proof.
  apply (thrifty_bind 2 0); [apply thrifty_palloc|intros [a|]]; unfold ngx_memzero; thrift.
Qed.

Lemma thrifty_pfree_loop p fuel : forall prev l n, thrifty n (pfree_loop fuel prev l p).
Proof.
  induction fuel as [|fuel IH]; intros prev l n; destruct l; cbn [pfree_loop]; thrift;
    unfold store_at; thrift; auto using thrifty_load_large, thrifty_load_pool.
Qed.

Lemma thrifty_pfree n pool p : thrifty n (ngx_pfree pool p).
Proof.
  unfold ngx_pfree. thrift; auto using thrifty_walk, thrifty_load_pool, thrifty_pfree_loop.
Qed.

Lemma thrifty_set_handler n c h : thrifty n (set_handler c h).
Proof. unfold set_handler. thrift. Qed.

Lemma bind_inv {A B} (m : M A) (f : A -> M B) s b s' :
  (m ≫= f) s = Some (b, s') -> exists a s1, m s = Some (a, s1) /\ f a s1 = Some (b, s').
Proof. unfold mbind, M_bind. destruct (m s) as [[a s1]|]; [|done]. eauto. Qed.

(** The last three statements of ngx_pool_cleanup_add. *)
Lemma link_supply p c d s r s' k :
  ('(large, cleanup, log) ← load_pool p;
   _ ← store c (B_cleanup NULL d cleanup);
   _ ← store p (B_pool large c log);
   mret c) s = Some (r, s') -> supply k s -> r = c /\ supply k s'.
Proof.
  intros ([[l cl] g] & s1 & E1 & (u & s2 & E2 & (w & s3 & E3 & [= <- <-])%bind_inv)%bind_inv)%bind_inv Hs.
  split; [done|]. eapply (thrifty_store 0), (thrifty_store 0), (thrifty_load_pool 0); eauto.
Qed.

(** With two answers in supply a cleanup is never refused. *)
Lemma cleanup_add_supply p size s r s' k :
  ngx_pool_cleanup_add (Some p) size s = Some (r, s') -> supply (2 + k) s ->
  is_Some r /\ supply k s'.
Proof.
  intros (c & s1 & Ec & E)%bind_inv Hs.
  destruct (malloc_supply _ _ _ _ _ Ec Hs) as [[a ->] Hs1]. apply bind_inv in E as (d & s2 & Ed & E).
  assert ((0 <? size) && nullp d = false /\ supply k s2) as [Hd Hs2].
  { destruct (0 <? size).
    - by destruct (malloc_supply _ _ _ _ _ Ed Hs1) as [[b ->] Hs2].
    - injection Ed as <- <-. split; [done|]. eapply supply_le; [|exact Hs1]. lia. }
  rewrite Hd in E. by destruct (link_supply _ _ _ _ _ _ _ E Hs2) as [-> ?].
Qed.

Lemma run_op_supply p o s rs s' k :
  run_op (Some p) o s = Some (rs, s') -> supply (2 + k) s ->
  Forall is_Some rs /\ supply k s'.
Proof.
  destruct o as [size|size|a|size h]; cbn [run_op];
    intros (r & s1 & E & [= <- <-])%bind_inv Hs.
  - split; [constructor|]. by eapply (thrifty_palloc (Some p)).
  - split; [constructor|]. by eapply (thrifty_pcalloc (Some p)).
  - split; [constructor|]. by eapply (thrifty_pfree 2).
  - unfold add_cleanup in E. apply bind_inv in E as (c & s2 & Ec & E).
    destruct (cleanup_add_supply _ _ _ _ _ _ Ec Hs) as [[a ->] Hs2].
    apply bind_inv in E as (u & s3 & Eh & E). apply bind_inv in E as ([[h' d] n] & s4 & El & [= <- <-]).
    split; [by repeat constructor|]. eapply (thrifty_load_cleanup 0), (thrifty_set_handler 0); eauto.
Qed.

Lemma run_ops_supply p ops : forall s rs s' k,
  run_ops (Some p) ops s = Some (rs, s') -> supply (2 * length ops + k) s -> Forall is_Some rs.
Proof.
  induction ops as [|o ops IH]; intros s rs s' k; cbn [run_ops length]; [by intros [= <- _]|].
  intros (r & s1 & Eo & (r' & s2 & Es & [= <- <-])%bind_inv)%bind_inv Hs.
  destruct (run_op_supply p o s r s1 (2 * length ops + k) Eo) as [Hr Hs1];
    [eapply supply_le; [|exact Hs]; lia|].
  apply Forall_app. split; [done|]. by eapply IH.
Qed.

(** With malloc answering, the pool exists and no cleanup is refused. *)
Lemma pool_life_supply log ops s out s' :
  pool_life log ops s = Some (out, s') -> supply (2 * length ops + 1) s ->
  exists rs, out = Some rs /\ Forall is_Some rs.
Proof.
  intros (pool & s1 & Ep & E)%bind_inv Hs. rewrite Nat.add_comm in Hs.
  apply bind_inv in Ep as (q & s0 & Em & Ep).
  destruct (malloc_supply _ _ _ _ _ Em Hs) as [[a ->] Hs0].
  apply bind_inv in Ep as (u & s2 & Es & [= <- <-]).
  apply bind_inv in E as (rs & s3 & Er & (u' & s4 & _ & [= <- <-])%bind_inv).
  exists rs. split; [done|]. eapply (run_ops_supply _ _ _ _ _ 0); [exact Er|].
  rewrite Nat.add_0_r. by eapply (thrifty_store 0).
Qed.

(** C38: from creation to destruction, whatever is asked of a pool in between
    and however malloc answers, no freed or foreign block is touched, and when
    the pool cannot be created nothing has changed.  Every cleanup request is
    answered by NULL or by a node with data exactly when a positive size was
    asked; destruction calls the handlers of all the requests that were not
    answered by NULL, each once, with its data, newest first, and gives back
    every block, except that the data of a cleanup is never freed.  When
    malloc does not fail no request is answered by NULL. *)
Theorem pool_lifecycle (log : ptr unit) (ops : list pool_op) (s : state) :
  runs (pool_life log ops) s (fun out s' =>
    match out with
    | None => calls s' = calls s /\ mem s' = mem s
    | Some rs =>
        Forall2 answers (asked ops) rs /\ calls s' = calls s ++ reverse (granted rs) /\
        (forall a, a ∈ data_of (granted rs) -> mem s !! a = None /\ is_Some (mem s' !! a)) /\
        (forall a, a ∉ data_of (granted rs) -> mem s' !! a = mem s !! a) /\
        (Forall (fun r => r.1 <= 0) (asked ops) -> mem s' = mem s)
    end /\
    (supply (2 * length ops + 1) s -> exists rs, out = Some rs /\ Forall is_Some rs)).
Proof.
  eapply (runs_and (pool_life log ops)); [|intros out s'; apply pool_life_supply].
  apply runs_bind. eapply runs_mono; [|apply create_living]. intros [p|] s1 [Hc1 Hs1]; [|done].
  apply runs_bind. eapply runs_mono; [|eapply run_ops_living, Hs1].
  intros rs s2 (Hc2 & Ha & v & Hv & Hh & Hd). cbn [cleans] in Hh, Hd.
  change (handlers []) with (@nil (handler * ptr loc)) in Hh.
  change (data_blocks []) with (@nil loc) in Hd. rewrite app_nil_r in Hh, Hd.
  apply runs_bind. eapply runs_mono; [|eapply destroy_pool_spec, Hv]. intros _ s3 [Hc3 Hg].
  destruct (destroyed _ _ _ _ _ _ Hv Hg) as [Hdata Hrest].
  assert (forall a, a ∈ data_blocks (cleans v) <-> a ∈ data_of (granted rs)) as Hin
    by (intros a; rewrite Hd; apply data_reverse).
  apply runs_ret. split_and!; [done|by rewrite Hc3, Hc2, Hc1, Hh| | |].
  - intros a Hina. by apply Hdata, Hin.
  - intros a Hina. apply Hrest. by rewrite Hin.
  - intros Hall. apply map_eq. intros a. apply Hrest. rewrite Hin.
    rewrite (no_data _ _ Ha Hall). set_solver.
Qed.

(** C39: on a well-formed pool every operation is defined, keeps it
    well-formed, touches no other block and does to its two lists what it
    says: allocations and cleanups are pushed in front, ngx_pcalloc's are
    zeroed, ngx_pfree removes exactly the allocation it is given. *)
Theorem pool_operations_correct p g v s : is_pool (mem s) p g v ->
  (forall size, runs (ngx_palloc (Some p) size) s
     (allocated p g v (replicate (Z.to_nat size) None) s)) /\
  (forall size, runs (ngx_pcalloc (Some p) size) s
     (allocated p g v (replicate (Z.to_nat size) (Some Byte.x00)) s)) /\
  (forall a, runs (ngx_pfree (Some p) (Some a)) s (pfreed p g v a s)) /\
  (forall size, runs (ngx_pool_cleanup_add (Some p) size) s (cleanup_added p g v size s)).
Proof.
  intros Hp. split_and!; intros.
  - by apply palloc_spec.
  - by apply pcalloc_spec.
  - by apply pfree_spec.
  - by apply cleanup_add_spec.
Qed.

(** ** Sample runs *)

(** A store that hands out 1, 2, 3, ... *)
Definition ample : state := State ∅ [] ((fun n => Some (Pos.of_nat n)) <$> seq 1 20).

(** Two allocations, the older one freed, two cleanups: the handlers run
    newest first, and only the data block of the second cleanup is left. *)
Definition sample_ops : list pool_op :=
  [O_palloc 3; O_pcalloc 2; O_cleanup 0 7; O_pfree 2; O_cleanup 8 9]%positive.

Example pool_life_leaves :
  (fun out => (out.1, calls out.2, map_to_list (mem out.2))) <$> pool_life NULL sample_ops ample
  = Some (Some [Some (7%positive, NULL); Some (9%positive, Some 8%positive)],
          [(9%positive, Some 8%positive); (7%positive, NULL)],
          [(8%positive, B_bytes (replicate 8 None))]).
Proof. vm_compute. reflexivity. Qed.

(** A malloc that refuses the node of the first cleanup. *)
Example pool_life_refused :
  (fun out => (out.1, calls out.2)) <$>
    pool_life NULL [O_cleanup 0 7; O_cleanup 0 9]%positive
      (State ∅ [] [Some 1; NULL; Some 2]%positive)
  = Some (Some [None; Some (9%positive, NULL)], [(9%positive, NULL)]).
Proof. vm_compute. reflexivity. Qed.

Example ample_supply : supply (2 * length sample_ops + 1) ample.
Proof.
  exists (Pos.of_nat <$> seq 1 11), ((fun n => Some (Pos.of_nat n)) <$> seq 12 9).
  split_and!; [reflexivity..| |done]. apply (bool_decide_eq_true_1 (NoDup _)). vm_compute. reflexivity.
Qed.

(** A pool with one zeroed allocation, at its node 3 and address 2. *)
Definition one_allocation : state :=
  default ample (snd <$> (ngx_create_pool 4096 NULL ≫= fun p => ngx_pcalloc p 2) ample).
Definition one_view : pool_view :=
  {| allocs := [(3%positive, 2%positive, [Some Byte.x00; Some Byte.x00])]; cleans := [] |}.

Lemma one_is_pool : is_pool (mem one_allocation) 1 NULL one_view.
Proof.
  split.
  - exists (Some 3%positive), NULL. split_and!; [vm_compute; reflexivity| |done].
    split; [done|]. exists NULL. by split_and!; [vm_compute; reflexivity..|].
  - vm_compute. repeat (constructor; [set_solver|]). constructor.
Qed.

Lemma pool_operations_correct_witness :
  fst <$> ngx_pfree (Some 1%positive) (Some 2%positive) one_allocation = Some NGX_OK /\
  fst <$> ngx_pfree (Some 1%positive) (Some 3%positive) one_allocation = Some NGX_ERROR /\
  runs (ngx_pfree (Some 1%positive) (Some 2%positive)) one_allocation
    (pfreed 1 NULL one_view 2 one_allocation).
Proof.
  split_and!; [vm_compute; reflexivity..|].
  apply (pool_operations_correct _ _ _ _ one_is_pool).
Defined.
