(* ===== verification/CompatLog.v ===== *)
(** * Format rewriting of the shim: ngx_compat_log_error of ngx_compat.c

    The shared code logs with nginx's [%uz], [%ui], [%z] and [%i]; the shim
    rewrites them to C99 in a buffer of 512 bytes.  The rewriting is compared
    conversion by conversion with what nginx and C99 take the two formats to
    mean, for the conversions that both have. *)

From S2P Require Import Prelude.
#[global] Open Scope Z_scope.

Definition LOG_BUF : Z := 512.

Abbreviation percent := Byte.x25.

(** [*q++ = ...]; writing outside the buffer is undefined. *)
Definition put (out more : bytes) : option bytes :=
  if zlen out + zlen more <=? LOG_BUF then Some (out ++ more) else None.

(** The loop over the format. *)
Fixpoint rewrite_loop (p : bytes) (out : bytes) : option bytes :=
  if LOG_BUF - 4 <=? zlen out then Some out else
  match p with
  | [] => Some out
  | c :: p =>
      if negb (bool_decide (c = percent)) then out ← put out [c]; rewrite_loop p out else
      match p with
      | Byte.x75 :: Byte.x7a :: p | Byte.x75 :: Byte.x69 :: p =>
          out ← put out (bs "%zu"); rewrite_loop p out
      | Byte.x7a :: p | Byte.x69 :: p => out ← put out (bs "%zd"); rewrite_loop p out
      | [] => Some out
      | d :: p => out ← put out [percent; d]; rewrite_loop p out
      end
  end.

(** The format handed to vfprintf, before its NUL; [Some NULL] when the level
    is not logged. *)
Definition ngx_compat_log_error (level : Z) (log_level : option Z) (fmt : bytes)
    : option (ptr bytes) :=
  match log_level with
  | None => Some NULL
  | Some l =>
      if l <? level then Some NULL else
      buf ← rewrite_loop fmt [];
      _ ← put buf [Byte.x00];
      Some (Some buf)
  end.

(** ** What a format means

    The conversions that nginx's ngx_vslprintf and the C99 printf family both
    have, by the argument they take and what they print of it.  Other
    specifiers ([%V], [%ud], [%l], [%*s], widths, precisions, ...) take other
    arguments, or print them otherwise, on one side than on the other. *)
Inductive token :=
  | T_char (c : byte)
  | T_percent          (* a percent sign, no argument *)
  | T_int              (* int, in decimal *)
  | T_str              (* char *, up to its NUL *)
  | T_chr              (* int, as a character *)
  | T_size             (* size_t or ngx_uint_t, in decimal *)
  | T_ssize.           (* ssize_t or ngx_int_t, in decimal *)

(** The specifiers of one character that mean the same on both sides. *)
Definition common (d : byte) : option token :=
  match d with
  | Byte.x25 => Some T_percent
  | Byte.x64 => Some T_int
  | Byte.x73 => Some T_str
  | Byte.x63 => Some T_chr
  | _ => None
  end.

(** Read as nginx reads it; [None] for a format with anything else in it, a
    [%] at the end included. *)
Fixpoint nginx_tokens (p : bytes) : option (list token) :=
  match p with
  | [] => Some []
  | c :: p =>
      if negb (bool_decide (c = percent)) then cons (T_char c) <$> nginx_tokens p else
      match p with
      | Byte.x75 :: Byte.x7a :: p | Byte.x75 :: Byte.x69 :: p => cons T_size <$> nginx_tokens p
      | Byte.x7a :: p | Byte.x69 :: p => cons T_ssize <$> nginx_tokens p
      | [] => None
      | d :: p => t ← common d; cons t <$> nginx_tokens p
      end
  end.

(** Read as C99 reads it; [None] for a conversion that is incomplete, as
    [%.] or [%z] at the end, or of another kind. *)
Fixpoint c99_tokens (p : bytes) : option (list token) :=
  match p with
  | [] => Some []
  | c :: p =>
      if negb (bool_decide (c = percent)) then cons (T_char c) <$> c99_tokens p else
      match p with
      | Byte.x7a :: Byte.x75 :: p => cons T_size <$> c99_tokens p
      | Byte.x7a :: Byte.x64 :: p => cons T_ssize <$> c99_tokens p
      | [] | Byte.x7a :: _ => None
      | d :: p => t ← common d; cons t <$> c99_tokens p
      end
  end.

(** The formats of the shared sources the tool links
    (src/ngx_auth_webauthn_redis.c). *)
Definition shared_formats : list bytes :=
  [bs "auth_webauthn: redis command failed: %s";
   bs "auth_webauthn: redis error reply: %s";
   bs "auth_webauthn: redis connect to %s:%d failed: %s"].

(** A format none of whose conversions begins with [u], [z] or [i]. *)
Fixpoint untouched (p : bytes) : bool :=
  match p with
  | [] => true
  | c :: p =>
      if negb (bool_decide (c = percent)) then untouched p else
      match p with [] => false | d :: p => bool_decide (d ∉ bs "uzi") && untouched p end
  end.

(** ** Step by step *)

(** What one turn of the loop writes and what it leaves of the format. *)
Definition next_step (p : bytes) : option (bytes * bytes) :=
  match p with
  | [] => None
  | c :: p =>
      if negb (bool_decide (c = percent)) then Some ([c], p) else
      match p with
      | Byte.x75 :: Byte.x7a :: p | Byte.x75 :: Byte.x69 :: p => Some (bs "%zu", p)
      | Byte.x7a :: p | Byte.x69 :: p => Some (bs "%zd", p)
      | [] => None
      | d :: p => Some ([percent; d], p)
      end
  end.

(** The turns, case by case. *)
Inductive step_view : bytes -> option (bytes * bytes) -> Prop :=
  | V_end : step_view [] None
  | V_dangling : step_view [percent] None
  | V_text c p : c <> percent -> step_view (c :: p) (Some ([c], p))
  | V_size e p : e = Byte.x7a \/ e = Byte.x69 ->
      step_view (percent :: Byte.x75 :: e :: p) (Some (bs "%zu", p))
  | V_ssize e p : e = Byte.x7a \/ e = Byte.x69 ->
      step_view (percent :: e :: p) (Some (bs "%zd", p))
  | V_copy d p : d <> Byte.x7a -> d <> Byte.x69 ->
      (d = Byte.x75 -> forall e q, p = e :: q -> e <> Byte.x7a /\ e <> Byte.x69) ->
      step_view (percent :: d :: p) (Some ([percent; d], p)).

Lemma next_view p : step_view p (next_step p).
Proof.
  destruct p as [|c p]; [constructor|]. cbn [next_step].
  case_bool_decide as E; cbn [negb]; [subst c|by constructor].
  destruct p as [|d p]; [constructor|].
  destruct d; try (constructor; by auto).
  destruct p as [|e p]; [by constructor|].
  destruct e; try (constructor; by auto); (constructor; [done..|by intros _ ? ? [= <- _]]).
Qed.

(** A two-character conversion is read alike on both sides. *)
Lemma copy_tokens d p :  d <> Byte.x7a -> d <> Byte.x69 ->
  (d = Byte.x75 -> forall e q, p = e :: q -> e <> Byte.x7a /\ e <> Byte.x69) ->
  nginx_tokens (percent :: d :: p) = (t ← common d; cons t <$> nginx_tokens p) /\
  c99_tokens (percent :: d :: p) = (t ← common d; cons t <$> c99_tokens p).
Proof.
  intros Hz Hi Hu. cbn [nginx_tokens c99_tokens]. rewrite bool_decide_true by done. cbn [negb].
  destruct d; try (split; reflexivity); [done| |done].
  destruct p as [|e q]; [split; reflexivity|]. destruct (Hu eq_refl e q eq_refl).
  destruct e; try (split; reflexivity); done.
Qed.

Lemma loop_next p out :
  rewrite_loop p out =
  if LOG_BUF - 4 <=? zlen out then Some out else
  match next_step p with
  | Some (w, p') => out ← put out w; rewrite_loop p' out
  | None => Some out
  end.
Proof.
  destruct p as [|c p]; [done|]. cbn [rewrite_loop next_step]. destruct (_ <=? _); [done|].
  destruct (negb _); [done|]. destruct p as [|d p]; [done|].
  destruct d; try reflexivity. destruct p as [|e p]; [done|]. by destruct e.
Qed.

(** A turn shortens the format and writes one to three bytes. *)
Lemma next_bounds p w p' : next_step p = Some (w, p') ->
  (length p' < length p)%nat /\ 1 <= zlen w <= 3.
Proof.
  destruct (next_view p); try done; intros [= <- <-]; split; unfold zlen; simpl; lia.
Qed.

(** What is read of a turn: the head of both readings. *)
Lemma next_tokens p w p' all : next_step p = Some (w, p') -> nginx_tokens p = Some all ->
  exists t all', all = t :: all' /\ nginx_tokens p' = Some all' /\
    forall q, c99_tokens (w ++ q) = cons t <$> c99_tokens q.
Proof.
  destruct (next_view p) as [| |c q Hc|e q He|e q He|d q Hz Hi Hu]; try done; intros [= <- <-].
  - cbn [nginx_tokens]. rewrite bool_decide_false by done. cbn [negb].
    destruct (nginx_tokens q) as [l|]; [|done]. intros [= <-]. exists (T_char c), l.
    split_and!; [done..|]. intros r. cbn. by rewrite bool_decide_false by done.
  - destruct He as [-> | ->]; cbn; (destruct (nginx_tokens q) as [l|]; [|done]);
      intros [= <-]; by exists T_size, l.
  - destruct He as [-> | ->]; cbn; (destruct (nginx_tokens q) as [l|]; [|done]);
      intros [= <-]; by exists T_ssize, l.
  - destruct (copy_tokens d q Hz Hi Hu) as [-> _].
    destruct (common d) as [t|] eqn:Et; [|done]. cbn [mbind option_bind].
    destruct (nginx_tokens q) as [l|]; [|done]. intros [= <-]. exists t, l.
    split_and!; [done..|]. intros r. cbn [app].
    destruct (copy_tokens d r) as [_ ->]; [done..| |by rewrite Et]. by intros ->.
Qed.

Lemma next_untouched p w p' : next_step p = Some (w, p') -> untouched p = true ->
  p = w ++ p' /\ untouched p' = true.
Proof.
  destruct (next_view p) as [| |c q Hc|e q He|e q He|d q Hz Hi Hu]; try done; intros [= <- <-].
  - cbn. by rewrite bool_decide_false by done.
  - intros Hu. destruct He as [-> | ->]; vm_compute in Hu; done.
  - cbn [untouched]. rewrite bool_decide_true by done. by intros [_ Hq]%andb_true_iff.
Qed.

Lemma put_fits out w : zlen out < LOG_BUF - 4 -> 1 <= zlen w <= 3 ->
  put out w = Some (out ++ w) /\ zlen (out ++ w) <= LOG_BUF - 2.
Proof.
  intros Hl Hw. unfold put. rewrite zlen_app. unfold LOG_BUF in *.
  destruct (Z.leb_spec (zlen out + zlen w) 512); [split; [done|lia]|lia].
Qed.

(** What the loop adds to the buffer. *)
Definition rewritten (p out w : bytes) : Prop :=
  rewrite_loop p out = Some (out ++ w) /\ zlen (out ++ w) <= LOG_BUF - 2 /\
  (forall all, nginx_tokens p = Some all -> exists ts rest, all = ts ++ rest /\
     c99_tokens w = Some ts /\ (rest = [] \/ LOG_BUF - 4 <= zlen (out ++ w))) /\
  (untouched p = true -> zlen out + zlen p <= LOG_BUF - 4 -> w = p).

(** The loop writes the turns one by one until the format ends or the buffer
    is nearly full. *)
Lemma loop_spec p : forall out, zlen out <= LOG_BUF - 2 -> exists w, rewritten p out w.
Proof.
  induction p as [p IH] using (induction_ltof1 _ (@length byte)). intros out Hout.
  unfold rewritten. rewrite loop_next.
  destruct (Z.leb_spec (LOG_BUF - 4) (zlen out)) as [Hfull|Hroom].
  { exists []. rewrite app_nil_r. split_and!; [done..| |].
    - intros all _. exists [], all. auto.
    - intros _ Hl. destruct p; [done|]. rewrite zlen_cons in Hl. pose proof (zlen_nonneg p). lia. }
  destruct (next_step p) as [[w p']|] eqn:Hs.
  - destruct (next_bounds _ _ _ Hs) as [Hlt Hw]. destruct (put_fits out w Hroom Hw) as [-> Hlen].
    cbn [mbind option_bind]. destruct (IH p' Hlt _ Hlen) as (w' & -> & Hlen' & Ht & Hu).
    exists (w ++ w'). rewrite !app_assoc. split_and!; [done..| |].
    + intros all Hall. destruct (next_tokens _ _ _ _ Hs Hall) as (t & all' & -> & Hall' & Hc).
      destruct (Ht _ Hall') as (ts & rest & -> & Hts & Hrest). exists (t :: ts), rest.
      by rewrite Hc, Hts.
    + intros Hu0 Hl. destruct (next_untouched _ _ _ Hs Hu0) as [-> Hu'].
      rewrite zlen_app in *. f_equal. apply Hu; [done|lia].
  - exists []. rewrite app_nil_r. split_and!; [done|lia| |];
      (destruct (next_view p); try discriminate Hs; [|done]).
    + intros all [= <-]. by exists [], []; auto.
    + done.
Qed.

(** C40: the format handed to vfprintf fits the buffer with its NUL, whatever
    the message.  Of a format made of text and of the conversions that mean
    the same to nginx and to C99, [%uz], [%ui], [%z] and [%i] included, C99
    reads in it, conversion for conversion, what nginx reads in a prefix of
    the message's format, which is all of it unless the result comes within
    four bytes of the buffer's end; so it does for every format of the shared
    sources.  A format with no conversion in [u], [z] or [i] that fits is
    handed over untouched, [%.*s] included. *)
Theorem log_rewrite_correct (level log_level : Z) (fmt : bytes) : level <= log_level ->
  exists buf, ngx_compat_log_error level (Some log_level) fmt = Some (Some buf) /\
    zlen buf < LOG_BUF /\
    (forall all, nginx_tokens fmt = Some all ->
       exists ts rest, all = ts ++ rest /\ c99_tokens buf = Some ts /\
         (rest = [] \/ LOG_BUF - 4 <= zlen buf)) /\
    (fmt ∈ shared_formats -> exists ts, nginx_tokens fmt = Some ts /\ c99_tokens buf = Some ts) /\
    (untouched fmt = true -> zlen fmt <= LOG_BUF - 4 -> buf = fmt).
Proof.
  intros Hl. destruct (loop_spec fmt []) as (w & Hr & Hlen & Ht & Hu); [done|].
  cbn [app] in *. exists w. unfold ngx_compat_log_error.
  destruct (Z.ltb_spec log_level level); [lia|]. rewrite Hr. cbn [mbind option_bind]. unfold put.
  change (zlen [Byte.x00]) with 1. unfold LOG_BUF in *.
  destruct (Z.leb_spec (zlen w + 1) 512); [|lia].
  split_and!; [done|lia|done| |by intros; apply Hu].
  intros Hf. assert (w = fmt) as ->.
  { apply Hu; unfold shared_formats in Hf; rewrite ?list_elem_of_In in Hf; cbn [In] in Hf;
      by destruct Hf as [<- |[<- |[<- |[]]]]. }
  unfold shared_formats in Hf; rewrite ?list_elem_of_In in Hf; cbn [In] in Hf.
  by destruct Hf as [<- |[<- |[<- |[]]]]; eexists.
Qed.

(** A precision such as that of [%.*s] is not kept together with its
    conversion: a message that reaches the end of the buffer inside it is cut
    after its first two bytes, and what is left is no conversion to C99. *)
Theorem log_cuts_conversion (msg : bytes) : Forall (fun c => c <> percent) msg ->
  zlen msg = LOG_BUF - 6 ->
  ngx_compat_log_error 4 (Some 4) (msg ++ bs "%.*s") = Some (Some (msg ++ bs "%.")) /\
  c99_tokens (msg ++ bs "%.") = None.
Proof.
  intros Hm Hlen. split.
  2:{ clear Hlen. induction Hm as [|c msg Hc _ IH]; [reflexivity|].
      cbn [app c99_tokens]. rewrite bool_decide_false by done. cbn [negb]. by rewrite IH. }
  assert (forall msg out, Forall (fun c => c <> percent) msg -> zlen out + zlen msg = LOG_BUF - 6 ->
    rewrite_loop (msg ++ bs "%.*s") out = Some ((out ++ msg) ++ bs "%.")) as Hloop.
  { clear. induction msg as [|c msg IH]; intros out Hm Hl; unfold LOG_BUF in *.
    - rewrite app_nil_r. rewrite zlen_nil in Hl.
      rewrite loop_next. destruct (Z.leb_spec (LOG_BUF - 4) (zlen out)); [unfold LOG_BUF in *; lia|].
      change (next_step ([] ++ bs "%.*s")) with (Some ([percent; Byte.x2e], bs "*s")). cbn beta iota.
      destruct (put_fits out [percent; Byte.x2e]) as [-> _]; [unfold LOG_BUF; lia|done|].
      cbn [mbind option_bind]. rewrite loop_next.
      rewrite zlen_app. destruct (Z.leb_spec (LOG_BUF - 4) (zlen out + zlen [percent; Byte.x2e]));
        [done|]. unfold LOG_BUF in *. change (zlen [percent; Byte.x2e]) with 2 in *. lia.
    - apply Forall_cons_1 in Hm as [Hc Hm]. rewrite zlen_cons in Hl. pose proof (zlen_nonneg msg).
      rewrite loop_next. destruct (Z.leb_spec (LOG_BUF - 4) (zlen out)); [unfold LOG_BUF in *; lia|].
      cbn [app next_step]. rewrite bool_decide_false by done. cbn [negb].
      destruct (put_fits out [c]) as [-> _]; [done..|]. cbn [mbind option_bind].
      rewrite IH; [by rewrite <- !app_assoc|done|]. rewrite zlen_app. change (zlen [c]) with 1. lia. }
  unfold ngx_compat_log_error, put. rewrite Z.ltb_irrefl, Hloop by done. cbn [mbind option_bind app].
  rewrite zlen_app, Hlen. reflexivity.
Qed.

(** Samples: nginx's specifiers, a percent sign, a [%] at the end. *)
Example rewrite_samples :
  rewrite_loop (bs "%uz bytes, %ui, %z, %i, 100%%, %s%") [] = Some (bs "%zu bytes, %zu, %zd, %zd, 100%%, %s").
Proof. vm_compute. reflexivity. Qed.

(** What is outside the common vocabulary, on either side. *)
Example outside_vocabulary :
  nginx_tokens (bs "%V") = None /\ nginx_tokens (bs "%ud") = None /\
  nginx_tokens (bs "%*s") = None /\ c99_tokens (bs "%.") = None /\ c99_tokens (bs "%z") = None.
Proof. done. Qed.

Lemma log_rewrite_correct_witness :
  4 <= 8 /\
  exists buf, ngx_compat_log_error 4 (Some 8) (bs "%uz of %i: %s") = Some (Some buf) /\
    zlen buf < LOG_BUF /\
    exists ts rest, [T_size; T_char Byte.x20; T_char Byte.x6f; T_char Byte.x66; T_char Byte.x20;
      T_ssize; T_char Byte.x3a; T_char Byte.x20; T_str] = ts ++ rest /\
      c99_tokens buf = Some ts /\ (rest = [] \/ LOG_BUF - 4 <= zlen buf).
Proof.
  split; [lia|].
  destruct (log_rewrite_correct 4 8 (bs "%uz of %i: %s") ltac:(lia))
    as (buf & Hrun & Hlen & Htokens & _).
  exists buf. split; [exact Hrun|]. split; [exact Hlen|]. apply Htokens. reflexivity.
Defined.

Lemma log_cuts_conversion_witness :
  ngx_compat_log_error 4 (Some 4) (replicate 506 Byte.x61 ++ bs "%.*s")
  = Some (Some (replicate 506 Byte.x61 ++ bs "%.")) /\
  c99_tokens (replicate 506 Byte.x61 ++ bs "%.") = None.
Proof.
  apply log_cuts_conversion; [|reflexivity]. apply Forall_replicate. done.
Defined.
